(* ===== verification/_CoqProject ===== *)
-Q . S2P
Prelude.v
RustStr.v
Regex.v
Externals.v
Concrete.v
AccountId.v
Errors.v
Types.v
RateLimit.v
Database.v
DbInvariant.v
Subscriptions.v
Notifications.v
Jwt.v
World.v
RelayPublish.v
NotifyMessage.v
Queue.v
Publisher.v
PublisherRaces.v
Siwx.v
Cache.v
Identity.v
RelayError.v
RelayHandlers.v
RelayRequests.v
Webhook.v
RelaySafety.v
Registry.v
Mailbox.v
Router.v
Jobs.v
NotifyV1.v
HttpHandlers.v
SignedCacao.v
Net.v
Config.v
Analytics.v
Metrics.v
Server.v
Entry.v
ServerSafety.v
Totality.v
Isolation.v
PublicServer.v
EndToEnd.v
Answers.v
