(* ===== verification/Prelude.v ===== *)
(** * Verification of the WalletConnect Notify Server

    The server (Rust, src/src/) lets projects send notifications to the wallets
    that subscribed to them.  Wallets talk to it through a relay, which calls a
    webhook with encrypted messages; projects talk to it over HTTP; a pool of
    workers publishes the queued notifications to the relay; periodic jobs renew
    relay subscriptions and expire watchers.  The state is in PostgreSQL, in
    Redis (rate limits, caches) and at the relay.

    ** Conventions

    A fallible function returns an [outcome]: [Ok], [Err] or [Panic]; panics are
    kept apart because nothing in the handlers catches them.  A function with
    effects is a computation [M W E A] in a state [W]: a query is one on the
    database [Db] ([Query]), a handler is one on the [World] ([App]).  Errors do
    not undo effects, except in a [transaction].  Time is in microseconds, a
    [Uuid] is its 128-bit value, text is its UTF-8 bytes.  Machine integers that
    matter are [Z] with their wrap-around ([u64_op], [as_u64]); the build
    profile decides whether overflow panics.

    Third-party code (hashes, ciphers, signatures, JSON and MessagePack codecs,
    URLs, base 64, CACAO verification, the relay's RPC types) is a class of
    operations (Externals and the head of each file) and, where something is
    relied on, a class of laws taken from its documentation.  Concrete and the
    modules named [..Instances] give each class a concrete instance; the
    witnesses evaluate the model there.  What the outside answers, in every
    order and with every fault, is the class [Env] of World.v, a function of
    the number of interactions so far.

    ** Files and sources

    - Prelude: outcomes, the state monad, the rules of [keeps] (what a
      computation leaves alone), [errs_in] (how it can fail), [read_only].
    - RustStr, Regex: the operations of [str] and the patterns the source uses.
    - Externals, Concrete: interfaces of crates and concrete instances.
    - AccountId: model/types/account_id/, utils.rs.  Errors: error.rs.
      Types: types/, rpc.rs, spec.rs, notify_keys' key helpers.
    - RateLimit: rate_limit/ with token_bucket.lua, run atomically in Redis.
    - Database: the tables of migrations/ and every query of model/helpers.rs
      and publisher_service/helpers.rs.  DbInvariant: indexes, foreign keys and
      column contents as an invariant of [db_step], the statements on well-typed
      arguments.  Subscriptions: the subscriber queries refine a finite map from
      (project, address) to subscriptions.  Notifications: pages, read marks,
      watchers.  Queue: the queue's statements row by row.
    - Jwt: auth.rs (claims, [from_jwt], [sign_jwt]).  Siwx: siwx/ (recaps).
      Cache: registry/storage/.  Identity: [verify_identity] of auth.rs.
    - World: the state the services share.  RelayPublish: publish_relay_message.rs.
      NotifyMessage and Publisher: notify_message.rs, publisher_service/;
      PublisherRaces: what the tasks of the publisher do not guard against.
    - RelayError, RelayHandlers, RelayRequests, Webhook: relay_webhook/, one
      definition per request; RelaySafety: what a message can change.
    - Registry: registry/ and its extractor.  Router: the route table of
      public_http_server/mod.rs.  NotifyV1, HttpHandlers: the HTTP endpoints.
      SignedCacao: how a wallet signs the CACAO that Identity reads.  Mailbox,
      Jobs: the other services.
    - Net, Config: config/ (the sources of the configuration, the search for the
      public address, the Redis addresses, the relay client's options).
      Analytics: analytics/ (records, events, geographic data).  Metrics:
      metrics.rs and what the operations record.
    - Server: state.rs and lib.rs, start-up and all services side by side as one
      machine.  ServerSafety: its invariant.  Totality: no request panics.
      Isolation: tenants do not touch each other.  PublicServer: the router, its
      layers and the extractors, from bytes to a response.  Entry: main.rs, the
      beginning of lib.rs and the private server.  EndToEnd: from one side's
      encryption to the other's decryption.  Answers: every request is answered.
    PROJECT.json maps each definition to the lines it models.

    ** What the theorems show

    - Data: accounts, envelopes, keys, scopes, recaps and did:pkh round trips;
      account validation is exact; two accounts are compared by address.
    - Database: [reachable_db_wf] (integrity of every reachable database), the
      refinements of Subscriptions, exact pages and the termination of paging,
      exact read marks, the limits of watchers, and a statement that does not do
      what it is for ([mark_all_marks_nothing]).
    - Rate limits: [token_bucket_rate] bounds the calls accepted in every window
      of every history of a key, exactly when the key is new; one step is exact.
    - Authentication: exactly which JWTs, CACAOs, recaps and project secrets are
      accepted, and how long caches keep an answer.
    - Relay: [handle_msg_changes] (a message changes only what its authenticated
      sender asked for), [webhook_outcomes], [requests_answered] (a request that
      opens is answered), who is told about a change.
    - Sending: [notify_v0_truthful] (the response says what happened to every
      account), the publisher's counter, the life cycle of a row, delivery and
      draining of the queue, and what the tasks leave unguarded: a result is
      recorded whatever became of its row ([result_recorded_blindly]), and the
      counter alone decides whether an announcement is served
      ([wakeup_by_counter]).
    - Both ends: [notification_reaches_wallet], [wallet_request_opens],
      [signed_cacao_verified] (what a wallet seals or signs is what the server
      reads, and the reverse).
    - Services: the public server over bytes ([app_routes], [app_total],
      [app_isolated]), the mailbox batches, renewals, and [server_invariant] over
      every order of events of all services: no publisher worker dies, and
      nothing outside a request panics.
    - Beside the code: the public address and the configuration sources
      ([find_public_ip_addr_spec], [local_configuration_outcomes]), metrics that
      agree with each other and with the calls made ([counters_match_latencies],
      [publish_recorded]).

    ** Bounds and fuel

    [retry_loop] counts the ten tries of the source down from [MAX_TRIES] and
    returns before they run out ([publish_relay_message_spec]).  The fuel of
    [process_queued_messages] is its number of iterations; one more than the
    number of queued rows is enough ([queue_drains]).  Everything else is
    structural, a list of events, or a list of tries.

    ** Not modelled

    Logging and tracing.  The models of the handlers do not hand over metrics and
    analytics events, on which nothing depends: Metrics and Analytics say what is
    recorded as a function of what happened.  Left out too: reading the
    environment, the network interfaces and the geographic database; PostgreSQL's
    connections, the migrations and AWS; what the layers for CORS, request ids
    and geographic blocking do; the decoding of JSON and paths by axum (a
    parameter of PublicServer); the shutdown signal;
    the disabled project webhooks.  PostgreSQL is modelled at the level of
    statements: isolation anomalies between concurrent transactions are not.
    A handler runs as one event of the server, although in the program its
    awaits interleave with other requests: the publisher's and the mailbox
    service's actions are interleaved individually, the futures a handler joins
    complete in any order ([Scheduler]), and the invariants proved by [db_step]
    hold statement by statement. *)

From stdpp Require Export base tactics list gmap strings numbers sorting option.
From stdpp Require Import relations.

Declare Scope notify_scope.
Delimit Scope notify_scope with notify.

(** ** Outcomes

    A Rust call that can fail returns [Ok], returns [Err], or panics
    ([unwrap], [expect], [assert!], slice indexing out of range).  Panics are
    kept apart from errors because nothing in the program catches them. *)

Inductive outcome (E A : Type) : Type :=
| Ok (a : A)
| Err (e : E)
| Panic.
Arguments Ok {E A} a.
Arguments Err {E A} e.
Arguments Panic {E A}.

#[global] Instance outcome_eq_dec {E A} `{EqDecision E, EqDecision A} :
  EqDecision (outcome E A).
Proof. solve_decision. Defined.

#[global] Instance outcome_ret {E} : MRet (outcome E) := fun A a => Ok a.

#[global] Instance outcome_bind {E} : MBind (outcome E) := fun A B f m =>
  match m with
  | Ok a => f a
  | Err e => Err e
  | Panic => Panic
  end.

#[global] Instance outcome_fmap {E} : FMap (outcome E) := fun A B f m =>
  match m with
  | Ok a => Ok (f a)
  | Err e => Err e
  | Panic => Panic
  end.

(** [Result::map_err]. *)
Definition map_err {E E' A} (f : E → E') (m : outcome E A) : outcome E' A :=
  match m with
  | Ok a => Ok a
  | Err e => Err (f e)
  | Panic => Panic
  end.

(** [Option::ok_or]. *)
Definition ok_or {E A} (o : option A) (e : E) : outcome E A :=
  match o with
  | Some a => Ok a
  | None => Err e
  end.

(** [Option::unwrap] and [Option::expect]. *)
Definition unwrap {E A} (o : option A) : outcome E A :=
  match o with
  | Some a => Ok a
  | None => Panic
  end.

Definition is_ok {E A} (m : outcome E A) : bool :=
  match m with Ok _ => true | _ => false end.

Definition is_err {E A} (m : outcome E A) : bool :=
  match m with Err _ => true | _ => false end.

Definition no_panic {E A} (m : outcome E A) : Prop :=
  match m with Panic => False | _ => True end.

(** Loops whose body may fail. *)
Fixpoint fold_outcome {E A S} (f : S → A → outcome E S) (s : S) (l : list A) : outcome E S :=
  match l with [] => Ok s | a :: l => s ← f s a; fold_outcome f s l end.

Fixpoint map_outcome {E A B} (f : A → outcome E B) (l : list A) : outcome E (list B) :=
  match l with [] => Ok [] | a :: l => b ← f a; bs ← map_outcome f l; Ok (b :: bs) end.

Lemma outcome_bind_Ok {E A B} (m : outcome E A) (f : A → outcome E B) b :
  (m ≫= f) = Ok b ↔ ∃ a, m = Ok a ∧ f a = Ok b.
Proof. destruct m; simpl; (split; [|intros (?&?&?)]); naive_solver. Qed.

Lemma map_err_Ok {E E' A} (f : E → E') (m : outcome E A) a :
  map_err f m = Ok a ↔ m = Ok a.
Proof. destruct m; simpl; split; congruence. Qed.

Lemma ok_or_Ok {E A} (o : option A) (e : E) a : ok_or o e = Ok a ↔ o = Some a.
Proof. destruct o; simpl; split; congruence. Qed.

Lemma unwrap_Ok {E A} (o : option A) a : unwrap (E:=E) o = Ok a ↔ o = Some a.
Proof. destruct o; simpl; split; congruence. Qed.

Lemma no_panic_bind {E A B} (m : outcome E A) (f : A → outcome E B) :
  no_panic m → (∀ a, m = Ok a → no_panic (f a)) → no_panic (m ≫= f).
Proof. destruct m; simpl; auto. Qed.

Lemma no_panic_map_err {E E' A} (f : E → E') (m : outcome E A) :
  no_panic (map_err f m) ↔ no_panic m.
Proof. by destruct m. Qed.

(** ** Stateful computations

    An [async fn] that reads and writes the state [W] and may fail.  An error
    does not undo the writes made before it, as in the source. *)

Definition M (W E A : Type) : Type := W → outcome E A * W.

#[global] Instance M_ret {W E} : MRet (M W E) := fun A a w => (Ok a, w).

#[global] Instance M_bind {W E} : MBind (M W E) := fun A B f m w =>
  match m w with
  | (Ok a, w') => f a w'
  | (Err e, w') => (Err e, w')
  | (Panic, w') => (Panic, w')
  end.

Definition throw {W E A} (e : E) : M W E A := λ w, (Err e, w).
Definition panic {W E A} : M W E A := λ w, (Panic, w).
Definition gets {W E A} (f : W → A) : M W E A := λ w, (Ok (f w), w).
Definition modify {W E} (f : W → W) : M W E () := λ w, (Ok (), f w).

(** A pure fallible computation used in a stateful one. *)
Definition lift {W E A} (m : outcome E A) : M W E A := λ w, (m, w).

(** [.map_err(f)] on an awaited call. *)
Definition m_map_err {W E E' A} (f : E → E') (m : M W E A) : M W E' A :=
  λ w, let '(r, w') := m w in (map_err f r, w').

(** The [Result] of an awaited call kept as a value ([let r = f().await;]);
    a panic still unwinds. *)
Definition attempt {W E E' A} (m : M W E A) : M W E' (outcome E A) :=
  λ w, match m w with
       | (Ok a, w') => (Ok (Ok a), w')
       | (Err e, w') => (Ok (Err e), w')
       | (Panic, w') => (Panic, w')
       end.

(** [if b { Err(e)? }]. *)
Definition guard_err {W E} (b : bool) (e : E) : M W E () :=
  if b then throw e else mret ().

Fixpoint for_each {W E A} (f : A → M W E ()) (l : list A) : M W E () :=
  match l with
  | [] => mret ()
  | a :: l => f a ;; for_each f l
  end.

(** A loop that threads a mutable local through its iterations. *)
Fixpoint fold_m {W E A S} (f : S → A → M W E S) (s : S) (l : list A) : M W E S :=
  match l with
  | [] => mret s
  | a :: l => s' ← f s a; fold_m f s' l
  end.

Section monad_laws.
  Context {W E A B : Type}.
  Implicit Types (m : M W E A) (f : A → M W E B).

Lemma bind_Ok_inv m f w b w' :
    (m ≫= f) w = (Ok b, w') →
    ∃ a w1, m w = (Ok a, w1) ∧ f a w1 = (Ok b, w').
Proof.
    unfold mbind, M_bind. destruct (m w) as [[a|e|] w1]; naive_solver.
Qed.

Lemma bind_Ok m f w a w1 :
    m w = (Ok a, w1) → (m ≫= f) w = f a w1.
Proof. unfold mbind, M_bind. by intros ->. Qed.

Lemma bind_Err m f w e w1 :
    m w = (Err e, w1) → (m ≫= f) w = (Err e, w1).
Proof. unfold mbind, M_bind. by intros ->. Qed.

Lemma m_map_err_Ok_inv {E'} (g : E → E') m w a w' :
    m_map_err g m w = (Ok a, w') → m w = (Ok a, w').
Proof.
    unfold m_map_err. destruct (m w) as [[]]; simpl; naive_solver.
Qed.

Lemma lift_Ok_inv (o : outcome E A) (w : W) a w' :
    lift o w = (Ok a, w') → o = Ok a ∧ w' = w.
Proof. unfold lift. naive_solver. Qed.

End monad_laws.

(** Steps that always succeed. *)
Lemma bind_gets {W E A B} (f : W → A) (k : A → M W E B) w : (gets f ≫= k) w = k (f w) w.
Proof. done. Qed.

Lemma bind_modify {W E B} (f : W → W) (k : () → M W E B) w : (modify f ≫= k) w = k () (f w).
Proof. done. Qed.

Lemma bind_ret {W E A B} (a : A) (k : A → M W E B) w : (mret a ≫= k) w = k a w.
Proof. done. Qed.

Lemma bind_throw {W E A B} (e : E) (k : A → M W E B) w : (throw e ≫= k) w = (Err e, w).
Proof. done. Qed.

Lemma guard_err_Ok_inv {W E} (b : bool) (e : E) (w : W) u w' :
  guard_err b e w = (Ok u, w') → b = false ∧ w' = w.
Proof. destruct b; unfold guard_err, throw, mret, M_ret; naive_solver. Qed.

(** Peels the successful run of a stateful computation into the runs of its
    parts. *)
Ltac inv_ok H :=
  lazymatch type of H with
  | mbind _ _ _ = (Ok _, _) =>
      let a := fresh "a" in let w := fresh "w" in
      let H1 := fresh "Hrun" in
      apply bind_Ok_inv in H; destruct H as (a & w & H1 & H)
  | m_map_err _ _ _ = (Ok _, _) => apply m_map_err_Ok_inv in H; inv_ok H
  | lift _ _ = (Ok _, _) =>
      let H' := fresh "Heq" in apply lift_Ok_inv in H; destruct H as [H H']; subst
  | guard_err _ _ _ = (Ok _, _) =>
      let H' := fresh "Heq" in apply guard_err_Ok_inv in H; destruct H as [H H']; subst
  | mret _ _ = (Ok _, _) => unfold mret, M_ret in H; simplify_eq
  | throw _ _ = (Ok _, _) => by unfold throw in H
  | panic _ = (Ok _, _) => by unfold panic in H
  | gets _ _ = (Ok _, _) => unfold gets in H; simplify_eq
  | modify _ _ = (Ok _, _) => unfold modify in H; simplify_eq
  end.

(** ** State relations kept by a computation

    [keeps R m]: whatever [m] returns, its final state is [R]-related to the
    initial one.  With [R] a preorder this composes through [bind], which is
    how the handlers are shown not to touch parts of the state. *)

Definition keeps {W E A} (R : relation W) (m : M W E A) : Prop :=
  ∀ w, R w (m w).2.

Create HintDb keeps.

Section keeps.
  Context {W : Type} (R : relation W) `{!PreOrder R}.

Lemma keeps_ret {E A} (a : A) : keeps R (mret (M:=M W E) a).
Proof. intros w. reflexivity. Qed.

Lemma keeps_throw {E A} (e : E) : keeps R (throw (A:=A) e).
Proof. intros w. reflexivity. Qed.

Lemma keeps_panic {E A} : keeps R (panic (E:=E) (A:=A)).
Proof. intros w. reflexivity. Qed.

Lemma keeps_gets {E A} (f : W → A) : keeps R (gets (E:=E) f).
Proof. intros w. reflexivity. Qed.

Lemma keeps_lift {E A} (m : outcome E A) : keeps R (lift m).
Proof. intros w. reflexivity. Qed.

Lemma keeps_guard {E} b (e : E) : keeps R (guard_err b e).
Proof. destruct b; intros w; reflexivity. Qed.

Lemma keeps_modify {E} (f : W → W) : (∀ w, R w (f w)) → keeps R (modify (E:=E) f).
Proof. intros H w. apply H. Qed.

Lemma keeps_bind {E A B} (m : M W E A) (f : A → M W E B) :
    keeps R m → (∀ a, keeps R (f a)) → keeps R (m ≫= f).
Proof.
    intros Hm Hf w. specialize (Hm w). unfold mbind, M_bind.
    destruct (m w) as [[a|e|] w1]; simpl in *; [|done..].
    etrans; [exact Hm|apply Hf].
Qed.

Lemma keeps_map_err {E E' A} (f : E → E') (m : M W E A) :
    keeps R m → keeps R (m_map_err f m).
Proof. intros Hm w. specialize (Hm w). unfold m_map_err. by destruct (m w). Qed.

Lemma keeps_attempt {E E' A} (m : M W E A) :
    keeps R m → keeps R (attempt (E':=E') m).
Proof.
    intros Hm w. specialize (Hm w). unfold attempt.
    by destruct (m w) as [[]].
Qed.

Lemma keeps_for_each {E A} (f : A → M W E ()) l :
    (∀ a, keeps R (f a)) → keeps R (for_each f l).
Proof.
    intros Hf. induction l; simpl; [apply keeps_ret|].
    apply keeps_bind; [apply Hf|done].
Qed.

Lemma keeps_fold_m {E A S} (f : S → A → M W E S) l : ∀ s,
    (∀ s a, keeps R (f s a)) → keeps R (fold_m f s l).
Proof.
    induction l as [|a l IH]; intros s Hf; simpl; [apply keeps_ret|].
    apply keeps_bind; [apply Hf|]. intros s'. by apply IH.
Qed.

End keeps.

#[export] Hint Resolve keeps_ret keeps_throw keeps_panic keeps_gets keeps_lift
  keeps_guard keeps_map_err keeps_attempt keeps_for_each keeps_fold_m : keeps.
#[export] Hint Extern 2 (keeps _ (_ ≫= _)) => apply keeps_bind : keeps.
#[export] Hint Extern 3 (keeps _ (match ?x with _ => _ end)) => destruct x : keeps.
#[export] Hint Extern 1 (PreOrder _) => apply _ : keeps.

Ltac solve_keeps := eauto 40 with keeps.

(** ** Generic lemmas on lists *)

Section list_lemmas.
  Context {A : Type}.
  Implicit Types (l : list A) (P : A → Prop).

Lemma filter_all_true P `{∀ x, Decision (P x)} l : Forall P l → filter P l = l.
Proof. induction 1; [done|]. rewrite filter_cons_True by done. congruence. Qed.

Lemma filter_all_false P `{∀ x, Decision (P x)} l :
    Forall (λ x, ¬ P x) l → filter P l = [].
Proof. induction 1; [done|]. by rewrite filter_cons_False. Qed.

Lemma NoDup_singleton_inv l x : NoDup l → (∀ y, y ∈ l ↔ y = x) → l = [x].
Proof.
    intros Hnd Hl. destruct l as [|y l]; 
      [pose proof (proj2 (Hl x) eq_refl) as Hx; by apply elem_of_nil in Hx|].
    assert (y = x) as -> by (apply Hl; left). f_equal. apply NoDup_cons in Hnd as [Hx _].
    destruct l as [|z l]; [done|]. assert (z = x) as -> by (apply Hl; right; left).
    destruct Hx. left.
Qed.

Lemma take_omap_total {B} (f : A → option B) n l :
    (∀ x, x ∈ l → is_Some (f x)) → take n (omap f l) = omap f (take n l).
Proof.
    revert n. induction l as [|x l IH]; intros [|n] Hf; [done..|].
    destruct (Hf x) as [y Hy]; [left|]. cbn. rewrite Hy. cbn. f_equal. apply IH.
    intros z Hz. apply Hf. by right.
Qed.

Lemma elem_of_take_list n l x : x ∈ take n l → x ∈ l.
Proof. intros Hx. rewrite <-(take_drop n l). apply elem_of_app. by left. Qed.

End list_lemmas.

(** ** Which errors a computation can end with

    [errs_in Q m]: [m] never panics, and its errors satisfy [Q]. *)

Definition errs_in {W E A} (Q : E → Prop) (m : M W E A) : Prop :=
  ∀ w, match (m w).1 with Ok _ => True | Err e => Q e | Panic => False end.

Create HintDb errs.

Section errs_in.
Context {W E : Type} (Q : E → Prop).

Lemma errs_ret {A} (a : A) : errs_in (W:=W) Q (mret a).
Proof. done. Qed.

Lemma errs_throw {A} e : Q e → errs_in (W:=W) (A:=A) Q (throw e).
Proof. intros He w. exact He. Qed.

Lemma errs_ok_or {A} (o : option A) e : Q e → errs_in (W:=W) Q (lift (ok_or o e)).
Proof. intros He w. destruct o; [exact I|exact He]. Qed.

Lemma errs_guard b e : Q e → errs_in (W:=W) Q (guard_err b e).
Proof. intros He w. destruct b; [exact He|exact I]. Qed.

Lemma errs_bind {A B} (m : M W E A) (f : A → M W E B) :
  errs_in Q m → (∀ a, errs_in Q (f a)) → errs_in Q (m ≫= f).
Proof.
  intros Hm Hf w. specialize (Hm w). unfold mbind, M_bind.
  destruct (m w) as [[a|e|] w1]; [apply Hf|exact Hm|exact Hm].
Qed.

Lemma errs_map_err {E' A} (g : E' → E) (m : M W E' A) (Q' : E' → Prop) :
  errs_in Q' m → (∀ e, Q' e → Q (g e)) → errs_in Q (m_map_err g m).
Proof.
  intros Hm Hg w. specialize (Hm w). unfold m_map_err.
  destruct (m w) as [[a|e|] w1]; cbn in *; auto.
Qed.

Lemma errs_weaken {A} (Q' : E → Prop) (m : M W E A) :
  errs_in Q' m → (∀ e, Q' e → Q e) → errs_in Q m.
Proof. intros Hm Hq w. specialize (Hm w). destruct (m w) as [[a|e|] w1]; cbn in *; auto. Qed.

Lemma errs_no_panic {A} (m : M W E A) w : errs_in Q m → no_panic (m w).1.
Proof. intros Hm. specialize (Hm w). by destruct (m w) as [[a|e|] w1]. Qed.
End errs_in.

#[export] Hint Resolve errs_ret errs_throw errs_ok_or errs_guard errs_bind : errs.
#[export] Hint Extern 3 (errs_in _ (match ?x with _ => _ end)) => destruct x : errs.

Ltac solve_errs := eauto 30 with errs.

(** ** Read-only computations and properties of the final state *)

Definition read_only {W E A} (m : M W E A) : Prop := ∀ w, (m w).2 = w.

Create HintDb read_only.

Section read_only.
  Context {W E A B : Type}.
  Implicit Types (m : M W E A) (f : A → M W E B) (P : W → Prop).

Lemma read_only_ret (a : A) : read_only (mret (M:=M W E) a).
Proof. done. Qed.

Lemma read_only_throw (e : E) : read_only (throw (W:=W) (A:=A) e).
Proof. done. Qed.

Lemma read_only_panic : read_only (panic (W:=W) (E:=E) (A:=A)).
Proof. done. Qed.

Lemma read_only_gets (f : W → A) : read_only (gets (E:=E) f).
Proof. done. Qed.

Lemma read_only_lift (o : outcome E A) : read_only (lift (W:=W) o).
Proof. done. Qed.

Lemma read_only_guard b (e : E) : read_only (guard_err (W:=W) b e).
Proof. by destruct b. Qed.

Lemma read_only_bind m f : read_only m → (∀ a, read_only (f a)) → read_only (m ≫= f).
Proof.
    intros Hm Hf w. specialize (Hm w). unfold mbind, M_bind.
    destruct (m w) as [[a|e|] w1]; simpl in *; subst; [apply Hf|done..].
Qed.

Lemma read_only_map_err {E'} (g : E → E') m : read_only m → read_only (m_map_err g m).
Proof. intros Hm w. specialize (Hm w). unfold m_map_err. by destruct (m w). Qed.

(** A property of the state after a read-only step followed by [f]. *)
Lemma after_read_only P m f w :
    read_only m → P w → (∀ a, m w = (Ok a, w) → P (f a w).2) → P ((m ≫= f) w).2.
Proof.
    intros Hm HP Hf. specialize (Hm w). unfold mbind, M_bind.
    destruct (m w) as [[a|e|] w1]; simpl in *; subst; [by apply Hf|done..].
Qed.

Lemma after_bind P m f w :
    P (m w).2 → (∀ a w', m w = (Ok a, w') → P w' → P (f a w').2) → P ((m ≫= f) w).2.
Proof.
    intros HP Hf. unfold mbind, M_bind.
    destruct (m w) as [[a|e|] w1]; simpl in *; [by apply Hf|done..].
Qed.

Lemma after_map_err {E'} P (g : E → E') m w : P (m w).2 → P (m_map_err g m w).2.
Proof. unfold m_map_err. by destruct (m w). Qed.
End read_only.

#[export] Hint Resolve read_only_ret read_only_throw read_only_panic read_only_gets
  read_only_lift read_only_guard read_only_map_err : read_only.
#[export] Hint Extern 2 (read_only (_ ≫= _)) => apply read_only_bind : read_only.
#[export] Hint Extern 3 (read_only (match ?x with _ => _ end)) => destruct x : read_only.

Ltac solve_read_only := eauto 20 with read_only.
