(* ===== verification/RustStr.v ===== *)
(** * Operations of Rust's [str] that the server uses

    A [str] is its UTF-8 bytes, a Rocq [string].  Every function here is one
    of the standard library's, restricted to the ASCII patterns and separators
    the source passes to it. *)

From Stdlib Require Import Ascii.
From S2P Require Import Prelude.

(** [str::to_ascii_lowercase] and [char::to_ascii_uppercase]. *)
Definition ascii_is_upper (c : ascii) : bool :=
  (65 <=? N_of_ascii c)%N && (N_of_ascii c <=? 90)%N.
Definition ascii_is_lower (c : ascii) : bool :=
  (97 <=? N_of_ascii c)%N && (N_of_ascii c <=? 122)%N.
Definition ascii_is_digit (c : ascii) : bool :=
  (48 <=? N_of_ascii c)%N && (N_of_ascii c <=? 57)%N.

Definition ascii_to_lower (c : ascii) : ascii :=
  if ascii_is_upper c then ascii_of_N (N_of_ascii c + 32) else c.
Definition ascii_to_upper (c : ascii) : ascii :=
  if ascii_is_lower c then ascii_of_N (N_of_ascii c - 32) else c.

Fixpoint str_map (f : ascii → ascii) (s : string) : string :=
  match s with
  | EmptyString => EmptyString
  | String c s => String (f c) (str_map f s)
  end.

Definition to_ascii_lowercase (s : string) : string := str_map ascii_to_lower s.

(** [str::eq_ignore_ascii_case]. *)
Definition eq_ignore_ascii_case (s1 s2 : string) : bool :=
  bool_decide (to_ascii_lowercase s1 = to_ascii_lowercase s2).

Fixpoint str_forallb (f : ascii → bool) (s : string) : bool :=
  match s with
  | EmptyString => true
  | String c s => f c && str_forallb f s
  end.

(** [s.find(c)]: the byte index of the first [c]. *)
Fixpoint find_char (c : ascii) (s : string) : option nat :=
  match s with
  | EmptyString => None
  | String d s => if ascii_dec c d then Some 0 else S <$> find_char c s
  end.

(** [&s[n..]]: panics when [n] is past the end. *)
Fixpoint str_from (n : nat) (s : string) : option string :=
  match n, s with
  | 0, s => Some s
  | S n, String _ s => str_from n s
  | S _, EmptyString => None
  end.

Fixpoint strip_prefix (p s : string) : option string :=
  match p, s with
  | EmptyString, s => Some s
  | String a p, String b s => if ascii_dec a b then strip_prefix p s else None
  | String _ _, EmptyString => None
  end.

Definition starts_with (p s : string) : bool :=
  match strip_prefix p s with Some _ => true | None => false end.

(** [s.strip_suffix(p)]. *)
Fixpoint strip_suffix (p s : string) : option string :=
  if String.eqb s p then Some EmptyString
  else match s with
       | EmptyString => None
       | String c s => String c <$> strip_suffix p s
       end.

Definition ends_with (p s : string) : bool :=
  match strip_suffix p s with Some _ => true | None => false end.

(** [s.contains(p)]. *)
Fixpoint str_contains (p s : string) : bool :=
  starts_with p s ||
  match s with
  | EmptyString => false
  | String _ s => str_contains p s
  end.

(** [s.split(c)]: always at least one piece. *)
Fixpoint split_char (c : ascii) (s : string) : list string :=
  match s with
  | EmptyString => [EmptyString]
  | String d s =>
      if ascii_dec c d then EmptyString :: split_char c s
      else match split_char c s with
           | [] => [String d EmptyString]
           | p :: ps => String d p :: ps
           end
  end.

(** [s.splitn(2, c)]: the text before the first [c], and the rest if any. *)
Fixpoint splitn2 (c : ascii) (s : string) : string * option string :=
  match s with
  | EmptyString => (EmptyString, None)
  | String d s =>
      if ascii_dec c d then (EmptyString, Some s)
      else let '(a, b) := splitn2 c s in (String d a, b)
  end.

(** [s.rsplitn(2, c)]: the text after the last [c], then what precedes it. *)
Fixpoint rsplitn2 (c : ascii) (s : string) : string * option string :=
  match s with
  | EmptyString => (EmptyString, None)
  | String d s' =>
      match rsplitn2 c s' with
      | (a, Some b) => (a, Some (String d b))
      | (a, None) => if ascii_dec c d then (s', Some EmptyString) else (s, None)
      end
  end.

(** [v.join(sep)]. *)
Definition join (sep : string) (l : list string) : string := String.concat sep l.

(** [s.replace(p, r)] of a non-empty [p]: the matches from the left that do not
    overlap; [skip] characters still belong to the last one. *)
Fixpoint str_replace_from (p r : string) (skip : nat) (s : string) : string :=
  match s with
  | EmptyString => EmptyString
  | String c s' =>
      match skip with
      | S skip => str_replace_from p r skip s'
      | O => if starts_with p s then r +:+ str_replace_from p r (pred (String.length p)) s'
             else String c (str_replace_from p r 0 s')
      end
  end.
Definition str_replace (p r s : string) : string := str_replace_from p r 0 s.

(** [s.trim()] of an ASCII text. *)
Definition ascii_is_whitespace (c : ascii) : bool :=
  ((9 <=? N_of_ascii c)%N && (N_of_ascii c <=? 13)%N) || (N_of_ascii c =? 32)%N.
Fixpoint trim_start (s : string) : string :=
  match s with
  | EmptyString => EmptyString
  | String c s' => if ascii_is_whitespace c then trim_start s' else s
  end.
Fixpoint trim_end (s : string) : string :=
  match s with
  | EmptyString => EmptyString
  | String c s =>
      match trim_end s with
      | EmptyString => if ascii_is_whitespace c then EmptyString else String c EmptyString
      | t => String c t
      end
  end.
Definition str_trim (s : string) : string := trim_end (trim_start s).

(** [s.chars().count()] of a UTF-8 string: continuation bytes do not count. *)
Definition is_continuation (c : ascii) : bool :=
  (128 <=? N_of_ascii c)%N && (N_of_ascii c <? 192)%N.
Fixpoint char_count (s : string) : nat :=
  match s with
  | EmptyString => 0
  | String c s => if is_continuation c then char_count s else S (char_count s)
  end.

(** ** Lemmas *)

Lemma str_app_nil_r s : (s +:+ "")%stdpp = s.
Proof. induction s; [done|]. unfold String.app in *; simpl; congruence. Qed.

Lemma str_app_cons c s t : String c s +:+ t = String c (s +:+ t).
Proof. done. Qed.

Lemma str_app_nil_l t : "" +:+ t = t.
Proof. done. Qed.

Lemma str_app_assoc s t u : (s +:+ t) +:+ u = s +:+ (t +:+ u).
Proof. induction s; [done|]. by rewrite !str_app_cons, IHs. Qed.

Create Rewrite HintDb str.
#[export] Hint Rewrite str_app_cons str_app_nil_l str_app_nil_r : str.

Lemma str_length_app s t : String.length (s +:+ t) = String.length s + String.length t.
Proof. induction s; [done|]. rewrite str_app_cons. simpl. lia. Qed.

Lemma str_map_app f s t : str_map f (s +:+ t) = str_map f s +:+ str_map f t.
Proof. induction s; [done|]. rewrite str_app_cons. simpl. by rewrite IHs. Qed.

Lemma str_forallb_app f s t :
  str_forallb f (s +:+ t) = str_forallb f s && str_forallb f t.
Proof.
  induction s; [done|]. rewrite str_app_cons. simpl. by rewrite IHs, andb_assoc.
Qed.

Lemma str_length_map f s : String.length (str_map f s) = String.length s.
Proof. induction s; simpl; congruence. Qed.

Lemma ascii_range_check (P : ascii → bool) :
  (∀ a b c d e f g h, P (Ascii a b c d e f g h) = true) → ∀ c, P c = true.
Proof. intros H []. apply H. Qed.

Lemma ascii_to_lower_idemp c : ascii_to_lower (ascii_to_lower c) = ascii_to_lower c.
Proof. by destruct c as [[][][][][][][][]]. Qed.

Lemma ascii_to_lower_upper c : ascii_to_lower (ascii_to_upper c) = ascii_to_lower c.
Proof. by destruct c as [[][][][][][][][]]. Qed.

Lemma to_ascii_lowercase_idemp s :
  to_ascii_lowercase (to_ascii_lowercase s) = to_ascii_lowercase s.
Proof.
  unfold to_ascii_lowercase.
  induction s; simpl; [done|]. by rewrite ascii_to_lower_idemp, IHs.
Qed.

Lemma eq_ignore_ascii_case_spec s1 s2 :
  eq_ignore_ascii_case s1 s2 = true ↔ to_ascii_lowercase s1 = to_ascii_lowercase s2.
Proof. apply bool_decide_eq_true. Qed.

Lemma find_char_app c s t :
  str_forallb (λ d, negb (Ascii.eqb c d)) s = true →
  find_char c (s +:+ String c t) = Some (String.length s).
Proof.
  induction s as [|d s IH]; intros Hs.
  - rewrite str_app_nil_l. simpl. by destruct (ascii_dec c c).
  - rewrite str_app_cons. simpl in *. apply andb_prop in Hs as [Hd Hs].
    destruct (ascii_dec c d) as [->|].
    + by rewrite Ascii.eqb_refl in Hd.
    + by rewrite IH.
Qed.

Lemma str_from_app s t : str_from (String.length s) (s +:+ t) = Some t.
Proof. induction s; [done|]. by rewrite str_app_cons. Qed.

Lemma strip_prefix_app p s : strip_prefix p (p +:+ s) = Some s.
Proof.
  induction p as [|c p IH]; [by destruct s|].
  rewrite str_app_cons. simpl. by destruct (ascii_dec c c).
Qed.

Lemma strip_prefix_Some p s t : strip_prefix p s = Some t → s = p +:+ t.
Proof.
  revert s. induction p as [|c p IH]; intros s; simpl; [intros; by simplify_eq|].
  destruct s as [|d s]; [done|]. destruct (ascii_dec c d) as [->|]; [|done].
  intros ->%IH. done.
Qed.

Lemma strip_suffix_Some p s t : strip_suffix p s = Some t → s = t +:+ p.
Proof.
  revert t. induction s as [|c s IH]; intros t; cbn -[String.eqb].
  - destruct (String.eqb_spec "" p); [|done]. intros [= <-]. by subst.
  - destruct (String.eqb_spec (String c s) p); [intros [= <-]; by subst|].
    destruct (strip_suffix p s) eqn:E; simpl; [|done].
    intros [= <-]. by rewrite str_app_cons, <-(IH _ eq_refl).
Qed.

Lemma strip_suffix_app p s : strip_suffix p (s +:+ p) = Some s.
Proof.
  induction s as [|c s IH].
  - rewrite str_app_nil_l.
    destruct p as [|c p]; cbn -[String.eqb]; by rewrite String.eqb_refl.
  - rewrite str_app_cons. cbn -[String.eqb]. rewrite IH.
    destruct (String.eqb_spec (String c (s +:+ p)) p) as [Heq|]; [|done].
    apply (f_equal String.length) in Heq. simpl in Heq.
    rewrite str_length_app in Heq. lia.
Qed.

Lemma split_char_no_sep c s :
  str_forallb (λ d, negb (Ascii.eqb c d)) s = true → split_char c s = [s].
Proof.
  induction s as [|d s IH]; simpl; [done|].
  intros [Hd Hs]%andb_prop. rewrite IH by done.
  destruct (ascii_dec c d) as [->|]; [|done]. by rewrite Ascii.eqb_refl in Hd.
Qed.

Lemma split_char_nonempty c s : split_char c s ≠ [].
Proof.
  destruct s as [|d s]; simpl; [done|].
  destruct (ascii_dec c d); [done|]. by destruct (split_char c s).
Qed.

Lemma split_char_app c s t :
  str_forallb (λ d, negb (Ascii.eqb c d)) s = true →
  split_char c (s +:+ String c t) = s :: split_char c t.
Proof.
  induction s as [|d s IH]; intros Hs.
  - rewrite str_app_nil_l. simpl. by destruct (ascii_dec c c).
  - rewrite str_app_cons. simpl in *. apply andb_prop in Hs as [Hd Hs].
    rewrite IH by done. destruct (ascii_dec c d) as [->|]; [|done].
    by rewrite Ascii.eqb_refl in Hd.
Qed.

Lemma join_cons2 sep x y l : join sep (x :: y :: l) = x +:+ sep +:+ join sep (y :: l).
Proof. done. Qed.

(** Splitting inverts [join] when no piece contains the separator. *)
Lemma split_char_join c l :
  l ≠ [] →
  Forall (λ s, str_forallb (λ d, negb (Ascii.eqb c d)) s = true) l →
  split_char c (join (String c "") l) = l.
Proof.
  induction l as [|s l IH]; [done|]. intros _ [Hs Hl]%Forall_cons_1.
  destruct l as [|t l].
  - simpl. by apply split_char_no_sep.
  - rewrite join_cons2, str_app_cons, str_app_nil_l, split_char_app by done.
    by rewrite IH.
Qed.

(** Joining inverts splitting. *)
Lemma join_split_char c s : join (String c "") (split_char c s) = s.
Proof.
  induction s as [|d s IH]; simpl; [done|].
  destruct (ascii_dec c d) as [->|Hne].
  - destruct (split_char d s) as [|p ps] eqn:E; [by destruct (split_char_nonempty _ _ E)|].
    rewrite join_cons2, IH. done.
  - destruct (split_char c s) as [|p [|q ps]] eqn:E; [by destruct (split_char_nonempty _ _ E)|..].
    + simpl in *. by subst.
    + rewrite join_cons2 in *. by rewrite str_app_cons, IH.
Qed.

Lemma rsplitn2_None c s : (rsplitn2 c s).2 = None →
  rsplitn2 c s = (s, None) ∧ str_forallb (λ d, negb (Ascii.eqb c d)) s = true.
Proof.
  induction s as [|d s IH]; simpl; [done|].
  destruct (rsplitn2 c s) as [a [b|]] eqn:E; simpl; [done|].
  destruct (IH eq_refl) as [Heq Hf]. destruct (ascii_dec c d) as [->|Hne]; simpl; [done|].
  intros _. split; [done|]. rewrite Hf, andb_true_r.
  destruct (Ascii.eqb_spec c d); naive_solver.
Qed.

Lemma rsplitn2_no_sep c s :
  str_forallb (λ d, negb (Ascii.eqb c d)) s = true → rsplitn2 c s = (s, None).
Proof.
  induction s as [|d s IH]; simpl; [done|].
  intros [Hd Hs]%andb_prop. rewrite IH by done.
  destruct (ascii_dec c d) as [->|]; [|done]. by rewrite Ascii.eqb_refl in Hd.
Qed.

Lemma rsplitn2_app c s t :
  str_forallb (λ d, negb (Ascii.eqb c d)) t = true →
  rsplitn2 c (s +:+ String c t) = (t, Some s).
Proof.
  intros Ht. induction s as [|d s IH].
  - rewrite str_app_nil_l. simpl. rewrite (rsplitn2_no_sep c t Ht).
    by destruct (ascii_dec c c).
  - rewrite str_app_cons. simpl. by rewrite IH.
Qed.

Lemma splitn2_app c s t :
  str_forallb (λ d, negb (Ascii.eqb c d)) s = true →
  splitn2 c (s +:+ String c t) = (s, Some t).
Proof.
  induction s as [|d s IH]; intros Hs.
  - rewrite str_app_nil_l. simpl. by destruct (ascii_dec c c).
  - rewrite str_app_cons. simpl in *. apply andb_prop in Hs as [Hd Hs].
    rewrite IH by done. destruct (ascii_dec c d) as [->|]; [|done].
    by rewrite Ascii.eqb_refl in Hd.
Qed.

(** Text before the first separator determines the split. *)
Definition no_char (c : ascii) (s : string) : bool := str_forallb (λ d, negb (Ascii.eqb c d)) s.

Lemma app_sep_inj c s1 s2 t1 t2 :
  no_char c s1 = true → no_char c s2 = true →
  s1 +:+ String c t1 = s2 +:+ String c t2 → s1 = s2 ∧ t1 = t2.
Proof.
  intros H1 H2 Heq. pose proof (splitn2_app c s1 t1 H1) as E1.
  pose proof (splitn2_app c s2 t2 H2) as E2. rewrite Heq, E2 in E1. naive_solver.
Qed.

Lemma rsplitn2_Some c s t m :
  rsplitn2 c s = (t, Some m) → s = m +:+ String c t ∧ no_char c t = true.
Proof.
  revert t m. induction s as [|d s IH]; intros t m; simpl; [done|].
  destruct (rsplitn2 c s) as [u [v|]] eqn:E.
  - intros [= <- <-]. destruct (IH u v eq_refl) as [-> ?]. done.
  - pose proof (rsplitn2_None c s) as Hn. rewrite E in Hn. destruct (Hn eq_refl) as [[= ->] Hs].
    destruct (ascii_dec c d) as [<-|]; [|done]. intros [= <- <-]. done.
Qed.

Lemma splitn2_Some c s h t :
  splitn2 c s = (h, Some t) → s = h +:+ String c t ∧ no_char c h = true.
Proof.
  revert h t. induction s as [|d s IH]; intros h t; simpl; [done|].
  destruct (ascii_dec c d) as [<-|Hne]; [by intros [= <- <-]|].
  destruct (splitn2 c s) as [u v]. intros [= <- ->].
  destruct (IH u t eq_refl) as [-> Hu]. split; [done|].
  unfold no_char. simpl. apply andb_true_intro. split; [|done].
  apply negb_true_iff, Ascii.eqb_neq. congruence.
Qed.

Lemma str_forallb_impl (f g : ascii → bool) s :
  (∀ c, f c = true → g c = true) → str_forallb f s = true → str_forallb g s = true.
Proof.
  intros Hfg. induction s as [|c s IH]; simpl; [done|].
  intros [Hc Hs]%andb_prop. by rewrite Hfg, IH.
Qed.

Lemma str_app_inj_l s t1 t2 : s +:+ t1 = s +:+ t2 → t1 = t2.
Proof. induction s as [|c s IH]; [done|]. rewrite !str_app_cons. naive_solver. Qed.

(** [s[..n]] and [s[n..]] of an appended text. *)
Lemma str_from_Some n s : n ≤ String.length s → is_Some (str_from n s).
Proof.
  revert s. induction n as [|n IH]; intros s Hn; [by eexists|].
  destruct s as [|c s]; simpl in *; [lia|]. apply IH. lia.
Qed.
