(* ===== verification/Regex.v ===== *)
(** * The regular expressions the server validates its inputs with

    Every pattern of the source is anchored at both ends and is a sequence of
    repeated character classes and capture groups, so the syntax has no more
    than that.  [run] explores the alternatives in the order of the [regex]
    crate's documented leftmost-first semantics (greedy repetitions give back
    one character at a time), [captures] is [Regex::captures] followed by
    [extract] and [is_match] is [Regex::is_match]; [matches] is the
    declarative meaning, and the two agree. *)

From Stdlib Require Import Ascii.
From S2P Require Import Prelude RustStr.

Inductive re : Type :=
| RRep (p : ascii → bool) (lo : nat) (hi : option nat)
| RSeq (r1 r2 : re)
| RCap (r : re).

Definition RChr (c : ascii) : re := RRep (Ascii.eqb c) 1 (Some 1).
Definition RPlus (p : ascii → bool) : re := RRep p 1 None.
Definition RStar (p : ascii → bool) : re := RRep p 0 None.

(** The parses of a prefix by a repetition, longest first, with what is left. *)
Fixpoint run_rep (p : ascii → bool) (lo : nat) (hi : option nat) (s : string)
    : list (string * string) :=
  let stop := if Nat.eqb lo 0 then [("", s)] else [] in
  match hi, s with
  | Some 0, _ | _, EmptyString => stop
  | _, String c s' =>
      (if p c then
         prod_map (String c) id <$> run_rep p (pred lo) (pred <$> hi) s'
       else []) ++ stop
  end.

(** (text matched, captures, rest) in order of preference. *)
Fixpoint run (r : re) (s : string) : list (string * list string * string) :=
  match r with
  | RRep p lo hi => (λ '(a, rest), (a, [], rest)) <$> run_rep p lo hi s
  | RSeq r1 r2 =>
      x ← run r1 s; let '(a, ca, rest) := x in
      y ← run r2 rest; let '(b, cb, rest') := y in
      [(a +:+ b, ca ++ cb, rest')]
  | RCap r =>
      (λ '(a, ca, rest), (a, a :: ca, rest)) <$> run r s
  end.

(** [Regex::captures] of [^r$], with the groups [extract] gives. *)
Definition captures (r : re) (s : string) : option (list string) :=
  (λ x, x.1.2) <$> head (filter (λ x, x.2 = "") (run r s)).

Definition is_match (r : re) (s : string) : bool :=
  match captures r s with Some _ => true | None => false end.

(** ** Declarative meaning *)

Inductive matches : re → string → list string → Prop :=
| matches_rep p lo hi s :
    str_forallb p s = true → lo ≤ String.length s →
    (∀ n, hi = Some n → String.length s ≤ n) →
    matches (RRep p lo hi) s []
| matches_seq r1 r2 s1 s2 c1 c2 :
    matches r1 s1 c1 → matches r2 s2 c2 →
    matches (RSeq r1 r2) (s1 +:+ s2) (c1 ++ c2)
| matches_cap r s c :
    matches r s c → matches (RCap r) s (s :: c).

Lemma run_rep_correct p s : ∀ lo hi a rest,
  (a, rest) ∈ run_rep p lo hi s ↔
  s = a +:+ rest ∧ str_forallb p a = true ∧ lo ≤ String.length a ∧
  (∀ n, hi = Some n → String.length a ≤ n).
Proof.
  assert (Hstop : ∀ (lo : nat) (s a rest : string),
    (a, rest) ∈ (if Nat.eqb lo 0 then [("", s)] else []) ↔ lo = 0 ∧ a = "" ∧ rest = s).
  { intros lo s' a rest. destruct lo; simpl; rewrite ?list_elem_of_singleton, ?elem_of_nil;
      naive_solver. }
  induction s as [|c s IH]; intros lo hi a rest; simpl.
  - transitivity ((a, rest) ∈ (if Nat.eqb lo 0 then [("", "")] else [])).
    { by destruct hi as [[]|]. }
    rewrite Hstop. split.
    + intros (-> & -> & ->). split_and!; [done..|]. simpl. lia.
    + intros (Heq & _ & Hlo & _). destruct a; [|done]. simpl in *.
      split_and!; [lia|done|]. by rewrite str_app_nil_l in Heq.
  - assert (Hgo : (a, rest) ∈ ((if p c then
         prod_map (String c) id <$> run_rep p (pred lo) (pred <$> hi) s
       else []) ++ (if Nat.eqb lo 0 then [("", String c s)] else [])) ↔
      (lo = 0 ∧ a = "" ∧ rest = String c s) ∨
      ∃ a', a = String c a' ∧ p c = true ∧ s = a' +:+ rest ∧ str_forallb p a' = true ∧
        pred lo ≤ String.length a' ∧
        (∀ n, pred <$> hi = Some n → String.length a' ≤ n)).
    { rewrite elem_of_app, Hstop. destruct (p c) eqn:Hp.
      - rewrite list_elem_of_fmap. split.
        + intros [([a' r'] & Heq & Hin)|?]; [|by left].
          simplify_eq/=. apply IH in Hin. right. naive_solver.
        + intros [?|(a' & -> & _ & H)]; [by right|].
          left. exists (a', rest). split; [done|]. by apply IH.
      - split; [intros [?%elem_of_nil|?]; [done|by left]|].
        intros [?|(?&?&?&?)]; [by right|congruence]. }
    destruct hi as [[|n]|].
    + rewrite Hstop. split.
      * intros (-> & -> & ->). split_and!; [done..|]. simpl. lia.
      * intros (Heq & Ha & Hlo & Hn). specialize (Hn 0 eq_refl).
        destruct a; simpl in *; [|lia]. rewrite str_app_nil_l in Heq. split_and!; [lia|done|done].
    + rewrite Hgo. clear Hgo IH Hstop. split.
      * intros [(->&->&->)|(a'&->&Hp&->&Ha&Hlo&Hn)].
        { split_and!; [done..|]. simpl. lia. }
        specialize (Hn n eq_refl). rewrite str_app_cons. simpl. rewrite Hp.
        split_and!; [done..|lia|]. intros ? [= <-]. lia.
      * intros (Heq & Ha & Hlo & Hn). destruct a as [|d a']; simpl in *.
        { left. rewrite str_app_nil_l in Heq. split_and!; [lia|done..]. }
        right. rewrite str_app_cons in Heq. simplify_eq. apply andb_prop in Ha as [Hp Ha].
        exists a'. split_and!; [done..|lia|]. intros ? [= <-]. specialize (Hn _ eq_refl). lia.
    + rewrite Hgo. clear Hgo IH Hstop. split.
      * intros [(->&->&->)|(a'&->&Hp&->&Ha&Hlo&Hn)].
        { split_and!; [done..|]. done. }
        rewrite str_app_cons. simpl. rewrite Hp. split_and!; [done..|lia|done].
      * intros (Heq & Ha & Hlo & Hn). destruct a as [|d a']; simpl in *.
        { left. rewrite str_app_nil_l in Heq. split_and!; [lia|done..]. }
        right. rewrite str_app_cons in Heq. simplify_eq. apply andb_prop in Ha as [Hp Ha].
        exists a'. split_and!; [done..|lia|done].
Qed.

Lemma run_sound r : ∀ s a c rest,
  (a, c, rest) ∈ run r s → s = a +:+ rest ∧ matches r a c.
Proof.
  induction r as [p lo hi|r1 IH1 r2 IH2|r IH]; intros s a c rest; simpl.
  - rewrite list_elem_of_fmap. intros ([a' r'] & Heq & Hin). simplify_eq.
    apply run_rep_correct in Hin as (-> & ? & ? & ?). split; [done|]. by constructor.
  - rewrite list_elem_of_bind. intros ([[a1 c1] rest1] & Hin & H1).
    rewrite list_elem_of_bind in Hin. destruct Hin as ([[a2 c2] rest2] & Hin & H2).
    apply list_elem_of_singleton in Hin. simplify_eq.
    apply IH1 in H1 as [-> ?]. apply IH2 in H2 as [-> ?].
    split; [by rewrite str_app_assoc|]. by constructor.
  - rewrite list_elem_of_fmap. intros ([[a' c'] r'] & Heq & Hin). simplify_eq.
    apply IH in Hin as [-> ?]. split; [done|]. by constructor.
Qed.

Lemma run_complete r a c :
  matches r a c → ∀ rest, (a, c, rest) ∈ run r (a +:+ rest).
Proof.
  induction 1 as [p lo hi s Hp Hlo Hhi|r1 r2 s1 s2 c1 c2 _ IH1 _ IH2|r s c _ IH];
    intros rest; simpl.
  - apply list_elem_of_fmap. exists (s, rest). split; [done|]. by apply run_rep_correct.
  - apply list_elem_of_bind. exists (s1, c1, s2 +:+ rest). split.
    + apply list_elem_of_bind. exists (s2, c2, rest). split; [set_solver|apply IH2].
    + rewrite str_app_assoc. apply IH1.
  - apply list_elem_of_fmap. exists (s, c, rest). split; [done|apply IH].
Qed.

(** The captures the matcher reports are those of a parse of the whole text. *)
Lemma captures_sound r s c : captures r s = Some c → matches r s c.
Proof.
  unfold captures. intros ([[a c'] rest] & Hc & Heq)%fmap_Some. simplify_eq/=.
  apply head_Some_elem_of in Hc. apply list_elem_of_filter in Hc as [Hr Hin].
  simpl in Hr. subst. apply run_sound in Hin as [-> ?]. by rewrite str_app_nil_r.
Qed.

(** The matcher fails only where no parse exists. *)
Lemma captures_complete r s c : matches r s c → is_Some (captures r s).
Proof.
  intros Hm. apply (run_complete _ _ _) with (rest := "") in Hm.
  rewrite str_app_nil_r in Hm. unfold captures. rewrite fmap_is_Some.
  destruct (filter _ (run r s)) eqn:E; [|by eexists].
  exfalso. apply (filter_nil_not_elem_of _ _ _ E) in Hm; done.
Qed.

Lemma is_match_spec r s : is_match r s = true ↔ ∃ c, matches r s c.
Proof.
  unfold is_match. destruct (captures r s) eqn:E; split; try done.
  - intros _. eexists. by apply captures_sound.
  - intros [c Hc]. apply captures_complete in Hc as [? ?]. congruence.
Qed.

(** ** Inversion of matches, for reading parses off patterns *)

Lemma matches_rep_inv p lo hi s c :
  matches (RRep p lo hi) s c →
  c = [] ∧ str_forallb p s = true ∧ lo ≤ String.length s ∧
  (∀ n, hi = Some n → String.length s ≤ n).
Proof. by inversion 1. Qed.

Lemma matches_seq_inv r1 r2 s c :
  matches (RSeq r1 r2) s c →
  ∃ s1 s2 c1 c2, s = s1 +:+ s2 ∧ c = c1 ++ c2 ∧ matches r1 s1 c1 ∧ matches r2 s2 c2.
Proof. inversion 1; subst. by repeat eexists. Qed.

Lemma matches_cap_inv r s c :
  matches (RCap r) s c → ∃ c', c = s :: c' ∧ matches r s c'.
Proof. inversion 1; subst. by eexists. Qed.

Lemma matches_chr_inv d s c : matches (RChr d) s c → s = String d "" ∧ c = [].
Proof.
  intros (-> & Hf & Hlo & Hhi)%matches_rep_inv. specialize (Hhi 1 eq_refl).
  destruct s as [|e [|? ?]]; simpl in *; try lia.
  rewrite andb_true_r in Hf. apply Ascii.eqb_eq in Hf. by subst.
Qed.

Lemma matches_chr d : matches (RChr d) (String d "") [].
Proof.
  constructor; simpl; [by rewrite Ascii.eqb_refl|lia|].
  intros ? [= <-]. lia.
Qed.

Ltac inv_matches :=
  repeat match goal with
  | H : matches (RChr _) _ _ |- _ => apply matches_chr_inv in H as [-> ->]
  | H : matches (RSeq _ _) _ _ |- _ =>
      apply matches_seq_inv in H as (? & ? & ? & ? & -> & -> & ? & ?)
  | H : matches (RCap _) _ _ |- _ => apply matches_cap_inv in H as (? & -> & ?)
  | H : matches (RRep _ _ _) _ _ |- _ => apply matches_rep_inv in H as (-> & ? & ? & ?)
  end.
