(* ===== verification/Externals.v ===== *)
(** * Interfaces of the third-party code the server calls

    Hashes, codecs, ciphers, signatures and identifiers come from crates whose
    source is not part of the repository.  Each is a class of operations; what
    the server relies on is a class of laws about them, stated from the
    documentation of the crate.  Fallible operations return [option]: the
    error values of these crates are only ever displayed. *)

From Stdlib Require Import Ascii Strings.Byte Init.Byte.
From S2P Require Import Prelude RustStr.

Definition bytes : Type := list Byte.byte.

(** [str::as_bytes]; a [str] is its UTF-8 bytes. *)
Definition as_bytes (s : string) : bytes := String.list_byte_of_string s.
Definition of_bytes (b : bytes) : string := String.string_of_list_byte b.

Lemma of_bytes_as_bytes s : of_bytes (as_bytes s) = s.
Proof. apply String.string_of_list_byte_of_string. Qed.

Lemma as_bytes_of_bytes b : as_bytes (of_bytes b) = b.
Proof. apply String.list_byte_of_string_of_list_byte. Qed.

#[global] Instance byte_eq_dec : EqDecision Byte.byte := Byte.byte_eq_dec.

(** ** Hashes: [sha2], [sha3] *)

Class HashOps := {
  sha256 : bytes → bytes;
  keccak256 : bytes → bytes;
}.

Class HashLaws `{HashOps} : Prop := {
  sha256_length b : length (sha256 b) = 32;
  keccak256_length b : length (keccak256 b) = 32;
}.

(** ** Codecs: [hex] and [base64] *)

Definition is_lower_hex (c : ascii) : bool :=
  ascii_is_digit c || ((97 <=? N_of_ascii c)%N && (N_of_ascii c <=? 102)%N).

Class HexOps := {
  hex_encode : bytes → string;
  hex_decode : string → option bytes;
}.

Class HexLaws `{HexOps} : Prop := {
  hex_encode_length b : String.length (hex_encode b) = 2 * length b;
  hex_encode_chars b : str_forallb is_lower_hex (hex_encode b) = true;
  hex_decode_encode b : hex_decode (hex_encode b) = Some b;
}.

(** ** DIDs: [relay_rpc::auth::did] *)

Class DidOps := {
  extract_did_data : string → string → option string;
  combine_did_data : string → string → string;
}.

Class DidLaws `{DidOps} : Prop := {
  extract_combine_did_data m d : extract_did_data (combine_did_data m d) m = Some d;
}.

(** ** Identifiers: [uuid]

    A [Uuid] is its 128-bit value; PostgreSQL compares uuids as big-endian
    bytes, that is, by value. *)

Abbreviation Uuid := N.

Class UuidOps := {
  uuid_parse_str : string → option Uuid;
  uuid_to_string : Uuid → string;
}.

Class UuidLaws `{UuidOps} : Prop := {
  uuid_parse_to_string u : uuid_parse_str (uuid_to_string u) = Some u;
  uuid_to_string_no_space u : no_char " " (uuid_to_string u) = true;
  uuid_to_string_nonempty u : uuid_to_string u ≠ EmptyString;
}.

(** ** [base64] engines [STANDARD], [STANDARD_NO_PAD] and [URL_SAFE_NO_PAD] *)

Definition b64_alnum (c : ascii) : bool :=
  ascii_is_lower c || ascii_is_upper c || ascii_is_digit c.
Definition b64_std_char (c : ascii) : bool :=
  b64_alnum c || Ascii.eqb "+" c || Ascii.eqb "/" c.
Definition b64_url_char (c : ascii) : bool :=
  b64_alnum c || Ascii.eqb "-" c || Ascii.eqb "_" c.

Class Base64Ops := {
  b64_std_encode : bytes → string;
  b64_std_decode : string → option bytes;
  b64_std_no_pad_decode : string → option bytes;
  b64_url_no_pad_encode : bytes → string;
  b64_url_no_pad_decode : string → option bytes;
}.

Class Base64Laws `{Base64Ops} : Prop := {
  b64_std_decode_encode b : b64_std_decode (b64_std_encode b) = Some b;
  b64_url_decode_encode b : b64_url_no_pad_decode (b64_url_no_pad_encode b) = Some b;
  b64_url_encode_chars b : str_forallb b64_url_char (b64_url_no_pad_encode b) = true;
  b64_std_no_pad_chars s b :
    b64_std_no_pad_decode s = Some b → str_forallb b64_std_char s = true;
  b64_alphabets_agree b :
    str_forallb b64_alnum (b64_url_no_pad_encode b) = true →
    b64_std_no_pad_decode (b64_url_no_pad_encode b) = Some b;
}.

(** ** Encryption: [chacha20poly1305], [x25519_dalek], [hkdf] *)

Class CipherOps := {
  aead_encrypt : bytes → bytes → bytes → option bytes;
  aead_decrypt : bytes → bytes → bytes → option bytes;
  x25519_public : bytes → bytes;
  diffie_hellman : bytes → bytes → bytes;
  hkdf_expand32 : bytes → option bytes;
}.

Class CipherLaws `{CipherOps} : Prop := {
  aead_encrypt_total k n m : is_Some (aead_encrypt k n m);
  aead_decrypt_encrypt k n m b : aead_encrypt k n m = Some b → aead_decrypt k n b = Some m;
  diffie_hellman_comm a b :
    diffie_hellman a (x25519_public b) = diffie_hellman b (x25519_public a);
  hkdf_expand32_total b : ∃ k, hkdf_expand32 b = Some k ∧ length k = 32;
  x25519_public_length k : length k = 32 → length (x25519_public k) = 32;
}.

(** ** Signatures: [ed25519_dalek], [jsonwebtoken::crypto], [relay_rpc::domain]

    Keys are their bytes.  [jwt_verify] takes the base64url text of the
    signature and fails when it cannot be read. *)

Class SigOps := {
  verifying_key : bytes → bytes;
  verifying_key_from_bytes : bytes → option bytes;
  ed_sign : bytes → bytes → bytes;
  jwt_verify : string → bytes → bytes → option bool;
  to_did_key : bytes → string;
  try_from_did_key : string → option bytes;
  client_id_to_string : bytes → string;
}.

Class SigLaws `{SigOps, Base64Ops} : Prop := {
  jwt_verify_sign sk m :
    jwt_verify (b64_url_no_pad_encode (ed_sign sk m)) m (verifying_key sk) = Some true;
  did_key_roundtrip k : try_from_did_key (to_did_key k) = Some k;
  verifying_key_valid k : length k = 32 →
    length (verifying_key k) = 32 ∧
    verifying_key_from_bytes (verifying_key k) = Some (verifying_key k);
}.

(** ** [serde_json] *)

Class Json (A : Type) := {
  to_json : A → option string;
  from_json : bytes → option A;
}.
Arguments to_json {A _} a.
Arguments from_json A {_} b.

Class JsonLaws (A : Type) `{Json A} : Prop := {
  to_json_total (a : A) : is_Some (to_json a);
  from_to_json (a : A) s : to_json a = Some s → from_json A (as_bytes s) = Some a;
}.

Inductive Value :=
| VNull | VBool (b : bool) | VNumber (n : string) | VString (s : string)
| VArray (l : list Value) | VObject (fields : list (string * Value)).

(** ** All of them *)

Class Ext := {
  ext_hash :: HashOps; ext_hex :: HexOps; ext_did :: DidOps; ext_uuid :: UuidOps;
  ext_base64 :: Base64Ops; ext_cipher :: CipherOps; ext_sig :: SigOps;
}.

(** ** [validator]: the text of a [ValidationErrors], given the fields that failed *)

Class ValidatorOps := { display_validation_errors : list string → string }.
