(* ===== verification/Concrete.v ===== *)
(** * Concrete instances of the third-party interfaces

    The witnesses of the development evaluate the server on concrete inputs,
    which needs every interface of [Externals] at a concrete function.  The
    hashes and codecs are the published algorithms, so that the test vectors of
    the repository can be replayed. *)

From Stdlib Require Import Ascii Strings.Byte Init.Byte.
From S2P Require Import Prelude RustStr Externals.

(** ** Machine words *)

Definition byte_N (b : Byte.byte) : N := Byte.to_N b.
Definition N_byte (n : N) : Byte.byte :=
  match Byte.of_N (n mod 256) with Some b => b | None => Byte.x00 end.
Definition wmask (w n : N) : N := N.land n (N.ones w).
Definition rotl (w k n : N) : N :=
  N.lor (wmask w (N.shiftl n k)) (N.shiftr n (w - k)).
Definition rotr (w k n : N) : N := rotl w (w - k) n.
Definition nthN (i : nat) (l : list N) : N := nth i l 0%N.

(** Bytes of a word, least significant first. *)
Fixpoint le_bytes (k : nat) (n : N) : bytes :=
  match k with 0 => [] | S k => N_byte n :: le_bytes k (n / 256)%N end.
Fixpoint le_word (l : bytes) : N :=
  match l with [] => 0%N | b :: l => (byte_N b + 256 * le_word l)%N end.
Definition be_bytes (k : nat) (n : N) : bytes := rev (le_bytes k n).
Definition be_word (l : bytes) : N := le_word (rev l).

Lemma le_bytes_length k : ∀ n, length (le_bytes k n) = k.
Proof. induction k; intros n; simpl; [done|]. by rewrite IHk. Qed.

Fixpoint chunks_fuel {A} (fuel n : nat) (l : list A) : list (list A) :=
  match fuel, l with
  | 0, _ | _, [] => []
  | S f, _ => take n l :: chunks_fuel f n (drop n l)
  end.

(** ** Keccak-256 *)

Definition keccak_rc : list N :=
  [ 1; 32898; 9223372036854808714;
    9223372039002292224; 32907; 2147483649;
    9223372039002292353; 9223372036854808585; 138;
    136; 2147516425; 2147483658;
    2147516555; 9223372036854775947; 9223372036854808713;
    9223372036854808579; 9223372036854808578; 9223372036854775936;
    32778; 9223372039002259466; 9223372039002292353;
    9223372036854808704; 2147483649; 9223372039002292232 ]%N.
Definition keccak_rot : list N :=
  [ 0; 1; 62; 28; 27; 36; 44; 6; 55; 20; 3; 10; 43;
    25; 39; 41; 45; 15; 21; 8; 18; 2; 61; 56; 14 ]%N.

(** The permuted state is [B[y, 2x+3y] := rot(A[x, y])]; position (u, v) comes
    from x = u + 3v, y = u. *)
Definition keccak_round (a : list N) (rc : N) : list N :=
  let c := (λ x, N.lxor (nthN x a) (N.lxor (nthN (x+5) a) (N.lxor (nthN (x+10) a)
                  (N.lxor (nthN (x+15) a) (nthN (x+20) a))))) <$> seq 0 5 in
  let d := (λ x, N.lxor (nthN ((x+4) mod 5) c) (rotl 64 1 (nthN ((x+1) mod 5) c))) <$> seq 0 5 in
  let a := (λ i, N.lxor (nthN i a) (nthN (i mod 5) d)) <$> seq 0 25 in
  let b := (λ i, let u := i mod 5 in let v := i / 5 in
                 let j := (u + 3 * v) mod 5 + 5 * u in
                 rotl 64 (nthN j keccak_rot) (nthN j a)) <$> seq 0 25 in
  let a := (λ i, let x := i mod 5 in let y := 5 * (i / 5) in
                 N.lxor (nthN i b)
                   (N.land (N.lxor (nthN ((x+1) mod 5 + y) b) (N.ones 64))
                           (nthN ((x+2) mod 5 + y) b))) <$> seq 0 25 in
  match a with [] => [] | x :: a => N.lxor x rc :: a end.

Definition keccak_f (a : list N) : list N := foldl keccak_round a keccak_rc.

Definition keccak_pad (m : bytes) : bytes :=
  let k := 136 - length m mod 136 in
  m ++ match k with
       | 1 => [Byte.x81]
       | _ => Byte.x01 :: replicate (k - 2) Byte.x00 ++ [Byte.x80]
       end.

Definition keccak256_impl (m : bytes) : bytes :=
  let blocks := chunks_fuel (S (length m)) 136 (keccak_pad m) in
  let absorb a blk :=
    let ws := le_word <$> chunks_fuel 17 8 blk in
    keccak_f ((λ i, N.lxor (nthN i a) (nthN i ws)) <$> seq 0 25) in
  let a := foldl absorb (replicate 25 0%N) blocks in
  le_bytes 8 (nthN 0 a) ++ le_bytes 8 (nthN 1 a)
    ++ le_bytes 8 (nthN 2 a) ++ le_bytes 8 (nthN 3 a).

(** ** SHA-256 *)

Definition sha256_k : list N :=
  [ 1116352408; 1899447441; 3049323471; 3921009573; 961987163; 1508970993;
    2453635748; 2870763221; 3624381080; 310598401; 607225278; 1426881987;
    1925078388; 2162078206; 2614888103; 3248222580; 3835390401; 4022224774;
    264347078; 604807628; 770255983; 1249150122; 1555081692; 1996064986;
    2554220882; 2821834349; 2952996808; 3210313671; 3336571891; 3584528711;
    113926993; 338241895; 666307205; 773529912; 1294757372; 1396182291;
    1695183700; 1986661051; 2177026350; 2456956037; 2730485921; 2820302411;
    3259730800; 3345764771; 3516065817; 3600352804; 4094571909; 275423344;
    430227734; 506948616; 659060556; 883997877; 958139571; 1322822218;
    1537002063; 1747873779; 1955562222; 2024104815; 2227730452; 2361852424;
    2428436474; 2756734187; 3204031479; 3329325298 ]%N.
Definition sha256_h : list N :=
  [ 1779033703; 3144134277; 1013904242; 2773480762;
    1359893119; 2600822924; 528734635; 1541459225 ]%N.

Definition add32 (a b : N) : N := wmask 32 (a + b).

Fixpoint sha256_schedule (fuel : nat) (w : list N) : list N :=
  match fuel with
  | 0 => w
  | S f =>
      let i := length w in
      let x := nthN (i - 15) w in let y := nthN (i - 2) w in
      let s0 := N.lxor (rotr 32 7 x) (N.lxor (rotr 32 18 x) (N.shiftr x 3)) in
      let s1 := N.lxor (rotr 32 17 y) (N.lxor (rotr 32 19 y) (N.shiftr y 10)) in
      sha256_schedule f (w ++ [add32 (add32 (nthN (i - 16) w) s0) (add32 (nthN (i - 7) w) s1)])
  end.

Definition sha256_step (s : list N) (kw : N * N) : list N :=
  match s with
  | [a; b; c; d; e; f; g; h] =>
      let s1 := N.lxor (rotr 32 6 e) (N.lxor (rotr 32 11 e) (rotr 32 25 e)) in
      let ch := N.lxor (N.land e f) (N.land (N.lxor e (N.ones 32)) g) in
      let t1 := add32 (add32 h s1) (add32 ch (add32 kw.1 kw.2)) in
      let s0 := N.lxor (rotr 32 2 a) (N.lxor (rotr 32 13 a) (rotr 32 22 a)) in
      let maj := N.lxor (N.land a b) (N.lxor (N.land a c) (N.land b c)) in
      [add32 t1 (add32 s0 maj); a; b; c; add32 d t1; e; f; g]
  | _ => s
  end.

Definition sha256_block (s : list N) (blk : bytes) : list N :=
  let w := sha256_schedule 48 (be_word <$> chunks_fuel 16 4 blk) in
  zip_with add32 s (foldl sha256_step s (zip sha256_k w)).

Definition sha256_pad (m : bytes) : bytes :=
  let k := (119 - length m mod 64) mod 64 in
  m ++ Byte.x80 :: replicate k Byte.x00 ++ be_bytes 8 (8 * N.of_nat (length m)).

Definition sha256_impl (m : bytes) : bytes :=
  let s := foldl sha256_block sha256_h (chunks_fuel (S (length m)) 64 (sha256_pad m)) in
  be_bytes 4 (nthN 0 s) ++ be_bytes 4 (nthN 1 s) ++ be_bytes 4 (nthN 2 s)
    ++ be_bytes 4 (nthN 3 s) ++ be_bytes 4 (nthN 4 s) ++ be_bytes 4 (nthN 5 s)
    ++ be_bytes 4 (nthN 6 s) ++ be_bytes 4 (nthN 7 s).

Lemma sha256_impl_length b : length (sha256_impl b) = 32.
Proof.
  unfold sha256_impl, be_bytes. cbv zeta.
  by rewrite !length_app, !length_rev, !le_bytes_length.
Qed.

Lemma keccak256_impl_length b : length (keccak256_impl b) = 32.
Proof. unfold keccak256_impl. cbv zeta. by rewrite !length_app, !le_bytes_length. Qed.

(** ** Base 64 *)

Definition b64_char (url : bool) (n : N) : ascii :=
  ascii_of_N (if (n <? 26)%N then n + 65
              else if (n <? 52)%N then n + 71
              else if (n <? 62)%N then n - 4
              else if (n =? 62)%N then (if url then 45 else 43)
              else (if url then 95 else 47)).

Definition b64_value (url : bool) (c : ascii) : option N :=
  let n := N_of_ascii c in
  if ascii_is_upper c then Some (n - 65)%N
  else if ascii_is_lower c then Some (n - 71)%N
  else if ascii_is_digit c then Some (n + 4)%N
  else if (n =? (if url then 45 else 43))%N then Some 62%N
  else if (n =? (if url then 95 else 47))%N then Some 63%N
  else None.

Fixpoint b64_encode (url pad : bool) (b : bytes) : string :=
  let ch := b64_char url in
  match b with
  | [] => ""
  | [x] =>
      let x := byte_N x in
      String (ch (x / 4)%N) (String (ch (16 * (x mod 4))%N) (if pad then "==" else ""))
  | [x; y] =>
      let x := byte_N x in let y := byte_N y in
      String (ch (x / 4)%N) (String (ch (16 * (x mod 4) + y / 16)%N)
        (String (ch (4 * (y mod 16))%N) (if pad then "=" else "")))
  | x :: y :: z :: b =>
      let r := b64_encode url pad b in
      let x := byte_N x in let y := byte_N y in let z := byte_N z in
      String (ch (x / 4)%N) (String (ch (16 * (x mod 4) + y / 16)%N)
        (String (ch (4 * (y mod 16) + z / 64)%N) (String (ch (z mod 64)%N) r)))
  end.

(** Non-zero trailing bits are refused, as the engines do by default. *)
Fixpoint b64_decode (url pad : bool) (s : string) : option bytes :=
  let v := b64_value url in
  let end1 a b :=
    x ← v a; y ← v b;
    if (y mod 16 =? 0)%N then Some [N_byte (4 * x + y / 16)] else None in
  let end2 a b c :=
    x ← v a; y ← v b; z ← v c;
    if (z mod 4 =? 0)%N then Some [N_byte (4 * x + y / 16); N_byte (16 * (y mod 16) + z / 4)]
    else None in
  match s with
  | EmptyString => Some []
  | String a (String b EmptyString) => if pad then None else end1 a b
  | String a (String b (String c EmptyString)) => if pad then None else end2 a b c
  | String a (String b (String c (String d s'))) =>
      if pad && String.eqb (String c (String d s')) "==" then end1 a b
      else if pad && String.eqb (String d s') "=" then end2 a b c
      else
        x ← v a; y ← v b; z ← v c; t ← v d; r ← b64_decode url pad s';
        Some (N_byte (4 * x + y / 16) :: N_byte (16 * (y mod 16) + z / 4)
                :: N_byte (64 * (z mod 4) + t) :: r)
  | _ => None
  end.

Fixpoint N_forall (f : N → bool) (k : nat) : bool :=
  match k with 0 => true | S k => f (N.of_nat k) && N_forall f k end.

Lemma N_forall_spec f k n : N_forall f k = true → (n < N.of_nat k)%N → f n = true.
Proof.
  induction k as [|k IH]; [lia|]. simpl. intros [H1 H2]%andb_prop Hn.
  destruct (decide (n = N.of_nat k)) as [->|]; [done|]. apply IH; [done|lia].
Qed.

Lemma b64_value_char url n : (n < 64)%N → b64_value url (b64_char url n) = Some n.
Proof.
  intros Hn.
  assert (H : N_forall (λ n, bool_decide (b64_value url (b64_char url n) = Some n)) 64 = true)
    by (by destruct url; vm_compute).
  eapply (N_forall_spec _ _ n) in H; [by apply bool_decide_eq_true in H|lia].
Qed.

Lemma b64_char_not_pad url n : (n < 64)%N → Ascii.eqb (b64_char url n) "=" = false.
Proof.
  intros Hn.
  assert (H : N_forall (λ n, negb (Ascii.eqb (b64_char url n) "=")) 64 = true)
    by (by destruct url; vm_compute).
  eapply (N_forall_spec _ _ n) in H; [by apply negb_true_iff in H|lia].
Qed.

Lemma byte_N_lt x : (byte_N x < 256)%N.
Proof. by destruct x. Qed.

Lemma N_byte_N x : N_byte (byte_N x) = x.
Proof. by destruct x. Qed.

Lemma b64_arith (x y z : N) : (x < 256 → y < 256 → z < 256 →
  x / 4 < 64 ∧ 16 * (x mod 4) < 64 ∧ 16 * (x mod 4) + y / 16 < 64 ∧ 4 * (y mod 16) < 64 ∧
  4 * (y mod 16) + z / 64 < 64 ∧ z mod 64 < 64 ∧
  (16 * (x mod 4)) mod 16 = 0 ∧ (4 * (y mod 16)) mod 4 = 0 ∧
  4 * (x / 4) + (16 * (x mod 4)) / 16 = x ∧
  4 * (x / 4) + (16 * (x mod 4) + y / 16) / 16 = x ∧
  16 * ((16 * (x mod 4) + y / 16) mod 16) + (4 * (y mod 16)) / 4 = y ∧
  16 * ((16 * (x mod 4) + y / 16) mod 16) + (4 * (y mod 16) + z / 64) / 4 = y ∧
  64 * ((4 * (y mod 16) + z / 64) mod 4) + z mod 64 = z)%N.
Proof. intros. split_and!; zify; Z.to_euclidean_division_equations; lia. Qed.

(** Induction three bytes at a time. *)
Lemma bytes_ind3 (P : bytes → Prop) :
  P [] → (∀ x, P [x]) → (∀ x y, P [x; y]) →
  (∀ x y z b, P b → P (x :: y :: z :: b)) → ∀ b, P b.
Proof.
  intros H0 H1 H2 H3. fix IH 1. intros [|x [|y [|z b]]]; [apply H0|apply H1|apply H2|apply H3, IH].
Qed.

Lemma b64_decode_encode url pad b : b64_decode url pad (b64_encode url pad b) = Some b.
Proof.
  induction b as [|x|x y|x y z b IH] using bytes_ind3; [done|..].
  - destruct (b64_arith (byte_N x) 0 0 (byte_N_lt x) eq_refl eq_refl)
      as (A1&A2&A3&A4&A5&A6&A7&A8&A9&A10&A11&A12&A13).
    destruct pad; cbn -[b64_value b64_char N.modulo N.div N.mul N.add N.eqb];
      rewrite !b64_value_char by done; cbn [mbind option_bind];
      by rewrite A7, A9, N_byte_N.
  - destruct (b64_arith (byte_N x) (byte_N y) 0 (byte_N_lt x) (byte_N_lt y) eq_refl)
      as (A1&A2&A3&A4&A5&A6&A7&A8&A9&A10&A11&A12&A13).
    destruct pad; cbn -[b64_value b64_char N.modulo N.div N.mul N.add N.eqb Ascii.eqb];
      rewrite ?b64_char_not_pad by done;
      rewrite !b64_value_char by done; cbn [mbind option_bind];
      by rewrite A8, A10, A11, !N_byte_N.
  - destruct (b64_arith (byte_N x) (byte_N y) (byte_N z) (byte_N_lt x) (byte_N_lt y) (byte_N_lt z))
      as (A1&A2&A3&A4&A5&A6&A7&A8&A9&A10&A11&A12&A13).
    change (b64_encode url pad (x :: y :: z :: b)) with
      (String (b64_char url (byte_N x / 4)%N)
        (String (b64_char url (16 * (byte_N x mod 4) + byte_N y / 16)%N)
        (String (b64_char url (4 * (byte_N y mod 16) + byte_N z / 64)%N)
        (String (b64_char url (byte_N z mod 64)%N) (b64_encode url pad b))))).
    cbn -[b64_value b64_char N.modulo N.div N.mul N.add N.eqb Ascii.eqb b64_encode].
    rewrite !b64_char_not_pad by done. cbn [andb]. rewrite !andb_false_r.
    rewrite !b64_value_char by done. cbn [mbind option_bind]. rewrite IH. cbn [mbind option_bind].
    by rewrite A10, A12, A13, !N_byte_N.
Qed.

Definition url_encode_chars_prop (n : N) : bool :=
  b64_url_char (b64_char true n) &&
  (negb (b64_alnum (b64_char true n)) || Ascii.eqb (b64_char true n) (b64_char false n)).

Lemma b64_char_url n : (n < 64)%N →
  b64_url_char (b64_char true n) = true ∧
  (b64_alnum (b64_char true n) = true → b64_char true n = b64_char false n).
Proof.
  intros Hn. assert (H : N_forall url_encode_chars_prop 64 = true) by (by vm_compute).
  eapply (N_forall_spec _ _ n) in H; [|lia]. unfold url_encode_chars_prop in H; cbv beta in H.
  apply andb_prop in H as [-> H]. split; [done|]. intros Ha. rewrite Ha in H.
  by apply Ascii.eqb_eq.
Qed.

Lemma b64_url_encode_props b :
  str_forallb b64_url_char (b64_encode true false b) = true ∧
  (str_forallb b64_alnum (b64_encode true false b) = true →
   b64_encode true false b = b64_encode false false b).
Proof.
  induction b as [|x|x y|x y z b IH] using bytes_ind3; [done|..].
  - destruct (b64_arith (byte_N x) 0 0 (byte_N_lt x) eq_refl eq_refl) as (A1&A2&_).
    cbn -[b64_char b64_url_char b64_alnum N.modulo N.div N.mul].
    destruct (b64_char_url _ A1) as [-> C1], (b64_char_url _ A2) as [-> C2].
    split; [done|]. intros [H1 H2]%andb_prop.
    rewrite andb_true_r in H2. by rewrite C1, C2.
  - destruct (b64_arith (byte_N x) (byte_N y) 0 (byte_N_lt x) (byte_N_lt y) eq_refl)
      as (A1&_&A2&A3&_).
    cbn -[b64_char b64_url_char b64_alnum N.modulo N.div N.mul N.add].
    destruct (b64_char_url _ A1) as [-> C1], (b64_char_url _ A2) as [-> C2],
      (b64_char_url _ A3) as [-> C3].
    split; [done|]. intros [H1 [H2 H3]%andb_prop]%andb_prop.
    rewrite andb_true_r in H3. by rewrite C1, C2, C3.
  - destruct (b64_arith (byte_N x) (byte_N y) (byte_N z) (byte_N_lt x) (byte_N_lt y) (byte_N_lt z))
      as (A1&_&A2&_&A3&A4&_).
    cbn -[b64_char b64_url_char b64_alnum N.modulo N.div N.mul N.add].
    destruct (b64_char_url _ A1) as [-> C1], (b64_char_url _ A2) as [-> C2],
      (b64_char_url _ A3) as [-> C3], (b64_char_url _ A4) as [-> C4].
    destruct IH as [-> IH]. split; [done|].
    intros [H1 [H2 [H3 [H4 H5]%andb_prop]%andb_prop]%andb_prop]%andb_prop.
    by rewrite C1, C2, C3, C4, IH.
Qed.

Lemma b64_value_std c n : b64_value false c = Some n → b64_std_char c = true.
Proof. by destruct c as [[][][][][][][][]]. Qed.

Lemma b64_std_decode_chars : ∀ k s b, String.length s ≤ k →
  b64_decode false false s = Some b → str_forallb b64_std_char s = true.
Proof.
  assert (Hv : ∀ c n, b64_value false c = Some n → b64_std_char c = true)
    by (intros; by eapply b64_value_std).
  induction k as [|k IH]; intros s b Hk; [by destruct s; simpl in *; [|lia]|].
  destruct s as [|c1 [|c2 [|c3 [|c4 s]]]]; [done|done|..];
    cbn -[b64_value b64_std_char N.modulo N.div N.mul N.add N.eqb].
  - destruct (b64_value false c1) eqn:E1; cbn [mbind option_bind]; [|done].
    destruct (b64_value false c2) eqn:E2; cbn [mbind option_bind]; [|done].
    by rewrite (Hv _ _ E1), (Hv _ _ E2).
  - destruct (b64_value false c1) eqn:E1; cbn [mbind option_bind]; [|done].
    destruct (b64_value false c2) eqn:E2; cbn [mbind option_bind]; [|done].
    destruct (b64_value false c3) eqn:E3; cbn [mbind option_bind]; [|done].
    by rewrite (Hv _ _ E1), (Hv _ _ E2), (Hv _ _ E3).
  - destruct (b64_value false c1) eqn:E1; cbn [mbind option_bind]; [|done].
    destruct (b64_value false c2) eqn:E2; cbn [mbind option_bind]; [|done].
    destruct (b64_value false c3) eqn:E3; cbn [mbind option_bind]; [|done].
    destruct (b64_value false c4) eqn:E4; cbn [mbind option_bind]; [|done].
    destruct (b64_decode false false s) eqn:E5; cbn [mbind option_bind]; [|done].
    rewrite (Hv _ _ E1), (Hv _ _ E2), (Hv _ _ E3), (Hv _ _ E4). intros _. cbn [andb].
    eapply IH; [|done]. simpl in Hk. lia.
Qed.

(** ** Identifiers as binary text *)

Fixpoint pos_to_string (p : positive) : string :=
  match p with
  | xH => "1"
  | xO p => String "0" (pos_to_string p)
  | xI p => String "1" (pos_to_string p)
  end.

Fixpoint pos_of_string (s : string) : option positive :=
  match s with
  | String c EmptyString => if Ascii.eqb c "1" then Some xH else None
  | String c s =>
      if Ascii.eqb c "0" then xO <$> pos_of_string s
      else if Ascii.eqb c "1" then xI <$> pos_of_string s
      else None
  | EmptyString => None
  end.

Lemma pos_to_string_nonempty p : pos_to_string p ≠ EmptyString.
Proof. by destruct p. Qed.

Lemma pos_of_to_string p : pos_of_string (pos_to_string p) = Some p.
Proof.
  induction p as [p IH|p IH|]; simpl; [| |done];
    (destruct (pos_to_string p) eqn:E; [by apply pos_to_string_nonempty in E|]);
    by rewrite IH.
Qed.

Lemma pos_to_string_no_space p : no_char " " (pos_to_string p) = true.
Proof. by induction p. Qed.

(** A value of a countable type as text. *)
Definition enc {A} `{Countable A} (a : A) : string := pos_to_string (encode a).
Definition dec {A} `{Countable A} (s : string) : option A := pos_of_string s ≫= decode.

Lemma dec_enc {A} `{Countable A} (a : A) : dec (enc a) = Some a.
Proof. unfold dec, enc. rewrite pos_of_to_string. apply decode_encode. Qed.

(** ** A cipher that seals under its key and nonce, and the like *)

Definition seal (k n m : bytes) : bytes := k ++ n ++ m.
Definition unseal (k n b : bytes) : option bytes :=
  if decide (take (length (k ++ n)) b = k ++ n) then Some (drop (length (k ++ n)) b) else None.
Definition xor_bytes (a b : bytes) : bytes :=
  zip_with (λ x y, N_byte (N.lxor (byte_N x) (byte_N y))) a b.

Lemma unseal_seal k n m : unseal k n (seal k n m) = Some m.
Proof.
  unfold seal, unseal. rewrite app_assoc.
  rewrite take_app_length, drop_app_length. by rewrite decide_True.
Qed.

Lemma xor_bytes_comm a b : xor_bytes a b = xor_bytes b a.
Proof.
  revert b. induction a as [|x a IH]; intros [|y b]; [done..|].
  change (xor_bytes (x :: a) (y :: b))
    with (N_byte (N.lxor (byte_N x) (byte_N y)) :: xor_bytes a b).
  by rewrite N.lxor_comm, IH.
Qed.

(** ** Hexadecimal *)

Definition hex_digit (n : N) : ascii :=
  ascii_of_N (if (n <? 10)%N then n + 48 else n + 87).

Definition hex_value (c : ascii) : option N :=
  let n := N_of_ascii c in
  if ascii_is_digit c then Some (n - 48)%N
  else if ((97 <=? n) && (n <=? 102))%N then Some (n - 87)%N
  else if ((65 <=? n) && (n <=? 70))%N then Some (n - 55)%N
  else None.

Definition hex_byte (b : Byte.byte) : string :=
  String (hex_digit (byte_N b / 16)) (String (hex_digit (byte_N b mod 16)) EmptyString).

Fixpoint hex_encode_impl (b : bytes) : string :=
  match b with [] => EmptyString | x :: b => hex_byte x +:+ hex_encode_impl b end.

Fixpoint hex_decode_impl (s : string) : option bytes :=
  match s with
  | EmptyString => Some []
  | String c (String d s) =>
      x ← hex_value c; y ← hex_value d; l ← hex_decode_impl s;
      Some (N_byte (16 * x + y) :: l)
  | _ => None
  end.

Lemma hex_encode_cons x b : hex_encode_impl (x :: b) =
  String (hex_digit (byte_N x / 16)) (String (hex_digit (byte_N x mod 16)) (hex_encode_impl b)).
Proof. done. Qed.

Lemma hex_digit_ok x :
  is_lower_hex (hex_digit (byte_N x / 16)) = true ∧
  is_lower_hex (hex_digit (byte_N x mod 16)) = true ∧
  hex_value (hex_digit (byte_N x / 16)) = Some (byte_N x / 16)%N ∧
  hex_value (hex_digit (byte_N x mod 16)) = Some (byte_N x mod 16)%N ∧
  N_byte (16 * (byte_N x / 16) + byte_N x mod 16) = x.
Proof. by destruct x. Qed.

(** ** The instances *)

Definition concrete_hash : HashOps :=
  {| sha256 := sha256_impl; keccak256 := keccak256_impl |}.

Definition concrete_hex : HexOps :=
  {| hex_encode := hex_encode_impl; hex_decode := hex_decode_impl |}.

Definition concrete_did : DidOps :=
  {| extract_did_data did method := strip_prefix ("did:" +:+ method +:+ ":") did;
     combine_did_data method data := "did:" +:+ method +:+ ":" +:+ data |}.

Definition concrete_base64 : Base64Ops :=
  {| b64_std_encode := b64_encode false true;
     b64_std_decode := b64_decode false true;
     b64_std_no_pad_decode := b64_decode false false;
     b64_url_no_pad_encode := b64_encode true false;
     b64_url_no_pad_decode := b64_decode true false |}.

Definition concrete_uuid : UuidOps :=
  {| uuid_parse_str s := Pos.pred_N <$> pos_of_string s;
     uuid_to_string u := pos_to_string (N.succ_pos u) |}.

Definition concrete_cipher : CipherOps :=
  {| aead_encrypt k n m := Some (seal k n m);
     aead_decrypt := unseal;
     x25519_public s := s;
     diffie_hellman := xor_bytes;
     hkdf_expand32 b := Some (sha256_impl b) |}.

Definition concrete_sig : SigOps :=
  {| verifying_key sk := sk;
     verifying_key_from_bytes k := if decide (length k = 32) then Some k else None;
     ed_sign sk m := sk ++ sha256_impl m;
     jwt_verify s m vk :=
       sig ← b64_decode true false s; Some (bool_decide (sig = vk ++ sha256_impl m));
     to_did_key k := "did:key:" +:+ hex_encode_impl k;
     try_from_did_key s := strip_prefix "did:key:" s ≫= hex_decode_impl;
     client_id_to_string := hex_encode_impl |}.

Module Instances.

#[export] Instance concrete_ext : Ext :=
  {| ext_hash := concrete_hash; ext_hex := concrete_hex; ext_did := concrete_did;
     ext_uuid := concrete_uuid; ext_base64 := concrete_base64;
     ext_cipher := concrete_cipher; ext_sig := concrete_sig |}.

#[export] Instance concrete_hash_laws : HashLaws.
Proof.
  split; intros b; [apply sha256_impl_length|apply keccak256_impl_length].
Qed.

#[export] Instance concrete_hex_laws : HexLaws.
Proof.
  split; intros b; cbn [hex_encode hex_decode concrete_hex concrete_ext ext_hash ext_hex ext_did ext_uuid ext_base64 ext_cipher ext_sig];
    (induction b as [|x b IH]; [done|]); rewrite hex_encode_cons;
    destruct (hex_digit_ok x) as (H1 & H2 & H3 & H4 & H5).
  - cbn [String.length length]. rewrite IH. lia.
  - cbn [str_forallb]. by rewrite H1, H2, IH.
  - cbn [hex_decode_impl]. rewrite H3. cbn [mbind option_bind].
    rewrite H4. cbn [mbind option_bind]. by rewrite IH, H5.
Qed.

#[export] Instance concrete_did_laws : DidLaws.
Proof.
  split. intros m d. cbn [extract_did_data combine_did_data concrete_did concrete_ext ext_hash ext_hex ext_did ext_uuid ext_base64 ext_cipher ext_sig].
  rewrite <-(strip_prefix_app ("did:" +:+ m +:+ ":") d). f_equal. by rewrite !str_app_assoc.
Qed.

#[export] Instance concrete_base64_laws : Base64Laws.
Proof.
  split; cbn -[b64_encode b64_decode].
  - apply b64_decode_encode.
  - apply b64_decode_encode.
  - intros b. apply b64_url_encode_props.
  - intros s b. by apply b64_std_decode_chars with (k := String.length s).
  - intros b Hb. rewrite (proj2 (b64_url_encode_props b) Hb). apply b64_decode_encode.
Qed.

#[export] Instance concrete_uuid_laws : UuidLaws.
Proof.
  split; intros u; cbn [uuid_parse_str uuid_to_string concrete_uuid concrete_ext ext_hash ext_hex ext_did ext_uuid ext_base64 ext_cipher ext_sig].
  - rewrite pos_of_to_string. simpl. by rewrite N.pos_pred_succ.
  - apply pos_to_string_no_space.
  - apply pos_to_string_nonempty.
Qed.

#[export] Instance concrete_cipher_laws : CipherLaws.
Proof.
  split; cbn [aead_encrypt aead_decrypt diffie_hellman hkdf_expand32 x25519_public concrete_cipher concrete_ext ext_hash ext_hex ext_did ext_uuid ext_base64 ext_cipher ext_sig].
  - intros. by eexists.
  - intros k n m b [= <-]. apply unseal_seal.
  - apply xor_bytes_comm.
  - intros b. eexists. split; [done|]. apply sha256_impl_length.
  - done.
Qed.

#[export] Instance concrete_sig_laws : SigLaws.
Proof.
  split; cbn [jwt_verify b64_url_no_pad_encode ed_sign verifying_key try_from_did_key
    to_did_key concrete_sig concrete_base64 concrete_ext ext_hash ext_hex ext_did ext_uuid ext_base64 ext_cipher ext_sig].
  - intros sk m. rewrite b64_decode_encode. cbn [mbind option_bind].
    by rewrite bool_decide_true.
  - intros k. rewrite strip_prefix_app. cbn [mbind option_bind].
    exact (hex_decode_encode k).
  - intros k Hk. cbn. by rewrite decide_True.
Qed.

#[export] Instance concrete_validator : ValidatorOps :=
  {| display_validation_errors := join ", " |}.

End Instances.

(** ** A codec for records

    A record is the list of the texts of its fields, each in hexadecimal. *)

Class Fields (A : Type) := {
  to_fields : A → list string;
  of_fields : list string → option A;
  of_to_fields a : of_fields (to_fields a) = Some a;
  to_fields_nonempty a : to_fields a ≠ [];
}.

Definition fields_json {A} `{Fields A} : Json A :=
  {| to_json a := Some (join "g" ((λ s, hex_encode_impl (as_bytes s)) <$> to_fields a));
     from_json b :=
       l ← mapM (λ s, of_bytes <$> hex_decode_impl s) (split_char "g" (of_bytes b));
       of_fields l |}.

Section fields_json.
Import Instances.

Lemma fields_json_laws {A} `{Fields A} : JsonLaws A (H:=fields_json).
Proof.
  split; intros a; cbn [to_json from_json fields_json]; [by eexists|].
  intros s [= <-]. rewrite of_bytes_as_bytes.
  rewrite split_char_join.
  - rewrite (proj2 (mapM_Some _ _ (to_fields a))); [apply of_to_fields|].
    apply Forall2_fmap_l, Forall_Forall2_diag, Forall_true. intros t.
    pose proof (hex_decode_encode (as_bytes t)) as Hd.
    change (hex_decode_impl (hex_encode_impl (as_bytes t)) = Some (as_bytes t)) in Hd.
    unfold compose. rewrite Hd. cbn. by rewrite of_bytes_as_bytes.
  - intros Hn%fmap_nil_inv. by apply to_fields_nonempty in Hn.
  - apply Forall_fmap, Forall_true. intros t.
    refine (str_forallb_impl is_lower_hex _ _ _ (hex_encode_chars (as_bytes t))).
    intros c Hc. apply negb_true_iff, Ascii.eqb_neq. intros <-. by vm_compute in Hc.
Qed.
End fields_json.

