(* ===== verification/AccountId.v ===== *)
(** * CAIP-10 account identifiers (model/types/account_id/, utils.rs)

    The patterns, the ERC-55 checksum and the validation of an account, the
    [AccountId] newtype with its conversions, and the address comparison the
    authorization checks use. *)

From Stdlib Require Import Ascii.
From S2P Require Import Prelude RustStr Regex Externals Concrete.

(** ** Patterns *)

Definition cls (l : string) (c : ascii) : bool := negb (no_char c l).
Definition lower_digit (c : ascii) : bool := ascii_is_lower c || ascii_is_digit c.
Definition alnum (c : ascii) : bool :=
  ascii_is_lower c || ascii_is_upper c || ascii_is_digit c.

Definition PATTERN : re :=
  RSeq (RCap (RRep (λ c, cls "-" c || lower_digit c) 3 (Some 8)))
  (RSeq (RChr ":")
  (RSeq (RCap (RRep (λ c, cls "-_" c || alnum c) 1 (Some 32)))
  (RSeq (RChr ":")
        (RCap (RRep (λ c, cls "-.%" c || alnum c) 1 (Some 128)))))).

(** [\d] also accepts the other Unicode decimal digits; a reference that
    reaches this pattern has passed [PATTERN] and is ASCII. *)
Definition REFERENCE_PATTERN : re := RPlus ascii_is_digit.

Definition is_hex_digit (c : ascii) : bool :=
  ascii_is_digit c
  || ((97 <=? N_of_ascii c)%N && (N_of_ascii c <=? 102)%N)
  || ((65 <=? N_of_ascii c)%N && (N_of_ascii c <=? 70)%N).

Definition ADDRESS_PATTERN : re :=
  RSeq (RChr "0") (RSeq (RChr "x") (RCap (RRep is_hex_digit 40 (Some 40)))).

Definition NAMESPACE_EIP155 : string := "eip155".

(** ** Errors *)

Inductive Eip155ReferenceError := Eip155ReferenceError_Regex.
Inductive Eip155AddressError := Eip155AddressError_Regex | Eip155AddressError_Erc55.
Inductive Eip155Error :=
| Eip155Error_Reference (e : Eip155ReferenceError)
| Eip155Error_Address (e : Eip155AddressError).
Inductive Caip10Error :=
| Caip10Error_Invalid
| Caip10Error_UnsupportedNamespace
| Caip10Error_Eip155 (e : Eip155Error).
Inductive AccountIdParseError :=
| AccountIdParseError_Caip10 (e : Caip10Error)
| AccountIdParseError_Did.

#[global] Instance Eip155ReferenceError_eq_dec : EqDecision Eip155ReferenceError.
Proof. solve_decision. Defined.
#[global] Instance Eip155AddressError_eq_dec : EqDecision Eip155AddressError.
Proof. solve_decision. Defined.
#[global] Instance Eip155Error_eq_dec : EqDecision Eip155Error.
Proof. solve_decision. Defined.
#[global] Instance Caip10Error_eq_dec : EqDecision Caip10Error.
Proof. solve_decision. Defined.
#[global] Instance AccountIdParseError_eq_dec : EqDecision AccountIdParseError.
Proof. solve_decision. Defined.

(** ** The identifier *)

Record AccountId := mkAccountId { account_str : string }.

#[global] Instance AccountId_eq_dec : EqDecision AccountId.
Proof. solve_decision. Defined.
#[global] Program Instance AccountId_countable : Countable AccountId :=
  inj_countable' account_str mkAccountId _.
Next Obligation. by intros []. Qed.

Section account_id.
Context `{HashOps, HexOps, DidOps}.

(** [None]: the index into the hash is out of range, a panic. *)
Fixpoint erc_55_chars (address_hash : string) (i : nat) (s : string) : option string :=
  match s with
  | EmptyString => Some EmptyString
  | String c s =>
      c' ← (if ascii_is_digit c then Some c
            else h ← String.get i address_hash;
                 Some (if (N_of_ascii "7" <? N_of_ascii h)%N then ascii_to_upper c else c));
      String c' <$> erc_55_chars address_hash (S i) s
  end.

Definition erc_55_checksum_encode (s : string) : option string :=
  erc_55_chars (hex_encode (keccak256 (as_bytes s))) 0 s.

Definition validate_eip155_reference (reference : string)
    : outcome Eip155ReferenceError () :=
  if is_match REFERENCE_PATTERN reference then Ok () else Err Eip155ReferenceError_Regex.

Definition validate_eip155_address (address : string) : outcome Eip155AddressError () :=
  match captures ADDRESS_PATTERN address with
  | Some [address_hex] =>
      erc55 ← unwrap (erc_55_checksum_encode (to_ascii_lowercase address_hex));
      if String.eqb erc55 address_hex then Ok () else Err Eip155AddressError_Erc55
  | Some _ => Panic
  | None => Err Eip155AddressError_Regex
  end.

Definition validate_eip155 (reference address : string) : outcome Eip155Error () :=
  map_err Eip155Error_Reference (validate_eip155_reference reference) ;;
  map_err Eip155Error_Address (validate_eip155_address address) ;;
  Ok ().

Definition validate_caip_10 (s : string) : outcome Caip10Error () :=
  match captures PATTERN s with
  | Some [namespace; reference; address] =>
      if String.eqb namespace NAMESPACE_EIP155
      then map_err Caip10Error_Eip155 (validate_eip155 reference address)
      else Err Caip10Error_UnsupportedNamespace
  | Some _ => Panic
  | None => Err Caip10Error_Invalid
  end.

(** [TryFrom<&str> for AccountId]. *)
Definition try_from_account (s : string) : outcome Caip10Error AccountId :=
  validate_caip_10 s ;; Ok (mkAccountId s).

Definition DID_METHOD_PKH : string := "pkh".

Definition from_did_pkh (did : string) : outcome AccountIdParseError AccountId :=
  s ← ok_or (extract_did_data did DID_METHOD_PKH) AccountIdParseError_Did;
  map_err AccountIdParseError_Caip10 (try_from_account s).

Definition to_did_pkh (a : AccountId) : string :=
  combine_did_data DID_METHOD_PKH (account_str a).

End account_id.

(** ** Addresses (utils.rs) *)

(** [None]: the slice or the [expect] panics. *)
Definition get_address_from_account (account : AccountId) : option string :=
  let s := account_str account in
  let known_skippable_prefix_len := String.length "eip155:1" in
  tail ← str_from known_skippable_prefix_len s;
  i ← find_char ":" tail;
  str_from (known_skippable_prefix_len + i + 1) s.

Definition is_same_address {E} (account1 account2 : AccountId) : outcome E bool :=
  a1 ← unwrap (get_address_from_account account1);
  a2 ← unwrap (get_address_from_account account2);
  Ok (eq_ignore_ascii_case a1 a2).

(** The SQL function [get_address_lower]: [lower(split_part(account, ':', 3))]. *)
Definition get_address_lower (account : string) : string :=
  to_ascii_lowercase (default EmptyString (split_char ":" account !! 2)).

(** ** What the patterns accept *)

Lemma no_char_cls (f : ascii → bool) c s :
  f c = false → str_forallb f s = true → no_char c s = true.
Proof.
  intros Hc. apply str_forallb_impl. intros d Hd.
  destruct (Ascii.eqb_spec c d); naive_solver.
Qed.

Lemma PATTERN_captures s c :
  captures PATTERN s = Some c ↔
  ∃ ns rf ad, c = [ns; rf; ad] ∧ s = ns +:+ ":" +:+ rf +:+ ":" +:+ ad ∧
    (str_forallb (λ c, cls "-" c || lower_digit c) ns = true ∧
      3 ≤ String.length ns ≤ 8) ∧
    (str_forallb (λ c, cls "-_" c || alnum c) rf = true ∧
      1 ≤ String.length rf ≤ 32) ∧
    (str_forallb (λ c, cls "-.%" c || alnum c) ad = true ∧
      1 ≤ String.length ad ≤ 128).
Proof.
  assert (Hinv : ∀ c, matches PATTERN s c → ∃ ns rf ad, c = [ns; rf; ad] ∧
    s = ns +:+ ":" +:+ rf +:+ ":" +:+ ad ∧
    (str_forallb (λ c, cls "-" c || lower_digit c) ns = true ∧
      3 ≤ String.length ns ≤ 8) ∧
    (str_forallb (λ c, cls "-_" c || alnum c) rf = true ∧
      1 ≤ String.length rf ≤ 32) ∧
    (str_forallb (λ c, cls "-.%" c || alnum c) ad = true ∧
      1 ≤ String.length ad ≤ 128)).
  { intros c' Hm. unfold PATTERN in Hm. inv_matches. do 3 eexists.
    split; [done|]. split; [done|]. split_and!; auto. }
  split; [by intros ?%captures_sound%Hinv|].
  intros (ns & rf & ad & -> & -> & (Hn & ?) & (Hr & ?) & (Ha & ?)).
  assert (matches PATTERN (ns +:+ ":" +:+ rf +:+ ":" +:+ ad) [ns; rf; ad]) as Hm.
  { change [ns; rf; ad] with ([ns] ++ [] ++ [rf] ++ [] ++ [ad]).
    repeat (apply matches_seq || apply matches_chr || apply matches_cap);
      (apply matches_rep; [done|lia|intros ? [= <-]; lia]). }
  destruct (captures_complete _ _ _ Hm) as [c' Hc']. rewrite Hc'.
  apply captures_sound in Hc'. apply Hinv in Hc'
    as (ns' & rf' & ad' & -> & Heq & (Hn' & _) & (Hr' & _) & (Ha' & _)).
  apply (no_char_cls _ ":") in Hn, Hr, Hn', Hr'; [|done..].
  rewrite !str_app_cons, !str_app_nil_l in Heq.
  apply app_sep_inj in Heq as [-> Heq]; [|done..].
  apply app_sep_inj in Heq as [-> ->]; done.
Qed.

Lemma ADDRESS_PATTERN_captures s c :
  captures ADDRESS_PATTERN s = Some c ↔
  ∃ h, c = [h] ∧ s = "0x" +:+ h ∧ str_forallb is_hex_digit h = true ∧ String.length h = 40.
Proof.
  assert (Hinv : ∀ c, matches ADDRESS_PATTERN s c →
    ∃ h, c = [h] ∧ s = "0x" +:+ h ∧ str_forallb is_hex_digit h = true ∧ String.length h = 40).
  { intros c' Hm. unfold ADDRESS_PATTERN in Hm. inv_matches. eexists. split; [done|].
    split; [done|]. split; [done|].
    match goal with H : ∀ n, Some 40 = Some n → _ |- _ => specialize (H 40 eq_refl) end. lia. }
  split; [by intros ?%captures_sound%Hinv|].
  intros (h & -> & -> & Hh & Hl).
  assert (matches ADDRESS_PATTERN ("0x" +:+ h) [h]) as Hm.
  { change [h] with ([] ++ [] ++ [h]). change ("0x" +:+ h) with ("0" +:+ ("x" +:+ h)).
    repeat (apply matches_seq || apply matches_chr || apply matches_cap).
    apply matches_rep; [done|lia|intros ? [= <-]; lia]. }
  destruct (captures_complete _ _ _ Hm) as [c' Hc']. rewrite Hc'.
  apply captures_sound in Hc'. apply Hinv in Hc' as (h' & -> & Heq & _).
  by apply str_app_inj_l in Heq as ->.
Qed.

Lemma REFERENCE_PATTERN_match s :
  is_match REFERENCE_PATTERN s = true ↔ str_forallb ascii_is_digit s = true ∧ s ≠ "".
Proof.
  rewrite is_match_spec. unfold REFERENCE_PATTERN, RPlus. split.
  - intros [c Hc]. inv_matches. split; [done|]. intros ->. simpl in *. lia.
  - intros [Hd Hne]. exists []. apply matches_rep; [done| |done].
    destruct s; [done|]. simpl. lia.
Qed.

(** ** Validation *)

Section validation.
Context `{HashOps, HexOps, DidOps}.

(** The shape of a valid account. *)
Definition well_formed (s : string) : Prop :=
  ∃ rf h, s = "eip155:" +:+ rf +:+ ":0x" +:+ h ∧
    str_forallb ascii_is_digit rf = true ∧ 1 ≤ String.length rf ≤ 32 ∧
    str_forallb is_hex_digit h = true ∧ String.length h = 40 ∧
    erc_55_checksum_encode (to_ascii_lowercase h) = Some h.

Lemma validate_eip155_address_Ok a :
  validate_eip155_address a = Ok () ↔
  ∃ h, a = "0x" +:+ h ∧ str_forallb is_hex_digit h = true ∧ String.length h = 40 ∧
    erc_55_checksum_encode (to_ascii_lowercase h) = Some h.
Proof.
  unfold validate_eip155_address. destruct (captures ADDRESS_PATTERN a) as [c|] eqn:E.
  - apply ADDRESS_PATTERN_captures in E as (h & -> & -> & ? & ?).
    rewrite outcome_bind_Ok. split.
    + intros (e & He%unwrap_Ok & Hb). destruct (String.eqb_spec e h); [subst|done]. eauto.
    + intros (h' & Heq & ? & ? & ?). apply str_app_inj_l in Heq as <-.
      exists h. split; [by apply unwrap_Ok|]. by rewrite String.eqb_refl.
  - split; [done|]. intros (h & -> & ? & ? & ?).
    assert (captures ADDRESS_PATTERN ("0x" +:+ h) = Some [h]) as E'.
    { apply ADDRESS_PATTERN_captures. eauto. }
    congruence.
Qed.

Lemma validate_eip155_Ok rf ad :
  validate_eip155 rf ad = Ok () ↔
  (str_forallb ascii_is_digit rf = true ∧ rf ≠ "") ∧ validate_eip155_address ad = Ok ().
Proof.
  unfold validate_eip155, validate_eip155_reference. rewrite <-REFERENCE_PATTERN_match.
  destruct (is_match REFERENCE_PATTERN rf); simpl; [|naive_solver].
  destruct (validate_eip155_address ad) as [[]|e|]; simpl; naive_solver.
Qed.

Lemma digits_alnum s :
  str_forallb ascii_is_digit s = true →
  str_forallb (λ c, cls "-_" c || alnum c) s = true.
Proof. apply str_forallb_impl. intros c Hc. unfold alnum. rewrite Hc. by rewrite !orb_true_r. Qed.

Lemma hex_alnum s :
  str_forallb is_hex_digit s = true →
  str_forallb (λ c, cls "-.%" c || alnum c) s = true.
Proof. apply str_forallb_impl. intros c. by destruct c as [[][][][][][][][]]. Qed.

Lemma validate_caip_10_well_formed s : validate_caip_10 s = Ok () ↔ well_formed s.
Proof.
  unfold validate_caip_10. split.
  - destruct (captures PATTERN s) as [c|] eqn:E; [|done].
    apply PATTERN_captures in E as (ns & rf & ad & -> & -> & _ & (_ & ?) & _).
    destruct (String.eqb_spec ns NAMESPACE_EIP155) as [->|]; [|done].
    intros Hv%map_err_Ok. apply validate_eip155_Ok in Hv as [[Hd Hne] Ha].
    apply validate_eip155_address_Ok in Ha as (h & -> & ? & ? & ?).
    exists rf, h. split_and!; (done || lia).
  - intros (rf & h & -> & Hd & Hlen & Hh & Hlh & Hchk).
    assert (captures PATTERN ("eip155:" +:+ rf +:+ ":0x" +:+ h)
            = Some ["eip155"; rf; "0x" +:+ h]) as ->.
    { apply PATTERN_captures. exists "eip155", rf, ("0x" +:+ h).
      split_and!; try done; simpl; try lia.
      - by apply digits_alnum.
      - by rewrite str_app_nil_l, hex_alnum.
      - rewrite str_app_nil_l. lia. }
    cbn [String.eqb Ascii.eqb Bool.eqb NAMESPACE_EIP155].
    apply map_err_Ok, validate_eip155_Ok. split; [split; [done|]|].
    + intros ->. simpl in Hlen. lia.
    + apply validate_eip155_address_Ok. eauto.
Qed.

Definition valid_account (a : AccountId) : Prop := validate_caip_10 (account_str a) = Ok ().

Lemma try_from_account_Ok s a :
  try_from_account s = Ok a ↔ a = mkAccountId s ∧ valid_account a.
Proof.
  unfold try_from_account, valid_account. rewrite outcome_bind_Ok. split.
  - intros ([] & Hv & [= <-]). done.
  - intros [-> Hv]. exists (). done.
Qed.

Lemma get_address_split p m t :
  String.length p = 8 → no_char ":" m = true →
  get_address_from_account (mkAccountId (p +:+ (m +:+ String ":" t))) = Some t.
Proof.
  intros Hp Hm. unfold get_address_from_account. cbn [account_str].
  change (String.length "eip155:1") with 8. rewrite <-Hp, str_from_app.
  cbn [mbind option_bind]. rewrite find_char_app by done. cbn [mbind option_bind].
  replace (String.length p + String.length m + 1) with (String.length (p +:+ (m +:+ ":")))
    by (rewrite !str_length_app; simpl; lia).
  replace (p +:+ (m +:+ String ":" t)) with ((p +:+ (m +:+ ":")) +:+ t)
    by (by rewrite !str_app_assoc).
  apply str_from_app.
Qed.

(** The reference and the address of a valid account. *)
Lemma valid_account_address a :
  valid_account a →
  ∃ rf h, account_str a = "eip155:" +:+ rf +:+ ":0x" +:+ h ∧
    no_char ":" rf = true ∧ no_char ":" h = true ∧
    erc_55_checksum_encode (to_ascii_lowercase h) = Some h ∧
    get_address_from_account a = Some ("0x" +:+ h) ∧
    get_address_lower (account_str a) = to_ascii_lowercase ("0x" +:+ h).
Proof.
  unfold valid_account. intros (rf & h & Ha & Hrf & Hl & Hh & Hlh & Hchk)%validate_caip_10_well_formed.
  pose proof (no_char_cls _ ":" _ eq_refl Hrf) as Hrf'.
  pose proof (no_char_cls _ ":" _ eq_refl Hh) as Hh'.
  exists rf, h. split_and!; try done.
  - destruct a as [a]. simpl in Ha. subst a.
    destruct rf as [|r rf]; [simpl in Hl; lia|].
    simpl in Hrf'. apply andb_prop in Hrf' as [_ Hrf'].
    by apply (get_address_split ("eip155:" +:+ String r "") rf ("0x" +:+ h)).
  - unfold get_address_lower. rewrite Ha.
    change ("eip155:" +:+ rf +:+ ":0x" +:+ h)
      with ("eip155" +:+ String ":" (rf +:+ String ":" ("0x" +:+ h))).
    rewrite split_char_app by done. rewrite split_char_app by done.
    rewrite split_char_no_sep; [done|]. simpl. done.
Qed.
End validation.

Section account_theorems.
Context `{!HashOps, !HexOps, !DidOps, !HashLaws, !HexLaws, !DidLaws}.

Lemma string_get_lt s : ∀ i, i < String.length s → is_Some (String.get i s).
Proof.
  induction s as [|c s IH]; intros i Hi; simpl in *; [lia|].
  destruct i; [by eexists|]. apply IH. lia.
Qed.

Lemma erc_55_chars_total hash s : ∀ i,
  i + String.length s ≤ String.length hash → is_Some (erc_55_chars hash i s).
Proof.
  induction s as [|c s IH]; intros i Hi; [by eexists|]. simpl in *.
  destruct (string_get_lt hash i) as [x Hx]; [lia|]. rewrite Hx.
  destruct (IH (S i)) as [t Ht]; [lia|].
  destruct (ascii_is_digit c); simpl; rewrite Ht; by eexists.
Qed.

Lemma erc_55_checksum_encode_total s :
  String.length s ≤ 64 → is_Some (erc_55_checksum_encode s).
Proof.
  intros Hs. apply erc_55_chars_total. rewrite hex_encode_length, keccak256_length. lia.
Qed.

Lemma validate_eip155_no_panic rf ad : no_panic (validate_eip155 rf ad).
Proof.
  unfold validate_eip155, validate_eip155_reference, validate_eip155_address.
  destruct (is_match REFERENCE_PATTERN rf); simpl; [|done].
  destruct (captures ADDRESS_PATTERN ad) as [c|] eqn:E; simpl; [|done].
  apply ADDRESS_PATTERN_captures in E as (h & -> & -> & Hh & Hl).
  destruct (erc_55_checksum_encode_total (to_ascii_lowercase h)) as [e He].
  { unfold to_ascii_lowercase. rewrite str_length_map. lia. }
  rewrite He. simpl. by destruct (String.eqb e h).
Qed.

Lemma validate_caip_10_no_panic s : no_panic (validate_caip_10 s).
Proof.
  unfold validate_caip_10. destruct (captures PATTERN s) as [c|] eqn:E; [|done].
  apply PATTERN_captures in E as (ns & rf & ad & -> & _).
  destruct (String.eqb ns NAMESPACE_EIP155); [|done].
  apply no_panic_map_err, validate_eip155_no_panic.
Qed.

(** C16. [validate_caip_10] never panics, whatever the text, and accepts exactly
    the accounts of the shape eip155:reference:0x-address whose reference is
    1 to 32 digits and whose 40 hex digits carry the ERC-55 checksum of their
    lower-case form. *)
Theorem validate_caip_10_correct s :
  no_panic (validate_caip_10 s) ∧ (validate_caip_10 s = Ok () ↔ well_formed s).
Proof.
  split; [apply validate_caip_10_no_panic|apply validate_caip_10_well_formed].
Qed.

Lemma valid_account_lower a :
  valid_account a → ∃ t, get_address_from_account a = Some t ∧
    get_address_lower (account_str a) = to_ascii_lowercase t.
Proof. intros (rf & h & _ & _ & _ & _ & Hg & Hl)%valid_account_address. by eexists. Qed.

(** The key of the database identifies the address. *)
Lemma valid_same_address a b : valid_account a → valid_account b →
  (get_address_lower (account_str a) = get_address_lower (account_str b) ↔
   get_address_from_account a = get_address_from_account b).
Proof.
  intros (ra & ha & _ & _ & _ & Ha & -> & ->)%valid_account_address
         (rb & hb & _ & _ & _ & Hb & -> & ->)%valid_account_address.
  split; [intros Heq|by intros ->%(inj Some)].
  assert (ha = hb) as ->; [|done]. unfold to_ascii_lowercase in *.
  rewrite !str_map_app in Heq. apply str_app_inj_l in Heq.
  rewrite Heq in Ha. congruence.
Qed.

(** C15. On valid accounts the address comparison of the authorization checks
    never panics, holds exactly when the two address texts are identical (two
    checksummed spellings of one address do not exist), and agrees with the
    database's [get_address_lower] key. *)
Theorem is_same_address_canonical {E} a b :
  valid_account a → valid_account b →
  is_same_address (E:=E) a b =
    Ok (bool_decide (get_address_lower (account_str a) = get_address_lower (account_str b))) ∧
  (get_address_lower (account_str a) = get_address_lower (account_str b) ↔
   get_address_from_account a = get_address_from_account b).
Proof.
  intros Hva Hvb. split; [|by apply valid_same_address].
  destruct (valid_account_lower a Hva) as (ta & Ga & La).
  destruct (valid_account_lower b Hvb) as (tb & Gb & Lb).
  unfold is_same_address. by rewrite Ga, Gb, La, Lb.
Qed.

Lemma from_did_pkh_valid did a : from_did_pkh did = Ok a → valid_account a.
Proof.
  unfold from_did_pkh. rewrite outcome_bind_Ok.
  by intros (s & _ & [_ Hv]%map_err_Ok%try_from_account_Ok).
Qed.

Lemma from_to_did_pkh a : valid_account a → from_did_pkh (to_did_pkh a) = Ok a.
Proof.
  intros Ha. unfold from_did_pkh, to_did_pkh. rewrite extract_combine_did_data. simpl.
  apply map_err_Ok, try_from_account_Ok. by destruct a.
Qed.

(** C37. A did:pkh built from a valid account parses back to it, and whatever
    [from_did_pkh] returns is a valid account. *)
Theorem did_pkh_roundtrip a :
  (valid_account a → from_did_pkh (to_did_pkh a) = Ok a) ∧
  (∀ did, from_did_pkh did = Ok a → valid_account a).
Proof. split; [apply from_to_did_pkh|intros did; apply from_did_pkh_valid]. Qed.
End account_theorems.

(** ** Witnesses, on the test vectors of the source *)

Definition account_mainnet : string := "eip155:1:0x22227A31dd842196A246d8f3b775998560eAa61d".
Definition account_polygon : string := "eip155:137:0x0495766cD136138Fc492Dd499B8DC87A92D6685b".

Import Concrete.Instances.

Example validate_vectors :
  validate_caip_10 account_mainnet = Ok () ∧
  validate_caip_10 account_polygon = Ok () ∧
  validate_caip_10 "eip155:1:0x22227a31dd842196a246d8f3b775998560eaa61d"
    = Err (Caip10Error_Eip155 (Eip155Error_Address Eip155AddressError_Erc55)) ∧
  validate_caip_10 "junk" = Err Caip10Error_Invalid ∧
  validate_caip_10 "junk:1:1" = Err Caip10Error_UnsupportedNamespace ∧
  validate_caip_10 "eip155:f:0x22227A31dd842196A246d8f3b775998560eAa61d"
    = Err (Caip10Error_Eip155 (Eip155Error_Reference Eip155ReferenceError_Regex)).
Proof. by vm_compute. Qed.

Lemma validate_caip_10_correct_witness : well_formed account_mainnet.
Proof. apply (validate_caip_10_correct account_mainnet). by vm_compute. Defined.

Lemma is_same_address_canonical_witness :
  is_same_address (E:=Empty_set) (mkAccountId account_mainnet) (mkAccountId account_polygon)
  = Ok false.
Proof.
  refine (eq_trans (proj1 (is_same_address_canonical (mkAccountId account_mainnet)
    (mkAccountId account_polygon) _ _)) _); vm_compute; reflexivity.
Defined.

Lemma did_pkh_roundtrip_witness :
  from_did_pkh (to_did_pkh (mkAccountId account_mainnet)) = Ok (mkAccountId account_mainnet).
Proof.
  apply (proj1 (did_pkh_roundtrip (mkAccountId account_mainnet))). by vm_compute.
Defined.
