(* ===== verification/Errors.v ===== *)
(** * Errors and HTTP responses (error.rs, rate_limit/, registry/storage/error.rs)

    The error types the handlers share, and the response an HTTP handler's
    error becomes.  Payloads that belong to third-party crates and are only
    displayed are dropped. *)

From stdpp Require Import pretty.
From S2P Require Import Prelude RustStr Externals AccountId.

(** [sqlx::Error], as far as the queries distinguish it. *)
Inductive SqlxError :=
| RowNotFound
| UniqueViolation (index : string)
| ForeignKeyViolation
| ValueTooLong
| InvalidEnumValue
| ColumnDecode (e : Caip10Error)
| SqlxIo.

#[global] Instance SqlxError_eq_dec : EqDecision SqlxError.
Proof. solve_decision. Defined.

Inductive StorageError :=
| StorageError_Serialize
| StorageError_Deserialize
| StorageError_Connection
| StorageError_Other.

#[global] Instance StorageError_eq_dec : EqDecision StorageError.
Proof. solve_decision. Defined.

(** Seconds since the epoch at which the caller may try again. *)
Record RateLimitExceeded := mkRateLimitExceeded { reset : Z }.

Inductive InternalRateLimitError := RateLimit_Pool | RateLimit_Redis.

Inductive RateLimitError :=
| RateLimitError_RateLimitExceeded (e : RateLimitExceeded)
| RateLimitError_Internal (e : InternalRateLimitError).

#[global] Instance RateLimitExceeded_eq_dec : EqDecision RateLimitExceeded.
Proof. solve_decision. Defined.
#[global] Instance InternalRateLimitError_eq_dec : EqDecision InternalRateLimitError.
Proof. solve_decision. Defined.
#[global] Instance RateLimitError_eq_dec : EqDecision RateLimitError.
Proof. solve_decision. Defined.

Inductive GetGeoError :=
| MissingXForwardedFor
| XForwardedForNotString
| NoItemsInXForwardedFor
| FirstItemNotIpAddr
| MaxMindResolver.

Inductive NotifyServerError :=
| DotEnvy | EnvConfiguration | InvalidAccount | Reqwest | RpcAuth | UrlError
| UrlMissingHost | HexError | UuidError | SerdeJson | TokioTimeElapsed
| RelayClient | RelaySubscribe | RelayPublish | RelayWatch | InvalidKeypairSeed
| JwtVerification
| RegistryStorage (e : StorageError)
| InvalidHeaderValue | EdDalek
| Sqlx (e : SqlxError)
| SqlxMigration | UrlSetScheme
| UnprocessableEntity (e : string)
| AppDomainInUseByAnotherProject
| RedisPool | RedisError
| TooManyRequests (e : RateLimitExceeded)
| RateLimit (e : InternalRateLimitError)
| GetGeo (e : GetGeoError).

#[global] Instance GetGeoError_eq_dec : EqDecision GetGeoError.
Proof. solve_decision. Defined.
#[global] Instance NotifyServerError_eq_dec : EqDecision NotifyServerError.
Proof. solve_decision. Defined.

(** [impl From<RateLimitError> for NotifyServerError]. *)
Definition NotifyServerError_from_rate_limit (e : RateLimitError) : NotifyServerError :=
  match e with
  | RateLimitError_RateLimitExceeded e => TooManyRequests e
  | RateLimitError_Internal e => RateLimit e
  end.

(** ** HTTP responses *)

Inductive Body :=
| NoBody
| Text (s : string)
| JsonBody (v : Value).

Record Response := mkResponse {
  res_status : Z;
  res_location : option string;
  res_body : Body;
}.

Definition respond (status : Z) (body : Body) : Response := mkResponse status None body.

Definition display_rate_limit_exceeded (e : RateLimitExceeded) : string :=
  "Rate limit exceeded. Try again at " +:+ pretty (reset e).

(** [impl IntoResponse for NotifyServerError]. *)
Definition into_response (e : NotifyServerError) : Response :=
  match e with
  | UrlError => respond 400 (Text "Invalid url. ")
  | HexError => respond 400 (Text "Invalid symmetric key")
  | UnprocessableEntity e => respond 422 (JsonBody (VObject [("error", VString e)]))
  | AppDomainInUseByAnotherProject =>
      respond 409 (Text "App domain in-use by another project")
  | TooManyRequests e => respond 429 (Text (display_rate_limit_exceeded e))
  | _ => respond 500 (Text "Internal server error.")
  end.

Definition is_client_error (r : Response) : bool :=
  (400 <=? res_status r)%Z && (res_status r <? 500)%Z.
Definition is_server_error (r : Response) : bool :=
  (500 <=? res_status r)%Z && (res_status r <? 600)%Z.
