(* ===== verification/Types.v ===== *)
(** * Envelopes, scopes, keys and the JSON-RPC data (types/, rpc.rs, spec.rs, utils.rs)

    The wire formats shared by the handlers: the type 0 and type 1 envelopes,
    the space-separated scope, the hex symmetric keys, the JSON-RPC messages
    and the constants of the specification. *)

From Stdlib Require Import Ascii.
From S2P Require Import Prelude RustStr Externals Concrete AccountId Errors.

(** ** Constants of spec.rs; durations in seconds *)

Definition NOTIFY_WATCH_SUBSCRIPTIONS_METHOD : string := "wc_notifyWatchSubscriptions".
Definition NOTIFY_SUBSCRIPTIONS_CHANGED_METHOD : string := "wc_notifySubscriptionsChanged".
Definition NOTIFY_SUBSCRIBE_METHOD : string := "wc_notifySubscribe".
Definition NOTIFY_MESSAGE_METHOD : string := "wc_notifyMessage".

Definition NOTIFY_SUBSCRIBE_TAG : Z := 4000.
Definition NOTIFY_SUBSCRIBE_RESPONSE_TAG : Z := 4001.
Definition NOTIFY_MESSAGE_TAG : Z := 4002.
Definition NOTIFY_MESSAGE_RESPONSE_TAG : Z := 4003.
Definition NOTIFY_DELETE_TAG : Z := 4004.
Definition NOTIFY_DELETE_RESPONSE_TAG : Z := 4005.
Definition NOTIFY_UPDATE_TAG : Z := 4008.
Definition NOTIFY_UPDATE_RESPONSE_TAG : Z := 4009.
Definition NOTIFY_WATCH_SUBSCRIPTIONS_TAG : Z := 4010.
Definition NOTIFY_WATCH_SUBSCRIPTIONS_RESPONSE_TAG : Z := 4011.
Definition NOTIFY_SUBSCRIPTIONS_CHANGED_TAG : Z := 4012.
Definition NOTIFY_SUBSCRIPTIONS_CHANGED_RESPONSE_TAG : Z := 4013.
Definition NOTIFY_GET_NOTIFICATIONS_TAG : Z := 4014.
Definition NOTIFY_GET_NOTIFICATIONS_RESPONSE_TAG : Z := 4015.
Definition NOTIFY_MARK_NOTIFICATIONS_AS_READ_TAG : Z := 4016.
Definition NOTIFY_MARK_NOTIFICATIONS_AS_READ_RESPONSE_TAG : Z := 4017.

Definition INCOMING_TAGS : list Z :=
  [NOTIFY_SUBSCRIBE_TAG; NOTIFY_MESSAGE_RESPONSE_TAG; NOTIFY_DELETE_TAG; NOTIFY_UPDATE_TAG;
   NOTIFY_WATCH_SUBSCRIPTIONS_TAG; NOTIFY_SUBSCRIPTIONS_CHANGED_RESPONSE_TAG;
   NOTIFY_GET_NOTIFICATIONS_TAG; NOTIFY_MARK_NOTIFICATIONS_AS_READ_TAG].

Definition T300 : Z := 300.
Definition T2592000 : Z := 2592000.
Definition NOTIFY_SUBSCRIBE_TTL : Z := T300.
Definition NOTIFY_SUBSCRIBE_RESPONSE_TTL : Z := T2592000.
Definition NOTIFY_MESSAGE_TTL : Z := T2592000.
Definition NOTIFY_DELETE_TTL : Z := T2592000.
Definition NOTIFY_DELETE_RESPONSE_TTL : Z := T2592000.
Definition NOTIFY_UPDATE_TTL : Z := T300.
Definition NOTIFY_UPDATE_RESPONSE_TTL : Z := T2592000.
Definition NOTIFY_WATCH_SUBSCRIPTIONS_RESPONSE_TTL : Z := T300.
Definition NOTIFY_SUBSCRIPTIONS_CHANGED_TTL : Z := T300.
Definition NOTIFY_GET_NOTIFICATIONS_RESPONSE_TTL : Z := T300.
Definition NOTIFY_MARK_NOTIFICATIONS_AS_READ_RESPONSE_TTL : Z := T300.

Definition NOTIFY_MESSAGE_ACT : string := "notify_message".
Definition NOTIFY_WATCH_SUBSCRIPTIONS_ACT : string := "notify_watch_subscriptions".
Definition NOTIFY_WATCH_SUBSCRIPTIONS_RESPONSE_ACT : string := "notify_watch_subscriptions_response".
Definition NOTIFY_SUBSCRIPTIONS_CHANGED_ACT : string := "notify_subscriptions_changed".
Definition NOTIFY_SUBSCRIBE_ACT : string := "notify_subscription".
Definition NOTIFY_SUBSCRIBE_RESPONSE_ACT : string := "notify_subscription_response".
Definition NOTIFY_UPDATE_ACT : string := "notify_update".
Definition NOTIFY_UPDATE_RESPONSE_ACT : string := "notify_update_response".
Definition NOTIFY_DELETE_ACT : string := "notify_delete".
Definition NOTIFY_DELETE_RESPONSE_ACT : string := "notify_delete_response".
Definition NOTIFY_GET_NOTIFICATIONS_ACT : string := "notify_get_notifications".
Definition NOTIFY_GET_NOTIFICATIONS_RESPONSE_ACT : string := "notify_get_notifications_response".
Definition NOTIFY_MARK_NOTIFICATIONS_AS_READ_ACT : string := "notify_mark_notifications_as_read".
Definition NOTIFY_MARK_NOTIFICATIONS_AS_READ_RESPONSE_ACT : string :=
  "notify_mark_notifications_as_read_response".

(** ** Envelopes *)

Inductive EnvelopeParseError := EnvelopeTooShort | EnvelopeTryFromSlice.

#[global] Instance EnvelopeParseError_eq_dec : EqDecision EnvelopeParseError.
Proof. solve_decision. Defined.

(** [bytes.get(a..b)] and [bytes.get(a..)]. *)
Definition slice (a b : nat) (l : bytes) : option bytes :=
  if decide (b ≤ length l) then Some (take (b - a) (drop a l)) else None.
Definition slice_from (a : nat) (l : bytes) : option bytes :=
  if decide (a ≤ length l) then Some (drop a l) else None.

(** [<[u8; n]>::try_from(slice)]. *)
Definition array_of_slice (n : nat) (l : bytes) : option bytes :=
  if decide (length l = n) then Some l else None.

Record EnvelopeType1 := { pubkey : bytes }.

Record Envelope (T : Type) := mkEnvelope {
  envelope_type : Byte.byte;
  iv : bytes;
  sealbox : bytes;
  opts : T;
}.
Arguments mkEnvelope {T}.
Arguments envelope_type {T} _.
Arguments iv {T} _.
Arguments sealbox {T} _.
Arguments opts {T} _.

Definition envelope0_to_bytes (e : Envelope ()) : bytes :=
  [envelope_type e] ++ iv e ++ sealbox e.

Definition envelope0_from_bytes (b : bytes) : outcome EnvelopeParseError (Envelope ()) :=
  ty ← ok_or (head b) EnvelopeTooShort;
  s ← ok_or (slice 1 13 b) EnvelopeTooShort;
  iv ← ok_or (array_of_slice 12 s) EnvelopeTryFromSlice;
  sealbox ← ok_or (slice_from 13 b) EnvelopeTooShort;
  Ok (mkEnvelope ty iv sealbox ()).

Definition envelope1_to_bytes (e : Envelope EnvelopeType1) : bytes :=
  [envelope_type e] ++ pubkey (opts e) ++ iv e ++ sealbox e.

Definition envelope1_from_bytes (b : bytes)
    : outcome EnvelopeParseError (Envelope EnvelopeType1) :=
  ty ← ok_or (head b) EnvelopeTooShort;
  p ← ok_or (slice 1 33 b) EnvelopeTooShort;
  pk ← ok_or (array_of_slice 32 p) EnvelopeTryFromSlice;
  s ← ok_or (slice 33 45 b) EnvelopeTooShort;
  iv ← ok_or (array_of_slice 12 s) EnvelopeTryFromSlice;
  sealbox ← ok_or (slice_from 45 b) EnvelopeTooShort;
  Ok (mkEnvelope ty iv sealbox {| pubkey := pk |}).

(** ** Keys *)

Inductive DecodeKeyError := HexDecode | DecodeKeyTryFromSlice | InputTooShortError.
Inductive DeriveKeyError := HkdfInvalidLength.

#[global] Instance DecodeKeyError_eq_dec : EqDecision DecodeKeyError.
Proof. solve_decision. Defined.

Section keys.
Context `{Ext}.

(** [Envelope::new]; [nonce] is what [generate_nonce] drew. *)
Definition envelope0_new (nonce key serialized : bytes) : outcome () (Envelope ()) :=
  sealbox ← ok_or (aead_encrypt key nonce serialized) ();
  Ok (mkEnvelope Byte.x00 nonce sealbox ()).

Definition envelope1_new (nonce key serialized pk : bytes)
    : outcome () (Envelope EnvelopeType1) :=
  sealbox ← ok_or (aead_encrypt key nonce serialized) ();
  Ok (mkEnvelope Byte.x01 nonce sealbox {| pubkey := pk |}).

Definition decode_key (key : string) : outcome DecodeKeyError bytes :=
  l ← ok_or (hex_decode key) HexDecode;
  s ← ok_or (slice 0 32 l) InputTooShortError;
  ok_or (array_of_slice 32 s) DecodeKeyTryFromSlice.

Definition derive_key (public_key private_key : bytes) : outcome DeriveKeyError bytes :=
  ok_or (hkdf_expand32 (diffie_hellman private_key public_key)) HkdfInvalidLength.

Definition Topic : Type := string.

(** [sha256::digest] gives lower-case hex. *)
Definition topic_from_key (key : bytes) : Topic := hex_encode (sha256 key).

(** ** Scopes *)

Fixpoint parse_all (types : list string) (parsed_scope : gset Uuid) : option (gset Uuid) :=
  match types with
  | [] => Some parsed_scope
  | scope :: types =>
      notification_type ← uuid_parse_str scope;
      parse_all types ({[notification_type]} ∪ parsed_scope)
  end.

Definition parse_scope (scope : string) : option (gset Uuid) :=
  parse_all (filter (λ s, s ≠ EmptyString) (split_char " " scope)) ∅.

Definition encode_scope (notification_types : gset Uuid) : string :=
  join " " (uuid_to_string <$> elements notification_types).

Definition parse_scopes_and_ignore_invalid (scopes : list string) : gset Uuid :=
  list_to_set (omap uuid_parse_str scopes).
End keys.

(** ** The notification payload *)

Record Notification := mkNotification {
  n_type : Uuid;
  n_title : string;
  n_body : string;
  n_icon : option string;
  n_url : option string;
}.

#[global] Instance Notification_eq_dec : EqDecision Notification.
Proof. solve_decision. Defined.

(** [#[validate(length(min, max))]]: characters, not bytes. *)
Definition validate_length (lo hi : nat) (s : string) : bool :=
  (lo <=? char_count s) && (char_count s <=? hi).

Definition failed_fields (l : list (string * bool)) : list string :=
  fst <$> filter (λ p, p.2 = false) l.

Definition notification_checks (n : Notification) : list (string * bool) :=
  let optional o := match o with Some s => validate_length 1 255 s | None => true end in
  [("title", validate_length 1 64 (n_title n)); ("body", validate_length 1 255 (n_body n));
   ("icon", optional (n_icon n)); ("url", optional (n_url n))].

Definition run_validation `{ValidatorOps} (checks : list (string * bool))
    : outcome NotifyServerError () :=
  match failed_fields checks with
  | [] => Ok ()
  | fs => Err (UnprocessableEntity (display_validation_errors fs))
  end.

(** [Notification::validate]. *)
Definition notification_validate `{ValidatorOps} (n : Notification)
    : outcome NotifyServerError () :=
  run_validation (notification_checks n).

(** ** JSON-RPC *)

(** [relay_rpc::rpc::JSON_RPC_VERSION]. *)
Class JsonRpcConsts := { JSON_RPC_VERSION : string }.

Record JsonRpcRequest (T : Type) := mkJsonRpcRequest {
  req_id : Z; req_jsonrpc : string; req_method : string; req_params : T }.
Arguments mkJsonRpcRequest {T}.
Arguments req_id {T} _.
Arguments req_jsonrpc {T} _.
Arguments req_method {T} _.
Arguments req_params {T} _.

Record JsonRpcResponse (T : Type) := mkJsonRpcResponse {
  resp_id : Z; resp_jsonrpc : string; resp_result : T }.
Arguments mkJsonRpcResponse {T}.
Arguments resp_id {T} _.
Arguments resp_jsonrpc {T} _.
Arguments resp_result {T} _.

Record JsonRpcError := mkJsonRpcError { code : Z; message : string }.
Record JsonRpcResponseError := mkJsonRpcResponseError {
  err_id : Z; err_jsonrpc : string; err_error : JsonRpcError }.

(** The [new] functions; [MESSAGE_ID_GENERATOR.next()] gives a request's id. *)
Definition JsonRpcRequest_new `{JsonRpcConsts} {T} (next_id : Z) (method : string) (params : T)
    : JsonRpcRequest T := mkJsonRpcRequest next_id JSON_RPC_VERSION method params.
Definition JsonRpcResponse_new `{JsonRpcConsts} {T} (id : Z) (result : T) : JsonRpcResponse T :=
  mkJsonRpcResponse id JSON_RPC_VERSION result.
Definition JsonRpcResponseError_new `{JsonRpcConsts} (id : Z) (error : JsonRpcError)
    : JsonRpcResponseError := mkJsonRpcResponseError id JSON_RPC_VERSION error.

(** The newtypes around one JWT (rpc.rs): their JSON differs in the name of
    the field only. *)
Record ResponseAuth := { response_auth : string }.
Record NotifyWatchSubscriptions := { watch_subscriptions_auth : string }.
Record NotifySubscriptionsChanged := { subscriptions_changed_auth : string }.
Record NotifySubscribe := { subscription_auth : string }.
Record NotifyUpdate := { update_auth : string }.
Record NotifyDelete := { delete_auth : string }.
Record NotifyMessageAuth := { message_auth : string }.
Record AuthMessage := { auth : string }.

(** ** Lemmas *)

Lemma slice_Some a b l s :
  slice a b l = Some s ↔ b ≤ length l ∧ s = take (b - a) (drop a l).
Proof. unfold slice. case_decide; naive_solver. Qed.

Lemma slice_None a b l : slice a b l = None ↔ length l < b.
Proof. unfold slice. case_decide; split; (done || lia). Qed.

Lemma slice_from_Some a l s : slice_from a l = Some s ↔ a ≤ length l ∧ s = drop a l.
Proof. unfold slice_from. case_decide; naive_solver. Qed.

Lemma array_of_slice_take n a (l : bytes) :
  a + n ≤ length l → array_of_slice n (take n (drop a l)) = Some (take n (drop a l)).
Proof.
  intros Hl. unfold array_of_slice. rewrite decide_True; [done|].
  rewrite length_take, length_drop. lia.
Qed.

Lemma envelope0_from_bytes_short b : length b < 13 → envelope0_from_bytes b = Err EnvelopeTooShort.
Proof.
  intros Hl. unfold envelope0_from_bytes. destruct b as [|x b]; [done|]. simpl head.
  simpl. rewrite (proj2 (slice_None _ _ _)); [done|]. simpl in *. lia.
Qed.

Lemma envelope0_from_bytes_long b : 13 ≤ length b →
  ∃ x r, b = x :: r ∧
  envelope0_from_bytes b = Ok (mkEnvelope x (take 12 r) (drop 12 r) ()).
Proof.
  intros Hl. destruct b as [|x r]; simpl in Hl; [lia|]. exists x, r. split; [done|].
  unfold envelope0_from_bytes. cbn [head ok_or mbind outcome_bind].
  rewrite (proj2 (slice_Some 1 13 (x :: r) (take 12 r))) by (simpl; split; [lia|done]).
  cbn [ok_or mbind outcome_bind].
  unfold array_of_slice. rewrite decide_True by (rewrite length_take; lia).
  cbn [ok_or mbind outcome_bind].
  rewrite (proj2 (slice_from_Some 13 (x :: r) (drop 12 r))) by (simpl; split; [lia|done]).
  done.
Qed.

Lemma envelope0_from_bytes_Ok b e :
  envelope0_from_bytes b = Ok e ↔ length (iv e) = 12 ∧ envelope0_to_bytes e = b.
Proof.
  destruct e as [ty v box []]. unfold envelope0_to_bytes. simpl. split.
  - destruct (decide (13 ≤ length b)) as [Hl|Hl];
      [|rewrite envelope0_from_bytes_short by lia; done].
    destruct (envelope0_from_bytes_long b Hl) as (x & r & -> & ->). intros [= <- <- <-].
    simpl in Hl. rewrite length_take, take_drop. split; [lia|done].
  - intros [Hv <-].
    destruct (envelope0_from_bytes_long (ty :: v ++ box)) as (x & r & Heq & ->).
    { simpl. rewrite length_app. lia. }
    injection Heq as <- <-. rewrite take_app_length', drop_app_length' by done. done.
Qed.

Lemma envelope1_from_bytes_short b : length b < 45 → envelope1_from_bytes b = Err EnvelopeTooShort.
Proof.
  intros Hl. unfold envelope1_from_bytes. destruct b as [|x r]; [done|].
  cbn [head ok_or mbind outcome_bind].
  destruct (slice 1 33 (x :: r)) as [p|] eqn:E; cbn [ok_or mbind outcome_bind]; [|done].
  apply slice_Some in E as [Hl' ->].
  rewrite array_of_slice_take by lia. cbn [ok_or mbind outcome_bind].
  by rewrite (proj2 (slice_None 33 45 (x :: r)) Hl).
Qed.

Lemma envelope1_from_bytes_long b : 45 ≤ length b →
  ∃ x r, b = x :: r ∧ envelope1_from_bytes b =
    Ok (mkEnvelope x (take 12 (drop 32 r)) (drop 44 r) {| pubkey := take 32 r |}).
Proof.
  intros Hl. destruct b as [|x r]; simpl in Hl; [lia|]. exists x, r. split; [done|].
  unfold envelope1_from_bytes. cbn [head ok_or mbind outcome_bind].
  rewrite (proj2 (slice_Some 1 33 (x :: r) (take 32 r))) by (simpl; split; [lia|done]).
  cbn [ok_or mbind outcome_bind].
  unfold array_of_slice. rewrite decide_True by (rewrite length_take; lia).
  cbn [ok_or mbind outcome_bind].
  rewrite (proj2 (slice_Some 33 45 (x :: r) (take 12 (drop 32 r)))) by (simpl; split; [lia|done]).
  cbn [ok_or mbind outcome_bind].
  rewrite decide_True by (rewrite length_take, length_drop; lia).
  cbn [ok_or mbind outcome_bind].
  by rewrite (proj2 (slice_from_Some 45 (x :: r) (drop 44 r))) by (simpl; split; [lia|done]).
Qed.

Lemma envelope1_from_bytes_Ok b e :
  envelope1_from_bytes b = Ok e ↔
  length (iv e) = 12 ∧ length (pubkey (opts e)) = 32 ∧ envelope1_to_bytes e = b.
Proof.
  destruct e as [ty v box [pk]]. unfold envelope1_to_bytes. simpl. split.
  - destruct (decide (45 ≤ length b)) as [Hl|Hl];
      [|rewrite envelope1_from_bytes_short by lia; done].
    destruct (envelope1_from_bytes_long b Hl) as (x & r & -> & ->). intros [= <- <- <- <-].
    simpl in Hl. rewrite !length_take, length_drop. split_and!; [lia..|].
    rewrite <-(take_drop 32 r) at 4. rewrite <-(take_drop 12 (drop 32 r)) at 2.
    by rewrite drop_drop.
  - intros (Hv & Hp & <-).
    destruct (envelope1_from_bytes_long (ty :: pk ++ v ++ box)) as (x & r & Heq & ->).
    { simpl. rewrite !length_app. lia. }
    injection Heq as <- <-.
    replace 44 with (32 + 12) by done. rewrite <-drop_drop.
    rewrite (drop_app_length' pk), (take_app_length' pk) by done.
    rewrite drop_app_length', take_app_length' by done. done.
Qed.

(** C36. The envelope codecs: parsing a type 0 envelope succeeds exactly on at
    least 13 bytes (45 for type 1) and fails with [EnvelopeTooShort] otherwise,
    never panicking; and a parse succeeds with [e] exactly when [e] has a 12-byte
    iv (and a 32-byte public key) and serializes back to the bytes. *)
Theorem envelope_codec b :
  (is_ok (envelope0_from_bytes b) = (13 <=? length b)) ∧
  (is_ok (envelope1_from_bytes b) = (45 <=? length b)) ∧
  (length b < 13 → envelope0_from_bytes b = Err EnvelopeTooShort) ∧
  (length b < 45 → envelope1_from_bytes b = Err EnvelopeTooShort) ∧
  (∀ e, envelope0_from_bytes b = Ok e ↔ length (iv e) = 12 ∧ envelope0_to_bytes e = b) ∧
  (∀ e, envelope1_from_bytes b = Ok e ↔
     length (iv e) = 12 ∧ length (pubkey (opts e)) = 32 ∧ envelope1_to_bytes e = b).
Proof.
  split_and!.
  - destruct (Nat.leb_spec 13 (length b)) as [Hl|Hl].
    + by destruct (envelope0_from_bytes_long b Hl) as (? & ? & _ & ->).
    + by rewrite envelope0_from_bytes_short.
  - destruct (Nat.leb_spec 45 (length b)) as [Hl|Hl].
    + by destruct (envelope1_from_bytes_long b Hl) as (? & ? & _ & ->).
    + by rewrite envelope1_from_bytes_short.
  - apply envelope0_from_bytes_short.
  - apply envelope1_from_bytes_short.
  - apply envelope0_from_bytes_Ok.
  - apply envelope1_from_bytes_Ok.
Qed.

Section key_theorems.
Context `{!Ext, !HashLaws, !HexLaws, !UuidLaws, !CipherLaws}.

Lemma decode_key_spec key :
  decode_key key =
    match hex_decode key with
    | None => Err HexDecode
    | Some l => if decide (32 ≤ length l) then Ok (take 32 l) else Err InputTooShortError
    end.
Proof.
  unfold decode_key, slice, array_of_slice.
  destruct (hex_decode key) as [l|]; cbn [ok_or mbind outcome_bind]; [|done].
  destruct (decide (32 ≤ length l)); cbn [ok_or mbind outcome_bind]; [|done].
  change (take (32 - 0) (drop 0 l)) with (take 32 l).
  rewrite decide_True; [done|]. rewrite length_take. lia.
Qed.

Lemma decode_key_length key k : decode_key key = Ok k → length k = 32.
Proof.
  rewrite decode_key_spec. destruct (hex_decode key); [|done].
  case_decide; [|done]. intros [= <-]. rewrite length_take. lia.
Qed.

Lemma decode_key_encode k : length k = 32 → decode_key (hex_encode k) = Ok k.
Proof.
  intros Hk. rewrite decode_key_spec, hex_decode_encode, decide_True by lia.
  by rewrite take_ge by lia.
Qed.

Lemma derive_key_total pk sk : ∃ k, derive_key pk sk = Ok k ∧ length k = 32.
Proof.
  unfold derive_key. destruct (hkdf_expand32_total (diffie_hellman sk pk)) as (k & -> & ?).
  by exists k.
Qed.

(** What one end derives from the other's public key, the other end derives
    from the public key of the first. *)
Lemma derive_key_agrees a b : derive_key (x25519_public b) a = derive_key (x25519_public a) b.
Proof. unfold derive_key. by rewrite diffie_hellman_comm. Qed.

(** Keys survive their storage and both ends derive the same one: a 32-byte
    key stored as hex decodes back to it; what [decode_key] returns always has
    32 bytes; and the key derived from one party's public and the other's
    private key is defined and the same for both. *)
Theorem keys_agree k (a b : bytes) :
  (length k = 32 → decode_key (hex_encode k) = Ok k) ∧
  (∀ s k', decode_key s = Ok k' → length k' = 32) ∧
  (∃ d, derive_key (x25519_public a) b = Ok d ∧ derive_key (x25519_public b) a = Ok d ∧
        length d = 32).
Proof.
  split_and!; [apply decode_key_encode|apply decode_key_length|].
  destruct (derive_key_total (x25519_public a) b) as (d & Hd & Hl). exists d.
  split_and!; try done. by rewrite derive_key_agrees.
Qed.

(** What one end seals in a type 0 envelope with a 12-byte nonce, the other
    end holding the same key parses and opens, and gets the same bytes. *)
Theorem envelope0_sealed_opens nonce key msg :
  length nonce = 12 →
  ∃ e, envelope0_new nonce key msg = Ok e ∧
    envelope0_from_bytes (envelope0_to_bytes e) = Ok e ∧
    aead_decrypt key (iv e) (sealbox e) = Some msg.
Proof.
  intros Hn. unfold envelope0_new.
  destruct (aead_encrypt_total key nonce msg) as [box Hbox]. rewrite Hbox. simpl.
  eexists. split; [done|]. split.
  - by apply envelope0_from_bytes_Ok.
  - simpl. by eapply aead_decrypt_encrypt.
Qed.

Lemma parse_all_spec l : ∀ acc s,
  parse_all l acc = Some s ↔
  ∃ us, mapM uuid_parse_str l = Some us ∧ s = list_to_set us ∪ acc.
Proof.
  induction l as [|x l IH]; intros acc s; simpl.
  - split; [intros [= <-]; exists []; set_solver|].
    intros (us & [= <-] & ->). f_equal. set_solver.
  - destruct (uuid_parse_str x) as [u|]; simpl; [|split; [done|by intros (?&?&?)]].
    rewrite IH. destruct (mapM uuid_parse_str l) as [us|]; simpl.
    + split; intros (us' & [= <-] & ->); (eexists; split; [done|]); set_solver.
    + split; intros (?&?&?); done.
Qed.

(** The pieces the parser looks at. *)
Definition scope_tokens (scope : string) : list string :=
  filter (λ s, s ≠ EmptyString) (split_char " " scope).

Lemma scope_tokens_encode s : scope_tokens (encode_scope s) = uuid_to_string <$> elements s.
Proof.
  unfold scope_tokens, encode_scope.
  assert (Hne : Forall (λ t, t ≠ EmptyString) (uuid_to_string <$> elements s)).
  { apply Forall_fmap, Forall_true. intros u. apply uuid_to_string_nonempty. }
  destruct (elements s) as [|u l]; [done|].
  rewrite split_char_join.
  - by apply filter_all_true.
  - done.
  - apply Forall_fmap, Forall_true. intros v. apply uuid_to_string_no_space.
Qed.

(** [parse_scope] succeeds exactly when every non-empty piece of the text
    is a UUID and returns the set of them, and it inverts [encode_scope]. *)
Theorem scope_roundtrip scope (s : gset Uuid) :
  (parse_scope scope = Some s ↔
     ∃ us, mapM uuid_parse_str (scope_tokens scope) = Some us ∧ s = list_to_set us) ∧
  parse_scope (encode_scope s) = Some s.
Proof.
  assert (Hspec : ∀ t s', parse_scope t = Some s' ↔
     ∃ us, mapM uuid_parse_str (scope_tokens t) = Some us ∧ s' = list_to_set us).
  { intros t s'. unfold parse_scope. rewrite parse_all_spec.
    split; intros (us & Hus & ->); exists us; (split; [done|set_solver]). }
  split; [apply Hspec|]. apply Hspec. exists (elements s). split.
  - rewrite scope_tokens_encode. apply mapM_Some_2, Forall2_fmap_l, Forall_Forall2_diag.
    apply Forall_true. intros u. apply uuid_parse_to_string.
  - by rewrite list_to_set_elements_L.
Qed.

Lemma parse_scopes_and_ignore_invalid_encode (s : gset Uuid) :
  parse_scopes_and_ignore_invalid (uuid_to_string <$> elements s) = s.
Proof.
  unfold parse_scopes_and_ignore_invalid.
  assert (Hl : ∀ l : list Uuid, omap uuid_parse_str (uuid_to_string <$> l) = l).
  { induction l as [|u l IH]; [done|]. rewrite fmap_cons. cbn.
    rewrite uuid_parse_to_string. by f_equal. }
  rewrite Hl. apply list_to_set_elements_L.
Qed.
End key_theorems.

(** A notification passes validation exactly when its title has 1 to 64
    characters, its body 1 to 255, and its icon and url, where present, 1 to
    255; the only other outcome is the unprocessable-entity error. *)
Theorem notification_validate_spec `{ValidatorOps} n :
  (notification_validate n = Ok () ↔
     1 ≤ char_count (n_title n) ≤ 64 ∧ 1 ≤ char_count (n_body n) ≤ 255 ∧
     (∀ s, n_icon n = Some s → 1 ≤ char_count s ≤ 255) ∧
     (∀ s, n_url n = Some s → 1 ≤ char_count s ≤ 255)) ∧
  (notification_validate n = Ok () ∨
   ∃ e, notification_validate n = Err (UnprocessableEntity e)).
Proof.
  unfold notification_validate, run_validation.
  assert (Hv : ∀ lo hi s, validate_length lo hi s = true ↔ lo ≤ char_count s ≤ hi).
  { intros lo hi s. unfold validate_length. rewrite andb_true_iff, !Nat.leb_le. lia. }
  split; [|destruct (failed_fields _); eauto].
  assert (Hf : ∀ l, failed_fields l = [] ↔ Forall (λ p, p.2 = true) l).
  { intros l. unfold failed_fields. induction l as [|[f []] l IH]; cbn.
    - split; [constructor|done].
    - rewrite IH. split; [by constructor|by inversion 1].
    - split; [done|inversion 1; done]. }
  assert (Hmatch : ∀ l, (match failed_fields l with
    | [] => Ok () | fs => Err (UnprocessableEntity (display_validation_errors fs)) end
    = Ok ()) ↔ Forall (λ p, p.2 = true) l).
  { intros l. rewrite <-Hf. destruct (failed_fields l); naive_solver. }
  rewrite Hmatch. unfold notification_checks. rewrite !Forall_cons_iff. cbn [snd].
  assert (Ho : ∀ o : option string,
    (match o with Some s => validate_length 1 255 s | None => true end) = true ↔
    ∀ s, o = Some s → 1 ≤ char_count s ≤ 255).
  { intros [s|]; [rewrite Hv; naive_solver|naive_solver]. }
  rewrite !Hv, !Ho. split; [tauto|]. intros (?&?&?&?). split_and!; try tauto. constructor.
Qed.

(** ** Witnesses *)

Import Concrete.Instances.

Definition nonce_w : bytes := replicate 12 Byte.x07.
Definition key_w : bytes := replicate 32 Byte.x2a.

Lemma envelope_codec_witness :
  envelope1_from_bytes (replicate 44 Byte.x01) = Err EnvelopeTooShort ∧
  envelope0_from_bytes (envelope0_to_bytes (mkEnvelope Byte.x00 nonce_w [Byte.x09] ())) =
    Ok (mkEnvelope Byte.x00 nonce_w [Byte.x09] ()).
Proof.
  split.
  - apply (envelope_codec (replicate 44 Byte.x01)). simpl. lia.
  - apply (envelope_codec (envelope0_to_bytes (mkEnvelope Byte.x00 nonce_w [Byte.x09] ()))). done.
Defined.

Lemma keys_agree_witness :
  decode_key (hex_encode key_w) = Ok key_w ∧
  is_ok (derive_key (x25519_public key_w) (replicate 32 Byte.x0b)) = true.
Proof.
  destruct (keys_agree key_w key_w (replicate 32 Byte.x0b)) as (H1 & _ & d & H2 & _).
  split; [by apply H1|]. by rewrite H2.
Defined.

Lemma envelope0_sealed_opens_witness :
  ∃ e, envelope0_new nonce_w key_w [Byte.x68; Byte.x69] = Ok e ∧
    envelope0_from_bytes (envelope0_to_bytes e) = Ok e ∧
    aead_decrypt key_w (iv e) (sealbox e) = Some [Byte.x68; Byte.x69].
Proof. apply (envelope0_sealed_opens nonce_w key_w). done. Defined.

Lemma scope_roundtrip_witness :
  parse_scope (encode_scope {[5%N; 1000%N]}) = Some {[5%N; 1000%N]} ∧
  parse_scope "1  x" = None.
Proof. split; [apply (scope_roundtrip "" {[5%N; 1000%N]})|by vm_compute]. Defined.
