(* ===== verification/RateLimit.v ===== *)
(** * The token bucket rate limiter (rate_limit/token_bucket.rs, token_bucket.lua)

    The Lua script runs atomically inside Redis on a map from keys to buckets;
    the Rust side calls it for one or many keys.  Lua numbers are doubles; all
    the quantities here (millisecond timestamps, token counts) are integers
    below 2^53, on which its arithmetic and [math.floor] of a quotient are
    exact, so they are [Z].  Redis drops a key once its own clock, [redis_now],
    is past the key's expiry; the script measures time with the caller's [now]. *)

From S2P Require Import Prelude RustStr Externals Errors.
Open Scope Z_scope.

Record Bucket := mkBucket { refilledAt : Z; tokens : Z; expires : Z }.

#[global] Instance Bucket_eq_dec : EqDecision Bucket.
Proof. solve_decision. Defined.

Abbreviation Buckets := (gmap string Bucket).

(** The arguments of one invocation. *)
Record Limit := mkLimit { maxTokens : Z; interval : Z; refillRate : Z }.

(** [HMGET key refilledAt tokens], after expiry. *)
Definition hmget (redis_now : Z) (s : Buckets) (key : string) : option Bucket :=
  b ← s !! key; if bool_decide (expires b < redis_now) then None else Some b.

Definition ceil_div (a b : Z) : Z := - ((- a) / b).

(** One iteration of the script's loop: the pair stored in [results] and the
    new bucket, if the script writes one. *)
Definition take_token (l : Limit) (now redis_now : Z) (bucket : option Bucket)
    : (Z * Z) * option Bucket :=
  let '(refilledAt, tokens) :=
    match bucket with
    | None => (now, maxTokens l)
    | Some b => (refilledAt b, tokens b)
    end in
  let '(tokens, refilledAt) :=
    if refilledAt + interval l <=? now then
      let numRefills := (now - refilledAt) / interval l in
      (Z.min (maxTokens l) (tokens + numRefills * refillRate l),
       refilledAt + numRefills * interval l)
    else (tokens, refilledAt) in
  if tokens =? 0 then ((-1, refilledAt + interval l), None)
  else
    let remaining := tokens - 1 in
    let expireAt := ceil_div (maxTokens l - remaining) (refillRate l) * interval l in
    ((remaining, refilledAt + interval l),
     Some (mkBucket refilledAt remaining (redis_now + expireAt))).

Definition script_step (l : Limit) (now redis_now : Z)
    (acc : gmap string (Z * Z) * Buckets) (key : string) : gmap string (Z * Z) * Buckets :=
  let '(results, s) := acc in
  let '(r, w) := take_token l now redis_now (hmget redis_now s key) in
  (<[key := r]> results, match w with Some b => <[key := b]> s | None => s end).

Definition token_bucket_script (l : Limit) (now redis_now : Z) (keys : list string)
    (s : Buckets) : gmap string (Z * Z) * Buckets :=
  foldl (script_step l now redis_now) (∅, s) keys.

(** What the environment gives to one call: the two clocks, and whether the
    pool or Redis fails.  The reply of the script always parses. *)
Record RedisCall := mkRedisCall {
  rc_now : Z;
  rc_redis_now : Z;
  rc_fault : option InternalRateLimitError;
}.

Definition token_bucket_many (c : RedisCall) (keys : list string) (l : Limit)
    : M Buckets InternalRateLimitError (gmap string (Z * Z)) := λ s,
  match rc_fault c with
  | Some e => (Err e, s)
  | None =>
      let '(results, s') := token_bucket_script l (rc_now c) (rc_redis_now c) keys s in
      (Ok results, s')
  end.

Definition token_bucket (c : RedisCall) (key : string) (l : Limit)
    : M Buckets RateLimitError () :=
  result ← m_map_err RateLimitError_Internal (token_bucket_many c [key] l);
  r ← lift (unwrap (result !! key));
  let '(remaining, reset) := r in
  guard_err (remaining <? 0)
    (RateLimitError_RateLimitExceeded (mkRateLimitExceeded (reset / 1000))).

(** ** Lemmas *)

Definition limit_ok (l : Limit) : Prop := 0 < maxTokens l ∧ 0 < interval l ∧ 0 < refillRate l.

Definition bucket_ok (l : Limit) (b : Bucket) : Prop := 0 <= tokens b <= maxTokens l.

Lemma ceil_div_mul a b : 0 < b → a <= b * ceil_div a b.
Proof. intros Hb. unfold ceil_div. pose proof (Z.mul_div_le (- a) b Hb). lia. Qed.

Lemma ceil_div_pos a b : 0 < a → 0 < b → 0 < ceil_div a b.
Proof. intros Ha Hb. pose proof (ceil_div_mul a b Hb). nia. Qed.

Lemma hmget_Some rn s k b : hmget rn s k = Some b ↔ s !! k = Some b ∧ rn <= expires b.
Proof.
  unfold hmget. destruct (s !! k) as [b'|]; simpl; [|naive_solver].
  case_bool_decide; split; naive_solver lia.
Qed.

Lemma token_bucket_run c key l s :
  token_bucket c key l s =
    match rc_fault c with
    | Some e => (Err (RateLimitError_Internal e), s)
    | None =>
        let '(r, w) := take_token l (rc_now c) (rc_redis_now c)
                         (hmget (rc_redis_now c) s key) in
        (if r.1 <? 0 then
           Err (RateLimitError_RateLimitExceeded (mkRateLimitExceeded (r.2 / 1000)))
         else Ok (),
         match w with Some b => <[key := b]> s | None => s end)
    end.
Proof.
  unfold token_bucket, token_bucket_many, token_bucket_script. destruct c as [now rn [e|]]; [done|].
  cbn [rc_fault rc_now rc_redis_now foldl]. unfold mbind, M_bind, m_map_err, script_step.
  cbn [rc_fault rc_now rc_redis_now].
  destruct (take_token _ _ _ _) as [[rem rst] w]. cbn [map_err].
  unfold lift. rewrite lookup_insert_eq. cbn [unwrap fst snd].
  unfold guard_err. by destruct (rem <? 0).
Qed.

(** What one iteration does to the effective content of a bucket. *)
Lemma take_token_fresh l now rn :
  limit_ok l →
  take_token l now rn None =
    ((maxTokens l - 1, now + interval l),
     Some (mkBucket now (maxTokens l - 1) (rn + ceil_div 1 (refillRate l) * interval l))).
Proof.
  intros (Hm & Hi & Hr). unfold take_token. cbn zeta.
  rewrite (proj2 (Z.leb_gt _ _)) by lia. rewrite (proj2 (Z.eqb_neq _ _)) by lia.
  by replace (maxTokens l - (maxTokens l - 1)) with 1 by lia.
Qed.

(** Number of whole intervals since the last refill. *)
Definition refills (l : Limit) (now : Z) (b : Bucket) : Z :=
  Z.max 0 ((now - refilledAt b) / interval l).

Lemma take_token_some l now rn b :
  limit_ok l → bucket_ok l b →
  let n := refills l now b in
  let k := Z.min (maxTokens l) (tokens b + n * refillRate l) in
  let r := refilledAt b + n * interval l in
  take_token l now rn (Some b) =
    if k =? 0 then ((-1, r + interval l), None)
    else ((k - 1, r + interval l),
          Some (mkBucket r (k - 1)
                  (rn + ceil_div (maxTokens l - (k - 1)) (refillRate l) * interval l))).
Proof.
  intros (Hm & Hi & Hr) [Hk0 Hk1] n k r. unfold take_token. cbn zeta.
  destruct (Z.leb_spec (refilledAt b + interval l) now) as [Hle|Hlt].
  - assert (1 <= (now - refilledAt b) / interval l) by (apply Z.div_le_lower_bound; lia).
    subst k r n. unfold refills. rewrite Z.max_r by lia. done.
  - assert (n = 0) as Hn.
    { subst n. unfold refills. apply Z.max_l.
      assert ((now - refilledAt b) / interval l < 1) by (apply Z.div_lt_upper_bound; lia). lia. }
    subst k r. rewrite Hn. rewrite !Z.mul_0_l, !Z.add_0_r, Z.min_r by lia. done.
Qed.

Lemma take_token_bounds l now rn ob :
  limit_ok l → (∀ b, ob = Some b → bucket_ok l b) →
  -1 <= (take_token l now rn ob).1.1 < maxTokens l ∧
  ((take_token l now rn ob).2 = None ↔ (take_token l now rn ob).1.1 = -1) ∧
  (∀ b', (take_token l now rn ob).2 = Some b' →
     bucket_ok l b' ∧ tokens b' = (take_token l now rn ob).1.1).
Proof.
  intros Hl Hb. pose proof Hl as (Hm & Hi & Hr). destruct ob as [b|].
  - specialize (Hb b eq_refl). pose proof Hb as [Hk0 Hk1].
    rewrite take_token_some by done. cbn zeta.
    set (k := Z.min _ _). assert (0 <= k <= maxTokens l).
    { subst k. pose proof (Z.le_max_l 0 ((now - refilledAt b) / interval l)).
      unfold refills. nia. }
    destruct (Z.eqb_spec k 0); cbn.
    + split_and!; [lia..|done|done].
    + split_and!; [lia..|naive_solver lia|]. intros b' [= <-]. unfold bucket_ok. cbn. lia.
  - rewrite take_token_fresh by done. cbn. split_and!; [lia..|naive_solver lia|].
    intros b' [= <-]. unfold bucket_ok. cbn. lia.
Qed.

Definition buckets_ok (l : Limit) (key : string) (s : Buckets) : Prop :=
  ∀ b, s !! key = Some b → bucket_ok l b.

(** One call to [token_bucket]: it never panics (the reply always holds the
    key), its bucket keeps between 0 and [max_tokens] tokens, it touches no other
    key, and it is refused, without writing, exactly when the bucket has no token
    after the refills due; an accepted call takes one token. *)
Theorem token_bucket_step c key l s :
  limit_ok l → buckets_ok l key s → rc_fault c = None →
  let s' := (token_bucket c key l s).2 in
  let available := match hmget (rc_redis_now c) s key with
                   | None => maxTokens l
                   | Some b => Z.min (maxTokens l) (tokens b + refills l (rc_now c) b * refillRate l)
                   end in
  no_panic (token_bucket c key l s).1 ∧
  buckets_ok l key s' ∧
  (∀ key', key' ≠ key → s' !! key' = s !! key') ∧
  ((token_bucket c key l s).1 = Ok () ↔ 0 < available) ∧
  (0 < available → ∃ b', s' !! key = Some b' ∧ tokens b' = available - 1) ∧
  (available = 0 → s' = s).
Proof.
  intros Hl Hok Hf s' available. subst s'. rewrite token_bucket_run, Hf.
  assert (Hb : ∀ b, hmget (rc_redis_now c) s key = Some b → bucket_ok l b).
  { intros b [Hs _]%hmget_Some. by apply Hok. }
  assert (Hav : 0 <= available).
  { subst available. destruct Hl as (?&?&?). destruct (hmget _ s key) as [b|] eqn:E; [|lia].
    destruct (Hb b eq_refl). unfold refills. nia. }
  destruct (hmget (rc_redis_now c) s key) as [b|] eqn:E.
  - rewrite take_token_some by auto. cbn zeta. fold available.
    destruct (Z.eqb_spec available 0) as [Hz|Hz]; cbn [fst snd].
    + split_and!; [done|done|done| |lia|done]. split; [done|lia].
    + rewrite (proj2 (Z.ltb_ge _ _)) by lia. split_and!; [done| | | | |lia].
      * unfold buckets_ok. intros b'. rewrite lookup_insert_eq. intros [= <-]. unfold bucket_ok. cbn [tokens].
        subst available. lia.
      * intros k' Hk. by rewrite lookup_insert_ne.
      * split; [lia|done].
      * intros _. eexists. rewrite lookup_insert_eq. by split.
  - rewrite take_token_fresh by done. cbn [fst snd]. destruct Hl as (?&?&?).
    rewrite (proj2 (Z.ltb_ge _ _)) by lia. split_and!; [done| | | | |lia].
    + unfold buckets_ok. intros b'. rewrite lookup_insert_eq. intros [= <-]. unfold bucket_ok. cbn [tokens]. lia.
    + intros k' Hk. by rewrite lookup_insert_ne.
    + split; [lia|done].
    + intros _. eexists. rewrite lookup_insert_eq. by split.
Qed.

(** ** The rate *)

(** Calls for one key, one after the other; how many are accepted. *)
Fixpoint run_calls (key : string) (l : Limit) (calls : list RedisCall) (s : Buckets)
    : Z * Buckets :=
  match calls with
  | [] => (0, s)
  | c :: calls =>
      let '(r, s1) := token_bucket c key l s in
      let '(n, s2) := run_calls key l calls s1 in
      ((if is_ok r then 1 else 0) + n, s2)
  end.

(** The two clocks run together, and calls come in time order. *)
Definition clocked (skew : Z) (t : Z) (calls : list RedisCall) : Prop :=
  Forall (λ c, rc_redis_now c = rc_now c + skew) calls ∧
  Sorted Z.le (t :: (rc_now <$> calls)).

(** [accepted] calls were accepted, the last at or before [t]: as many as the
    refills since [t1] and the tokens left allow, or still none, an interval or
    more after [t1], whatever the bucket was before. *)
Definition rate_inv (l : Limit) (skew t1 t accepted : Z) (key : string) (s : Buckets) : Prop :=
  match s !! key with
  | None => accepted = 0 ∧ t1 <= t
  | Some b =>
      bucket_ok l b ∧ refilledAt b <= t ∧
      (accepted = 0 ∧ t1 + interval l <= t ∨
       t1 <= refilledAt b ∧
       accepted + tokens b
         <= maxTokens l + refillRate l * ((refilledAt b - t1) / interval l) ∧
       refilledAt b + skew + ceil_div (maxTokens l - tokens b) (refillRate l) * interval l
         <= expires b)
  end.

Lemma div_add_intervals l r t1 n :
  limit_ok l → (r + n * interval l - t1) / interval l = (r - t1) / interval l + n.
Proof.
  intros (_ & Hi & _). replace (r + n * interval l - t1) with (r - t1 + n * interval l) by lia.
  by apply Z.div_add; lia.
Qed.

Lemma rate_inv_accept_none l skew t1 t now A key s :
  limit_ok l → rate_inv l skew t1 t A key s → t <= now →
  hmget (now + skew) s key = None →
  A + maxTokens l <= maxTokens l + refillRate l * ((now - t1) / interval l) ∧ t1 <= now.
Proof.
  intros Hl Hinv Ht Hn. pose proof Hl as (Hm & Hi & Hr). unfold rate_inv in Hinv.
  assert (Hzero : A = 0 ∧ t1 <= now →
    A + maxTokens l <= maxTokens l + refillRate l * ((now - t1) / interval l) ∧ t1 <= now).
  { intros [-> Hle]. assert (0 <= (now - t1) / interval l) by (apply Z.div_pos; lia). nia. }
  unfold hmget in Hn. destruct (s !! key) as [b|]; simpl in Hn; [|apply Hzero; lia].
  case_bool_decide as He; [|done].
  destruct Hinv as ([Hk0 Hk1] & Hr1 & [?|(Ht1 & HA & Hex)]); [apply Hzero; lia|].
  split; [|lia].
  set (c := ceil_div (maxTokens l - tokens b) (refillRate l)) in *.
  pose proof (ceil_div_mul (maxTokens l - tokens b) (refillRate l) Hr) as Hc. fold c in Hc.
  assert ((refilledAt b - t1) / interval l + c <= (now - t1) / interval l).
  { rewrite <-div_add_intervals by done. apply Z.div_le_mono; lia. }
  nia.
Qed.

(** A call finds its bucket: it is refused without a token, or takes one. *)
Lemma rate_inv_take l skew t1 t A key s b now :
  limit_ok l → rate_inv l skew t1 t A key s → t <= now → s !! key = Some b →
  let n := (now - refilledAt b) / interval l in
  let k := Z.min (maxTokens l) (tokens b + n * refillRate l) in
  let r := refilledAt b + n * interval l in
  0 <= k <= maxTokens l ∧ r <= now ∧ t1 <= r ∧
  A + k <= maxTokens l + refillRate l * ((r - t1) / interval l).
Proof.
  intros Hl Hinv Ht Hs n k r. pose proof Hl as (Hm & Hi & Hr). unfold rate_inv in Hinv.
  rewrite Hs in Hinv. destruct Hinv as ([Hk0 Hk1] & Hr1 & Hcase).
  assert (Hn0 : 0 <= n) by (apply Z.div_pos; lia).
  assert (HnI : n * interval l <= now - refilledAt b < n * interval l + interval l).
  { subst n. pose proof (Z.div_mod (now - refilledAt b) (interval l) ltac:(lia)).
    pose proof (Z.mod_pos_bound (now - refilledAt b) (interval l) Hi). nia. }
  assert (0 <= k <= maxTokens l) by (subst k; nia).
  assert (t1 <= r) by (subst r; destruct Hcase; nia).
  split_and!; [lia|lia|subst r; nia|done|].
  assert (0 <= (r - t1) / interval l) by (apply Z.div_pos; lia).
  destruct Hcase as [[-> _]|(_ & HA & _)]; [nia|].
  subst r. rewrite div_add_intervals by done. subst k. nia.
Qed.

Lemma rate_inv_step l skew t1 t A key s c :
  limit_ok l → rate_inv l skew t1 t A key s → t <= rc_now c →
  rc_redis_now c = rc_now c + skew →
  rate_inv l skew t1 (rc_now c)
    (A + if is_ok (token_bucket c key l s).1 then 1 else 0) key (token_bucket c key l s).2.
Proof.
  intros Hl Hinv Ht Hrn. pose proof Hl as (Hm & Hi & Hr). rewrite token_bucket_run, Hrn.
  assert (Hkeep : rate_inv l skew t1 (rc_now c) (A + 0) key s).
  { rewrite Z.add_0_r. unfold rate_inv in *. destruct (s !! key); [|lia].
    destruct Hinv as (? & ? & Hcase). split_and!; [done|lia|].
    destruct Hcase; [left; lia|by right]. }
  destruct (rc_fault c); [done|]. destruct (hmget (rc_now c + skew) s key) as [b|] eqn:E.
  - apply hmget_Some in E as [Hs Hex].
    destruct (rate_inv_take _ _ _ _ _ _ _ _ _ Hl Hinv Ht Hs) as (Hk & Hrn' & Hr1 & HA).
    assert (Hb : bucket_ok l b /\ refilledAt b <= t)
      by (unfold rate_inv in Hinv; rewrite Hs in Hinv; naive_solver).
    rewrite take_token_some by apply Hl || apply Hb. cbn zeta.
    assert (Hrf : refills l (rc_now c) b = (rc_now c - refilledAt b) / interval l).
    { unfold refills. apply Z.max_r, Z.div_pos; lia. }
    rewrite Hrf.
    destruct (Z.eqb_spec (Z.min (maxTokens l) (tokens b +
      (rc_now c - refilledAt b) / interval l * refillRate l)) 0) as [Hz|Hz]; [exact Hkeep|].
    cbn [fst snd]. rewrite (proj2 (Z.ltb_ge _ _)) by lia. cbn [is_ok].
    unfold rate_inv. rewrite lookup_insert_eq. unfold bucket_ok. cbn [tokens refilledAt expires].
    split_and!; [lia|lia|lia|]. right. split_and!; [lia|lia|]. apply Z.add_le_mono_r. lia.
  - destruct (rate_inv_accept_none _ _ _ _ _ _ _ _ Hl Hinv Ht E) as [HA Ht1].
    rewrite take_token_fresh by done. cbn [fst snd]. rewrite (proj2 (Z.ltb_ge _ _)) by lia. cbn [is_ok].
    unfold rate_inv. rewrite lookup_insert_eq. unfold bucket_ok. cbn [tokens refilledAt expires].
    split_and!; [lia|lia|lia|]. right. split_and!; [lia|lia|].
    replace (maxTokens l - (maxTokens l - 1)) with 1 by lia. lia.
Qed.

Lemma rate_inv_run l skew t1 key calls : ∀ t A s,
  limit_ok l → rate_inv l skew t1 t A key s → clocked skew t calls →
  ∃ t', rate_inv l skew t1 t' (A + (run_calls key l calls s).1) key (run_calls key l calls s).2 ∧
        t' = default t (list.last (rc_now <$> calls)).
Proof.
  induction calls as [|c calls IH]; intros t A s Hl Hinv [Hsk Hs]; cbn -[token_bucket].
  { exists t. by rewrite Z.add_0_r. }
  apply Forall_cons_iff in Hsk as [Hc Hsk].
  apply Sorted_inv in Hs as [Hs Hhd]. apply HdRel_inv in Hhd.
  pose proof (rate_inv_step l skew t1 t A key s c Hl Hinv Hhd Hc) as Hstep.
  destruct (token_bucket c key l s) as [r s1] eqn:Etb. cbn [fst snd] in Hstep.
  destruct (IH (rc_now c) _ s1 Hl Hstep (conj Hsk Hs)) as (t' & Hinv' & ->).
  destruct (run_calls key l calls s1) as [n s2]. cbn [fst snd] in *.
  eexists. split; [|reflexivity]. rewrite Z.add_assoc.
  rewrite last_cons. by destruct (list.last (rc_now <$> calls)).
Qed.

(** At most so many calls are accepted from [t1] to [t2]. *)
Lemma rate_inv_bound l skew t1 t2 key calls s t0 :
  limit_ok l → rate_inv l skew t0 t1 0 key s → clocked skew t1 calls →
  Forall (λ c, rc_now c <= t2) calls → t0 <= t1 → t1 <= t2 →
  (run_calls key l calls s).1 <= maxTokens l + refillRate l * ((t2 - t0) / interval l).
Proof.
  intros Hl Hs Hc H2 H0 Ht. pose proof Hl as (Hm & Hi & Hr).
  destruct (rate_inv_run l skew t0 key calls t1 0 s Hl Hs Hc) as (t' & Hinv & Ht').
  assert (Hle : t' <= t2).
  { subst t'. destruct (list.last (rc_now <$> calls)) as [x|] eqn:E; [|done]. simpl.
    rewrite last_lookup in E. apply list_lookup_fmap_Some in E as (c & -> & Hx).
    by eapply Forall_lookup_1 in H2. }
  assert (0 <= (t2 - t0) / interval l) by (apply Z.div_pos; lia).
  unfold rate_inv in Hinv. destruct ((run_calls key l calls s).2 !! key) as [b|]; [|nia].
  destruct Hinv as ([? ?] & ? & [?|(? & ? & _)]); [nia|].
  assert ((refilledAt b - t0) / interval l <= (t2 - t0) / interval l)
    by (apply Z.div_le_mono; lia). nia.
Qed.

(** A history of calls leaves no bucket from the future. *)
Lemma rate_inv_restart l skew t0 t1 key before s :
  limit_ok l → s !! key = None → clocked skew t0 before → t0 <= t1 →
  Forall (λ c, rc_now c <= t1) before →
  rate_inv l skew (t1 - interval l) t1 0 key (run_calls key l before s).2.
Proof.
  intros Hl Hs Hc H0 Hb. pose proof Hl as (_ & Hi & _).
  destruct (rate_inv_run l skew t0 key before t0 0 s Hl) as (t' & Hinv & Ht');
    [unfold rate_inv; rewrite Hs; lia|done|].
  assert (t' <= t1).
  { subst t'. destruct (list.last (rc_now <$> before)) as [x|] eqn:E; [|done]. simpl.
    rewrite last_lookup in E. apply list_lookup_fmap_Some in E as (c & -> & Hx).
    by eapply Forall_lookup_1 in Hb. }
  unfold rate_inv in *. destruct ((run_calls key l before s).2 !! key) as [b|]; [|lia].
  destruct Hinv as (Hok & Hr & _). split_and!; [done|lia|left; lia].
Qed.

(** C14. The limiter enforces its rate across refills and key expiry, in every
    window of every history of calls.  Between two times at most [max_tokens +
    refill_rate * (floor((t2 - t1) / interval) + 1)] calls for a key are
    accepted, whatever calls came before (the one refill more is due to an
    interval that began before [t1]); without earlier calls at most
    [max_tokens + refill_rate * floor((t2 - t1) / interval)]. *)
Theorem token_bucket_rate l key skew t0 t1 t2 before calls s :
  limit_ok l → s !! key = None → clocked skew t0 before → clocked skew t1 calls →
  Forall (λ c, rc_now c <= t1) before → Forall (λ c, rc_now c <= t2) calls →
  t0 <= t1 → t1 <= t2 →
  (run_calls key l calls (run_calls key l before s).2).1
    <= maxTokens l + refillRate l * ((t2 - t1) / interval l + 1) ∧
  (before = [] →
   (run_calls key l calls s).1 <= maxTokens l + refillRate l * ((t2 - t1) / interval l)).
Proof.
  intros Hl Hs Hcb Hc Hb H2 H0 Ht. pose proof Hl as (_ & Hi & _). split.
  - replace ((t2 - t1) / interval l + 1) with ((t2 - (t1 - interval l)) / interval l).
    + eapply rate_inv_bound; try done; [by eapply rate_inv_restart|lia].
    + replace (t2 - (t1 - interval l)) with (t2 - t1 + 1 * interval l) by lia.
      by apply Z.div_add; lia.
  - intros _. eapply rate_inv_bound; try done. unfold rate_inv. rewrite Hs. lia.
Qed.

(** The reset time of a refusal is exact: if the script refuses at [now] and
    reports [r], then, as long as the bucket is not used by others, a later call
    is accepted exactly from time [r] on, and [r] is at most one interval away. *)
Theorem token_bucket_reset l now rn b r :
  limit_ok l → bucket_ok l b → refilledAt b <= now →
  take_token l now rn (Some b) = ((-1, r), None) →
  now < r <= now + interval l ∧
  ∀ now' rn', now <= now' → (0 <= (take_token l now' rn' (Some b)).1.1 ↔ r <= now').
Proof.
  intros Hl Hb Hle Htk. pose proof Hl as (Hm & Hi & Hr). pose proof Hb as [Hk0 Hk1].
  rewrite take_token_some in Htk by done. cbn zeta in Htk.
  assert (Hn0 : 0 <= refills l now b) by (unfold refills; lia).
  destruct (Z.eqb_spec (Z.min (maxTokens l) (tokens b + refills l now b * refillRate l)) 0)
    as [Hz|]; [|done].
  assert (Hn : refills l now b = 0) by nia. assert (Hk : tokens b = 0) by nia.
  rewrite Hn, Z.mul_0_l, Z.add_0_r in Htk. injection Htk as <-.
  assert (Hiff : ∀ t, refilledAt b <= t → 1 <= refills l t b ↔ refilledAt b + interval l <= t).
  { intros t Ht. unfold refills. split.
    - intros H1. assert (1 <= (t - refilledAt b) / interval l) by lia.
      pose proof (Z.mul_div_le (t - refilledAt b) (interval l) Hi). nia.
    - intros H1. assert (1 <= (t - refilledAt b) / interval l)
        by (apply Z.div_le_lower_bound; lia). lia. }
  split; [pose proof (Hiff now Hle); lia|].
  intros now' rn' Hnow. rewrite take_token_some by done. cbn zeta.
  rewrite <-Hiff by lia. rewrite Hk, Z.add_0_l.
  assert (0 <= refills l now' b) by (unfold refills; lia).
  destruct (Z.eqb_spec (Z.min (maxTokens l) (refills l now' b * refillRate l)) 0); cbn.
  - split; [lia|nia].
  - split; nia.
Qed.

(** ** Witnesses: the limit of [notify_v1], 20 tokens, 2 more per second *)

Definition limit_w : Limit := mkLimit 20 1000 2.

Lemma limit_w_ok : limit_ok limit_w.
Proof. by vm_compute. Qed.

Lemma token_bucket_step_witness :
  (token_bucket (mkRedisCall 5000 5000 None) "k" limit_w {["k" := mkBucket 4500 0 9000]}).1
    ≠ Ok () ∧
  (token_bucket (mkRedisCall 5500 5500 None) "k" limit_w {["k" := mkBucket 4500 0 9000]}).1
    = Ok ().
Proof.
  assert (Hok : buckets_ok limit_w "k" {["k" := mkBucket 4500 0 9000]}).
  { intros b Hb. apply lookup_singleton_Some in Hb as [_ <-]. by vm_compute. }
  split.
  - intros Hacc. apply (token_bucket_step (mkRedisCall 5000 5000 None) "k" limit_w _
      limit_w_ok Hok eq_refl) in Hacc. by vm_compute in Hacc.
  - apply (token_bucket_step (mkRedisCall 5500 5500 None) "k" limit_w _
      limit_w_ok Hok eq_refl). by vm_compute.
Defined.

(** One call opens a bucket; a second later, around its refill, 21 calls are
    accepted within a millisecond, one more than the bucket holds. *)
Definition call_at (t : Z) : RedisCall := mkRedisCall t t None.
Definition before_w : list RedisCall := [call_at 4001].
Definition calls_w : list RedisCall := replicate 19 (call_at 5000) ++ replicate 5 (call_at 5001).

Lemma token_bucket_rate_witness :
  (run_calls "k" limit_w calls_w (run_calls "k" limit_w before_w ∅).2).1 <= 22.
Proof.
  refine (proj1 (token_bucket_rate limit_w "k" 0 4001 5000 5001 before_w calls_w ∅
    limit_w_ok eq_refl _ _ _ _ _ _)); [..|done|done];
    try split; repeat constructor; done.
Defined.

Example run_calls_w :
  (run_calls "k" limit_w calls_w (run_calls "k" limit_w before_w ∅).2).1 = 21.
Proof. by vm_compute. Qed.

Lemma token_bucket_reset_witness :
  0 <= (take_token limit_w 5500 5500 (Some (mkBucket 4500 0 9000))).1.1.
Proof.
  apply (token_bucket_reset limit_w 5000 5000 (mkBucket 4500 0 9000) 5500 limit_w_ok);
    by vm_compute.
Defined.
