(* ===== verification/Database.v ===== *)
(** * The PostgreSQL database and its queries (migrations/, model/helpers.rs)

    The tables of the migrations with their keys, foreign keys, unique indexes
    and triggers, and one definition per query function of model/helpers.rs.
    A query is a computation on [Db]; a statement that fails leaves the
    database as it was (every function of the source is one statement or one
    transaction).  The time [now] and the random primary key [fresh] a
    statement uses are arguments.  Timestamps are microseconds since the epoch,
    as PostgreSQL keeps them.  The columns [inserted_at] and [updated_at] that
    no query reads are left out.  The order of rows without an [ORDER BY] is
    unspecified in SQL; [map_to_list] gives one order. *)

From S2P Require Import Prelude RustStr Externals AccountId Errors Types.
Open Scope Z_scope.

Definition usec : Z := 1000000.
Definition days (n : Z) : Z := n * 86400 * usec.

(** ** Tables *)

Record ProjectRow := mkProjectRow {
  p_project_id : string;
  p_app_domain : string;
  p_topic : Topic;
  p_authentication_public_key : string;
  p_authentication_private_key : string;
  p_subscribe_public_key : string;
  p_subscribe_private_key : string;
}.

Record SubscriberRow := mkSubscriberRow {
  s_project : Uuid;
  s_account : string;
  s_sym_key : string;
  s_topic : Topic;
  s_expiry : Z;
}.

(** Keyed by the unique column [did_key]. *)
Record WatcherRow := mkWatcherRow {
  w_account : string;
  w_project : option Uuid;
  w_sym_key : string;
  w_expiry : Z;
}.

Record NotificationRow := mkNotificationRow {
  nt_project : Uuid;
  nt_notification_id : string;
  nt_content : Notification;
  nt_created_at : Z;
}.

(** The values of the enum type [subscriber_notification_status]. *)
Inductive Status := Queued | Processing | Published | Failed.

Record SubscriberNotificationRow := mkSubscriberNotificationRow {
  sn_notification : Uuid;
  sn_subscriber : Uuid;
  sn_status : Status;
  sn_created_at : Z;
  sn_updated_at : Z;
  sn_is_read : bool;
}.

(** Keyed by the unique column [project]. *)
Record WelcomeNotification := mkWelcomeNotification {
  wn_enabled : bool;
  wn_type : Uuid;
  wn_title : string;
  wn_body : string;
  wn_url : option string;
}.

#[global] Instance Status_eq_dec : EqDecision Status.
Proof. solve_decision. Defined.
#[global] Instance ProjectRow_eq_dec : EqDecision ProjectRow.
Proof. solve_decision. Defined.
#[global] Instance SubscriberRow_eq_dec : EqDecision SubscriberRow.
Proof. solve_decision. Defined.
#[global] Instance WatcherRow_eq_dec : EqDecision WatcherRow.
Proof. solve_decision. Defined.
#[global] Instance NotificationRow_eq_dec : EqDecision NotificationRow.
Proof. solve_decision. Defined.
#[global] Instance SubscriberNotificationRow_eq_dec : EqDecision SubscriberNotificationRow.
Proof. solve_decision. Defined.
#[global] Instance WelcomeNotification_eq_dec : EqDecision WelcomeNotification.
Proof. solve_decision. Defined.

(** [deliveries] holds the payloads [pg_notify] has sent on the channel
    [notification_for_delivery], in commit order, that no listener consumed. *)
Record Db := mkDb {
  project : gmap Uuid ProjectRow;
  subscriber : gmap Uuid SubscriberRow;
  subscriber_scope : gset (Uuid * string);
  subscription_watcher : gmap string WatcherRow;
  notification : gmap Uuid NotificationRow;
  subscriber_notification : gmap Uuid SubscriberNotificationRow;
  welcome_notification : gmap Uuid WelcomeNotification;
  deliveries : list Uuid;
}.

Definition empty_db : Db := mkDb ∅ ∅ ∅ ∅ ∅ ∅ ∅ [].

Definition set_project f db := mkDb (f (project db)) (subscriber db) (subscriber_scope db)
  (subscription_watcher db) (notification db) (subscriber_notification db)
  (welcome_notification db) (deliveries db).
Definition set_subscriber f db := mkDb (project db) (f (subscriber db)) (subscriber_scope db)
  (subscription_watcher db) (notification db) (subscriber_notification db)
  (welcome_notification db) (deliveries db).
Definition set_subscriber_scope f db := mkDb (project db) (subscriber db)
  (f (subscriber_scope db)) (subscription_watcher db) (notification db)
  (subscriber_notification db) (welcome_notification db) (deliveries db).
Definition set_subscription_watcher f db := mkDb (project db) (subscriber db)
  (subscriber_scope db) (f (subscription_watcher db)) (notification db)
  (subscriber_notification db) (welcome_notification db) (deliveries db).
Definition set_notification f db := mkDb (project db) (subscriber db) (subscriber_scope db)
  (subscription_watcher db) (f (notification db)) (subscriber_notification db)
  (welcome_notification db) (deliveries db).
Definition set_subscriber_notification f db := mkDb (project db) (subscriber db)
  (subscriber_scope db) (subscription_watcher db) (notification db)
  (f (subscriber_notification db)) (welcome_notification db) (deliveries db).
Definition set_welcome f db := mkDb (project db) (subscriber db) (subscriber_scope db)
  (subscription_watcher db) (notification db) (subscriber_notification db)
  (f (welcome_notification db)) (deliveries db).
Definition set_deliveries f db := mkDb (project db) (subscriber db) (subscriber_scope db)
  (subscription_watcher db) (notification db) (subscriber_notification db)
  (welcome_notification db) (f (deliveries db)).

(** ** Rows, constraints and results *)

Abbreviation Query := (M Db SqlxError).

(** The rows of a table, with their primary keys, that satisfy a condition. *)
Definition select {K V} `{Countable K} (P : K → V → bool) (m : gmap K V) : list (K * V) :=
  filter (λ kv, P kv.1 kv.2 = true) (map_to_list m).

(** The row a unique index on [f] holds for a value. *)
Definition find_by {K V B} `{Countable K, EqDecision B} (f : V → B) (v : B) (m : gmap K V)
    : option (K * V) :=
  head (select (λ _ x, bool_decide (f x = v)) m).

(** [VARCHAR(255)]. *)
Definition varchar255 (s : string) : bool := (char_count s <=? 255)%nat.

Definition check_lengths (l : list string) : Query () :=
  guard_err (negb (forallb varchar255 l)) ValueTooLong.

(** A unique index other than the [ON CONFLICT] one that another row holds. *)
Definition check_unique {K V B} `{Countable K, EqDecision B} (index : string)
    (f : V → B) (self : K) (v : B) (m : gmap K V) : Query () :=
  match select (λ k x, bool_decide (k ≠ self) && bool_decide (f x = v)) m with
  | [] => mret ()
  | _ => throw (UniqueViolation index)
  end.

Definition check_fk {K V} `{Countable K} (k : K) (m : gmap K V) : Query () :=
  match m !! k with Some _ => mret () | None => throw ForeignKeyViolation end.

(** [fetch_one], on the rows found. *)
Definition fetch_one {A} (l : list A) : Query A :=
  match l with [] => throw RowNotFound | a :: _ => mret a end.

(** [#[sqlx(try_from)]] of an [AccountId] column. *)
Definition decode_account `{HashOps, HexOps} (s : string) : Query AccountId :=
  lift (map_err ColumnDecode (try_from_account s)).

Fixpoint decode_rows {A B} (f : A → Query B) (l : list A) : Query (list B) :=
  match l with
  | [] => mret []
  | a :: l => b ← f a; bs ← decode_rows f l; mret (b :: bs)
  end.

(** A transaction: nothing of a failed one stays. *)
Definition transaction {A} (q : Query A) : Query A := λ db,
  match q db with
  | (Ok a, db') => (Ok a, db')
  | (r, _) => (r, db)
  end.

(** ** Projects *)

Record Project := mkProject {
  pr_id : Uuid;
  pr_project_id : string;
  pr_app_domain : string;
  pr_topic : Topic;
  pr_authentication_public_key : string;
  pr_authentication_private_key : string;
  pr_subscribe_public_key : string;
  pr_subscribe_private_key : string;
}.

Definition project_of_row (id : Uuid) (p : ProjectRow) : Project :=
  mkProject id (p_project_id p) (p_app_domain p) (p_topic p)
    (p_authentication_public_key p) (p_authentication_private_key p)
    (p_subscribe_public_key p) (p_subscribe_private_key p).

Record ProjectWithPublicKeys := mkProjectWithPublicKeys {
  pk_authentication_public_key : string;
  pk_subscribe_public_key : string;
  pk_topic : Topic;
}.

Definition public_keys (p : ProjectRow) : ProjectWithPublicKeys :=
  mkProjectWithPublicKeys (p_authentication_public_key p) (p_subscribe_public_key p) (p_topic p).

Definition check_project_indexes (self : Uuid) (p : ProjectRow) (m : gmap Uuid ProjectRow)
    : Query () :=
  check_unique "project_app_domain_key" p_app_domain self (p_app_domain p) m ;;
  check_unique "project_topic_key" p_topic self (p_topic p) m ;;
  check_unique "project_authentication_public_key_key" p_authentication_public_key self
    (p_authentication_public_key p) m ;;
  check_unique "project_authentication_private_key_key" p_authentication_private_key self
    (p_authentication_private_key p) m ;;
  check_unique "project_subscribe_public_key_key" p_subscribe_public_key self
    (p_subscribe_public_key p) m ;;
  check_unique "project_subscribe_private_key_key" p_subscribe_private_key self
    (p_subscribe_private_key p) m.

Definition upsert_project_impl (fresh : Uuid) (p : ProjectRow) : Query ProjectWithPublicKeys :=
  check_lengths [p_project_id p; p_app_domain p; p_topic p; p_authentication_public_key p;
    p_authentication_private_key p; p_subscribe_public_key p; p_subscribe_private_key p] ;;
  m ← gets project;
  match find_by p_project_id (p_project_id p) m with
  | Some (id, old) =>
      let p' := mkProjectRow (p_project_id old) (p_app_domain p) (p_topic old)
        (p_authentication_public_key old) (p_authentication_private_key old)
        (p_subscribe_public_key old) (p_subscribe_private_key old) in
      check_unique "project_app_domain_key" p_app_domain id (p_app_domain p) m ;;
      modify (set_project <[id := p']>) ;;
      mret (public_keys p')
  | None =>
      guard_err (bool_decide (is_Some (m !! fresh))) (UniqueViolation "project_pkey") ;;
      check_project_indexes fresh p m ;;
      modify (set_project <[fresh := p]>) ;;
      mret (public_keys p)
  end.

Section project_keys.
Context `{Ext}.

(** The keys as hex, by [encode_*_key] of auth.rs. *)
Definition encode_authentication_private_key (k : bytes) : string := hex_encode k.
Definition encode_authentication_public_key (k : bytes) : string := hex_encode (verifying_key k).
Definition encode_subscribe_private_key (k : bytes) : string := hex_encode k.
Definition encode_subscribe_public_key (k : bytes) : string := hex_encode (x25519_public k).

Definition upsert_project (fresh : Uuid) (project_id app_domain : string) (topic : Topic)
    (authentication_key subscribe_key : bytes) : Query ProjectWithPublicKeys :=
  upsert_project_impl fresh (mkProjectRow project_id app_domain topic
    (encode_authentication_public_key authentication_key)
    (encode_authentication_private_key authentication_key)
    (encode_subscribe_public_key subscribe_key)
    (encode_subscribe_private_key subscribe_key)).
End project_keys.

Definition select_project (P : Uuid → ProjectRow → bool) : Query Project :=
  m ← gets project;
  '(id, p) ← fetch_one (select P m);
  mret (project_of_row id p).

Definition get_project_by_id (id : Uuid) : Query Project :=
  select_project (λ k _, bool_decide (k = id)).
Definition get_project_by_project_id (project_id : string) : Query Project :=
  select_project (λ _ p, bool_decide (p_project_id p = project_id)).
Definition get_project_by_app_domain (app_domain : string) : Query Project :=
  select_project (λ _ p, bool_decide (p_app_domain p = app_domain)).
Definition get_project_by_topic (topic : Topic) : Query Project :=
  select_project (λ _ p, bool_decide (p_topic p = topic)).

(** [JOIN project ON project.id=subscriber.project WHERE project.project_id=$1]. *)
Definition in_project_id (db : Db) (project_id : string) (s : SubscriberRow) : bool :=
  match project db !! s_project s with
  | Some p => bool_decide (p_project_id p = project_id)
  | None => false
  end.

Definition get_subscriber_topics : Query (list Topic) :=
  gets (λ db, (λ kv, s_topic kv.2) <$> map_to_list (subscriber db)).

Definition get_project_topics : Query (list Topic) :=
  gets (λ db, (λ kv, p_topic kv.2) <$> map_to_list (project db)).

(** ** Subscribers *)

(** [array_agg(subscriber_scope.name)] of the left join with the scopes. *)
Definition scope_names (sub : Uuid) (scopes : gset (Uuid * string)) : list string :=
  snd <$> filter (λ p, p.1 = sub) (elements scopes).

Section subscribers.
Context `{Ext}.

Definition get_subscriber_accounts_by_project_id (project_id : string)
    : Query (list AccountId) :=
  rows ← gets (λ db, select (λ _ s, in_project_id db project_id s) (subscriber db));
  decode_rows (λ kv, decode_account (s_account kv.2)) rows.

Record SubscriberAccountAndScopes := mkSubscriberAccountAndScopes {
  sas_account : AccountId;
  sas_scope : gset Uuid;
}.

(** [get_address_lower(account)=ANY(addresses)]. *)
Definition address_in (account : string) (addresses : list string) : bool :=
  bool_decide (get_address_lower account ∈ addresses).

(** The addresses of the accounts given; the slices of
    [get_address_from_account] panic on an account that is not CAIP-10. *)
Definition lower_addresses (accounts : list AccountId) : Query (list string) :=
  decode_rows (λ a, addr ← lift (unwrap (get_address_from_account a));
                    mret (to_ascii_lowercase addr)) accounts.

(** [GROUP BY account]: one row per account text. *)
Definition get_subscribers_by_project_id_and_accounts (project_id : string)
    (accounts : list AccountId) : Query (list SubscriberAccountAndScopes) :=
  addresses ← lower_addresses accounts;
  rows ← gets (λ db,
    let subs := select (λ _ s, in_project_id db project_id s
                               && address_in (s_account s) addresses) (subscriber db) in
    (λ a, (a, x ← subs; if bool_decide (s_account x.2 = a)
                        then scope_names x.1 (subscriber_scope db) else []))
      <$> elements (list_to_set (C:=gset string) ((λ x, s_account x.2) <$> subs)));
  decode_rows (λ r, a ← decode_account r.1;
    mret (mkSubscriberAccountAndScopes a (parse_scopes_and_ignore_invalid r.2))) rows.

Record SubscribeResponse := mkSubscribeResponse {
  sr_id : Uuid;
  sr_account : AccountId;
  sr_topic : Topic;
  sr_inserted : bool;
}.

(** The names are the uuids bound as parameters. *)
Definition update_subscriber_scope (sub : Uuid) (scope : gset Uuid) : Query () :=
  modify (set_subscriber_scope (filter (λ p, p.1 ≠ sub))) ;;
  m ← gets subscriber;
  (if decide (scope = ∅) then mret () else check_fk sub m) ;;
  modify (set_subscriber_scope
    (union (list_to_set ((λ u, (sub, uuid_to_string u)) <$> elements scope)))).

Definition upsert_subscriber (now : Z) (fresh : Uuid) (proj : Uuid) (account : AccountId)
    (scope : gset Uuid) (notify_key : bytes) (notify_topic : Topic)
    : Query SubscribeResponse := transaction (
  let sym_key := hex_encode notify_key in
  let key s := (s_project s, get_address_lower (s_account s)) in
  let expiry := now + days 30 in
  check_lengths [account_str account; sym_key; notify_topic] ;;
  db ← gets id;
  let m := subscriber db in
  row ← match find_by key (proj, get_address_lower (account_str account)) m with
        | Some (i, s) =>
            modify (set_subscriber <[i := mkSubscriberRow (s_project s) (s_account s)
                                       (s_sym_key s) (s_topic s) expiry]>) ;;
            mret (i, s_account s, s_topic s, false)
        | None =>
            guard_err (bool_decide (is_Some (m !! fresh))) (UniqueViolation "subscriber_pkey") ;;
            check_unique "subscriber_sym_key_key" s_sym_key fresh sym_key m ;;
            check_unique "subscriber_topic_key" s_topic fresh notify_topic m ;;
            check_fk proj (project db) ;;
            modify (set_subscriber <[fresh := mkSubscriberRow proj (account_str account)
                                       sym_key notify_topic expiry]>) ;;
            mret (fresh, account_str account, notify_topic, true)
        end;
  let '(i, acc, topic, inserted) := row in
  a ← decode_account acc;
  update_subscriber_scope i scope ;;
  mret (mkSubscribeResponse i a topic inserted)).

Record Subscriber := mkSubscriber {
  sub_id : Uuid;
  sub_project : Uuid;
  sub_account : AccountId;
  sub_sym_key : string;
  sub_topic : Topic;
  sub_expiry : Z;
}.

Definition update_subscriber (now : Z) (sub : Uuid) (scope : gset Uuid)
    : Query Subscriber := transaction (
  m ← gets subscriber;
  s ← fetch_one (select (λ k _, bool_decide (k = sub)) m);
  let s' := mkSubscriberRow (s_project s.2) (s_account s.2) (s_sym_key s.2) (s_topic s.2)
              (now + days 30) in
  modify (set_subscriber <[s.1 := s']>) ;;
  a ← decode_account (s_account s');
  (if bool_decide (s.1 = sub) then mret () else panic) ;;
  update_subscriber_scope sub scope ;;
  mret (mkSubscriber s.1 (s_project s') a (s_sym_key s') (s_topic s') (s_expiry s'))).

(** [ON DELETE CASCADE] of the tables that reference [subscriber]. *)
Definition delete_subscriber (sub : Uuid) : Query () :=
  modify (λ db, mkDb (project db) (delete sub (subscriber db))
    (filter (λ p, p.1 ≠ sub) (subscriber_scope db)) (subscription_watcher db)
    (notification db)
    (filter (λ kv, sn_subscriber kv.2 ≠ sub) (subscriber_notification db))
    (welcome_notification db) (deliveries db)).

Record SubscriberWithScope := mkSubscriberWithScope {
  sws_id : Uuid;
  sws_project : Uuid;
  sws_account : AccountId;
  sws_sym_key : string;
  sws_topic : Topic;
  sws_scope : gset Uuid;
  sws_expiry : Z;
}.

Definition get_subscriber_by_topic (topic : Topic) : Query SubscriberWithScope :=
  db ← gets id;
  '(i, s) ← fetch_one (select (λ _ s, bool_decide (s_topic s = topic)) (subscriber db));
  a ← decode_account (s_account s);
  mret (mkSubscriberWithScope i (s_project s) a (s_sym_key s) (s_topic s)
    (parse_scopes_and_ignore_invalid (scope_names i (subscriber_scope db))) (s_expiry s)).

Record NotifySubscriberInfo := mkNotifySubscriberInfo {
  nsi_id : Uuid;
  nsi_account : AccountId;
  nsi_scope : gset Uuid;
}.

Definition get_subscribers_for_project_in (proj : Uuid) (accounts : list AccountId)
    : Query (list NotifySubscriberInfo) :=
  addresses ← lower_addresses accounts;
  db ← gets id;
  decode_rows (λ kv, a ← decode_account (s_account kv.2);
    mret (mkNotifySubscriberInfo kv.1 a
      (parse_scopes_and_ignore_invalid (scope_names kv.1 (subscriber_scope db)))))
    (select (λ _ s, bool_decide (s_project s = proj) && address_in (s_account s) addresses)
       (subscriber db)).

Record SubscriberWithProject := mkSubscriberWithProject {
  swp_app_domain : string;
  swp_authentication_public_key : string;
  swp_account : AccountId;
  swp_sym_key : string;
  swp_scope : gset Uuid;
  swp_expiry : Z;
  swp_unread_notification_count : Z;
}.

Definition unread_count (db : Db) (sub : Uuid) : Z :=
  Z.of_nat (length (select (λ _ n, bool_decide (sn_subscriber n = sub) && negb (sn_is_read n))
            (subscriber_notification db))).

Definition get_subscriptions_by_account_and_maybe_app (account : AccountId)
    (app_domain : option string) : Query (list SubscriberWithProject) :=
  db ← gets id;
  let rows := omap (λ kv, p ← project db !! s_project kv.2;
      if bool_decide (get_address_lower (s_account kv.2)
                      = get_address_lower (account_str account))
         && match app_domain with
            | Some d => bool_decide (p_app_domain p = d)
            | None => true
            end
      then Some (kv, p) else None) (map_to_list (subscriber db)) in
  decode_rows (λ r : (Uuid * SubscriberRow) * ProjectRow,
    let '(i, s, p) := r in
    a ← decode_account (s_account s);
    mret (mkSubscriberWithProject (p_app_domain p) (p_authentication_public_key p) a
      (s_sym_key s) (parse_scopes_and_ignore_invalid (scope_names i (subscriber_scope db)))
      (s_expiry s) (unread_count db i))) rows.

(** ** Watchers *)

Definition SUBSCRIPTION_WATCHER_LIMIT : Z := 25.

Inductive UpsertSubscriptionWatcherError :=
| LimitReached
| WatcherSqlx (e : SqlxError).

(** SQL equality: unknown, hence not counted, when a side is NULL. *)
Definition sql_eq (a b : option Uuid) : bool :=
  match a, b with Some x, Some y => bool_decide (x = y) | _, _ => false end.

Definition watcher_count (account : string) (proj : option Uuid) (m : gmap string WatcherRow)
    : Z :=
  Z.of_nat (length (select (λ _ w,
    bool_decide (get_address_lower (w_account w) = get_address_lower account)
    && sql_eq (w_project w) proj) m)).

Definition upsert_subscription_watcher (account : AccountId) (proj : option Uuid)
    (did_key sym_key : string) (expiry : Z) : M Db UpsertSubscriptionWatcherError () :=
  db ← gets id;
  let m := subscription_watcher db in
  if watcher_count (account_str account) proj m <? SUBSCRIPTION_WATCHER_LIMIT then
    m_map_err WatcherSqlx (
      check_lengths [account_str account; did_key; sym_key] ;;
      (match proj with Some p => check_fk p (project db) | None => mret () end) ;;
      modify (set_subscription_watcher
        <[did_key := mkWatcherRow (account_str account) proj sym_key expiry]>))
  else throw LimitReached.

Record SubscriptionWatcherQuery := mkSubscriptionWatcherQuery {
  swq_account : AccountId;
  swq_project : option Uuid;
  swq_did_key : string;
  swq_sym_key : string;
}.

Definition get_subscription_watchers_for_account_by_app_or_all_app (now : Z)
    (account : AccountId) (app_domain : string) : Query (list SubscriptionWatcherQuery) :=
  db ← gets id;
  let in_app w := match w_project w with
                  | None => true
                  | Some p => match project db !! p with
                              | Some r => bool_decide (p_app_domain r = app_domain)
                              | None => false
                              end
                  end in
  decode_rows (λ kv, a ← decode_account (w_account kv.2);
      mret (mkSubscriptionWatcherQuery a (w_project kv.2) kv.1 (w_sym_key kv.2)))
    (select (λ _ w, bool_decide (now < w_expiry w)
        && bool_decide (get_address_lower (w_account w)
                        = get_address_lower (account_str account))
        && in_app w) (subscription_watcher db)).

Definition delete_expired_subscription_watchers (now : Z) : Query Z :=
  m ← gets subscription_watcher;
  modify (set_subscription_watcher (filter (λ kv, now < w_expiry kv.2))) ;;
  mret (Z.of_nat (length (select (λ _ w, bool_decide (w_expiry w <= now)) m))).
End subscribers.

(** ** Notifications of a subscriber *)

(** model::helpers::Notification. *)
Record NotificationView := mkNotificationView {
  nv_notification_id : Uuid;
  nv_id : Uuid;
  nv_sent_at : Z;
  nv_content : Notification;
  nv_is_read : bool;
}.

Record GetNotificationsResult := mkGetNotificationsResult {
  notifications : list NotificationView;
  has_more : bool;
  has_more_unread : bool;
}.

Record GetNotificationsParams := mkGetNotificationsParams {
  gn_limit : nat;
  gn_after : option Uuid;
  gn_unread_first : bool;
}.

(** [#[validate(range(min = 1, max = 50))]]. *)
Definition get_notifications_params_checks (p : GetNotificationsParams) : list (string * bool) :=
  [("limit", (1 <=? gn_limit p)%nat && (gn_limit p <=? 50)%nat)].

Definition int8_of_ms (t : Z) : Z := Z.sgn t * ((Z.abs t + 500) / 1000).

(** [ORDER BY is_read ASC?, created_at DESC, id ASC]. *)
Definition order_by (unread_first : bool) (x y : Uuid * SubscriberNotificationRow) : bool :=
  let tail :=
    (sn_created_at y.2 <? sn_created_at x.2)
    || ((sn_created_at y.2 =? sn_created_at x.2) && (x.1 <=? y.1)%N) in
  if unread_first then
    (negb (sn_is_read x.2) && sn_is_read y.2) || (eqb (sn_is_read x.2) (sn_is_read y.2) && tail)
  else tail.

(** The row comparison of [after_clause]; NULL, hence false, when the cursor
    is not a row of the table. *)
Definition after_clause (now : Z) (unread_first : bool) (after : option Uuid)
    (m : gmap Uuid SubscriberNotificationRow) (id : Uuid) (r : SubscriberNotificationRow)
    : bool :=
  match after with
  | None => true
  | Some a =>
      match m !! a with
      | None => false
      | Some c =>
          let age x := now - sn_created_at x in
          let tail := (age c <? age r) || ((age c =? age r) && (a <? id)%N) in
          if unread_first then
            (negb (sn_is_read c) && sn_is_read r) || (eqb (sn_is_read c) (sn_is_read r) && tail)
          else tail
      end
  end.

Definition order_le (unread_first : bool) : relation (Uuid * SubscriberNotificationRow) :=
  λ x y, order_by unread_first x y = true.

#[global] Instance order_le_dec unread_first : RelDecision (order_le unread_first).
Proof. intros x y. unfold order_le. apply _. Defined.

Definition sort_rows (unread_first : bool) (l : list (Uuid * SubscriberNotificationRow))
    : list (Uuid * SubscriberNotificationRow) :=
  merge_sort (order_le unread_first) l.

(** The rows of the page query before [LIMIT], the join included. *)
Definition page_rows (now : Z) (sub : Uuid) (unread_first : bool) (after : option Uuid) (db : Db)
    : list (Uuid * SubscriberNotificationRow) :=
  sort_rows unread_first
    (select (λ i r, bool_decide (sn_subscriber r = sub)
         && bool_decide (is_Some (notification db !! sn_notification r))
         && after_clause now unread_first after (subscriber_notification db) i r)
       (subscriber_notification db)).

Definition view_row (db : Db) (x : Uuid * SubscriberNotificationRow) : option NotificationView :=
  n ← notification db !! sn_notification x.2;
  Some (mkNotificationView (sn_notification x.2) x.1 (int8_of_ms (sn_created_at x.2))
          (nt_content n) (sn_is_read x.2)).

Definition has_more_unread_query (now : Z) (sub : Uuid) (unread_first : bool) (last : Uuid)
    (db : Db) : bool :=
  match select (λ i r, bool_decide (sn_subscriber r = sub) && negb (sn_is_read r)
           && after_clause now unread_first (Some last) (subscriber_notification db) i r)
         (subscriber_notification db) with
  | [] => false
  | _ => true
  end.

Definition get_notifications_for_subscriber (now : Z) (sub : Uuid) (p : GetNotificationsParams)
    : Query GetNotificationsResult :=
  db ← gets id;
  let ns := omap (view_row db)
    (take (S (gn_limit p)) (page_rows now sub (gn_unread_first p) (gn_after p) db)) in
  let has_more := (gn_limit p <? length ns)%nat in
  let ns := take (gn_limit p) ns in
  let has_more_unread :=
    match list.last ns with
    | Some n => has_more_unread_query now sub (gn_unread_first p) (nv_id n) db
    | None => false
    end in
  mret (mkGetNotificationsResult ns has_more has_more_unread).

Record MarkNotificationsAsReadParams := mkMarkNotificationsAsReadParams {
  mr_all : bool;
  mr_ids : option (list Uuid);
}.

(** [length(min = 1, max = 1000)] and the custom validator, on field [ids];
    the custom check runs on the option, absent or not. *)
Definition mark_notifications_as_read_params_checks (p : MarkNotificationsAsReadParams)
    : list (string * bool) :=
  [("ids",
    match mr_ids p with
    | Some ids => (1 <=? length ids)%nat && (length ids <=? 1000)%nat
    | None => true
    end &&
    if mr_all p then negb (bool_decide (is_Some (mr_ids p)))
    else bool_decide (is_Some (mr_ids p)))].

Definition mark_read (r : SubscriberNotificationRow) : SubscriberNotificationRow :=
  mkSubscriberNotificationRow (sn_notification r) (sn_subscriber r) (sn_status r)
    (sn_created_at r) (sn_updated_at r) true.

(** Rows are (notification, subscriber notification). *)
Definition mark_notifications_as_read (sub : Uuid) (ids : option (list Uuid))
    : Query (list (Uuid * Uuid)) :=
  m ← gets subscriber_notification;
  let P i r := bool_decide (sn_subscriber r = sub) && negb (sn_is_read r)
               && match ids with Some l => bool_decide (i ∈ l) | None => true end in
  modify (set_subscriber_notification (map_imap (λ i r, Some (if P i r then mark_read r else r)))) ;;
  mret ((λ kv, (sn_notification kv.2, kv.1)) <$> select P m).

(** As written: the keys compared with [subscriber_notification.id] are those
    of the project's subscribers.  Without [RETURNING] no row comes back. *)
Definition mark_all_notifications_as_read_for_project (proj : Uuid)
    : Query (list (Uuid * Uuid)) :=
  db ← gets id;
  let ids := fst <$> select (λ _ s, bool_decide (s_project s = proj)
                        && bool_decide (is_Some (project db !! s_project s))) (subscriber db) in
  modify (set_subscriber_notification
    (map_imap (λ i r, Some (if decide (i ∈ ids) then mark_read r else r)))) ;;
  mret [].

(** ** Welcome notifications *)

Definition welcome_notification_checks (w : WelcomeNotification) : list (string * bool) :=
  [("title", validate_length 1 64 (wn_title w)); ("body", validate_length 1 255 (wn_body w));
   ("url", match wn_url w with Some u => validate_length 1 255 u | None => true end)].

Definition get_welcome_notification (proj : Uuid) : Query (option WelcomeNotification) :=
  gets (λ db, welcome_notification db !! proj).

Definition set_welcome_notification (proj : Uuid) (w : WelcomeNotification) : Query () :=
  check_lengths ([wn_title w; wn_body w] ++ option_list (wn_url w)) ;;
  m ← gets project;
  check_fk proj m ;;
  modify (set_welcome <[proj := w]>).

(** ** Links *)

Record FollowNotificationLink := mkFollowNotificationLink {
  fl_project_pk : Uuid;
  fl_project_id : string;
  fl_subscriber_pk : Uuid;
  fl_subscriber_account : AccountId;
  fl_notification_topic : Topic;
  fl_subscriber_notification_id : Uuid;
  fl_notification_id : Uuid;
  fl_notification_type : Uuid;
  fl_notification_url : option string;
}.

Definition get_notification_link `{HashOps, HexOps} (sn_id : Uuid)
    : Query (option FollowNotificationLink) :=
  db ← gets id;
  match (sn ← subscriber_notification db !! sn_id;
         s ← subscriber db !! sn_subscriber sn;
         p ← project db !! s_project s;
         n ← notification db !! sn_notification sn;
         Some (sn, s, p, n)) with
  | None => mret None
  | Some (sn, s, p, n) =>
      a ← decode_account (s_account s);
      mret (Some (mkFollowNotificationLink (s_project s) (p_project_id p) (sn_subscriber sn) a
        (s_topic s) sn_id (sn_notification sn) (n_type (nt_content n)) (n_url (nt_content n))))
  end.

(** ** The publishing queue (publisher_service/helpers.rs) *)

Inductive SubscriberNotificationStatus :=
| SNS_Queued | SNS_Processing | SNS_Published | SNS_Failed
| SNS_NotSubscribed | SNS_WrongScope | SNS_RateLimited.

#[global] Instance SubscriberNotificationStatus_eq_dec : EqDecision SubscriberNotificationStatus.
Proof. solve_decision. Defined.

Definition status_to_string (s : SubscriberNotificationStatus) : string :=
  match s with
  | SNS_Queued => "queued"
  | SNS_Processing => "processing"
  | SNS_Published => "published"
  | SNS_Failed => "failed"
  | SNS_NotSubscribed => "not-subscribed"
  | SNS_WrongScope => "wrong-scope"
  | SNS_RateLimited => "rate-limited"
  end.

Definition status_from_str (s : string) : option SubscriberNotificationStatus :=
  if String.eqb s "queued" then Some SNS_Queued
  else if String.eqb s "processing" then Some SNS_Processing
  else if String.eqb s "published" then Some SNS_Published
  else if String.eqb s "failed" then Some SNS_Failed
  else if String.eqb s "not-subscribed" then Some SNS_NotSubscribed
  else if String.eqb s "wrong-scope" then Some SNS_WrongScope
  else if String.eqb s "rate-limited" then Some SNS_RateLimited
  else None.

(** The cast to the enum type of the migration. *)
Definition cast_status (s : string) : option Status :=
  if String.eqb s "queued" then Some Queued
  else if String.eqb s "processing" then Some Processing
  else if String.eqb s "published" then Some Published
  else if String.eqb s "failed" then Some Failed
  else None.

Record NotificationWithId := mkNotificationWithId {
  nwi_id : Uuid;
  nwi_notification : Notification;
}.

Definition upsert_notification (now : Z) (fresh : Uuid) (notification_id : string)
    (proj : Uuid) (n : Notification) : Query NotificationWithId :=
  check_lengths ([notification_id; n_title n; n_body n] ++ option_list (n_icon n)
                   ++ option_list (n_url n)) ;;
  db ← gets id;
  match find_by (λ r, (nt_project r, nt_notification_id r)) (proj, notification_id)
          (notification db) with
  | Some (i, r) => mret (mkNotificationWithId i (nt_content r))
  | None =>
      guard_err (bool_decide (is_Some (notification db !! fresh)))
        (UniqueViolation "notification_pkey") ;;
      check_fk proj (project db) ;;
      modify (set_notification <[fresh := mkNotificationRow proj notification_id n now]>) ;;
      mret (mkNotificationWithId fresh n)
  end.

(** One row of the [INSERT ... SELECT]; the trigger sends its id. *)
Definition insert_subscriber_notification (now : Z) (notif : Uuid) (row : Uuid * Uuid)
    : Query () :=
  let '(fresh, sub) := row in
  db ← gets id;
  match find_by (λ r, (sn_notification r, sn_subscriber r)) (notif, sub)
          (subscriber_notification db) with
  | Some _ => mret ()
  | None =>
      guard_err (bool_decide (is_Some (subscriber_notification db !! fresh)))
        (UniqueViolation "subscriber_notification_pkey") ;;
      check_fk notif (notification db) ;;
      check_fk sub (subscriber db) ;;
      modify (set_subscriber_notification
        <[fresh := mkSubscriberNotificationRow notif sub Queued now now false]>) ;;
      modify (set_deliveries (λ l, l ++ [fresh]))
  end.

(** [rows] pairs each subscriber with the random key its row would get. *)
Definition upsert_subscriber_notifications (now : Z) (notif : Uuid) (rows : list (Uuid * Uuid))
    : Query () :=
  transaction (for_each (insert_subscriber_notification now notif) rows).

Record NotificationToProcess := mkNotificationToProcess {
  np_notification : Uuid;
  np_notification_created_at : Z;
  np_content : Notification;
  np_subscriber : Uuid;
  np_subscriber_account : AccountId;
  np_subscriber_sym_key : string;
  np_subscriber_topic : Topic;
  np_subscriber_notification : Uuid;
  np_is_read : bool;
  np_project : Uuid;
  np_project_project_id : string;
  np_project_app_domain : string;
  np_project_authentication_public_key : string;
  np_project_authentication_private_key : string;
}.

(** A row update and its trigger. *)
Definition set_status (now : Z) (st : Status) (i : Uuid) (r : SubscriberNotificationRow)
    : Query () :=
  modify (set_subscriber_notification <[i := mkSubscriberNotificationRow (sn_notification r)
    (sn_subscriber r) st (sn_created_at r) now (sn_is_read r)]>) ;;
  if bool_decide (sn_status r ≠ st) && bool_decide (st = Queued)
  then modify (set_deliveries (λ l, l ++ [i])) else mret ().

(** [choose] tells which of the queued rows, minus those other transactions
    hold locked, the [LIMIT 1] subquery returns. *)
Definition pick_queued (now : Z) (locked : gset Uuid) (choose : nat) : Query (option Uuid) :=
  m ← gets subscriber_notification;
  let queued := fst <$> select (λ i r, bool_decide (sn_status r = Queued)
                                 && bool_decide (i ∉ locked)) m in
  match queued !! (choose mod length queued)%nat with
  | None => mret None
  | Some i =>
      match m !! i with
      | None => mret None
      | Some r => set_status now Processing i r ;; mret (Some i)
      end
  end.

Definition select_for_processing `{HashOps, HexOps} (i : Uuid)
    : Query (option NotificationToProcess) :=
  db ← gets id;
  match (sn ← subscriber_notification db !! i;
         n ← notification db !! sn_notification sn;
         s ← subscriber db !! sn_subscriber sn;
         p ← project db !! nt_project n;
         Some (sn, n, s, p)) with
  | None => mret None
  | Some (sn, n, s, p) =>
      a ← decode_account (s_account s);
      mret (Some (mkNotificationToProcess (sn_notification sn) (nt_created_at n) (nt_content n)
        (sn_subscriber sn) a (s_sym_key s) (s_topic s) i (sn_is_read sn) (nt_project n)
        (p_project_id p) (p_app_domain p) (p_authentication_public_key p)
        (p_authentication_private_key p)))
  end.

Definition pick_subscriber_notification_for_processing `{HashOps, HexOps} (now : Z)
    (locked : gset Uuid) (choose : nat)
    : Query (option NotificationToProcess) :=
  picked ← pick_queued now locked choose;
  match picked with
  | Some i => select_for_processing i
  | None => mret None
  end.

Definition update_message_processing_status (now : Z) (i : Uuid)
    (st : SubscriberNotificationStatus) : Query () :=
  match cast_status (status_to_string st) with
  | None => throw InvalidEnumValue
  | Some st =>
      m ← gets subscriber_notification;
      match m !! i with
      | None => mret ()
      | Some r => set_status now st i r
      end
  end.

(** [updated_at] is not changed by this statement. *)
Definition requeue (i : Uuid) : Query () :=
  m ← gets subscriber_notification;
  match m !! i with
  | None => mret ()
  | Some r => set_status (sn_updated_at r) Queued i r
  end.

Definition dead_letters_check (now threshold : Z) : Query () :=
  m ← gets subscriber_notification;
  for_each (λ kv, requeue kv.1)
    (select (λ _ r, bool_decide (sn_status r = Processing)
                    && bool_decide (sn_updated_at r < now - threshold)) m).

Definition dead_letter_give_up_check (now notification_created_at threshold : Z) : bool :=
  notification_created_at + threshold <? now.

Definition get_publishing_queue_stats : Query (Z * Z) :=
  gets (λ db,
    let count st := Z.of_nat (length (select (λ _ r, bool_decide (sn_status r = st))
                                       (subscriber_notification db))) in
    (count Queued, count Processing)).
