(* ===== verification/DbInvariant.v ===== *)
(** * The integrity of the database (migrations/)

    [wf_db] collects the unique indexes and foreign keys of the migrations.
    PostgreSQL enforces them; here they are theorems about the statements: the
    model of each query keeps them, so the queries' own checks and conflict
    clauses are enough, and the other files may assume them of every reachable
    database. *)

From S2P Require Import Prelude RustStr Externals Concrete AccountId Errors Types Database.
Open Scope Z_scope.

(** ** Unique indexes *)

Definition unique_by {K V B} `{Countable K} (f : V → B) (m : gmap K V) : Prop :=
  ∀ i j x y, m !! i = Some x → m !! j = Some y → f x = f y → i = j.

Section unique.
Context {K V B : Type} `{Countable K}.
Implicit Types (f : V → B) (m : gmap K V).

Lemma unique_by_empty f : unique_by f (∅ : gmap K V).
Proof. intros i j x y Hi. by rewrite lookup_empty in Hi. Qed.

Lemma unique_by_insert f m i x :
  unique_by f m → (∀ j y, m !! j = Some y → f y = f x → j = i) → unique_by f (<[i := x]> m).
Proof.
  intros Hu Hx j k y z Hj Hk Heq.
  apply lookup_insert_Some in Hj as [[<- <-]|[Hne Hj]];
    apply lookup_insert_Some in Hk as [[<- <-]|[Hne' Hk]]; [done|..].
  - symmetry. by eapply Hx.
  - by eapply Hx.
  - by eapply Hu.
Qed.

Lemma unique_by_sub f m m' :
  unique_by f m → m' ⊆ m → unique_by f m'.
Proof. intros Hu Hs i j x y Hi Hj. by apply (Hu i j x y); eapply lookup_weaken. Qed.

(** Replacing values by ones with the same key. *)
Lemma unique_by_same f m m' :
  unique_by f m →
  (∀ i x, m' !! i = Some x → ∃ y, m !! i = Some y ∧ f y = f x) → unique_by f m'.
Proof.
  intros Hu Hs i j x y Hi Hj Heq.
  destruct (Hs i x Hi) as (x' & Hx' & Ex), (Hs j y Hj) as (y' & Hy' & Ey).
  apply (Hu i j x' y'); congruence.
Qed.

Lemma elem_of_select (P : K → V → bool) m i x :
  (i, x) ∈ select P m ↔ m !! i = Some x ∧ P i x = true.
Proof. unfold select. rewrite list_elem_of_filter, elem_of_map_to_list. simpl. tauto. Qed.

Lemma select_NoDup (P : K → V → bool) m : NoDup (select P m).
Proof. apply list.NoDup_filter, NoDup_map_to_list. Qed.

Lemma select_unique (P : K → V → bool) m i x :
  m !! i = Some x → P i x = true →
  (∀ j y, m !! j = Some y → P j y = true → j = i) → select P m = [(i, x)].
Proof.
  intros Hi Hp Hu. apply NoDup_singleton_inv; [apply select_NoDup|].
  intros [j y]. rewrite elem_of_select. split; [|by intros [= -> ->]].
  intros [Hj Hq]. assert (j = i) as -> by eauto. congruence.
Qed.

Lemma select_none (P : K → V → bool) m :
  (∀ j y, m !! j = Some y → P j y = false) → select P m = [].
Proof.
  intros Hn. apply filter_all_false, list.Forall_forall. intros [j y] Hin%elem_of_map_to_list.
  simpl. by rewrite (Hn j y Hin).
Qed.

Context `{EqDecision B}.

Lemma find_by_Some f v m i x :
  find_by f v m = Some (i, x) → m !! i = Some x ∧ f x = v.
Proof.
  unfold find_by. intros Hin%head_Some_elem_of.
  apply elem_of_select in Hin as [? ?%bool_decide_eq_true]. done.
Qed.

Lemma find_by_None f v m : find_by f v m = None ↔ ∀ i x, m !! i = Some x → f x ≠ v.
Proof.
  unfold find_by. split.
  - intros Hn i x Hi Heq. assert (Hin : (i, x) ∈ select (λ _ x, bool_decide (f x = v)) m).
    { apply elem_of_select. by rewrite bool_decide_eq_true. }
    destruct (select _ m); [by apply elem_of_nil in Hin|done].
  - intros Hn. destruct (select _ m) as [|[i x] l] eqn:E; [done|].
    assert (Hin : (i, x) ∈ select (λ _ x, bool_decide (f x = v)) m) by (rewrite E; left).
    apply elem_of_select in Hin as [Hi Hf%bool_decide_eq_true]. by destruct (Hn i x Hi Hf).
Qed.

Lemma find_by_unique f m i x :
  unique_by f m → m !! i = Some x → find_by f (f x) m = Some (i, x).
Proof.
  intros Hu Hi. destruct (find_by f (f x) m) as [[j y]|] eqn:E.
  - apply find_by_Some in E as [Hj Hf]. assert (j = i) as -> by (by eapply Hu). congruence.
  - by destruct (proj1 (find_by_None _ _ _) E i x Hi).
Qed.

Lemma check_unique_read_only idx f (self : K) v m : read_only (check_unique idx f self v m).
Proof. unfold check_unique. by destruct (select _ m). Qed.

Lemma check_unique_Ok idx f (self : K) v m db u db' :
  check_unique idx f self v m db = (Ok u, db') →
  ∀ j y, m !! j = Some y → f y = v → j = self.
Proof.
  unfold check_unique. destruct (select _ m) eqn:E; [|done]. intros _ j y Hj Hf.
  destruct (decide (j = self)) as [|Hne]; [done|].
  assert (Hin : (j, y) ∈ select (λ k x, bool_decide (k ≠ self) && bool_decide (f x = v)) m).
  { apply elem_of_select. by rewrite !bool_decide_true. }
  rewrite E in Hin. by apply elem_of_nil in Hin.
Qed.

Lemma check_fk_read_only (k : K) m : read_only (check_fk k m).
Proof. unfold check_fk. by destruct (m !! k). Qed.

Lemma check_fk_Ok (k : K) m db u db' :
  check_fk k m db = (Ok u, db') → is_Some (m !! k).
Proof. unfold check_fk. by destruct (m !! k). Qed.
End unique.

Lemma check_lengths_read_only l : read_only (check_lengths l).
Proof. apply read_only_guard. Qed.

Lemma fetch_one_read_only {A} (l : list A) : read_only (fetch_one l).
Proof. by destruct l. Qed.

Lemma decode_rows_read_only {A B} (f : A → Query B) l :
  (∀ a, read_only (f a)) → read_only (decode_rows f l).
Proof. intros Hf. induction l; simpl; solve_read_only. Qed.

#[export] Hint Resolve check_unique_read_only check_fk_read_only check_lengths_read_only
  fetch_one_read_only decode_rows_read_only : read_only.

(** ** The invariant *)

Record wf_db (db : Db) : Prop := {
  wf_project_id : unique_by p_project_id (project db);
  wf_app_domain : unique_by p_app_domain (project db);
  wf_project_topic : unique_by p_topic (project db);
  wf_auth_public : unique_by p_authentication_public_key (project db);
  wf_auth_private : unique_by p_authentication_private_key (project db);
  wf_sub_public : unique_by p_subscribe_public_key (project db);
  wf_sub_private : unique_by p_subscribe_private_key (project db);
  wf_subscriber_key :
    unique_by (λ s, (s_project s, get_address_lower (s_account s))) (subscriber db);
  wf_sym_key : unique_by s_sym_key (subscriber db);
  wf_topic : unique_by s_topic (subscriber db);
  wf_subscriber_fk i s : subscriber db !! i = Some s → is_Some (project db !! s_project s);
  wf_scope_fk i n : (i, n) ∈ subscriber_scope db → is_Some (subscriber db !! i);
  wf_watcher_fk k w p :
    subscription_watcher db !! k = Some w → w_project w = Some p → is_Some (project db !! p);
  wf_notification_key :
    unique_by (λ n, (nt_project n, nt_notification_id n)) (notification db);
  wf_notification_fk i n : notification db !! i = Some n → is_Some (project db !! nt_project n);
  wf_sn_key : unique_by (λ r, (sn_notification r, sn_subscriber r)) (subscriber_notification db);
  wf_sn_fk i r :
    subscriber_notification db !! i = Some r →
    is_Some (notification db !! sn_notification r) ∧ is_Some (subscriber db !! sn_subscriber r);
  wf_welcome_fk p w : welcome_notification db !! p = Some w → is_Some (project db !! p);
}.

Lemma wf_empty : wf_db empty_db.
Proof.
  split; simpl; try apply unique_by_empty; try (intros *; rewrite lookup_empty; done);
    set_solver.
Qed.

(** Preservation of [wf_db], whatever the outcome. *)
Definition keeps_wf {E A} (q : M Db E A) : Prop := ∀ db, wf_db db → wf_db (q db).2.

Lemma keeps_wf_read_only {E A} (q : M Db E A) : read_only q → keeps_wf q.
Proof. intros Hq db. by rewrite Hq. Qed.

Lemma keeps_wf_bind {E A B} (q : M Db E A) (f : A → M Db E B) :
  keeps_wf q → (∀ a, keeps_wf (f a)) → keeps_wf (q ≫= f).
Proof. intros Hq Hf db Hdb. apply after_bind; [by apply Hq|]. intros a db' _ Hw. by apply Hf. Qed.

Lemma keeps_wf_modify {E} (f : Db → Db) :
  (∀ db, wf_db db → wf_db (f db)) → keeps_wf (modify (E:=E) f).
Proof. intros Hf db Hdb. by apply Hf. Qed.

Lemma keeps_wf_transaction {A} (q : Query A) : keeps_wf q → keeps_wf (transaction q).
Proof.
  intros Hq db Hdb. unfold transaction. specialize (Hq db Hdb).
  by destruct (q db) as [[] ?].
Qed.

Lemma keeps_wf_for_each {A} (f : A → Query ()) l :
  (∀ a, keeps_wf (f a)) → keeps_wf (for_each f l).
Proof.
  intros Hf. induction l; simpl; [by apply keeps_wf_read_only|]. by apply keeps_wf_bind.
Qed.

(** ** Projects *)

Lemma is_Some_insert {K V} `{Countable K} (m : gmap K V) i x j :
  is_Some (m !! j) → is_Some (<[i := x]> m !! j).
Proof. rewrite lookup_insert_is_Some'. auto. Qed.

Lemma wf_insert_project db i p :
  wf_db db →
  (∀ j q, project db !! j = Some q → p_project_id q = p_project_id p → j = i) →
  (∀ j q, project db !! j = Some q → p_app_domain q = p_app_domain p → j = i) →
  (∀ j q, project db !! j = Some q → p_topic q = p_topic p → j = i) →
  (∀ j q, project db !! j = Some q →
     p_authentication_public_key q = p_authentication_public_key p → j = i) →
  (∀ j q, project db !! j = Some q →
     p_authentication_private_key q = p_authentication_private_key p → j = i) →
  (∀ j q, project db !! j = Some q →
     p_subscribe_public_key q = p_subscribe_public_key p → j = i) →
  (∀ j q, project db !! j = Some q →
     p_subscribe_private_key q = p_subscribe_private_key p → j = i) →
  wf_db (set_project <[i := p]> db).
Proof.
  intros [] **. split; simpl; try (by apply unique_by_insert); try done;
    intros; apply is_Some_insert; eauto.
Qed.

Lemma upsert_project_impl_wf fresh p : keeps_wf (upsert_project_impl fresh p).
Proof.
  intros db Hdb. unfold upsert_project_impl.
  apply after_read_only; [solve_read_only|done|]. intros [] _.
  apply after_read_only; [solve_read_only|done|]. intros m [= <-].
  destruct (find_by p_project_id (p_project_id p) (project db)) as [[i old]|] eqn:E.
  - apply find_by_Some in E as [Hi Hp]. pose proof Hdb as [].
    apply after_read_only; [solve_read_only|done|]. intros [] Hu.
    pose proof (check_unique_Ok _ _ _ _ _ _ _ _ Hu) as Hdom. simpl.
    apply wf_insert_project; simpl; try done; intros j q Hj Heq.
    + by eapply (wf_project_id0 j i).
    + by eapply (wf_project_topic0 j i).
    + by eapply (wf_auth_public0 j i).
    + by eapply (wf_auth_private0 j i).
    + by eapply (wf_sub_public0 j i).
    + by eapply (wf_sub_private0 j i).
  - pose proof (proj1 (find_by_None _ _ _) E) as Hnone.
    apply after_read_only; [solve_read_only|done|]. intros [] _.
    apply after_read_only; [unfold check_project_indexes; solve_read_only|done|].
    intros [] Hu. unfold check_project_indexes in Hu.
    repeat match type of Hu with
    | (_ ≫= _) _ = _ =>
        let H1 := fresh "Hc" in
        apply bind_Ok_inv in Hu as (? & ? & H1 & Hu);
        pose proof (check_unique_Ok _ _ _ _ _ _ _ _ H1); clear H1
    end.
    pose proof (check_unique_Ok _ _ _ _ _ _ _ _ Hu). simpl.
    apply wf_insert_project; simpl; try done.
    intros j q Hj Heq. by destruct (Hnone j q Hj).
Qed.

(** ** Subscribers *)

Lemma wf_set_scope db s :
  wf_db db → (∀ i n, (i, n) ∈ s → is_Some (subscriber db !! i)) →
  wf_db (set_subscriber_scope (λ _, s) db).
Proof. by intros [] Hs; split. Qed.

Lemma wf_filter_scope db sub :
  wf_db db → wf_db (set_subscriber_scope (filter (λ p, p.1 ≠ sub)) db).
Proof.
  intros Hdb. apply (wf_set_scope db (filter _ (subscriber_scope db))); [done|].
  intros i n [_ Hin]%elem_of_filter. by eapply wf_scope_fk.
Qed.

(** A row with the key, symmetric key and topic of the row it replaces, or new
    ones, and whose project exists. *)
Lemma wf_insert_subscriber db i s :
  wf_db db → is_Some (project db !! s_project s) →
  (∀ j t, subscriber db !! j = Some t →
     (s_project t, get_address_lower (s_account t))
       = (s_project s, get_address_lower (s_account s)) → j = i) →
  (∀ j t, subscriber db !! j = Some t → s_sym_key t = s_sym_key s → j = i) →
  (∀ j t, subscriber db !! j = Some t → s_topic t = s_topic s → j = i) →
  wf_db (set_subscriber <[i := s]> db).
Proof.
  intros [] Hp Hk Hsk Ht. split; simpl; try done; try (by apply unique_by_insert).
  - intros j t [[<- <-]|[_ Hj]]%lookup_insert_Some; eauto.
  - intros. apply is_Some_insert. eauto.
  - intros j r Hj. destruct (wf_sn_fk0 j r Hj). split; [done|by apply is_Some_insert].
Qed.

Lemma wf_touch_subscriber db i s e :
  wf_db db → subscriber db !! i = Some s →
  wf_db (set_subscriber
    <[i := mkSubscriberRow (s_project s) (s_account s) (s_sym_key s) (s_topic s) e]> db).
Proof.
  intros Hdb Hi. pose proof Hdb as []. apply wf_insert_subscriber; simpl; eauto.
Qed.

Section operations.
Context `{Ext}.

Lemma update_subscriber_scope_wf sub scope : keeps_wf (update_subscriber_scope sub scope).
Proof.
  intros db Hdb. unfold update_subscriber_scope. apply after_bind.
  { by apply wf_filter_scope. }
  intros [] db1 Hdb1 Hw. clear Hdb Hdb1 db.
  apply after_read_only; [solve_read_only|done|]. intros m [= <-].
  apply after_read_only; [destruct (decide _); solve_read_only|done|]. intros [] Hfk. simpl.
  apply (wf_set_scope db1 (_ ∪ subscriber_scope db1)); [done|].
  intros i n [Hin|Hin]%elem_of_union; [|by eapply wf_scope_fk].
  apply elem_of_list_to_set, list_elem_of_fmap in Hin as (u & [= -> ->] & Hu).
  destruct (decide (scope = ∅)) as [->|]; [by rewrite elements_empty, elem_of_nil in Hu|].
  by apply check_fk_Ok in Hfk.
Qed.

Lemma upsert_subscriber_wf now fresh proj account scope k t :
  keeps_wf (upsert_subscriber now fresh proj account scope k t).
Proof.
  apply keeps_wf_transaction. intros db Hdb. cbv zeta.
  apply after_read_only; [solve_read_only|done|]. intros [] _.
  apply after_read_only; [solve_read_only|done|]. intros db' [= <-].
  apply after_bind.
  - destruct (find_by _ _ (subscriber db)) as [[i s]|] eqn:E.
    + apply find_by_Some in E as [Hi _]. simpl. by apply wf_touch_subscriber.
    + pose proof (proj1 (find_by_None _ _ _) E) as Hnone.
      apply after_read_only; [solve_read_only|done|]. intros [] _.
      apply after_read_only; [solve_read_only|done|]. intros [] Hs.
      apply after_read_only; [solve_read_only|done|]. intros [] Ht.
      apply after_read_only; [solve_read_only|done|]. intros [] Hp. simpl.
      apply check_fk_Ok in Hp.
      apply wf_insert_subscriber; simpl; try done.
      * intros j s Hj Hk. by destruct (Hnone j s Hj).
      * exact (check_unique_Ok _ _ _ _ _ _ _ _ Hs).
      * exact (check_unique_Ok _ _ _ _ _ _ _ _ Ht).
  - intros [[[i acc] topic] ins] db1 _ Hw.
    apply after_read_only; [solve_read_only|done|]. intros a _.
    apply after_bind; [by apply update_subscriber_scope_wf|]. intros [] db2 _ Hw2. done.
Qed.

Lemma update_subscriber_wf now sub scope : keeps_wf (update_subscriber now sub scope).
Proof.
  apply keeps_wf_transaction. intros db Hdb.
  apply after_read_only; [solve_read_only|done|]. intros m [= <-].
  apply after_read_only; [solve_read_only|done|]. intros [i s] Hs.
  assert (Hi : subscriber db !! i = Some s).
  { destruct (select _ (subscriber db)) as [|x l] eqn:E; [done|]. injection Hs as ->.
    assert (Hin : (i, s) ∈ select (λ k _, bool_decide (k = sub)) (subscriber db))
      by (rewrite E; left).
    by apply elem_of_select in Hin as [? _]. }
  cbv zeta. cbn [fst snd s_project s_account s_sym_key s_topic].
  apply after_bind; [by apply wf_touch_subscriber|]. intros [] db1 _ Hw.
  apply after_read_only; [solve_read_only|done|]. intros a _.
  apply after_read_only; [case_bool_decide; solve_read_only|done|]. intros [] _.
  apply after_bind; [by apply update_subscriber_scope_wf|]. intros [] db2 _ Hw2. done.
Qed.

Lemma delete_subscriber_wf sub : keeps_wf (delete_subscriber sub).
Proof.
  apply keeps_wf_modify. intros db []. split; simpl; try done.
  - eapply unique_by_sub; [done|apply delete_subseteq].
  - eapply unique_by_sub; [done|apply delete_subseteq].
  - eapply unique_by_sub; [done|apply delete_subseteq].
  - intros i s [_ Hi]%lookup_delete_Some. eauto.
  - intros i n [Hne Hin]%elem_of_filter. simpl in Hne.
    rewrite lookup_delete_ne by done. eauto.
  - eapply unique_by_sub; [done|apply map_filter_subseteq].
  - intros i r [Hi Hne]%map_lookup_filter_Some. simpl in Hne. destruct (wf_sn_fk0 i r Hi).
    by rewrite lookup_delete_ne.
Qed.

(** ** Watchers *)

Lemma upsert_subscription_watcher_wf account proj dk sk e :
  keeps_wf (upsert_subscription_watcher account proj dk sk e).
Proof.
  intros db Hdb. unfold upsert_subscription_watcher.
  apply after_read_only; [solve_read_only|done|]. intros db' [= <-]. cbv zeta.
  destruct (_ <? _); [|done]. apply after_map_err.
  apply after_read_only; [solve_read_only|done|]. intros [] _.
  apply after_read_only; [destruct proj; solve_read_only|done|]. intros [] Hfk. simpl.
  pose proof Hdb as []. split; simpl; try done.
  intros k w p [[<- <-]|[_ Hk]]%lookup_insert_Some Hp; [|eauto].
  simpl in Hp. subst proj. by apply check_fk_Ok in Hfk.
Qed.

Lemma delete_expired_subscription_watchers_wf now :
  keeps_wf (delete_expired_subscription_watchers now).
Proof.
  intros db Hdb. pose proof Hdb as []. split; simpl; try done.
  intros k w p [Hk _]%map_lookup_filter_Some. eauto.
Qed.

Lemma set_welcome_notification_wf proj w : keeps_wf (set_welcome_notification proj w).
Proof.
  intros db Hdb. unfold set_welcome_notification.
  apply after_read_only; [solve_read_only|done|]. intros [] _.
  apply after_read_only; [solve_read_only|done|]. intros m [= <-].
  apply after_read_only; [solve_read_only|done|]. intros [] Hfk. simpl.
  apply check_fk_Ok in Hfk. pose proof Hdb as []. split; simpl; try done.
  intros p x [[<- <-]|[_ Hp]]%lookup_insert_Some; eauto.
Qed.

(** ** Notifications *)

(** Rewriting rows without changing what they reference. *)
Lemma wf_map_subscriber_notification db m :
  wf_db db →
  (∀ i r, m !! i = Some r → ∃ r', subscriber_notification db !! i = Some r' ∧
     sn_notification r' = sn_notification r ∧ sn_subscriber r' = sn_subscriber r) →
  wf_db (set_subscriber_notification (λ _, m) db).
Proof.
  intros [] Hm. split; simpl; try done.
  - eapply unique_by_same; [done|]. intros i r Hi. destruct (Hm i r Hi) as (r' & ? & Hn & Hs).
    exists r'. by rewrite Hn, Hs.
  - intros i r Hi. destruct (Hm i r Hi) as (r' & Hi' & <- & <-). eauto.
Qed.

Lemma wf_map_imap db (P : Uuid → SubscriberNotificationRow → bool) :
  wf_db db →
  wf_db (set_subscriber_notification
           (map_imap (λ i r, Some (if P i r then mark_read r else r))) db).
Proof.
  intros Hdb. apply (wf_map_subscriber_notification db (map_imap _ _)); [done|].
  intros i r Hi. rewrite map_lookup_imap in Hi.
  apply bind_Some in Hi as (r' & Hi & [= <-]). exists r'. by destruct (P i r').
Qed.

Lemma mark_notifications_as_read_wf sub ids : keeps_wf (mark_notifications_as_read sub ids).
Proof. intros db Hdb. by apply wf_map_imap. Qed.

Lemma mark_all_wf proj : keeps_wf (mark_all_notifications_as_read_for_project proj).
Proof.
  intros db Hdb. unfold mark_all_notifications_as_read_for_project. simpl.
  apply (wf_map_subscriber_notification db (map_imap _ _)); [done|].
  intros i r Hi. rewrite map_lookup_imap in Hi.
  apply bind_Some in Hi as (r' & Hi & [= <-]). exists r'. by case_decide.
Qed.

Lemma wf_set_deliveries f db : wf_db db → wf_db (set_deliveries f db).
Proof. by intros []. Qed.

Lemma set_status_wf now st i r db :
  wf_db db → subscriber_notification db !! i = Some r → wf_db (set_status now st i r db).2.
Proof.
  intros Hdb Hi. unfold set_status. apply after_bind.
  - apply (wf_map_subscriber_notification db (<[i := _]> (subscriber_notification db))); [done|].
    intros j x [[<- <-]|[_ Hj]]%lookup_insert_Some; eauto.
  - intros [] db' _ Hw. destruct (_ && _); [|done]. by apply wf_set_deliveries.
Qed.

Lemma upsert_notification_wf now fresh nid proj n :
  keeps_wf (upsert_notification now fresh nid proj n).
Proof.
  intros db Hdb. unfold upsert_notification.
  apply after_read_only; [solve_read_only|done|]. intros [] _.
  apply after_read_only; [solve_read_only|done|]. intros db' [= <-].
  destruct (find_by _ _ (notification db)) as [[i r]|] eqn:E; [done|].
  pose proof (proj1 (find_by_None _ _ _) E) as Hnone.
  apply after_read_only; [solve_read_only|done|]. intros [] _.
  apply after_read_only; [solve_read_only|done|]. intros [] Hfk. simpl.
  apply check_fk_Ok in Hfk. pose proof Hdb as []. split; simpl; try done.
  - apply unique_by_insert; [done|]. intros j x Hj Heq. by destruct (Hnone j x Hj).
  - intros j x [[<- <-]|[_ Hj]]%lookup_insert_Some; eauto.
  - intros j r Hj. destruct (wf_sn_fk0 j r Hj). split; [by apply is_Some_insert|done].
Qed.

Lemma insert_subscriber_notification_wf now notif row :
  keeps_wf (insert_subscriber_notification now notif row).
Proof.
  intros db Hdb. destruct row as [fresh sub]. unfold insert_subscriber_notification.
  apply after_read_only; [solve_read_only|done|]. intros db' [= <-].
  destruct (find_by _ _ (subscriber_notification db)) as [[i r]|] eqn:E; [done|].
  pose proof (proj1 (find_by_None _ _ _) E) as Hnone.
  apply after_read_only; [solve_read_only|done|]. intros [] _.
  apply after_read_only; [solve_read_only|done|]. intros [] Hn%check_fk_Ok.
  apply after_read_only; [solve_read_only|done|]. intros [] Hs%check_fk_Ok.
  apply after_bind; [|intros [] ? _ Hw; by apply wf_set_deliveries]. simpl.
  pose proof Hdb as []. split; simpl; try done.
  - apply unique_by_insert; [done|]. intros j x Hj Heq. by destruct (Hnone j x Hj).
  - intros j x [[<- <-]|[_ Hj]]%lookup_insert_Some; eauto.
Qed.

Lemma upsert_subscriber_notifications_wf now notif rows :
  keeps_wf (upsert_subscriber_notifications now notif rows).
Proof.
  apply keeps_wf_transaction, keeps_wf_for_each. apply insert_subscriber_notification_wf.
Qed.

Lemma pick_queued_wf now locked choose : keeps_wf (pick_queued now locked choose).
Proof.
  intros db Hdb. unfold pick_queued.
  apply after_read_only; [solve_read_only|done|]. intros m [= <-].
  destruct (_ !! (choose mod _)%nat) as [i|]; [|done].
  destruct (subscriber_notification db !! i) as [r|] eqn:E; [|done].
  apply after_bind; [by apply set_status_wf|]. done.
Qed.

Lemma select_for_processing_read_only i : read_only (select_for_processing i).
Proof.
  unfold select_for_processing. apply read_only_bind; [solve_read_only|]. intros db.
  destruct (subscriber_notification db !! i ≫= _) as [[[[? ?] ?] ?]|]; solve_read_only.
Qed.

Lemma pick_wf now locked choose :
  keeps_wf (pick_subscriber_notification_for_processing now locked choose).
Proof.
  apply keeps_wf_bind; [apply pick_queued_wf|]. intros [i|]; apply keeps_wf_read_only.
  - apply select_for_processing_read_only.
  - solve_read_only.
Qed.

Lemma update_message_processing_status_wf now i st :
  keeps_wf (update_message_processing_status now i st).
Proof.
  intros db Hdb. unfold update_message_processing_status.
  destruct (cast_status _) as [st'|]; [|done].
  apply after_read_only; [solve_read_only|done|]. intros m [= <-].
  destruct (subscriber_notification db !! i) as [r|] eqn:E; [|done]. by apply set_status_wf.
Qed.

Lemma requeue_wf i : keeps_wf (requeue i).
Proof.
  intros db Hdb. unfold requeue. apply after_read_only; [solve_read_only|done|]. intros m [= <-].
  destruct (subscriber_notification db !! i) as [r|] eqn:E; [|done]. by apply set_status_wf.
Qed.

Lemma dead_letters_check_wf now threshold : keeps_wf (dead_letters_check now threshold).
Proof.
  apply keeps_wf_bind; [by apply keeps_wf_read_only|]. intros m.
  apply keeps_wf_for_each. intros a. apply requeue_wf.
Qed.
End operations.

(** ** What the columns hold *)

Section typed.
Context `{Ext}.

(** The server stores only keys it generated or derived, as hex of 32 bytes,
    topics of those keys, and accounts that were validated. *)
Definition stored_key (s : string) : Prop := ∃ k, length k = 32%nat ∧ s = hex_encode k.

Definition subscriber_typed (s : SubscriberRow) : Prop :=
  valid_account (mkAccountId (s_account s)) ∧
  ∃ k, length k = 32%nat ∧ s_sym_key s = hex_encode k ∧ s_topic s = topic_from_key k.

Definition project_typed (p : ProjectRow) : Prop :=
  ∃ ak sk, length ak = 32%nat ∧ length sk = 32%nat ∧
    p_authentication_public_key p = encode_authentication_public_key ak ∧
    p_authentication_private_key p = encode_authentication_private_key ak ∧
    p_subscribe_public_key p = encode_subscribe_public_key sk ∧
    p_subscribe_private_key p = encode_subscribe_private_key sk ∧
    p_topic p = topic_from_key (x25519_public sk).

Record typed_db (db : Db) : Prop := {
  ty_project i p : project db !! i = Some p → project_typed p;
  ty_subscriber i s : subscriber db !! i = Some s → subscriber_typed s;
  ty_watcher k w : subscription_watcher db !! k = Some w →
    valid_account (mkAccountId (w_account w));
  ty_scope i n : (i, n) ∈ subscriber_scope db → ∃ u, n = uuid_to_string u;
}.

Lemma typed_empty : typed_db empty_db.
Proof. split; simpl; try (intros *; by rewrite lookup_empty); set_solver. Qed.

(** One statement of the server, with the arguments its callers give. *)
Inductive db_step (db : Db) : Db → Prop :=
| step_upsert_project fresh pid dom ak sk :
    length ak = 32%nat → length sk = 32%nat →
    db_step db (upsert_project fresh pid dom (topic_from_key (x25519_public sk)) ak sk db).2
| step_upsert_subscriber now fresh proj account scope k :
    valid_account account → length k = 32%nat →
    db_step db (upsert_subscriber now fresh proj account scope k (topic_from_key k) db).2
| step_update_subscriber now sub scope : db_step db (update_subscriber now sub scope db).2
| step_delete_subscriber sub : db_step db (delete_subscriber sub db).2
| step_upsert_watcher account proj dk sk e :
    valid_account account →
    db_step db (upsert_subscription_watcher account proj dk sk e db).2
| step_delete_expired now : db_step db (delete_expired_subscription_watchers now db).2
| step_set_welcome proj w : db_step db (set_welcome_notification proj w db).2
| step_mark_read sub ids : db_step db (mark_notifications_as_read sub ids db).2
| step_mark_all proj : db_step db (mark_all_notifications_as_read_for_project proj db).2
| step_upsert_notification now fresh nid proj n :
    db_step db (upsert_notification now fresh nid proj n db).2
| step_upsert_subscriber_notifications now notif rows :
    db_step db (upsert_subscriber_notifications now notif rows db).2
| step_pick now locked choose :
    db_step db (pick_subscriber_notification_for_processing now locked choose db).2
| step_update_status now i st : db_step db (update_message_processing_status now i st db).2
| step_dead_letters now threshold : db_step db (dead_letters_check now threshold db).2
| step_listen l : db_step db (set_deliveries (λ _, l) db).

Lemma db_step_wf db db' : db_step db db' → wf_db db → wf_db db'.
Proof.
  intros [] Hw.
  - by apply upsert_project_impl_wf.
  - by apply upsert_subscriber_wf.
  - by apply update_subscriber_wf.
  - by apply delete_subscriber_wf.
  - by apply upsert_subscription_watcher_wf.
  - by apply delete_expired_subscription_watchers_wf.
  - by apply set_welcome_notification_wf.
  - by apply mark_notifications_as_read_wf.
  - by apply mark_all_wf.
  - by apply upsert_notification_wf.
  - by apply upsert_subscriber_notifications_wf.
  - by apply pick_wf.
  - by apply update_message_processing_status_wf.
  - by apply dead_letters_check_wf.
  - by apply wf_set_deliveries.
Qed.

(** Statements on notifications do not touch the typed tables. *)
Definition same_typed (db db' : Db) : Prop :=
  project db' = project db ∧ subscriber db' = subscriber db ∧
  subscription_watcher db' = subscription_watcher db ∧
  subscriber_scope db' = subscriber_scope db.

#[global] Instance same_typed_preorder : PreOrder same_typed.
Proof. split; [by intros ?|]. unfold same_typed. intros ??? (?&?&?&?) (?&?&?&?). naive_solver congruence. Qed.

Lemma same_typed_typed db db' : same_typed db db' → typed_db db → typed_db db'.
Proof. intros (Hp & Hs & Hw & Hsc) []. split; rewrite ?Hp, ?Hs, ?Hw, ?Hsc; done. Qed.

Lemma keeps_read_only {E A} (R : relation Db) `{!Reflexive R} (q : M Db E A) :
  read_only q → keeps R q.
Proof. intros Hq db. by rewrite Hq. Qed.

Lemma set_status_same now st i r : keeps same_typed (set_status now st i r).
Proof.
  unfold set_status. apply keeps_bind; [apply _|by apply keeps_modify|].
  intros []. destruct (_ && _); [by apply keeps_modify|by apply keeps_ret; apply _].
Qed.

Lemma keeps_transaction {A} (R : relation Db) `{!PreOrder R} (q : Query A) :
  keeps R q → keeps R (transaction q).
Proof. intros Hq db. specialize (Hq db). unfold transaction. by destruct (q db) as [[] ?]. Qed.

Lemma upsert_notification_same now fresh nid proj n :
  keeps same_typed (upsert_notification now fresh nid proj n).
Proof.
  unfold upsert_notification. apply keeps_bind; [apply _|by apply keeps_read_only, check_lengths_read_only|].
  intros []. apply keeps_bind; [apply _|by apply keeps_read_only|]. intros db.
  destruct (find_by _ _ _) as [[i r]|]; [by apply keeps_read_only|].
  apply keeps_bind; [apply _|apply keeps_read_only; [apply _|solve_read_only]|]. intros [].
  apply keeps_bind; [apply _|apply keeps_read_only; [apply _|solve_read_only]|]. intros [].
  apply keeps_bind; [apply _|by apply keeps_modify|]. intros []. by apply keeps_read_only.
Qed.

Lemma insert_subscriber_notification_same now notif row :
  keeps same_typed (insert_subscriber_notification now notif row).
Proof.
  destruct row as [fresh sub]. unfold insert_subscriber_notification.
  apply keeps_bind; [apply _|by apply keeps_read_only|]. intros db.
  destruct (find_by _ _ _) as [[i r]|]; [by apply keeps_read_only|].
  do 3 (apply keeps_bind; [apply _|apply keeps_read_only; [apply _|solve_read_only]|]; intros []).
  apply keeps_bind; [apply _|by apply keeps_modify|]. intros []. by apply keeps_modify.
Qed.

Lemma pick_same now locked choose :
  keeps same_typed (pick_subscriber_notification_for_processing now locked choose).
Proof.
  apply keeps_bind; [apply _| |].
  - unfold pick_queued. apply keeps_bind; [apply _|by apply keeps_read_only|]. intros m.
    destruct (_ !! (choose mod _)%nat) as [i|]; [|by apply keeps_read_only].
    destruct (m !! i); [|by apply keeps_read_only].
    apply keeps_bind; [apply _|apply set_status_same|]. intros []. by apply keeps_read_only.
  - intros [i|]; (apply keeps_read_only; [apply _|]).
    + apply select_for_processing_read_only.
    + solve_read_only.
Qed.

Lemma update_status_same now i st : keeps same_typed (update_message_processing_status now i st).
Proof.
  unfold update_message_processing_status. destruct (cast_status _); [|by apply keeps_read_only].
  apply keeps_bind; [apply _|by apply keeps_read_only|]. intros m.
  destruct (m !! i); [apply set_status_same|by apply keeps_read_only].
Qed.

Lemma dead_letters_same now threshold : keeps same_typed (dead_letters_check now threshold).
Proof.
  unfold dead_letters_check. apply keeps_bind; [apply _|by apply keeps_read_only|]. intros m.
  apply keeps_for_each; [apply _|]. intros [i r]. unfold requeue. cbn [fst].
  apply keeps_bind; [apply _|by apply keeps_read_only|]. intros m'.
  destruct (m' !! i); [apply set_status_same|by apply keeps_read_only].
Qed.

Lemma typed_set_scope db s :
  typed_db db → (∀ i n, (i, n) ∈ s → ∃ u, n = uuid_to_string u) →
  typed_db (set_subscriber_scope (λ _, s) db).
Proof. by intros [] Hs; split. Qed.

Lemma update_subscriber_scope_typed sub scope db :
  typed_db db → typed_db (update_subscriber_scope sub scope db).2.
Proof.
  intros Ht. unfold update_subscriber_scope. apply after_bind.
  { apply (typed_set_scope db (filter _ (subscriber_scope db))); [done|].
    intros i n [_ Hin]%elem_of_filter. by eapply ty_scope. }
  intros [] db1 _ Ht1. apply after_read_only; [solve_read_only|done|]. intros m _.
  apply after_read_only; [destruct (decide _); solve_read_only|done|]. intros [] _. simpl.
  apply (typed_set_scope db1 (_ ∪ subscriber_scope db1)); [done|].
  intros i n [Hin|Hin]%elem_of_union; [|by eapply ty_scope].
  apply elem_of_list_to_set, list_elem_of_fmap in Hin as (u & [= -> ->] & Hu). by eexists.
Qed.

Lemma typed_insert_subscriber db i s :
  typed_db db → subscriber_typed s → typed_db (set_subscriber <[i := s]> db).
Proof.
  intros [] Hs. split; simpl; try done.
  intros j t [[<- <-]|[_ Hj]]%lookup_insert_Some; eauto.
Qed.

Lemma typed_touch_subscriber db i s e :
  typed_db db → subscriber db !! i = Some s →
  typed_db (set_subscriber
    <[i := mkSubscriberRow (s_project s) (s_account s) (s_sym_key s) (s_topic s) e]> db).
Proof. intros Ht Hi. apply typed_insert_subscriber; [done|]. by apply (ty_subscriber db Ht i s). Qed.

Lemma transaction_typed {A} (q : Query A) db :
  typed_db db → typed_db (q db).2 → typed_db (transaction q db).2.
Proof. intros Hdb Hq. unfold transaction. by destruct (q db) as [[] ?]. Qed.

Lemma upsert_subscriber_typed now fresh proj account scope k db :
  valid_account account → length k = 32%nat → typed_db db →
  typed_db (upsert_subscriber now fresh proj account scope k (topic_from_key k) db).2.
Proof.
  intros Ha Hk Ht. apply transaction_typed; [done|]. cbv zeta.
  apply after_read_only; [solve_read_only|done|]. intros [] _.
  apply after_read_only; [solve_read_only|done|]. intros db' [= <-].
  apply after_bind.
  - destruct (find_by _ _ (subscriber db)) as [[i s]|] eqn:E.
    + apply find_by_Some in E as [Hi _]. simpl. by apply typed_touch_subscriber.
    + do 4 (apply after_read_only; [solve_read_only|done|]; intros [] _). simpl.
      apply typed_insert_subscriber; [done|]. split; [by destruct account|]. by exists k.
  - intros [[[i acc] topic] ins] db1 _ Ht1.
    apply after_read_only; [solve_read_only|done|]. intros a _.
    apply after_bind; [by apply update_subscriber_scope_typed|]. by intros [] db2 _ ?.
Qed.

Lemma update_subscriber_typed now sub scope db :
  typed_db db → typed_db (update_subscriber now sub scope db).2.
Proof.
  intros Ht. apply transaction_typed; [done|].
  apply after_read_only; [solve_read_only|done|]. intros m [= <-].
  apply after_read_only; [solve_read_only|done|]. intros [i s] Hs.
  assert (Hi : subscriber db !! i = Some s).
  { destruct (select _ (subscriber db)) as [|x l] eqn:E; [done|]. injection Hs as ->.
    assert (Hin : (i, s) ∈ select (λ k _, bool_decide (k = sub)) (subscriber db))
      by (rewrite E; left).
    by apply elem_of_select in Hin as [? _]. }
  cbv zeta. cbn [fst snd s_project s_account s_sym_key s_topic].
  apply after_bind; [by apply typed_touch_subscriber|]. intros [] db1 _ Ht1.
  apply after_read_only; [solve_read_only|done|]. intros a _.
  apply after_read_only; [case_bool_decide; solve_read_only|done|]. intros [] _.
  apply after_bind; [by apply update_subscriber_scope_typed|]. by intros [] db2 _ ?.
Qed.

Lemma upsert_project_typed fresh pid dom ak sk db :
  length ak = 32%nat → length sk = 32%nat → typed_db db →
  typed_db (upsert_project fresh pid dom (topic_from_key (x25519_public sk)) ak sk db).2.
Proof.
  intros Hak Hsk Ht. unfold upsert_project, upsert_project_impl.
  apply after_read_only; [solve_read_only|done|]. intros [] _.
  apply after_read_only; [solve_read_only|done|]. intros m [= <-].
  assert (Hins : ∀ i p, project_typed p → typed_db (set_project <[i := p]> db)).
  { intros i p Hp. destruct Ht. split; simpl; try done.
    intros j q [[<- <-]|[_ Hj]]%lookup_insert_Some; eauto. }
  destruct (find_by _ _ (project db)) as [[i old]|] eqn:E.
  - apply find_by_Some in E as [Hi _].
    apply after_read_only; [solve_read_only|done|]. intros [] _. simpl.
    apply Hins. destruct (ty_project db Ht i old Hi) as (a & b & ?). by exists a, b.
  - apply after_read_only; [solve_read_only|done|]. intros [] _.
    apply after_read_only; [unfold check_project_indexes; solve_read_only|done|].
    intros [] _. simpl. apply Hins. by exists ak, sk.
Qed.

Lemma db_step_typed db db' : db_step db db' → typed_db db → typed_db db'.
Proof.
  intros Hstep Ht. pose proof Ht as [].
  destruct Hstep.
  - by apply upsert_project_typed.
  - by apply upsert_subscriber_typed.
  - by apply update_subscriber_typed.
  - split; simpl; try done.
    + intros i s [_ Hi]%lookup_delete_Some. eauto.
    + intros i n [_ Hin]%elem_of_filter. eauto.
  - unfold upsert_subscription_watcher.
    apply after_read_only; [solve_read_only|done|]. intros db' [= <-]. cbv zeta.
    destruct (_ <? _); [|done]. apply after_map_err.
    apply after_read_only; [solve_read_only|done|]. intros [] _.
    apply after_read_only; [destruct proj; solve_read_only|done|]. intros [] _. simpl.
    split; simpl; try done.
    intros k w [[<- <-]|[_ Hk]]%lookup_insert_Some; [by destruct account|eauto].
  - split; simpl; try done. intros k w [Hk _]%map_lookup_filter_Some. eauto.
  - unfold set_welcome_notification.
    apply after_read_only; [solve_read_only|done|]. intros [] _.
    apply after_read_only; [solve_read_only|done|]. intros m _.
    apply after_read_only; [solve_read_only|done|]. intros [] _. by split.
  - by split.
  - by split.
  - eapply same_typed_typed; [apply upsert_notification_same|done].
  - eapply same_typed_typed; [|done].
    refine (keeps_transaction same_typed _ _ db).
    apply keeps_for_each; [apply _|]. intros. apply insert_subscriber_notification_same.
  - eapply same_typed_typed; [apply pick_same|done].
  - eapply same_typed_typed; [apply update_status_same|done].
  - eapply same_typed_typed; [apply dead_letters_same|done].
  - by split.
Qed.

Lemma rtc_db_step_inv db db' :
  rtc db_step db db' → wf_db db ∧ typed_db db → wf_db db' ∧ typed_db db'.
Proof.
  induction 1 as [|d1 d2 d3 Hs _ IH]; [done|]. intros [Hw Ht]. apply IH.
  split; [by eapply db_step_wf|by eapply db_step_typed].
Qed.

(** C1. Every database the server's statements can reach from the empty one, in
    any order and interleaving and whatever their outcomes, satisfies the unique
    indexes and foreign keys of the migrations, stores only validated accounts,
    hex keys of 32 bytes with the topic of that key, and scope names that are
    UUIDs. *)
Theorem reachable_db_wf db : rtc db_step empty_db db → wf_db db ∧ typed_db db.
Proof.
  intros Hr. eapply rtc_db_step_inv; [done|]. split; [apply wf_empty|apply typed_empty].
Qed.
End typed.

(** ** Witness: a project, a subscriber and a notification *)

Import Concrete.Instances.

Definition ak_w : bytes := replicate 32 Byte.x01.
Definition sk_w : bytes := replicate 32 Byte.x02.
Definition notify_key_w : bytes := replicate 32 Byte.x03.
Definition account_w : AccountId := mkAccountId account_mainnet.

Definition db1_w : Db :=
  (upsert_project 1%N "project" "app.example.com" (topic_from_key (x25519_public sk_w)) ak_w sk_w
     empty_db).2.
Definition db2_w : Db :=
  (upsert_subscriber 0 2%N 1%N account_w {[7%N]} notify_key_w (topic_from_key notify_key_w) db1_w).2.
Definition db3_w : Db :=
  (upsert_notification 0 3%N "nid" 1%N (mkNotification 7%N "title" "body" None None) db2_w).2.
Definition db4_w : Db := (upsert_subscriber_notifications 0 3%N [(4%N, 2%N)] db3_w).2.

Lemma account_w_valid : valid_account account_w.
Proof. by vm_compute. Qed.

Lemma db4_w_reachable : rtc db_step empty_db db4_w.
Proof.
  eapply rtc_l; [by apply (step_upsert_project _ 1%N "project" "app.example.com" ak_w sk_w)|].
  eapply rtc_l; [apply (step_upsert_subscriber _ 0 2%N 1%N account_w {[7%N]} notify_key_w);
    [apply account_w_valid|done]|].
  eapply rtc_l; [apply (step_upsert_notification _ 0 3%N "nid" 1%N
    (mkNotification 7%N "title" "body" None None))|].
  eapply rtc_l; [apply (step_upsert_subscriber_notifications _ 0 3%N [(4%N, 2%N)])|].
  apply rtc_refl.
Qed.

Example db4_w_rows :
  (sn_status <$> subscriber_notification db4_w !! 4%N, s_project <$> subscriber db4_w !! 2%N,
   deliveries db4_w) = (Some Queued, Some 1%N, [4%N]).
Proof. by vm_compute. Qed.

Lemma reachable_db_wf_witness : wf_db db4_w ∧ typed_db db4_w.
Proof. apply (reachable_db_wf db4_w db4_w_reachable). Defined.
