(* ===== verification/Subscriptions.v ===== *)
(** * Subscriptions as a map (model/helpers.rs)

    The abstract contract of the subscriber queries: a database is a finite map
    from (project, address) to subscriptions.  The queries refine insertion,
    update, deletion and lookup of that map, on every well-formed database. *)

From S2P Require Import Prelude RustStr Externals Concrete AccountId Errors Types Database DbInvariant.
Open Scope Z_scope.

Record Subscription := mkSubscription {
  sub_row_id : Uuid;
  sub_account_text : string;
  sub_key : string;
  sub_row_topic : Topic;
  sub_scope : gset Uuid;
  sub_row_expiry : Z;
}.

Definition subscriber_key (s : SubscriberRow) : Uuid * string :=
  (s_project s, get_address_lower (s_account s)).

Section subscriptions.
Context `{Ext}.

Definition scope_of (db : Db) (i : Uuid) : gset Uuid :=
  parse_scopes_and_ignore_invalid (scope_names i (subscriber_scope db)).

Definition subscription_of (db : Db) (i : Uuid) (s : SubscriberRow) : Subscription :=
  mkSubscription i (s_account s) (s_sym_key s) (s_topic s) (scope_of db i) (s_expiry s).

(** The abstraction function. *)
Definition subscription_at (db : Db) (p : Uuid) (address : string) : option Subscription :=
  '(i, s) ← find_by subscriber_key (p, address) (subscriber db);
  Some (subscription_of db i s).

Lemma subscription_at_row db i s :
  wf_db db → subscriber db !! i = Some s →
  subscription_at db (s_project s) (get_address_lower (s_account s))
    = Some (subscription_of db i s).
Proof.
  intros Hw Hi. unfold subscription_at.
  change (s_project s, get_address_lower (s_account s)) with (subscriber_key s).
  rewrite (find_by_unique subscriber_key _ _ _ (wf_subscriber_key db Hw) Hi). done.
Qed.

Lemma subscription_at_Some db p a v :
  wf_db db →
  subscription_at db p a = Some v ↔
  ∃ i s, subscriber db !! i = Some s ∧ subscriber_key s = (p, a) ∧ v = subscription_of db i s.
Proof.
  intros Hw. split.
  - unfold subscription_at. intros ([i s] & Hf & [= <-])%bind_Some.
    apply find_by_Some in Hf as [? ?]. by exists i, s.
  - intros (i & s & Hi & [= <- <-] & ->). by apply subscription_at_row.
Qed.

Lemma elem_of_scope_of db i u :
  u ∈ scope_of db i ↔ ∃ n, (i, n) ∈ subscriber_scope db ∧ uuid_parse_str n = Some u.
Proof.
  unfold scope_of, parse_scopes_and_ignore_invalid, scope_names.
  rewrite elem_of_list_to_set, list_elem_of_omap. split.
  - intros (n & Hn & Hu). apply list_elem_of_fmap in Hn as ([j m] & -> & Hin).
    apply list_elem_of_filter in Hin as [Hj Hin%elem_of_elements]. simpl in Hj. subst j.
    by exists m.
  - intros (n & Hn & Hu). exists n. split; [|done]. apply list_elem_of_fmap.
    exists (i, n). split; [done|]. apply list_elem_of_filter. split; [done|].
    by apply elem_of_elements.
Qed.

Lemma scope_of_ext db db' i :
  (∀ n, (i, n) ∈ subscriber_scope db' ↔ (i, n) ∈ subscriber_scope db) →
  scope_of db' i = scope_of db i.
Proof. intros Hs. apply set_eq. intros u. rewrite !elem_of_scope_of. naive_solver. Qed.

Lemma transaction_Ok {A} (q : Query A) db a db' :
  transaction q db = (Ok a, db') → q db = (Ok a, db').
Proof. unfold transaction. by destruct (q db) as [[] ?]; intros [=]; subst. Qed.

Lemma read_only_Ok {A} (q : Query A) db a db' :
  read_only q → q db = (Ok a, db') → db' = db.
Proof. intros Hq Hr. specialize (Hq db). by rewrite Hr in Hq. Qed.

(** What [update_subscriber_scope] does when it succeeds. *)
Lemma update_subscriber_scope_Ok `{!UuidLaws} sub scope db u db' :
  update_subscriber_scope sub scope db = (Ok u, db') →
  subscriber db' = subscriber db ∧ project db' = project db ∧
  scope_of db' sub = scope ∧ ∀ i, i ≠ sub → scope_of db' i = scope_of db i.
Proof.
  unfold update_subscriber_scope. intros Hr.
  inv_ok Hr. inv_ok Hrun. inv_ok Hr. inv_ok Hrun.
  apply bind_Ok_inv in Hr as (x & db2 & Hfk & Hr).
  assert (db2 = set_subscriber_scope (filter (λ p, p.1 ≠ sub)) db) as ->.
  { eapply read_only_Ok; [|exact Hfk]. destruct (decide _); solve_read_only. }
  inv_ok Hr. simpl. split_and!; [done..| |].
  - apply set_eq. intros v. rewrite elem_of_scope_of. simpl. split.
    + intros (n & [Hn|Hn]%elem_of_union & Hv).
      * apply elem_of_list_to_set, list_elem_of_fmap in Hn as (w & [= ->] & Hw).
        rewrite uuid_parse_to_string in Hv. injection Hv as ->. by apply elem_of_elements in Hw.
      * apply elem_of_filter in Hn as [Hne _]. by simpl in Hne.
    + intros Hv. exists (uuid_to_string v). split; [|apply uuid_parse_to_string].
      apply elem_of_union_l, elem_of_list_to_set, list_elem_of_fmap.
      exists v. split; [done|]. by apply elem_of_elements.
  - intros i Hne. apply scope_of_ext. intros n. simpl.
    rewrite elem_of_union, elem_of_filter, elem_of_list_to_set, list_elem_of_fmap. simpl.
    naive_solver.
Qed.

Lemma decode_account_Ok s db a db' :
  decode_account s db = (Ok a, db') → a = mkAccountId s ∧ valid_account a ∧ db' = db.
Proof.
  unfold decode_account. intros Hr. inv_ok Hr. apply map_err_Ok, try_from_account_Ok in Hr.
  naive_solver.
Qed.

(** The map after writing row [i], other rows untouched. *)
Lemma subscription_at_write db db' i s p a :
  wf_db db → wf_db db' →
  subscriber db' = <[i := s]> (subscriber db) →
  (∀ j, j ≠ i → scope_of db' j = scope_of db j) →
  (∀ t, subscriber db !! i = Some t → subscriber_key t = subscriber_key s) →
  subscription_at db' p a =
    if decide ((p, a) = subscriber_key s) then Some (subscription_of db' i s)
    else subscription_at db p a.
Proof.
  intros Hw Hw' Hs Hsc Hold. assert (Hi : subscriber db' !! i = Some s)
    by (rewrite Hs; apply lookup_insert_eq).
  destruct (decide _) as [Heq|Hne].
  - apply (subscription_at_Some db' p a); [done|]. by exists i, s.
  - apply option_eq. intros v. rewrite !subscription_at_Some by done.
    split; intros (j & t & Hj & Hk & ->); exists j, t.
    + rewrite Hs in Hj. apply lookup_insert_Some in Hj as [[<- <-]|[Hji Hj]]; [congruence|].
      split_and!; [done..|]. unfold subscription_of. by rewrite Hsc.
    + assert (j ≠ i) as Hji by (intros ->; rewrite (Hold t Hj) in Hk; congruence).
      rewrite Hs, lookup_insert_ne by done.
      split_and!; [done..|]. unfold subscription_of. by rewrite Hsc.
Qed.

(** C10. [upsert_subscriber] refines insertion into the map of subscriptions: on
    success the account's entry has exactly the scope given and expires 30 days
    from now; if the account was subscribed its row, symmetric key and topic are
    kept and [inserted] is false, otherwise they are the new ones; every other
    entry is unchanged; on failure nothing changes. *)
Theorem upsert_subscriber_refines `{!UuidLaws} now fresh proj account scope k t db :
  wf_db db →
  let address := get_address_lower (account_str account) in
  let '(r, db') := upsert_subscriber now fresh proj account scope k t db in
  match r with
  | Ok resp =>
      let '(i, acc, key, topic) :=
        match subscription_at db proj address with
        | Some v => (sub_row_id v, sub_account_text v, sub_key v, sub_row_topic v)
        | None => (fresh, account_str account, hex_encode k, t)
        end in
      resp = mkSubscribeResponse i (mkAccountId acc) topic
               (negb (bool_decide (is_Some (subscription_at db proj address)))) ∧
      ∀ p a, subscription_at db' p a =
        if decide ((p, a) = (proj, address))
        then Some (mkSubscription i acc key topic scope (now + days 30))
        else subscription_at db p a
  | _ => db' = db
  end.
Proof.
  intros Hw address. destruct (upsert_subscriber now fresh proj account scope k t db)
    as [r db'] eqn:Hrun.
  assert (Hw' : wf_db db').
  { pose proof (upsert_subscriber_wf now fresh proj account scope k t db Hw) as Hw'.
    by rewrite Hrun in Hw'. }
  destruct r as [resp|e|].
  2,3: unfold upsert_subscriber, transaction in Hrun;
       match type of Hrun with (match ?q with _ => _ end) = _ => destruct q as [[] ?] end; congruence.
  apply transaction_Ok in Hrun. cbv zeta in Hrun.
  apply bind_Ok_inv in Hrun as (x1 & db1 & H1 & Hrun).
  apply read_only_Ok in H1 as ->; [|solve_read_only].
  rewrite bind_gets in Hrun. apply bind_Ok_inv in Hrun as ([[[i acc] topic] ins] & db2 & Hrow & Hrun).
  apply bind_Ok_inv in Hrun as (acc1 & db3 & Hdec & Hrun).
  apply decode_account_Ok in Hdec as (-> & Hval & ->).
  apply bind_Ok_inv in Hrun as (u & db4 & Hsc & Hrun). inv_ok Hrun.
  apply update_subscriber_scope_Ok in Hsc as (Hs4 & Hp4 & Hsc & Hsc').
  fold address in Hrow.
  change (λ s, (s_project s, get_address_lower (s_account s))) with subscriber_key in Hrow.
  unfold id in Hrow.
  destruct (find_by subscriber_key (proj, address) (subscriber db)) as [[j s]|] eqn:E.
  - assert (Hat : subscription_at db proj address = Some (subscription_of db j s))
      by (unfold subscription_at; by rewrite E).
    apply find_by_Some in E as [Hj Hk]. rewrite bind_modify in Hrow. inv_ok Hrow.
    rewrite Hat. cbn [sub_row_id sub_account_text sub_key sub_row_topic subscription_of].
    split; [by rewrite bool_decide_true|]. intros p a.
    rewrite (subscription_at_write db _ i (mkSubscriberRow (s_project s) (s_account s)
      (s_sym_key s) (s_topic s) (now + days 30))).
    + rewrite <-Hk. change (subscriber_key (mkSubscriberRow _ _ _ _ _)) with (subscriber_key s).
      destruct (decide _); [|done]. unfold subscription_of. by subst.
    + done.
    + done.
    + by rewrite Hs4.
    + intros j' Hne. by rewrite Hsc'.
    + intros t' Ht'. naive_solver.
  - apply bind_Ok_inv in Hrow as (u1 & ? & Hfresh & Hrow).
    apply guard_err_Ok_inv in Hfresh as [Hfresh%bool_decide_eq_false ->].
    do 3 (let u := fresh in let Hc := fresh in
      apply bind_Ok_inv in Hrow as (u & ? & Hc & Hrow);
      apply read_only_Ok in Hc as ->; [|solve_read_only]).
    rewrite bind_modify in Hrow. inv_ok Hrow.
    assert (Hat : subscription_at db proj address = None)
      by (unfold subscription_at; by rewrite E).
    rewrite Hat. split; [by rewrite bool_decide_false by (intros [? ?]; done)|]. intros p a.
    rewrite (subscription_at_write db _ i (mkSubscriberRow proj (account_str account)
      (hex_encode k) topic (now + days 30))).
    + change (subscriber_key (mkSubscriberRow _ _ _ _ _)) with (proj, address).
      destruct (decide _); [|done]. unfold subscription_of. by subst.
    + done.
    + done.
    + by rewrite Hs4.
    + intros j' Hne. by rewrite Hsc'.
    + intros t' Ht'. destruct Hfresh. naive_solver.
Qed.

Lemma select_row {V} (m : gmap Uuid V) i :
  select (λ k _, bool_decide (k = i)) m = match m !! i with Some x => [(i, x)] | None => [] end.
Proof.
  destruct (m !! i) as [x|] eqn:E.
  - apply select_unique; [done|by apply bool_decide_true|]. by intros ? ? _ ?%bool_decide_eq_true.
  - apply select_none. intros j y Hj. apply bool_decide_false. congruence.
Qed.

Lemma update_subscriber_scope_succeeds sub scope db :
  is_Some (subscriber db !! sub) → ∃ db', update_subscriber_scope sub scope db = (Ok (), db').
Proof.
  intros [s Hs]. unfold update_subscriber_scope. rewrite bind_modify, bind_gets. simpl.
  destruct (decide (scope = ∅)); [by eexists|]. unfold check_fk. rewrite Hs. by eexists.
Qed.

Lemma decode_account_valid s db :
  valid_account (mkAccountId s) → decode_account s db = (Ok (mkAccountId s), db).
Proof.
  intros Hv. unfold decode_account, lift.
  by rewrite (proj2 (try_from_account_Ok s (mkAccountId s)) (conj eq_refl Hv)).
Qed.

Lemma subscription_at_delete db sub p a :
  wf_db db →
  subscription_at (delete_subscriber sub db).2 p a =
    match subscription_at db p a with
    | Some v => if decide (sub_row_id v = sub) then None else Some v
    | None => None
    end.
Proof.
  intros Hw. pose proof (delete_subscriber_wf sub db Hw) as Hw'. apply option_eq. intros v.
  rewrite subscription_at_Some by done.
  assert (Hsc : ∀ i, i ≠ sub → scope_of (delete_subscriber sub db).2 i = scope_of db i).
  { intros i Hne. apply scope_of_ext. intros n. simpl. rewrite elem_of_filter. simpl.
    naive_solver. }
  split.
  - intros (i & s & Hi & Hk & ->). simpl in Hi. apply lookup_delete_Some in Hi as [Hne Hi].
    rewrite (proj2 (subscription_at_Some db p a (subscription_of db i s) Hw)) by eauto.
    simpl. rewrite decide_False by done. unfold subscription_of. by rewrite Hsc.
  - destruct (subscription_at db p a) as [v'|] eqn:E; [|done].
    apply subscription_at_Some in E as (i & s & Hi & Hk & ->); [|done]. simpl.
    case_decide as Hne; [done|]. intros [= <-]. exists i, s. split_and!.
    + simpl. by rewrite lookup_delete_ne.
    + done.
    + unfold subscription_of. by rewrite Hsc.
Qed.

(** C11. Updating and deleting a subscription refine the map: on a database of
    the server, [update_subscriber] of a row that is there always succeeds and
    changes only the scope and expiry of its entry, and reports a missing row
    otherwise; [delete_subscriber] removes exactly the entry of its row, with
    its scopes and its notifications. *)
Theorem update_delete_subscriber_refine `{!UuidLaws} now sub scope db :
  wf_db db → typed_db db →
  match subscriber db !! sub with
  | None => update_subscriber now sub scope db = (Err RowNotFound, db)
  | Some s => ∃ db',
      update_subscriber now sub scope db =
        (Ok (mkSubscriber sub (s_project s) (mkAccountId (s_account s)) (s_sym_key s) (s_topic s)
               (now + days 30)), db') ∧
      ∀ p a, subscription_at db' p a =
        if decide ((p, a) = subscriber_key s)
        then Some (mkSubscription sub (s_account s) (s_sym_key s) (s_topic s) scope
                     (now + days 30))
        else subscription_at db p a
  end ∧
  (∀ p a, subscription_at (delete_subscriber sub db).2 p a =
    match subscription_at db p a with
    | Some v => if decide (sub_row_id v = sub) then None else Some v
    | None => None
    end) ∧
  (∀ n, (sub, n) ∉ subscriber_scope (delete_subscriber sub db).2) ∧
  (∀ i r, subscriber_notification (delete_subscriber sub db).2 !! i = Some r ↔
     subscriber_notification db !! i = Some r ∧ sn_subscriber r ≠ sub).
Proof.
  intros Hw Ht. split_and!.
  - destruct (update_subscriber now sub scope db) as [r db'] eqn:Hrun.
    assert (Hw' : wf_db db').
    { pose proof (update_subscriber_wf now sub scope db Hw) as Hw'. by rewrite Hrun in Hw'. }
    unfold update_subscriber, transaction in Hrun. rewrite bind_gets, select_row in Hrun.
    destruct (subscriber db !! sub) as [s|] eqn:Hs; [|cbn [fetch_one] in Hrun; rewrite bind_throw in Hrun; congruence].
    cbn [fetch_one] in Hrun. rewrite bind_ret in Hrun. cbv zeta in Hrun.
    cbn [fst snd s_account s_project s_sym_key s_topic s_expiry] in Hrun. rewrite bind_modify in Hrun.
    set (s' := mkSubscriberRow _ _ _ _ _) in Hrun.
    set (db1 := set_subscriber <[sub := s']> db) in Hrun.
    destruct (ty_subscriber db Ht sub s Hs) as [Hval _].
    rewrite (bind_Ok _ _ _ _ _ (decode_account_valid (s_account s) db1 Hval)) in Hrun.
    rewrite bool_decide_true in Hrun by done. rewrite bind_ret in Hrun.
    destruct (update_subscriber_scope_succeeds sub scope db1) as [db2 H2].
    { simpl. rewrite lookup_insert_eq. by eexists. }
    rewrite (bind_Ok _ _ _ _ _ H2) in Hrun. cbn in Hrun. injection Hrun as <- <-.
    eexists. split; [done|]. intros p a.
    apply update_subscriber_scope_Ok in H2 as (Hs2 & _ & Hsc & Hsc').
    rewrite (subscription_at_write db _ sub s').
    + change (subscriber_key s') with (subscriber_key s).
      destruct (decide _); [|done]. unfold subscription_of. by rewrite Hsc.
    + done.
    + done.
    + by rewrite Hs2.
    + intros j Hne. by rewrite Hsc'.
    + naive_solver.
  - intros p a. by apply subscription_at_delete.
  - intros n. simpl. rewrite elem_of_filter. naive_solver.
  - intros i r. simpl. rewrite map_lookup_filter_Some. done.
Qed.

(** [get_subscriber_by_topic] is lookup by topic: on a database of the
    server it never changes anything and returns the one subscription that has
    the topic, or [RowNotFound] when there is none. *)
Theorem get_subscriber_by_topic_refines topic db :
  wf_db db → typed_db db →
  get_subscriber_by_topic topic db =
    (match find_by s_topic topic (subscriber db) with
     | Some (i, s) =>
         Ok (mkSubscriberWithScope i (s_project s) (mkAccountId (s_account s)) (s_sym_key s)
               topic (scope_of db i) (s_expiry s))
     | None => Err RowNotFound
     end, db) ∧
  (∀ i s, subscriber db !! i = Some s → s_topic s = topic →
     find_by s_topic topic (subscriber db) = Some (i, s)).
Proof.
  intros Hw Ht. split.
  - unfold get_subscriber_by_topic. rewrite bind_gets.
    destruct (find_by s_topic topic (subscriber db)) as [[i s]|] eqn:E.
    + pose proof (find_by_Some _ _ _ _ _ E) as [Hi Htp].
      rewrite (select_unique _ _ i s); [..|].
      * cbn [fetch_one]. rewrite bind_ret.
        destruct (ty_subscriber db Ht i s Hi) as [Hval _].
        rewrite (bind_Ok _ _ _ _ _ (decode_account_valid (s_account s) _ Hval)).
        by rewrite Htp.
      * done.
      * by apply bool_decide_true.
      * intros j y Hj Hy%bool_decide_eq_true. apply (wf_topic db Hw j i y s Hj Hi). congruence.
    + rewrite select_none; [done|]. intros j y Hj. apply bool_decide_false.
      by apply (proj1 (find_by_None _ _ _) E j y).
  - intros i s Hi <-. by apply find_by_unique; [apply wf_topic|].
Qed.
End subscriptions.

(** ** Witnesses *)

Import Concrete.Instances.

Lemma db4_w_wf : wf_db db4_w.
Proof. exact (proj1 (rtc_db_step_inv _ _ db4_w_reachable (conj wf_empty typed_empty))). Qed.

Lemma db4_w_typed : typed_db db4_w.
Proof. exact (proj2 (rtc_db_step_inv _ _ db4_w_reachable (conj wf_empty typed_empty))). Qed.

(** Subscribing again keeps the row, the key and the topic. *)
Definition resubscribe_w :=
  upsert_subscriber 5 9%N 1%N account_w {[8%N]} ak_w (topic_from_key ak_w) db4_w.

Lemma upsert_subscriber_refines_witness :
  subscription_at resubscribe_w.2 1%N (get_address_lower (account_str account_w)) =
    Some (mkSubscription 2%N (account_str account_w) (hex_encode notify_key_w)
            (topic_from_key notify_key_w) {[8%N]} (5 + days 30)).
Proof.
  pose proof (upsert_subscriber_refines 5 9%N 1%N account_w {[8%N]} ak_w (topic_from_key ak_w)
    db4_w db4_w_wf) as H.
  fold resubscribe_w in H.
  assert (Hok : is_ok resubscribe_w.1 = true) by (by vm_compute).
  destruct resubscribe_w as [[r|e|] db'] eqn:E; [|done..]. cbn [snd].
  assert (Hat : subscription_at db4_w 1%N (get_address_lower (account_str account_w)) =
    Some (mkSubscription 2%N (account_str account_w) (hex_encode notify_key_w)
            (topic_from_key notify_key_w) {[7%N]} (days 30))) by (by vm_compute).
  cbv zeta in H. rewrite Hat in H. destruct H as [_ H]. rewrite H. by rewrite decide_True.
Defined.

Lemma update_delete_subscriber_refine_witness :
  (∃ db', update_subscriber 5 2%N {[8%N]} db4_w =
    (Ok (mkSubscriber 2%N 1%N account_w (hex_encode notify_key_w) (topic_from_key notify_key_w)
           (5 + days 30)), db')) ∧
  update_subscriber 5 99%N {[8%N]} db4_w = (Err RowNotFound, db4_w).
Proof.
  split.
  - pose proof (update_delete_subscriber_refine 5 2%N {[8%N]} db4_w db4_w_wf db4_w_typed) as [H _].
    assert (Hs : subscriber db4_w !! 2%N = Some (mkSubscriberRow 1%N (account_str account_w)
      (hex_encode notify_key_w) (topic_from_key notify_key_w) (days 30))) by (by vm_compute).
    rewrite Hs in H. destruct H as (db' & H & _). by exists db'.
  - pose proof (update_delete_subscriber_refine 5 99%N {[8%N]} db4_w db4_w_wf db4_w_typed) as [H _].
    assert (Hs : subscriber db4_w !! 99%N = None) by (by vm_compute).
    by rewrite Hs in H.
Defined.

Lemma get_subscriber_by_topic_refines_witness :
  get_subscriber_by_topic "unknown" db4_w = (Err RowNotFound, db4_w).
Proof.
  pose proof (get_subscriber_by_topic_refines "unknown" db4_w db4_w_wf db4_w_typed) as [H _].
  assert (Hf : find_by s_topic "unknown" (subscriber db4_w) = None) by (by vm_compute).
  by rewrite Hf in H.
Defined.
