(* ===== verification/Notifications.v ===== *)
(** * Reading notifications: pages, read marks, watchers (model/helpers.rs)

    The page query against its specification, the sorted list of the
    subscriber's notifications; the exact effect of the statements that mark
    notifications as read; and what the watcher limit does and does not
    enforce. *)

From S2P Require Import Prelude RustStr Externals Concrete AccountId Errors Types Database.
From S2P Require Import DbInvariant Subscriptions.
Open Scope Z_scope.

(** ** The order of the rows *)

Abbreviation Row := (Uuid * SubscriberNotificationRow)%type.

(** The sort key: unread first if asked, newest first, then by id. *)
Definition row_key (uf : bool) (x : Row) : Z * Z * N :=
  ((if uf then Z.b2z (sn_is_read x.2) else 0), - sn_created_at x.2, x.1).

Definition key_le (a b : Z * Z * N) : Prop :=
  a.1.1 < b.1.1 ∨ (a.1.1 = b.1.1 ∧ (a.1.2 < b.1.2 ∨ (a.1.2 = b.1.2 ∧ (a.2 <= b.2)%N))).

Lemma order_le_key uf x y : order_le uf x y ↔ key_le (row_key uf x) (row_key uf y).
Proof.
  destruct x as [i r], y as [j q]. unfold order_le, order_by, key_le, row_key. cbn [fst snd].
  destruct uf; rewrite ?orb_true_iff, ?andb_true_iff, ?orb_true_iff, ?andb_true_iff,
    ?negb_true_iff, ?Z.ltb_lt, ?Z.eqb_eq, ?N.leb_le, ?eqb_true_iff.
  - destruct (sn_is_read r), (sn_is_read q); cbn; split; intros H; destruct_or?; destruct_and?;
      simplify_eq; try lia; (destruct_or?; destruct_and?; lia || auto with lia).
  - split; intros H; destruct_or?; destruct_and?; lia || auto with lia.
Qed.

#[global] Instance order_le_trans uf : Transitive (order_le uf).
Proof.
  intros x y z. rewrite !order_le_key. unfold key_le. intros H1 H2.
  destruct_or?; destruct_and?; destruct_or?; destruct_and?; lia.
Qed.

#[global] Instance order_le_total uf : Total (order_le uf).
Proof. intros x y. rewrite !order_le_key. unfold key_le. lia. Qed.

Lemma order_le_antisym_id uf x y : order_le uf x y → order_le uf y x → x.1 = y.1.
Proof. rewrite !order_le_key. unfold key_le, row_key. cbn. lia. Qed.

(** The cursor comparison is the strict order. *)
Lemma after_clause_spec now uf a m i r :
  m !! i = Some r →
  after_clause now uf (Some a) m i r = true ↔
  ∃ c, m !! a = Some c ∧ order_le uf (a, c) (i, r) ∧ a ≠ i.
Proof.
  intros Hi. unfold after_clause. destruct (m !! a) as [c|] eqn:Ha; [|split; [done|by intros (?&?&?)]].
  assert (Hs : (∃ c0, Some c = Some c0 ∧ order_le uf (a, c0) (i, r) ∧ a ≠ i) ↔
    order_le uf (a, c) (i, r) ∧ a ≠ i) by naive_solver.
  assert (Heq : a = i → sn_is_read c = sn_is_read r) by naive_solver.
  assert (Heq' : a = i → sn_created_at c = sn_created_at r) by naive_solver.
  rewrite Hs, order_le_key. clear Hs. unfold key_le, row_key. cbn [fst snd].
  assert (Htf : true = false ↔ False) by done. assert (Hft : false = true ↔ False) by done.
  assert (Htt : true = true ↔ True) by done. assert (Hff : false = false ↔ True) by done.
  destruct uf; rewrite ?orb_true_iff, ?andb_true_iff, ?orb_true_iff, ?andb_true_iff,
    ?negb_true_iff, ?Z.ltb_lt, ?Z.eqb_eq, ?N.ltb_lt, ?eqb_true_iff; [|lia].
  destruct (sn_is_read c), (sn_is_read r); cbn; rewrite ?Htf, ?Hft, ?Htt, ?Hff;
    clear - Heq Heq'; naive_solver lia.
Qed.

(** ** Sorted lists and cursors *)

(** The rows the page query selects, cursor aside. *)
Definition base (sub : Uuid) (db : Db) : list Row :=
  select (λ _ r, bool_decide (sn_subscriber r = sub)
            && bool_decide (is_Some (notification db !! sn_notification r)))
    (subscriber_notification db).

(** The specification: the subscriber's notifications, in order. *)
Definition all_rows (sub : Uuid) (uf : bool) (db : Db) : list Row := sort_rows uf (base sub db).

Lemma sort_rows_perm uf l : sort_rows uf l ≡ₚ l.
Proof. apply merge_sort_Permutation. Qed.

Lemma sort_rows_sorted uf l : StronglySorted (order_le uf) (sort_rows uf l).
Proof. apply StronglySorted_merge_sort; apply _. Qed.

Lemma filter_sorted uf (P : Row → Prop) `{∀ x, Decision (P x)} l :
  StronglySorted (order_le uf) l → StronglySorted (order_le uf) (filter P l).
Proof.
  induction 1 as [|x l Hs IH Hx]; [constructor|]. rewrite filter_cons. case_decide; [|done].
  constructor; [done|]. apply list.Forall_forall. intros y [_ Hy]%list_elem_of_filter.
  rewrite list.Forall_forall in Hx. by apply Hx.
Qed.

(** Sorting then filtering is filtering then sorting, on rows of one table. *)
Lemma sort_filter uf (P : Row → Prop) `{∀ x, Decision (P x)} (l : list Row) :
  (∀ x y, x ∈ l → y ∈ l → x.1 = y.1 → x = y) →
  sort_rows uf (filter P l) = filter P (sort_rows uf l).
Proof.
  intros Hid. eapply StronglySorted_unique_strong.
  - intros x y Hx Hy Hxy Hyx. rewrite sort_rows_perm in Hx. rewrite sort_rows_perm in Hy.
    apply list_elem_of_filter in Hx as [_ Hx]. apply list_elem_of_filter in Hy as [_ Hy].
    apply Hid; [done..|]. by eapply order_le_antisym_id.
  - apply sort_rows_sorted.
  - apply filter_sorted, sort_rows_sorted.
  - by rewrite !sort_rows_perm.
Qed.

Lemma base_id sub db x y : x ∈ base sub db → y ∈ base sub db → x.1 = y.1 → x = y.
Proof.
  destruct x as [i r], y as [j q]. intros [Hi _]%elem_of_select [Hj _]%elem_of_select Heq.
  simpl in Heq. subst. congruence.
Qed.

Lemma page_rows_filter now sub uf after db :
  page_rows now sub uf after db =
  filter (λ x, after_clause now uf after (subscriber_notification db) x.1 x.2 = true)
    (all_rows sub uf db).
Proof.
  unfold page_rows, all_rows. rewrite <-sort_filter by (intros; by eapply base_id).
  f_equal. unfold base, select. rewrite list_filter_filter. apply list_filter_iff.
  intros [i r]. simpl. rewrite !andb_true_iff. tauto.
Qed.

Lemma all_rows_NoDup sub uf db : NoDup (fst <$> all_rows sub uf db).
Proof.
  unfold all_rows. rewrite sort_rows_perm. unfold base, select.
  eapply sublist_NoDup; [apply (NoDup_fst_map_to_list (subscriber_notification db))|].
  apply fmap_sublist, sublist_filter.
Qed.

Lemma elem_of_all_rows sub uf db x :
  wf_db db →
  x ∈ all_rows sub uf db ↔ subscriber_notification db !! x.1 = Some x.2 ∧ sn_subscriber x.2 = sub.
Proof.
  intros Hw. unfold all_rows. rewrite sort_rows_perm. destruct x as [i r].
  unfold base. rewrite elem_of_select, andb_true_iff, !bool_decide_eq_true. simpl.
  split; [tauto|]. intros [Hi Hs]. destruct (wf_sn_fk db Hw i r Hi). done.
Qed.

(** The page after a cursor is the rest of the list after it. *)
Lemma page_rows_cursor now sub uf db pre a c post :
  all_rows sub uf db = pre ++ (a, c) :: post →
  page_rows now sub uf (Some a) db = post.
Proof.
  intros Hall. rewrite page_rows_filter.
  assert (Hrow : ∀ i r, (i, r) ∈ all_rows sub uf db → subscriber_notification db !! i = Some r).
  { intros i r Hin. unfold all_rows in Hin. rewrite sort_rows_perm in Hin.
    by apply elem_of_select in Hin as [? _]. }
  assert (Hac : subscriber_notification db !! a = Some c) by (apply Hrow; rewrite Hall; set_solver).
  pose proof (sort_rows_sorted uf (base sub db)) as Hs.
  pose proof (all_rows_NoDup sub uf db) as Hnd. fold (all_rows sub uf db) in Hs.
  rewrite Hall in *. rewrite fmap_app, fmap_cons in Hnd.
  apply list.NoDup_app in Hnd as (_ & Hpre & Hnd%list.NoDup_cons). destruct Hnd as [Hpost _].
  rewrite list.filter_app, filter_cons. cbn [fst snd].
  rewrite decide_False; [|rewrite after_clause_spec by done; naive_solver].
  rewrite filter_all_false.
  - apply filter_all_true. apply list.Forall_forall. intros [i r] Hin.
    apply after_clause_spec; [apply Hrow; set_solver|]. exists c. split_and!; [done| |].
    + apply StronglySorted_app in Hs as (_ & _ & Hs). apply StronglySorted_inv in Hs as [_ Hs].
      rewrite list.Forall_forall in Hs. by apply Hs.
    + intros ->. apply Hpost. apply list_elem_of_fmap. by exists (i, r).
  - apply list.Forall_forall. intros [i r] Hin.
    rewrite after_clause_spec by (apply Hrow; set_solver). intros (c' & Hc' & Hle & Hne). assert (c' = c) as -> by congruence.
    apply StronglySorted_app in Hs as (Hs & _ & _).
    assert (Hle' : order_le uf (i, r) (a, c)) by (apply Hs; set_solver).
    apply Hne. by apply (order_le_antisym_id uf (a, c) (i, r)).
Qed.

(** ** One page *)

(** The rows after a cursor, in the specification. *)
Fixpoint rows_after (a : Uuid) (l : list Row) : list Row :=
  match l with
  | [] => []
  | x :: l => if decide (x.1 = a) then l else rows_after a l
  end.

Definition rest_of (after : option Uuid) (l : list Row) : list Row :=
  match after with None => l | Some a => rows_after a l end.

Lemma rows_after_split a l : a ∈ (fst <$> l) → ∃ pre c, l = pre ++ (a, c) :: rows_after a l.
Proof.
  induction l as [|[i r] l IH]; [by intros ?%elem_of_nil|]. cbn.
  destruct (decide (i = a)) as [->|Hne]; [by exists [], r|].
  intros [->|Hin]%elem_of_cons; [done|]. destruct (IH Hin) as (pre & c & Hl).
  exists ((i, r) :: pre), c. cbn. by rewrite <-Hl.
Qed.

Lemma rest_of_suffix after l :
  (∀ a, after = Some a → a ∈ (fst <$> l)) → ∃ pre, l = pre ++ rest_of after l.
Proof.
  intros Hin. destruct after as [a|]; cbn; [|by exists []].
  destruct (rows_after_split a l (Hin a eq_refl)) as (pre & c & Heq).
  exists (pre ++ [(a, c)]). by rewrite <-app_assoc.
Qed.

Lemma page_rows_rest now sub uf after db :
  (∀ a, after = Some a → a ∈ (fst <$> all_rows sub uf db)) →
  page_rows now sub uf after db = rest_of after (all_rows sub uf db).
Proof.
  intros Hin. destruct after as [a|]; cbn.
  - destruct (rows_after_split _ _ (Hin a eq_refl)) as (pre & c & Heq).
    by eapply page_rows_cursor.
  - rewrite page_rows_filter. apply filter_all_true. by apply list.Forall_forall.
Qed.

Lemma view_rows db l :
  (∀ x, x ∈ l → is_Some (view_row db x)) →
  nv_id <$> omap (view_row db) l = fst <$> l ∧ length (omap (view_row db) l) = length l.
Proof.
  induction l as [|x l IH]; intros Hl; [done|].
  destruct (Hl x) as [v Hv]; [set_solver|]. destruct IH as [IH1 IH2]; [set_solver|].
  cbn. rewrite Hv. cbn. rewrite IH1, IH2. split; [|done]. f_equal.
  unfold view_row in Hv. by apply bind_Some in Hv as (n & _ & [= <-]).
Qed.

Lemma view_row_all sub uf db x :
  wf_db db → x ∈ all_rows sub uf db → is_Some (view_row db x).
Proof.
  intros Hw [Hx _]%elem_of_all_rows; [|done]. destruct (wf_sn_fk db Hw _ _ Hx) as [[n Hn] _].
  unfold view_row. rewrite Hn. by eexists.
Qed.

Definition unread (x : Row) : bool := negb (sn_is_read x.2).

Lemma has_more_unread_query_spec now sub uf db pre a c post :
  wf_db db → all_rows sub uf db = pre ++ (a, c) :: post →
  has_more_unread_query now sub uf a db = existsb unread post.
Proof.
  intros Hw Hall. pose proof (page_rows_cursor now sub uf db pre a c post Hall) as Hpost.
  rewrite page_rows_filter in Hpost. unfold has_more_unread_query. apply eq_true_iff_eq.
  rewrite existsb_exists. split.
  - destruct (select _ _) as [|[i r] l] eqn:E; [done|]. intros _.
    assert (Hin : (i, r) ∈ (i, r) :: l) by set_solver. rewrite <-E in Hin.
    apply elem_of_select in Hin as [Hi Hp]. rewrite !andb_true_iff, bool_decide_eq_true in Hp.
    destruct Hp as [[Hsub Hun] Haft]. exists (i, r). split; [|done].
    apply list_elem_of_In. rewrite <-Hpost. apply list_elem_of_filter. split; [done|].
    by apply elem_of_all_rows.
  - intros ([i r] & Hin & Hun). apply list_elem_of_In in Hin. rewrite <-Hpost in Hin.
    apply list_elem_of_filter in Hin as [Haft Hin]. apply elem_of_all_rows in Hin as [Hi Hs]; [|done].
    destruct (select _ _) as [|x l] eqn:E; [|done]. exfalso.
    apply (elem_of_nil (i, r)). rewrite <-E. apply elem_of_select. split; [done|].
    rewrite !andb_true_iff, bool_decide_eq_true. done.
Qed.

Definition valid_cursor (sub : Uuid) (after : option Uuid) (db : Db) : Prop :=
  ∀ a, after = Some a →
    ∃ r, subscriber_notification db !! a = Some r ∧ sn_subscriber r = sub.

Lemma valid_cursor_all sub uf after db :
  wf_db db → valid_cursor sub after db →
  ∀ a, after = Some a → a ∈ (fst <$> all_rows sub uf db).
Proof.
  intros Hw Hc a Ha. destruct (Hc a Ha) as (r & Hr & Hs). apply list_elem_of_fmap.
  exists (a, r). split; [done|]. by apply elem_of_all_rows.
Qed.

(** C12. One page of [get_notifications_for_subscriber], with no cursor or with
    one of the subscriber's own notifications as cursor: the notifications
    returned are the first [limit] of the rows after the cursor in the
    subscriber's sorted list (unread first if asked, newest first, ties by id),
    [has_more] says whether rows are left, [has_more_unread] whether an unread
    one is left, and nothing is written. *)
Theorem get_notifications_page now sub limit after uf db :
  wf_db db → (1 <= limit)%nat → valid_cursor sub after db →
  let rest := rest_of after (all_rows sub uf db) in
  ∃ page,
    get_notifications_for_subscriber now sub (mkGetNotificationsParams limit after uf) db =
      (Ok (mkGetNotificationsResult page (limit <? length rest)%nat
             (existsb unread (drop limit rest))), db) ∧
    page = omap (view_row db) (take limit rest) ∧
    nv_id <$> page = fst <$> take limit rest.
Proof.
  intros Hw Hlim Hc rest. pose proof (valid_cursor_all sub uf after db Hw Hc) as Hin.
  unfold get_notifications_for_subscriber. rewrite bind_gets. cbn [gn_limit gn_after gn_unread_first].
  unfold id. rewrite page_rows_rest by done. fold rest.
  destruct (rest_of_suffix after (all_rows sub uf db) Hin) as [pre Hpre]. fold rest in Hpre.
  assert (Hv : ∀ n x, x ∈ take n rest → is_Some (view_row db x)).
  { intros n x Hx%elem_of_take_list. eapply view_row_all; [done|]. rewrite Hpre.
    apply elem_of_app. by right. }
  rewrite take_omap_total by apply Hv. rewrite take_take, Nat.min_l by lia.
  destruct (view_rows db _ (Hv (S limit))) as [_ ->].
  destruct (view_rows db _ (Hv limit)) as [Hids Hlen].
  eexists. split; [|split; [reflexivity|done]].
  unfold mret, M_ret. do 3 f_equal.
  { rewrite length_take. apply eq_true_iff_eq. rewrite !Nat.ltb_lt. lia. }
  destruct (list.last (omap (view_row db) (take limit rest))) as [v|] eqn:Hlast.
  - assert (Hl : list.last (fst <$> take limit rest) = Some (nv_id v)).
    { by rewrite <-Hids, fmap_last, Hlast. }
    rewrite fmap_last in Hl. apply fmap_Some in Hl as ([a c] & Hl & Ha). simpl in Ha.
    apply last_Some in Hl as [l' Hl'].
    assert (Hall : all_rows sub uf db = (pre ++ l') ++ (a, c) :: drop limit rest).
    { rewrite Hpre at 1. rewrite <-(take_drop limit rest) at 1. rewrite Hl'.
      by rewrite <-!app_assoc. }
    rewrite Ha. by eapply has_more_unread_query_spec.
  - apply last_None in Hlast. rewrite Hlast in Hlen. simpl in Hlen.
    rewrite length_take in Hlen. by rewrite drop_ge by lia.
Qed.

(** ** Walking the pages *)

(** A client that asks for page after page, with the last id it received as
    cursor, until [has_more] is false. *)
Fixpoint walk_pages (fuel : nat) (now : Z) (sub : Uuid) (limit : nat) (after : option Uuid)
    (uf : bool) (db : Db) : option (list NotificationView) :=
  match fuel with
  | 0%nat => None
  | S fuel =>
      match (get_notifications_for_subscriber now sub
               (mkGetNotificationsParams limit after uf) db).1 with
      | Ok r =>
          if has_more r then
            last ← list.last (notifications r);
            more ← walk_pages fuel now sub limit (Some (nv_id last)) uf db;
            Some (notifications r ++ more)
          else Some (notifications r)
      | _ => None
      end
  end.

Lemma rows_after_last sub uf db pre l' a c post :
  all_rows sub uf db = (pre ++ l') ++ (a, c) :: post →
  rows_after a (all_rows sub uf db) = post.
Proof.
  intros Hall. pose proof (all_rows_NoDup sub uf db) as Hnd.
  assert (Ha : a ∈ (fst <$> all_rows sub uf db)).
  { rewrite Hall, fmap_app, fmap_cons. set_solver. }
  destruct (rows_after_split a _ Ha) as (p2 & c2 & Heq).
  pose proof (page_rows_cursor 0 sub uf db _ _ _ _ Heq) as H1.
  pose proof (page_rows_cursor 0 sub uf db _ _ _ _ Hall) as H2. congruence.
Qed.

(** C13. Paging is complete and terminates: on an unchanged database, walking
    the pages from the start with any limit ends after finitely many pages and
    yields every notification of the subscriber exactly once, in order. *)
Theorem walk_pages_complete now sub limit uf db fuel :
  wf_db db → (1 <= limit)%nat → (length (all_rows sub uf db) < fuel)%nat →
  ∃ l, walk_pages fuel now sub limit None uf db = Some l ∧
    nv_id <$> l = fst <$> all_rows sub uf db ∧
    (∀ i, i ∈ (nv_id <$> l) ↔
       ∃ r, subscriber_notification db !! i = Some r ∧ sn_subscriber r = sub) ∧
    NoDup (nv_id <$> l).
Proof.
  intros Hw Hlim Hfuel.
  assert (Hgen : ∀ fuel after,
    valid_cursor sub after db →
    (length (rest_of after (all_rows sub uf db)) < fuel)%nat →
    ∃ l, walk_pages fuel now sub limit after uf db = Some l ∧
      nv_id <$> l = fst <$> rest_of after (all_rows sub uf db)).
  { clear fuel Hfuel. induction fuel as [|fuel IH]; intros after Hc Hlen; [lia|]. cbn [walk_pages].
    destruct (get_notifications_page now sub limit after uf db Hw Hlim Hc) as (page & -> & _ & Hids).
    cbn [fst has_more notifications]. set (rest := rest_of after (all_rows sub uf db)) in *.
    destruct (Nat.ltb_spec limit (length rest)) as [Hlt|Hge].
    - pose proof (valid_cursor_all sub uf after db Hw Hc) as Hin.
      destruct (rest_of_suffix after (all_rows sub uf db) Hin) as [pre Hpre]. fold rest in Hpre.
      destruct (list.last (take limit rest)) as [[a c]|] eqn:Hlast.
      2:{ apply last_None in Hlast. apply (f_equal length) in Hlast.
          rewrite length_take in Hlast. simpl in Hlast. lia. }
      assert (Hl : list.last (nv_id <$> page) = Some a) by (by rewrite Hids, fmap_last, Hlast).
      rewrite fmap_last in Hl. apply fmap_Some in Hl as (v & Hv & ->). rewrite Hv.
      cbn [mbind option_bind]. apply last_Some in Hlast as [l' Hl'].
      assert (Hall : all_rows sub uf db = (pre ++ l') ++ (nv_id v, c) :: drop limit rest).
      { rewrite Hpre at 1. rewrite <-(take_drop limit rest) at 1. rewrite Hl'.
        by rewrite <-!app_assoc. }
      pose proof (rows_after_last _ _ _ _ _ _ _ _ Hall) as Hafter.
      assert (Hrow : (nv_id v, c) ∈ all_rows sub uf db) by (rewrite Hall; set_solver).
      destruct (IH (Some (nv_id v))) as (l & -> & Hidl).
      + intros b [= <-]. apply elem_of_all_rows in Hrow as [? ?]; [|done]. by exists c.
      + cbn. rewrite Hafter, length_drop. lia.
      + cbn [mbind option_bind]. eexists. split; [done|]. rewrite fmap_app, Hids, Hidl. cbn.
        rewrite Hafter, <-fmap_app. by rewrite take_drop.
    - exists page. split; [done|]. by rewrite Hids, take_ge. }
  destruct (Hgen fuel None) as (l & Hl & Hids); [done|done|]. cbn in Hids.
  exists l. split_and!; [done..| |].
  - intros i. rewrite Hids, list_elem_of_fmap. split.
    + intros ([j r] & -> & [? ?]%elem_of_all_rows); [|done]. by exists r.
    + intros (r & Hr & Hs). exists (i, r). split; [done|]. by apply elem_of_all_rows.
  - rewrite Hids. apply all_rows_NoDup.
Qed.

(** ** Marking as read *)

Definition marks (sub : Uuid) (ids : option (list Uuid)) (i : Uuid)
    (r : SubscriberNotificationRow) : bool :=
  bool_decide (sn_subscriber r = sub) && negb (sn_is_read r)
  && match ids with Some l => bool_decide (i ∈ l) | None => true end.

Lemma mark_lookup sub ids db i :
  subscriber_notification (mark_notifications_as_read sub ids db).2 !! i =
    (λ r, if marks sub ids i r then mark_read r else r) <$> subscriber_notification db !! i.
Proof. simpl. rewrite map_lookup_imap. by destruct (_ !! i). Qed.

Lemma elem_of_select_length {V} (P Q : Uuid → V → bool) (m m' : gmap Uuid V) :
  (∀ i x, m' !! i = Some x → Q i x = true → ∃ y, m !! i = Some y ∧ P i y = true) →
  (length (select Q m') <= length (select P m))%nat.
Proof.
  intros Hm. rewrite <-(length_fmap fst (select Q m')), <-(length_fmap fst (select P m)).
  apply submseteq_length, NoDup_submseteq.
  - eapply sublist_NoDup; [apply (NoDup_fst_map_to_list m')|]. apply fmap_sublist, sublist_filter.
  - intros i ([j x] & -> & Hin)%list_elem_of_fmap. apply elem_of_select in Hin as [Hj Hq].
    destruct (Hm j x Hj Hq) as (y & Hy & Hp). apply list_elem_of_fmap. exists (j, y).
    split; [done|]. by apply elem_of_select.
Qed.

Lemma unread_count_ext db db' sub :
  (∀ i r, subscriber_notification db !! i = Some r → sn_subscriber r = sub →
     sn_is_read r = false → ∃ r', subscriber_notification db' !! i = Some r' ∧
       sn_subscriber r' = sub ∧ sn_is_read r' = false) →
  unread_count db sub <= unread_count db' sub.
Proof.
  intros Hm. unfold unread_count. apply inj_le, elem_of_select_length.
  intros i x Hi [Hs%bool_decide_eq_true Hr%negb_true_iff]%andb_prop.
  destruct (Hm i x Hi Hs Hr) as (r' & ? & Hs' & Hr'). exists r'. split; [done|].
  by rewrite bool_decide_true, Hr'.
Qed.

(** C32. [mark_notifications_as_read] changes exactly the unread notifications
    of the subscriber, restricted to the ids given: those rows become read and
    nothing else in them changes, every other row and table is untouched, and
    the rows returned are exactly the changed ones.  Marking all leaves the
    subscriber no unread notification and no other subscriber fewer; a repeat
    changes and returns nothing. *)
Theorem mark_notifications_as_read_exact sub ids db :
  ∃ rows db',
    mark_notifications_as_read sub ids db = (Ok rows, db') ∧
    db' = set_subscriber_notification (λ _, subscriber_notification db') db ∧
    (∀ i, subscriber_notification db' !! i =
       (λ r, if marks sub ids i r then mark_read r else r) <$> subscriber_notification db !! i) ∧
    (∀ n i, (n, i) ∈ rows ↔ ∃ r, subscriber_notification db !! i = Some r ∧
       marks sub ids i r = true ∧ n = sn_notification r) ∧
    (ids = None → unread_count db' sub = 0) ∧
    (∀ other, other ≠ sub → unread_count db' other = unread_count db other) ∧
    mark_notifications_as_read sub ids db' = (Ok [], db').
Proof.
  destruct (mark_notifications_as_read sub ids db) as [o db'] eqn:Hrun.
  assert (Hl : ∀ i, subscriber_notification db' !! i =
       (λ r, if marks sub ids i r then mark_read r else r) <$> subscriber_notification db !! i).
  { intros i. rewrite <-mark_lookup, Hrun. done. }
  assert (Hnone : ∀ i r, subscriber_notification db' !! i = Some r → marks sub ids i r = false).
  { intros i r Hi. rewrite Hl in Hi. apply fmap_Some in Hi as (r0 & _ & ->).
    destruct (marks sub ids i r0) eqn:E; [|done]. unfold marks, mark_read. cbn.
    by rewrite andb_false_r. }
  unfold mark_notifications_as_read in Hrun. rewrite bind_gets, bind_modify in Hrun.
  unfold mret, M_ret in Hrun. injection Hrun as <- Hdb.
  eexists _, db'. split; [done|]. split_and!.
  - by rewrite <-Hdb.
  - exact Hl.
  - intros n i. rewrite list_elem_of_fmap. split.
    + intros ([j r] & [= -> ->] & [Hj Hm]%elem_of_select). by exists r.
    + intros (r & Hi & Hm & ->). exists (i, r). split; [done|]. by apply elem_of_select.
  - intros ->. unfold unread_count. rewrite select_none; [done|].
    intros i r Hi. apply Hnone in Hi. unfold marks in Hi. by rewrite andb_true_r in Hi.
  - intros other Hne. apply Z.le_antisymm; apply unread_count_ext.
    + intros i r Hi Hs Hr. rewrite Hl in Hi. apply fmap_Some in Hi as (r0 & Hi & ->).
      exists r0. split; [done|]. destruct (marks sub ids i r0); done.
    + intros i r Hi Hs Hr. exists r. rewrite Hl, Hi. cbn.
      assert (marks sub ids i r = false) as ->.
      { unfold marks. rewrite bool_decide_false by congruence. done. }
      done.
  - unfold mark_notifications_as_read. rewrite bind_gets, bind_modify. unfold mret, M_ret.
    f_equal.
    + rewrite select_none; [done|]. exact Hnone.
    + clear Hdb. destruct db' as [p s sc w nt sn wn dl]. unfold set_subscriber_notification. cbn.
      f_equal. apply map_eq. intros i. rewrite map_lookup_imap. cbn in Hnone.
      destruct (sn !! i) as [r|] eqn:E; [|done]. cbn. f_equal.
      change (bool_decide (sn_subscriber r = sub) && negb (sn_is_read r)
        && match ids with Some l => bool_decide (i ∈ l) | None => true end) with (marks sub ids i r).
      by rewrite (Hnone i r E).
Qed.

(** C34. [mark_all_notifications_as_read_for_project] marks nothing: its [IN]
    clause compares the ids of notifications of subscribers with the ids of
    subscribers, so as long as no row of the two tables shares its random id,
    the statement changes no row, whatever the project. *)
Theorem mark_all_marks_nothing proj db :
  (∀ i, is_Some (subscriber_notification db !! i) → subscriber db !! i = None) →
  mark_all_notifications_as_read_for_project proj db = (Ok [], db).
Proof.
  intros Hd. unfold mark_all_notifications_as_read_for_project.
  rewrite bind_gets, bind_modify. unfold mret, M_ret, id. f_equal.
  destruct db as [p s sc w nt sn wn dl]. unfold set_subscriber_notification. cbn in *.
  f_equal. apply map_eq. intros i. rewrite map_lookup_imap.
  destruct (sn !! i) as [r|] eqn:E; [|done]. cbn. f_equal.
  rewrite decide_False; [done|]. intros ([j t] & -> & [Hj _]%elem_of_select)%list_elem_of_fmap.
  rewrite Hd in Hj; [done|by eexists].
Qed.

(** ** Watchers *)

Lemma watcher_count_insert a p k w m :
  watcher_count a p (<[k := w]> m) <= 1 + watcher_count a p m.
Proof.
  unfold watcher_count. set (P := λ (_ : string) w, _).
  assert (Hle : (length (select P (<[k:=w]> m)) <= S (length (select P m)))%nat); [|lia].
  change (S (length (select P m))) with (length ((k, w) :: select P m)).
  apply submseteq_length, NoDup_submseteq; [apply select_NoDup|].
  intros [j x] [Hj HP]%elem_of_select. apply elem_of_cons.
  apply lookup_insert_Some in Hj as [[<- <-]|[_ Hj]]; [by left|].
  right. by apply elem_of_select.
Qed.

Section watchers.
Context `{!Ext}.

Definition same_watchers (db db' : Db) : Prop := subscription_watcher db' = subscription_watcher db.
#[local] Instance same_watchers_preorder : PreOrder same_watchers.
Proof. split; unfold same_watchers; [done|congruence]. Qed.

Ltac same_watchers := repeat first
  [ done | apply keeps_modify; done | apply keeps_transaction; [apply _|]
  | solve [apply keeps_read_only; [apply _|solve_read_only]]
  | apply keeps_for_each; [apply _|intros ?] | apply keeps_bind; [apply _| |intros ?] | case_match ].

Lemma same_watchers_typed {A} (q : Query A) : keeps same_typed q → keeps same_watchers q.
Proof. intros Hq db. by destruct (Hq db) as (_ & _ & ? & _). Qed.

(** Only two statements write watchers. *)
Lemma watchers_step db db' : db_step db db' →
  same_watchers db db' ∨
  (∃ account proj did_key sym_key expiry,
     db' = (upsert_subscription_watcher account proj did_key sym_key expiry db).2) ∨
  (∃ now, db' = (delete_expired_subscription_watchers now db).2).
Proof.
  assert (Hk : ∀ {A} (q : Query A), keeps same_watchers q → same_watchers db (q db).2) by (intros A q Hq; apply Hq).
  intros []; try (right; left; by eexists _, _, _, _, _); try (right; right; by eexists); left; try done.
  - apply Hk. unfold upsert_project, upsert_project_impl, check_project_indexes. same_watchers.
  - apply Hk. unfold upsert_subscriber. same_watchers.
  - apply Hk. unfold update_subscriber. same_watchers.
  - apply Hk. unfold set_welcome_notification. same_watchers.
  - apply Hk, same_watchers_typed, upsert_notification_same.
  - apply Hk, same_watchers_typed. apply keeps_transaction; [apply _|].
    apply keeps_for_each; [apply _|]. intros. apply insert_subscriber_notification_same.
  - apply Hk, same_watchers_typed, pick_same.
  - apply Hk, same_watchers_typed, update_status_same.
  - apply Hk, same_watchers_typed, dead_letters_same.
Qed.

Lemma watcher_count_filter a p (P : string * WatcherRow → Prop) `{!∀ x, Decision (P x)} m :
  watcher_count a p (filter P m) <= watcher_count a p m.
Proof.
  unfold watcher_count. set (Q := λ (_ : string) w, _). apply Nat2Z.inj_le, submseteq_length.
  apply NoDup_submseteq; [apply select_NoDup|]. intros [k w] [[Hk _]%map_lookup_filter_Some HQ]%elem_of_select.
  by apply elem_of_select.
Qed.

(** One call: it writes its watcher below the limit, and changes nothing otherwise. *)
Lemma upsert_watcher_run account proj did_key sym_key expiry db :
  let '(r, db') := upsert_subscription_watcher account proj did_key sym_key expiry db in
  (SUBSCRIPTION_WATCHER_LIMIT <= watcher_count (account_str account) proj (subscription_watcher db)
     ↔ r = Err LimitReached) ∧
  (proj = None → r ≠ Err LimitReached) ∧
  (r = Ok () → db' = set_subscription_watcher
     <[did_key := mkWatcherRow (account_str account) proj sym_key expiry]> db) ∧
  (r ≠ Ok () → db' = db).
Proof.
  destruct (upsert_subscription_watcher account proj did_key sym_key expiry db) as [r db'] eqn:Hrun.
  unfold upsert_subscription_watcher in Hrun. rewrite bind_gets in Hrun. cbv zeta in Hrun.
  assert (Hnull : proj = None →
    watcher_count (account_str account) proj (subscription_watcher db) = 0).
  { intros ->. unfold watcher_count. rewrite select_none; [done|]. intros k w _.
    rewrite andb_false_iff. right. unfold sql_eq. by destruct (w_project w). }
  unfold id in Hrun. destruct (Z.ltb_spec (watcher_count (account_str account) proj (subscription_watcher db))
    SUBSCRIPTION_WATCHER_LIMIT) as [Hlt|Hge].
  - assert (Hok : (r = Ok () ∧ db' = set_subscription_watcher
        <[did_key := mkWatcherRow (account_str account) proj sym_key expiry]> db) ∨
      (∃ e, r = Err (WatcherSqlx e) ∧ db' = db)).
    { unfold m_map_err in Hrun.
      assert (Hro1 : read_only (check_lengths [account_str account; did_key; sym_key]))
        by solve_read_only.
      assert (Hro2 : read_only (match proj with Some p => check_fk p (project db) | None => mret () end))
        by (destruct proj; solve_read_only).
      unfold mbind, M_bind in Hrun. specialize (Hro1 db). specialize (Hro2 db).
      destruct (check_lengths _ db) as [[[]|e|] d1] eqn:E1; simpl in Hro1; subst d1.
      - destruct ((match proj with Some p => check_fk p (project db) | None => mret () end) db)
          as [[[]|e|] d2] eqn:E2; simpl in Hro2; subst d2; cbn in Hrun.
        + left. by injection Hrun as <- <-.
        + right. injection Hrun as <- <-. by exists e.
        + destruct proj as [p|]; [|done]. unfold check_fk in E2. by destruct (project db !! p).
      - right. cbn in Hrun. injection Hrun as <- <-. by exists e.
      - unfold check_lengths, guard_err in E1. by destruct (negb _). }
    split_and!.
    + split; [lia|]. intros ->. destruct Hok as [[? _]|(e & ? & _)]; done.
    + intros _ ->. destruct Hok as [[? _]|(e & ? & _)]; done.
    + intros ->. by destruct Hok as [[_ ->]|(e & ? & _)].
    + intros Hne. by destruct Hok as [[? _]|(e & _ & ->)].
  - unfold throw in Hrun. injection Hrun as <- <-. split_and!; try done.
    intros Hp. rewrite (Hnull Hp) in Hge. unfold SUBSCRIPTION_WATCHER_LIMIT in Hge. lia.
Qed.

(** A watcher only counts for its own account and project. *)
Lemma watcher_count_other a p k w m :
  (get_address_lower (w_account w), w_project w) ≠ (get_address_lower a, Some p) →
  watcher_count a (Some p) (<[k := w]> m) <= watcher_count a (Some p) m.
Proof.
  intros Hne. unfold watcher_count. set (Q := λ (_ : string) w, _).
  apply Nat2Z.inj_le, submseteq_length, NoDup_submseteq; [apply select_NoDup|].
  intros [j x] [Hj HQ]%elem_of_select. apply elem_of_select. split; [|done].
  apply lookup_insert_Some in Hj as [[<- <-]|[_ Hj]]; [|done]. exfalso.
  unfold Q, sql_eq in HQ. apply andb_true_iff in HQ as [Ha Hp]. apply Hne.
  destruct (w_project w); [|done]. apply bool_decide_eq_true in Ha, Hp. congruence.
Qed.

Lemma watcher_limit_step db db' : db_step db db' →
  (∀ a p, watcher_count a (Some p) (subscription_watcher db) <= SUBSCRIPTION_WATCHER_LIMIT) →
  ∀ a p, watcher_count a (Some p) (subscription_watcher db') <= SUBSCRIPTION_WATCHER_LIMIT.
Proof.
  intros Hs Hinv a p.
  destruct (watchers_step db db' Hs) as [->|[(account & proj & dk & sk & e & ->)|(now & ->)]]; [done| |].
  - pose proof (upsert_watcher_run account proj dk sk e db) as Hr.
    destruct (upsert_subscription_watcher account proj dk sk e db) as [r db1].
    destruct Hr as (Hlim & _ & Hok & Herr). cbn [snd].
    assert (Hcase : r = Ok () ∨ r ≠ Ok ()) by (destruct r as [[]|?|]; [by left|by right|by right]).
    destruct Hcase as [->|Hne]; [|by rewrite Herr]. rewrite Hok by done. cbn [subscription_watcher set_subscription_watcher].
    set (w := mkWatcherRow (account_str account) proj sk e).
    destruct (decide ((get_address_lower (w_account w), w_project w) = (get_address_lower a, Some p)))
      as [Heq|Hne].
    + injection Heq as Ha ->. pose proof (watcher_count_insert a (Some p) dk w (subscription_watcher db)).
      assert (¬ SUBSCRIPTION_WATCHER_LIMIT <=
        watcher_count (account_str account) (Some p) (subscription_watcher db))
        as Hlt by (rewrite Hlim; discriminate).
      unfold watcher_count in Hlt. cbn in Ha. rewrite Ha in Hlt. unfold watcher_count in *. lia.
    + etrans; [by apply watcher_count_other|done].
  - cbn. etrans; [apply watcher_count_filter|done].
Qed.

(** C33. The watcher limit.  In every database the server's statements reach one
    after the other, no account has more than 25 watchers of a project, counting
    its address in any case (two upserts in concurrent transactions may each
    miss the other's row, which the code accepts).  At the limit a call is
    refused and changes nothing, even when it would only refresh the watcher of
    a key that is already there.  For watchers of all apps there is no limit:
    none of them is ever refused, as [project=$2] is unknown for a NULL project
    and none is counted. *)
Theorem watcher_limit db :
  rtc db_step empty_db db →
  (∀ a p, watcher_count a (Some p) (subscription_watcher db) <= SUBSCRIPTION_WATCHER_LIMIT) ∧
  ∀ account proj did_key sym_key expiry,
  let '(r, db') := upsert_subscription_watcher account proj did_key sym_key expiry db in
  (SUBSCRIPTION_WATCHER_LIMIT <= watcher_count (account_str account) proj (subscription_watcher db)
     ↔ r = Err LimitReached) ∧
  (proj = None → r ≠ Err LimitReached) ∧
  (r = Ok () → db' = set_subscription_watcher
     <[did_key := mkWatcherRow (account_str account) proj sym_key expiry]> db) ∧
  (r ≠ Ok () → db' = db).
Proof.
  intros Hdb. split; [|intros; apply upsert_watcher_run].
  assert (H0 : ∀ a p, watcher_count a (Some p) (subscription_watcher empty_db) <= SUBSCRIPTION_WATCHER_LIMIT).
  { intros a p. unfold watcher_count. rewrite select_none; [done|]. intros k w Hk.
    cbn in Hk. by rewrite lookup_empty in Hk. }
  revert H0. induction Hdb as [|d1 d2 d3 Hs _ IH]; [done|].
  intros H1. by apply IH, (watcher_limit_step d1).
Qed.

End watchers.

(** ** Witnesses: three notifications of one subscriber, one of them read *)

Import Concrete.Instances.

Definition content_w : Types.Notification := mkNotification 7%N "title" "body" None None.
Definition add_w (now : Z) (nid sn : Uuid) (name : string) (db : Db) : Db :=
  (upsert_subscriber_notifications now nid [(sn, 2%N)]
     (upsert_notification now nid name 1%N content_w db).2).2.
Definition pages_db_w : Db :=
  (mark_notifications_as_read 2%N (Some [12%N])
     (add_w 2000000 21%N 11%N "b" (add_w 3000000 22%N 12%N "c" (add_w 2000000 20%N 10%N "a"
        db4_w)))).2.

Lemma pages_db_w_wf : wf_db pages_db_w.
Proof.
  assert (Hadd : ∀ now nid sn name db, wf_db db → wf_db (add_w now nid sn name db)).
  { intros. by apply upsert_subscriber_notifications_wf, upsert_notification_wf. }
  apply mark_notifications_as_read_wf, Hadd, Hadd, Hadd, db4_w_wf.
Qed.

Example all_rows_w :
  ((fst <$> all_rows 2%N false pages_db_w), (fst <$> all_rows 2%N true pages_db_w))
  = ([12%N; 10%N; 11%N; 4%N], [10%N; 11%N; 4%N; 12%N]).
Proof. by vm_compute. Qed.

Lemma get_notifications_page_witness :
  ∃ page, get_notifications_for_subscriber 0 2%N (mkGetNotificationsParams 2 (Some 12%N) false)
            pages_db_w = (Ok (mkGetNotificationsResult page true true), pages_db_w) ∧
    nv_id <$> page = [10%N; 11%N].
Proof.
  destruct (get_notifications_page 0 2%N 2 (Some 12%N) false pages_db_w pages_db_w_wf)
    as (page & Hrun & _ & Hids).
  - lia.
  - intros a [= <-]. eexists. by split; [vm_compute|].
  - exists page. split; [|by rewrite Hids].
    rewrite Hrun. by vm_compute.
Defined.

Lemma walk_pages_complete_witness :
  ∃ l, walk_pages 10 0 2%N 3 None true pages_db_w = Some l ∧
    nv_id <$> l = [10%N; 11%N; 4%N; 12%N].
Proof.
  destruct (walk_pages_complete 0 2%N 3 true pages_db_w 10 pages_db_w_wf) as (l & Hl & Hids & _).
  - lia.
  - vm_compute. lia.
  - exists l. split; [exact Hl|]. rewrite Hids. by vm_compute.
Defined.

Lemma mark_all_marks_nothing_witness :
  mark_all_notifications_as_read_for_project 1%N pages_db_w = (Ok [], pages_db_w).
Proof.
  apply (mark_all_marks_nothing 1%N pages_db_w). intros i [r Hr].
  assert (Hi : i ∈ dom (subscriber_notification pages_db_w)) by (apply elem_of_dom; by eexists).
  assert (Hdom : dom (subscriber_notification pages_db_w) = {[4%N; 10%N; 11%N; 12%N]})
    by (by vm_compute).
  rewrite Hdom in Hi. assert (subscriber pages_db_w !! i = None); [|done].
  repeat (apply elem_of_union in Hi as [Hi|Hi]); apply elem_of_singleton in Hi as ->; by vm_compute.
Defined.

Example unread_w : unread_count pages_db_w 2%N = 3.
Proof. by vm_compute. Qed.

(** Twenty-six watchers of all apps for one account. *)
Definition many_watchers_w : Db :=
  foldl (λ db k, (upsert_subscription_watcher account_w None (uuid_to_string k) "s" 9 db).2)
    db4_w (N.of_nat <$> seq 0 26).

Lemma many_watchers_reachable : rtc db_step empty_db many_watchers_w.
Proof.
  unfold many_watchers_w. transitivity db4_w; [exact db4_w_reachable|].
  generalize db4_w (N.of_nat <$> seq 0 26). intros db l. revert db.
  induction l as [|k l IH]; intros db; cbn [foldl]; [apply rtc_refl|].
  eapply rtc_l; [|apply IH]. apply step_upsert_watcher, account_w_valid.
Qed.

Lemma watcher_limit_witness :
  (upsert_subscription_watcher account_w None "another" "s" 9 many_watchers_w).1 = Ok () ∧
  size (subscription_watcher many_watchers_w) = 26%nat.
Proof.
  pose proof (proj2 (watcher_limit many_watchers_w many_watchers_reachable)
    account_w None "another" "s" 9) as H.
  destruct (upsert_subscription_watcher account_w None "another" "s" 9 many_watchers_w)
    as [r db'] eqn:E. destruct H as (_ & Hne & _).
  split; [|by vm_compute]. cbn. specialize (Hne eq_refl).
  apply (f_equal fst) in E. vm_compute in E. by subst r.
Defined.
