(* ===== verification/Jwt.v ===== *)
(** * JWTs and their claims (auth.rs)

    The claims the server exchanges, the signing of its own JWTs and the
    verification of the ones it receives.  Timestamps of the claims are [u64]
    seconds; [now] is in microseconds, as everywhere.  The JSON text of the
    claims is an interface ([Json]). *)

From Stdlib Require Import Ascii.
From S2P Require Import Prelude RustStr Externals Concrete AccountId Errors Types Database.
Open Scope Z_scope.

(** ** Machine integers

    [overflow_checks] is the build profile: with them an overflow panics,
    without them (release) it wraps. *)

Class BuildProfile := { overflow_checks : bool }.

Definition u64_max : Z := 2 ^ 64 - 1.
Definition is_u64 (x : Z) : bool := (0 <=? x) && (x <=? u64_max).

Definition u64_op `{BuildProfile} {E} (x : Z) : outcome E Z :=
  if is_u64 x then Ok x
  else if overflow_checks then Panic else Ok (x mod 2 ^ 64).

(** [Utc::now().timestamp()] and [timestamp_millis()]. *)
Definition timestamp (now : Z) : Z := now / usec.
Definition timestamp_millis (now : Z) : Z := now / 1000.

(** [CDuration::from_std] refuses more than [i64::MAX] milliseconds; [ttl] is in
    seconds. *)
Definition add_ttl {E} (now ttl : Z) : outcome E Z :=
  if ttl * 1000 <=? 2 ^ 63 - 1 then Ok (now + ttl * usec) else Panic.

(** ** did:web *)

Definition DID_METHOD_WEB : string := "web".

Record DidWeb := mkDidWeb { domain : string }.

#[global] Instance DidWeb_eq_dec : EqDecision DidWeb.
Proof. solve_decision. Defined.

Definition from_domain (d : string) : DidWeb := mkDidWeb d.
Definition did_web_from `{DidOps} (did_web : string) : option DidWeb :=
  d ← extract_did_data did_web DID_METHOD_WEB; Some (from_domain d).
Definition did_web_to_string `{DidOps} (d : DidWeb) : string :=
  combine_did_data DID_METHOD_WEB (domain d).

(** ** Claims *)

Record SharedClaims := mkSharedClaims {
  iat : Z;
  exp : Z;
  iss : string;
  aud : string;
  act : string;
  mjv : string;
}.

Definition default_mjv : string := "0".

Record NotifyServerSubscription := mkNotifyServerSubscription {
  nss_app_domain : string;
  nss_app_authentication_key : string;
  nss_sym_key : string;
  nss_account : AccountId;
  nss_scope : gset Uuid;
  nss_expiry : Z;
  nss_unread_notification_count : Z;
}.

Record WatchSubscriptionsRequestAuth := mkWatchSubscriptionsRequestAuth {
  ws_shared_claims : SharedClaims;
  ws_ksu : string;
  ws_sub : string;
  ws_app : option DidWeb;
}.

Record WatchSubscriptionsResponseAuth := mkWatchSubscriptionsResponseAuth {
  wsr_shared_claims : SharedClaims;
  wsr_sub : string;
  wsr_sbs : list NotifyServerSubscription;
}.

Record WatchSubscriptionsChangedRequestAuth := mkWatchSubscriptionsChangedRequestAuth {
  wsc_shared_claims : SharedClaims;
  wsc_sub : string;
  wsc_sbs : list NotifyServerSubscription;
}.

Record WatchSubscriptionsChangedResponseAuth := mkWatchSubscriptionsChangedResponseAuth {
  wscr_shared_claims : SharedClaims;
  wscr_ksu : string;
  wscr_sub : string;
}.

Record MessageResponseAuth := mkMessageResponseAuth {
  msr_shared_claims : SharedClaims;
  msr_ksu : string;
  msr_sub : string;
  msr_app : DidWeb;
}.

Record SubscriptionRequestAuth := mkSubscriptionRequestAuth {
  sub_shared_claims : SharedClaims;
  sub_ksu : string;
  sub_sub : string;
  sub_app : DidWeb;
  sub_scp : string;
}.

Record SubscriptionResponseAuth := mkSubscriptionResponseAuth {
  subr_shared_claims : SharedClaims;
  subr_sub : string;
  subr_app : DidWeb;
  subr_sbs : list NotifyServerSubscription;
}.

Record SubscriptionUpdateRequestAuth := mkSubscriptionUpdateRequestAuth {
  upd_shared_claims : SharedClaims;
  upd_ksu : string;
  upd_sub : string;
  upd_app : DidWeb;
  upd_scp : string;
}.

Record SubscriptionUpdateResponseAuth := mkSubscriptionUpdateResponseAuth {
  updr_shared_claims : SharedClaims;
  updr_sub : string;
  updr_app : DidWeb;
  updr_sbs : list NotifyServerSubscription;
}.

Record SubscriptionDeleteRequestAuth := mkSubscriptionDeleteRequestAuth {
  del_shared_claims : SharedClaims;
  del_ksu : string;
  del_sub : string;
  del_app : DidWeb;
}.

Record SubscriptionDeleteResponseAuth := mkSubscriptionDeleteResponseAuth {
  delr_shared_claims : SharedClaims;
  delr_sub : string;
  delr_app : DidWeb;
  delr_sbs : list NotifyServerSubscription;
}.

Record SubscriptionGetNotificationsRequestAuth := mkSubscriptionGetNotificationsRequestAuth {
  gnr_shared_claims : SharedClaims;
  gnr_ksu : string;
  gnr_sub : string;
  gnr_app : DidWeb;
  gnr_params : GetNotificationsParams;
}.

Record SubscriptionGetNotificationsResponseAuth := mkSubscriptionGetNotificationsResponseAuth {
  gnrr_shared_claims : SharedClaims;
  gnrr_sub : string;
  gnrr_app : DidWeb;
  gnrr_result : GetNotificationsResult;
}.

Record SubscriptionMarkNotificationsAsReadRequestAuth :=
    mkSubscriptionMarkNotificationsAsReadRequestAuth {
  mnr_shared_claims : SharedClaims;
  mnr_ksu : string;
  mnr_sub : string;
  mnr_app : DidWeb;
  mnr_params : MarkNotificationsAsReadParams;
}.

Record SubscriptionMarkNotificationsAsReadResponseAuth :=
    mkSubscriptionMarkNotificationsAsReadResponseAuth {
  mnrr_shared_claims : SharedClaims;
  mnrr_sub : string;
  mnrr_app : DidWeb;
}.

Section validators.
Context `{ValidatorOps}.

(** [SubscriptionGetNotificationsRequestAuth::validate]. *)
Definition get_notifications_request_validate (a : SubscriptionGetNotificationsRequestAuth)
    : outcome NotifyServerError () :=
  run_validation (get_notifications_params_checks (gnr_params a)).

(** [SubscriptionMarkNotificationsAsReadRequestAuth::validate]. *)
Definition mark_notifications_as_read_request_validate
    (a : SubscriptionMarkNotificationsAsReadRequestAuth) : outcome NotifyServerError () :=
  run_validation (mark_notifications_as_read_params_checks (mnr_params a)).
End validators.

Class GetSharedClaims (T : Type) := get_shared_claims : T → SharedClaims.

#[global] Instance ws_claims : GetSharedClaims WatchSubscriptionsRequestAuth := ws_shared_claims.
#[global] Instance wsr_claims : GetSharedClaims WatchSubscriptionsResponseAuth := wsr_shared_claims.
#[global] Instance wsc_claims : GetSharedClaims WatchSubscriptionsChangedRequestAuth :=
  wsc_shared_claims.
#[global] Instance wscr_claims : GetSharedClaims WatchSubscriptionsChangedResponseAuth :=
  wscr_shared_claims.
#[global] Instance msr_claims : GetSharedClaims MessageResponseAuth := msr_shared_claims.
#[global] Instance sub_claims : GetSharedClaims SubscriptionRequestAuth := sub_shared_claims.
#[global] Instance subr_claims : GetSharedClaims SubscriptionResponseAuth := subr_shared_claims.
#[global] Instance upd_claims : GetSharedClaims SubscriptionUpdateRequestAuth := upd_shared_claims.
#[global] Instance updr_claims : GetSharedClaims SubscriptionUpdateResponseAuth :=
  updr_shared_claims.
#[global] Instance del_claims : GetSharedClaims SubscriptionDeleteRequestAuth := del_shared_claims.
#[global] Instance delr_claims : GetSharedClaims SubscriptionDeleteResponseAuth :=
  delr_shared_claims.
#[global] Instance gnr_claims : GetSharedClaims SubscriptionGetNotificationsRequestAuth :=
  gnr_shared_claims.
#[global] Instance gnrr_claims : GetSharedClaims SubscriptionGetNotificationsResponseAuth :=
  gnrr_shared_claims.
#[global] Instance mnr_claims : GetSharedClaims SubscriptionMarkNotificationsAsReadRequestAuth :=
  mnr_shared_claims.
#[global] Instance mnrr_claims : GetSharedClaims SubscriptionMarkNotificationsAsReadResponseAuth :=
  mnrr_shared_claims.

(** ** JWTs *)

(** [relay_rpc::jwt]: the header and the two constants. *)
Record JwtHeader := mkJwtHeader { typ : string; alg : string }.

Class JwtConsts := {
  JWT_HEADER_TYP : string;
  JWT_HEADER_ALG : string;
}.

Inductive JwtError :=
| MissingMessage | MissingHeader | MissingPayload | MissingSignature | TooManyParts
| HeaderNotBase64 | PayloadNotBase64 | HeaderSerde | PayloadSerde | SignatureSerde
| UnsupportedAlgorithm | Expired | NotYetValid | IssNotDidKey | SignatureVerification
| InvalidSignature.

Inductive SignJwtError := JsonSerialization.

Inductive AuthError :=
| Auth_Format | Auth_InvalidHeader | Auth_IssuerPrefix | Auth_IssuerFormat | Auth_IssuerMethod
| Auth_Signature | Auth_InvalidSignature | Auth_Algorithm | JwtIssNotDidKey | JwtExpired
| JwtNotYetValid | InvalidAct.

#[global] Instance JwtError_eq_dec : EqDecision JwtError.
Proof. solve_decision. Defined.
#[global] Instance SignJwtError_eq_dec : EqDecision SignJwtError.
Proof. solve_decision. Defined.
#[global] Instance AuthError_eq_dec : EqDecision AuthError.
Proof. solve_decision. Defined.

Section jwt.
Context `{!Ext, !BuildProfile, !JwtConsts, !Json JwtHeader}.

(** [rsplitn(2, '.')] yields one or two items and [splitn(2, '.')] likewise, so
    the third [next] is always [None]. *)
Definition from_jwt {T} `{!Json T, !GetSharedClaims T} (now : Z) (jwt : string)
    : outcome JwtError T :=
  let '(signature_raw, message_raw) := rsplitn2 "." jwt in
  message_raw ← ok_or message_raw MissingMessage;
  let '(header_raw, payload_raw) := splitn2 "." message_raw in
  payload_raw ← ok_or payload_raw MissingPayload;
  header ← ok_or (b64_std_no_pad_decode header_raw) HeaderNotBase64;
  payload ← ok_or (b64_std_no_pad_decode payload_raw) PayloadNotBase64;
  header ← ok_or (from_json JwtHeader header) HeaderSerde;
  claims ← ok_or (from_json T payload) PayloadSerde;
  (if bool_decide (alg header ≠ JWT_HEADER_ALG) then Err UnsupportedAlgorithm else Ok ()) ;;
  exp_300 ← u64_op (exp (get_shared_claims claims) + 300);
  (if exp_300 <=? Z.abs (timestamp now) then Err Expired else Ok ()) ;;
  iat_300 ← u64_op (iat (get_shared_claims claims) - 300);
  (if Z.abs (timestamp_millis now) <? iat_300 then Err NotYetValid else Ok ()) ;;
  pub_key ← ok_or (try_from_did_key (iss (get_shared_claims claims))) IssNotDidKey;
  sig_result ← ok_or (jwt_verify signature_raw (as_bytes message_raw) pub_key)
                     SignatureVerification;
  if sig_result : bool then Ok claims else Err InvalidSignature.

Definition sign_jwt {T} `{!Json T} (message : T) (private_key : bytes)
    : outcome SignJwtError string :=
  serialized ← ok_or (to_json (mkJwtHeader JWT_HEADER_TYP JWT_HEADER_ALG)) JsonSerialization;
  let header := b64_url_no_pad_encode (as_bytes serialized) in
  message ← ok_or (to_json message) JsonSerialization;
  let message := header +:+ "." +:+ b64_url_no_pad_encode (as_bytes message) in
  let signature := b64_url_no_pad_encode (ed_sign private_key (as_bytes message)) in
  Ok (message +:+ "." +:+ signature).
End jwt.

(** ** Lemmas *)

Lemma u64_op_in `{BuildProfile} {E} x : 0 <= x <= u64_max → u64_op (E:=E) x = Ok x.
Proof. intros Hx. unfold u64_op, is_u64. by rewrite !(proj2 (Z.leb_le _ _)) by lia. Qed.

Lemma no_panic_ok_or {E A} (o : option A) (e : E) : no_panic (ok_or o e).
Proof. by destruct o. Qed.

Lemma u64_op_no_panic `{BuildProfile} {E} x :
  overflow_checks = false → no_panic (u64_op (E:=E) x).
Proof. unfold u64_op. intros ->. by destruct (is_u64 x). Qed.

Lemma is_u64_spec x : is_u64 x = true ↔ 0 <= x <= u64_max.
Proof. unfold is_u64. rewrite andb_true_iff, !Z.leb_le. done. Qed.

(** The time window, as the machine computes it on [u64] claims, for a clock
    that is past 1970 and fits the [i64] milliseconds of the source. *)
Lemma expired_check `{BuildProfile} now e :
  300 * usec <= now → 0 <= e <= u64_max →
  (x ← u64_op (E:=JwtError) (e + 300);
   if x <=? Z.abs (timestamp now) then Err Expired else Ok ()) = Ok () ↔
  timestamp now < e + 300 ∧ e + 300 <= u64_max.
Proof.
  intros Hnow He. assert (300 <= timestamp now) by (apply Z.div_le_lower_bound; unfold usec in *; lia).
  unfold u64_op, is_u64. destruct (Z.leb_spec 0 (e + 300)); [|lia].
  destruct (Z.leb_spec (e + 300) u64_max); cbn.
  - case_match eqn:E; [apply Z.leb_le in E|apply Z.leb_gt in E];
      (split; [try done; lia|intros; try done; lia]).
  - split; [|lia]. destruct overflow_checks; [done|]. cbn.
    replace ((e + 300) mod 2 ^ 64) with (e + 300 - 2 ^ 64).
    + unfold u64_max in *. rewrite (proj2 (Z.leb_le _ _)) by lia. done.
    + apply Z.mod_unique with 1; unfold u64_max in *; lia.
Qed.

Lemma not_yet_valid_check `{BuildProfile} now i :
  0 <= now < 2 ^ 63 * 1000 → 0 <= i <= u64_max →
  (x ← u64_op (E:=JwtError) (i - 300);
   if Z.abs (timestamp_millis now) <? x then Err NotYetValid else Ok ()) = Ok () ↔
  300 <= i ∧ i - 300 <= timestamp_millis now.
Proof.
  intros Hnow Hi.
  assert (0 <= timestamp_millis now < 2 ^ 63).
  { unfold timestamp_millis. split; [apply Z.div_pos; lia|apply Z.div_lt_upper_bound; lia]. }
  unfold u64_op, is_u64. destruct (Z.leb_spec (i - 300) u64_max); [|lia].
  destruct (Z.leb_spec 0 (i - 300)); cbn.
  - case_match eqn:E; [apply Z.ltb_lt in E|apply Z.ltb_ge in E];
      (split; [try done; lia|intros; try done; lia]).
  - split; [|lia]. destruct overflow_checks; [done|]. cbn.
    replace ((i - 300) mod 2 ^ 64) with (i - 300 + 2 ^ 64).
    + rewrite (proj2 (Z.ltb_lt _ _)) by (unfold u64_max in *; lia). done.
    + apply Z.mod_unique with (-1); unfold u64_max in *; lia.
Qed.

(** The claims accepted at [now], when nothing overflows. *)
Definition time_ok (now : Z) (c : SharedClaims) : Prop :=
  timestamp now < exp c + 300 ∧ exp c + 300 <= u64_max ∧
  300 <= iat c ∧ iat c - 300 <= timestamp_millis now.

Definition clock_ok (now : Z) : Prop := 300 * usec <= now < 2 ^ 63 * 1000.

Lemma outcome_bind_assoc {E A B C} (m : outcome E A) (f : A → outcome E B) (g : B → outcome E C) :
  ((m ≫= f) ≫= g) = (m ≫= λ a, f a ≫= g).
Proof. by destruct m. Qed.

Lemma outcome_then_Ok {E B} (m : outcome E ()) (k : outcome E B) b :
  (m ;; k) = Ok b ↔ m = Ok () ∧ k = Ok b.
Proof. destruct m as [[]| |]; simpl; naive_solver. Qed.

Section jwt_theorems.
Context `{!Ext, !BuildProfile, !JwtConsts, !Json JwtHeader}.
Context {T : Type} `{!Json T, !GetSharedClaims T}.

(** What remains of [from_jwt] once the text is split. *)
Definition check_jwt (now : Z) (h p s : string) : outcome JwtError T :=
  header ← ok_or (b64_std_no_pad_decode h) HeaderNotBase64;
  payload ← ok_or (b64_std_no_pad_decode p) PayloadNotBase64;
  header ← ok_or (from_json JwtHeader header) HeaderSerde;
  claims ← ok_or (from_json T payload) PayloadSerde;
  (if bool_decide (alg header ≠ JWT_HEADER_ALG) then Err UnsupportedAlgorithm else Ok ()) ;;
  exp_300 ← u64_op (exp (get_shared_claims claims) + 300);
  (if exp_300 <=? Z.abs (timestamp now) then Err Expired else Ok ()) ;;
  iat_300 ← u64_op (iat (get_shared_claims claims) - 300);
  (if Z.abs (timestamp_millis now) <? iat_300 then Err NotYetValid else Ok ()) ;;
  pub_key ← ok_or (try_from_did_key (iss (get_shared_claims claims))) IssNotDidKey;
  sig_result ← ok_or (jwt_verify s (as_bytes (h +:+ "." +:+ p)) pub_key) SignatureVerification;
  if sig_result : bool then Ok claims else Err InvalidSignature.

Lemma from_jwt_parts now h p s :
  no_char "." h = true → no_char "." s = true →
  from_jwt now (h +:+ "." +:+ p +:+ "." +:+ s) = check_jwt now h p s.
Proof.
  intros Hh Hs. unfold from_jwt.
  replace (h +:+ "." +:+ p +:+ "." +:+ s) with ((h +:+ String "." p) +:+ String "." s)
    by (by rewrite str_app_assoc).
  rewrite rsplitn2_app by done. cbn [ok_or mbind outcome_bind].
  rewrite splitn2_app by done. done.
Qed.

Lemma from_jwt_parts_inv now jwt c :
  from_jwt now jwt = Ok c →
  ∃ h p s, jwt = h +:+ "." +:+ p +:+ "." +:+ s ∧
    no_char "." h = true ∧ no_char "." s = true ∧ check_jwt now h p s = Ok c.
Proof.
  unfold from_jwt. destruct (rsplitn2 "." jwt) as [s m] eqn:Hr.
  destruct m as [m|]; cbn [ok_or mbind outcome_bind]; [|done].
  destruct (splitn2 "." m) as [h p] eqn:Hp.
  destruct p as [p|]; cbn [ok_or mbind outcome_bind]; [|done].
  apply rsplitn2_Some in Hr as [-> Hs]. apply splitn2_Some in Hp as [-> Hh].
  intros Hc. exists h, p, s. split_and!; [by rewrite str_app_assoc|done..].
Qed.

Lemma check_jwt_Ok now h p s c :
  clock_ok now → is_u64 (exp (get_shared_claims c)) = true →
  is_u64 (iat (get_shared_claims c)) = true →
  check_jwt now h p s = Ok c ↔
  ∃ hb pb hdr key,
    b64_std_no_pad_decode h = Some hb ∧ b64_std_no_pad_decode p = Some pb ∧
    from_json JwtHeader hb = Some hdr ∧ from_json T pb = Some c ∧
    alg hdr = JWT_HEADER_ALG ∧ time_ok now (get_shared_claims c) ∧
    try_from_did_key (iss (get_shared_claims c)) = Some key ∧
    jwt_verify s (as_bytes (h +:+ "." +:+ p)) key = Some true.
Proof.
  intros Hnow He%is_u64_spec Hi%is_u64_spec.
  unfold check_jwt. split.
  - intros (hb & Hhb%ok_or_Ok & Hrest)%outcome_bind_Ok.
    apply outcome_bind_Ok in Hrest as (pb & Hpb%ok_or_Ok & Hrest).
    apply outcome_bind_Ok in Hrest as (hdr & Hhdr%ok_or_Ok & Hrest).
    apply outcome_bind_Ok in Hrest as (c' & Hc%ok_or_Ok & Hrest).
    apply outcome_then_Ok in Hrest as [Halg Hrest].
    rewrite <-outcome_bind_assoc, outcome_then_Ok in Hrest. destruct Hrest as [Hexp Hrest].
    rewrite <-outcome_bind_assoc, outcome_then_Ok in Hrest. destruct Hrest as [Hiat Hrest].
    apply outcome_bind_Ok in Hrest as (key & Hkey%ok_or_Ok & Hrest).
    apply outcome_bind_Ok in Hrest as (b & Hb%ok_or_Ok & Hrest).
    destruct b; [|done]. injection Hrest as ->. exists hb, pb, hdr, key.
    rewrite expired_check in Hexp by (unfold clock_ok in *; lia).
    rewrite not_yet_valid_check in Hiat by (unfold clock_ok, usec in *; lia).
    case_bool_decide; [done|]. unfold time_ok. split_and!; try done; try lia.
  - intros (hb & pb & hdr & key & -> & -> & Hhdr & Hc & Halg & Ht & Hkey & Hv).
    destruct Ht as (Ht1 & Ht2 & Ht3 & Ht4). cbn [ok_or mbind outcome_bind].
    rewrite Hhdr. cbn [ok_or mbind outcome_bind]. rewrite Hc. cbn [ok_or mbind outcome_bind].
    apply outcome_then_Ok. split; [by rewrite bool_decide_false by naive_solver|].
    rewrite <-outcome_bind_assoc, outcome_then_Ok. split.
    { apply expired_check; unfold clock_ok in *; lia. }
    rewrite <-outcome_bind_assoc, outcome_then_Ok. split.
    { apply not_yet_valid_check; unfold clock_ok, usec in *; lia. }
    by rewrite Hkey; cbn; rewrite Hv.
Qed.

Lemma from_jwt_no_panic now jwt : overflow_checks = false → no_panic (from_jwt (T:=T) now jwt).
Proof.
  intros Hoc. unfold from_jwt. destruct (rsplitn2 "." jwt) as [s [m|]]; [|done].
  cbn [ok_or mbind outcome_bind]. destruct (splitn2 "." m) as [h [p|]]; [|done].
  cbn [ok_or mbind outcome_bind].
  repeat (apply no_panic_bind;
    [first [apply no_panic_ok_or | apply (u64_op_no_panic _ Hoc) | by case_match]|intros ? _]).
  by case_match.
Qed.

(** C23. [from_jwt] accepts a text exactly when it is three dot-separated parts,
    its header and payload decode from base64 and JSON, the header names the
    expected algorithm, the time window holds and the signature over the first
    two parts verifies under the did:key in [iss]; so nothing that is not
    signed by its issuer is accepted.  The lower end of the window compares
    milliseconds with seconds: [iat] may lie in the future up to the current
    time in milliseconds, and a token with [iat] below 300 is never accepted.
    Without overflow checks it never panics. *)
Theorem from_jwt_accepts now jwt c :
  clock_ok now →
  is_u64 (exp (get_shared_claims c)) = true → is_u64 (iat (get_shared_claims c)) = true →
  (from_jwt now jwt = Ok c ↔
   ∃ h p s hb pb hdr key,
     jwt = h +:+ "." +:+ p +:+ "." +:+ s ∧ no_char "." h = true ∧ no_char "." s = true ∧
     b64_std_no_pad_decode h = Some hb ∧ b64_std_no_pad_decode p = Some pb ∧
     from_json JwtHeader hb = Some hdr ∧ from_json T pb = Some c ∧
     alg hdr = JWT_HEADER_ALG ∧
     (timestamp now < exp (get_shared_claims c) + 300 ∧
      exp (get_shared_claims c) + 300 <= u64_max ∧
      300 <= iat (get_shared_claims c) ∧
      iat (get_shared_claims c) - 300 <= timestamp_millis now) ∧
     try_from_did_key (iss (get_shared_claims c)) = Some key ∧
     jwt_verify s (as_bytes (h +:+ "." +:+ p)) key = Some true) ∧
  (overflow_checks = false → no_panic (from_jwt (T:=T) now jwt)).
Proof.
  intros Hnow He Hi. split; [split|].
  - intros (h & p & s & -> & Hh & Hs & Hc)%from_jwt_parts_inv.
    apply check_jwt_Ok in Hc as (hb & pb & hdr & key & ?); [|done..].
    unfold time_ok in *. exists h, p, s, hb, pb, hdr, key. naive_solver.
  - intros (h & p & s & hb & pb & hdr & key & -> & Hh & Hs & ?).
    rewrite from_jwt_parts by done. apply check_jwt_Ok; [done..|].
    exists hb, pb, hdr, key. unfold time_ok. naive_solver.
  - apply from_jwt_no_panic.
Qed.
End jwt_theorems.

Lemma b64_url_no_dot s : str_forallb b64_url_char s = true → no_char "." s = true.
Proof.
  apply str_forallb_impl. intros c Hc. apply negb_true_iff, Ascii.eqb_neq. intros <-.
  vm_compute in Hc. done.
Qed.

Lemma str_forallb_and f g s :
  str_forallb (λ c, f c && g c) s = str_forallb f s && str_forallb g s.
Proof.
  induction s as [|c s IH]; simpl; [done|]. rewrite IH.
  by destruct (f c), (g c), (str_forallb f s).
Qed.

Section jwt_roundtrip.
Context `{!Ext, !Base64Laws, !SigLaws, !BuildProfile, !JwtConsts}.
Context `{!Json JwtHeader, !JsonLaws JwtHeader}.
Context {T : Type} `{!Json T, !JsonLaws T, !GetSharedClaims T}.

(** The standard decoder on a URL-safe text: both alphabets share the
    alphanumeric characters only. *)
Lemma std_decode_url b :
  b64_std_no_pad_decode (b64_url_no_pad_encode b) =
    if str_forallb b64_alnum (b64_url_no_pad_encode b) then Some b else None.
Proof.
  case_match eqn:E; [by apply b64_alphabets_agree|].
  destruct (b64_std_no_pad_decode _) as [b'|] eqn:Hd; [|done].
  apply b64_std_no_pad_chars in Hd. pose proof (b64_url_encode_chars b) as Hu.
  exfalso. apply not_true_iff_false in E. apply E. clear E.
  apply (str_forallb_impl (λ c, b64_std_char c && b64_url_char c)).
  - intros c Hc. unfold b64_std_char, b64_url_char in Hc.
    destruct (b64_alnum c); [done|]. exfalso. revert Hc. rewrite !orb_false_l.
    destruct (Ascii.eqb_spec "+" c) as [<-|]; [done|].
    destruct (Ascii.eqb_spec "/" c) as [<-|]; done.
  - by rewrite str_forallb_and, Hd, Hu.
Qed.

(** C24. Signing is total, and what [sign_jwt] signs with a key, for an issuer
    that is that key, [from_jwt] accepts within the time window exactly when
    the base64url text of its header and of its payload is alphanumeric: the
    signer writes the URL-safe alphabet and the verifier reads the standard one,
    so a text with [-] or [_] is refused. *)
Theorem sign_jwt_from_jwt now (c : T) sk ht ct :
  clock_ok now →
  is_u64 (exp (get_shared_claims c)) = true → is_u64 (iat (get_shared_claims c)) = true →
  time_ok now (get_shared_claims c) →
  iss (get_shared_claims c) = to_did_key (verifying_key sk) →
  to_json (mkJwtHeader JWT_HEADER_TYP JWT_HEADER_ALG) = Some ht → to_json c = Some ct →
  ∃ jwt, sign_jwt c sk = Ok jwt ∧
    from_jwt now jwt =
      if str_forallb b64_alnum (b64_url_no_pad_encode (as_bytes ht)) then
        if str_forallb b64_alnum (b64_url_no_pad_encode (as_bytes ct)) then Ok c
        else Err PayloadNotBase64
      else Err HeaderNotBase64.
Proof.
  intros Hnow He Hi Ht Hiss Hht Hct. unfold sign_jwt. rewrite Hht. cbn [ok_or mbind outcome_bind].
  rewrite Hct. cbn [ok_or mbind outcome_bind]. eexists. split; [done|].
  set (h := b64_url_no_pad_encode (as_bytes ht)).
  set (p := b64_url_no_pad_encode (as_bytes ct)).
  set (s := b64_url_no_pad_encode (ed_sign sk (as_bytes (h +:+ "." +:+ p)))).
  rewrite !str_app_assoc.
  rewrite from_jwt_parts by (apply b64_url_no_dot, b64_url_encode_chars).
  destruct (str_forallb b64_alnum h) eqn:Eh;
    [|by unfold check_jwt; subst h; rewrite std_decode_url, Eh].
  destruct (str_forallb b64_alnum p) eqn:Ep;
    [|by unfold check_jwt; subst h p; rewrite !std_decode_url, Eh, Ep].
  apply check_jwt_Ok; [done..|].
  exists (as_bytes ht), (as_bytes ct), (mkJwtHeader JWT_HEADER_TYP JWT_HEADER_ALG), (verifying_key sk).
  split_and!; [by subst h; rewrite std_decode_url, Eh|by subst p; rewrite std_decode_url, Ep
    |by apply from_to_json|by apply from_to_json|done|done| |].
  - rewrite Hiss. apply did_key_roundtrip.
  - apply jwt_verify_sign.
Qed.
End jwt_roundtrip.

(** ** Concrete codecs of the claims, for witnesses *)

#[global] Instance JwtHeader_eq_dec : EqDecision JwtHeader.
Proof. solve_decision. Defined.
#[global] Instance SharedClaims_eq_dec : EqDecision SharedClaims.
Proof. solve_decision. Defined.

Definition header_fields : Fields JwtHeader.
Proof.
  refine {| to_fields h := [typ h; alg h];
            of_fields l := match l with [t; a] => Some (mkJwtHeader t a) | _ => None end |};
    by intros [].
Defined.

Definition shared_claims_fields : Fields SharedClaims.
Proof.
  refine {| to_fields c := [enc (iat c); enc (exp c); iss c; aud c; act c; mjv c];
            of_fields l := match l with
              | [i; e; s; d; a; v] =>
                  i ← dec i; e ← dec e; Some (mkSharedClaims i e s d a v)
              | _ => None end |}; intros []; cbn -[enc dec]; [by rewrite !dec_enc|done].
Defined.

Module JwtInstances.
#[export] Instance concrete_jwt_consts : JwtConsts :=
  {| JWT_HEADER_TYP := "JWT"; JWT_HEADER_ALG := "EdDSA" |}.
#[export] Instance release_profile : BuildProfile := {| overflow_checks := false |}.
#[export] Instance jwt_header_json : Json JwtHeader := fields_json (H:=header_fields).
#[export] Instance jwt_header_json_laws : JsonLaws JwtHeader := fields_json_laws (H:=header_fields).
End JwtInstances.

Section jwt_witnesses.
Import Concrete.Instances JwtInstances.

Definition claims_json : Json SharedClaims := fields_json (H:=shared_claims_fields).
Definition claims_json_laws : JsonLaws SharedClaims (H:=claims_json) :=
  fields_json_laws (H:=shared_claims_fields).
#[local] Existing Instances claims_json claims_json_laws.
#[local] Instance claims_self : GetSharedClaims SharedClaims := λ c, c.

(** Issued, by the text, in the year 53000. *)
Definition claims_w : SharedClaims :=
  mkSharedClaims 1700000000000 1700000300
    (to_did_key (verifying_key (replicate 32 Byte.x11))) "" "act" "1".
Definition now_w : Z := 1700000000 * usec.

Definition jwt_w : string :=
  match sign_jwt claims_w (replicate 32 Byte.x11) with Ok s => s | _ => "" end.
Definition text_w : string := default "" (to_json claims_w).
Definition header_w : string :=
  default "" (to_json (mkJwtHeader JWT_HEADER_TYP JWT_HEADER_ALG)).

Lemma claims_w_time_ok : time_ok now_w claims_w.
Proof. unfold time_ok. split_and!; vm_compute; done. Qed.

Lemma clock_w_ok : clock_ok now_w.
Proof. unfold clock_ok. split; vm_compute; done. Qed.

Lemma sign_jwt_from_jwt_witness :
  ∃ jwt, sign_jwt claims_w (replicate 32 Byte.x11) = Ok jwt ∧ from_jwt now_w jwt = Ok claims_w.
Proof.
  destruct (sign_jwt_from_jwt now_w claims_w (replicate 32 Byte.x11) header_w text_w)
    as (jwt & Hs & Hf);
    [exact clock_w_ok|by vm_compute|by vm_compute|exact claims_w_time_ok|done|by vm_compute
    |by vm_compute|].
  exists jwt. split; [exact Hs|]. refine (eq_trans Hf _). vm_compute. reflexivity.
Defined.

Lemma from_jwt_accepts_witness :
  ∃ h p s, jwt_w = h +:+ "." +:+ p +:+ "." +:+ s ∧ no_char "." h = true ∧ no_char "." s = true.
Proof.
  assert (Hj : from_jwt now_w jwt_w = Ok claims_w) by (vm_compute; reflexivity).
  destruct (from_jwt_accepts now_w jwt_w claims_w) as [[Hf _] _];
    [exact clock_w_ok|by vm_compute|by vm_compute|].
  destruct (Hf Hj) as (h & p & s & _ & _ & _ & _ & Heq & Hh & Hs & _).
  exact (ex_intro _ h (ex_intro _ p (ex_intro _ s (conj Heq (conj Hh Hs))))).
Defined.
End jwt_witnesses.
