(* ===== verification/World.v ===== *)
(** * The server's world

    What a handler reads and writes outside its arguments: the database, the
    rate limiter's buckets, the cache in Redis, the calls made to the relay and
    the receipts handed to the mailbox clearing service.  What the outside
    answers (clocks, random bytes, faults, replies of the relay and of HTTP
    servers) is a class [Env] of functions of [w_tick], the number of
    interactions so far: every sequence of answers is an instance. *)

From S2P Require Import Prelude RustStr Externals Concrete AccountId Errors Types RateLimit.
From S2P Require Import Database Jwt.
Open Scope Z_scope.

(** ** The relay *)

(** [relay_rpc::rpc::Publish]. *)
Record Publish := mkPublish {
  pub_topic : Topic;
  pub_message : string;
  pub_ttl_secs : Z;
  pub_tag : Z;
  pub_prompt : bool;
}.

(** [relay_rpc::rpc::Receipt]. *)
Record Receipt := mkReceipt { rcp_topic : Topic; rcp_message_id : string }.

#[global] Instance Publish_eq_dec : EqDecision Publish.
Proof. solve_decision. Defined.
#[global] Instance Receipt_eq_dec : EqDecision Receipt.
Proof. solve_decision. Defined.

(** [relay_rpc::rpc], as far as the server distinguishes the values. *)
Inductive WatchAction := WatchEvent | OtherWatchAction.
Inductive WatchType := WatchType_Subscriber | OtherWatchType.
Inductive WatchStatus := WatchStatus_Accepted | WatchStatus_Queued | OtherWatchStatus.

#[global] Instance WatchAction_eq_dec : EqDecision WatchAction.
Proof. solve_decision. Defined.
#[global] Instance WatchType_eq_dec : EqDecision WatchType.
Proof. solve_decision. Defined.
#[global] Instance WatchStatus_eq_dec : EqDecision WatchStatus.
Proof. solve_decision. Defined.

(** [relay_client::http::WatchRegisterRequest]; the time to live in seconds. *)
Record WatchRegisterRequest := mkWatchRegisterRequest {
  wr_service_url : string;
  wr_webhook_url : string;
  wr_watch_type : WatchType;
  wr_tags : list Z;
  wr_statuses : list WatchStatus;
  wr_ttl : Z;
}.

#[global] Instance WatchRegisterRequest_eq_dec : EqDecision WatchRegisterRequest.
Proof. solve_decision. Defined.

Inductive RelayRequest :=
| RelayPublishReq (p : Publish)
| RelaySubscribeReq (topic : Topic)
| RelayBatchSubscribeReq (topics : list Topic)
| RelayUnsubscribeReq (topic : Topic)
| RelayBatchReceiveReq (receipts : list Receipt)
| RelayWatchRegisterReq (r : WatchRegisterRequest).

#[global] Instance RelayRequest_eq_dec : EqDecision RelayRequest.
Proof. solve_decision. Defined.

(** [relay_client::error::Error], as far as the server distinguishes it. *)
Inductive RelayClientError := MailboxLimitExceeded | OtherRelayError.

#[global] Instance RelayClientError_eq_dec : EqDecision RelayClientError.
Proof. solve_decision. Defined.

(** ** URLs and HTTP *)

Class UrlOps := {
  Url : Type;
  url_parse : string → option Url;
  url_join : Url → string → option Url;
  url_append_pair : Url → string → string → Url;
  url_set_path : Url → string → Url;
  url_to_string : Url → string;
  url_host_str : Url → option string;
}.

Record HttpResponse := mkHttpResponse { http_status : Z; http_body : bytes }.

(** [StatusCode::is_success]. *)
Definition is_success (status : Z) : bool := (200 <=? status) && (status <? 300).

(** ** Redis as a cache: the bytes stored and when they expire, in milliseconds *)

Record CacheEntry := mkCacheEntry { ce_data : bytes; ce_expires : option Z }.

(** ** The world and the environment *)

(** [w_receiver]: whether the mailbox clearing service still has its end of the
    channel of receipts; [w_slept]: the waits, in milliseconds. *)
Record World := mkWorld {
  w_db : Db;
  w_buckets : Buckets;
  w_cache : gmap string CacheEntry;
  w_relay : list RelayRequest;
  w_mailbox : list Receipt;
  w_receiver : bool;
  w_slept : list Z;
  w_tick : nat;
}.

Definition set_w_db f w := mkWorld (f (w_db w)) (w_buckets w) (w_cache w) (w_relay w)
  (w_mailbox w) (w_receiver w) (w_slept w) (w_tick w).
Definition set_w_buckets f w := mkWorld (w_db w) (f (w_buckets w)) (w_cache w) (w_relay w)
  (w_mailbox w) (w_receiver w) (w_slept w) (w_tick w).
Definition set_w_cache f w := mkWorld (w_db w) (w_buckets w) (f (w_cache w)) (w_relay w)
  (w_mailbox w) (w_receiver w) (w_slept w) (w_tick w).
Definition set_w_relay f w := mkWorld (w_db w) (w_buckets w) (w_cache w) (f (w_relay w))
  (w_mailbox w) (w_receiver w) (w_slept w) (w_tick w).
Definition set_w_mailbox f w := mkWorld (w_db w) (w_buckets w) (w_cache w) (w_relay w)
  (f (w_mailbox w)) (w_receiver w) (w_slept w) (w_tick w).
Definition set_w_receiver b w := mkWorld (w_db w) (w_buckets w) (w_cache w) (w_relay w)
  (w_mailbox w) b (w_slept w) (w_tick w).
Definition set_w_slept f w := mkWorld (w_db w) (w_buckets w) (w_cache w) (w_relay w)
  (w_mailbox w) (w_receiver w) (f (w_slept w)) (w_tick w).
Definition bump w := mkWorld (w_db w) (w_buckets w) (w_cache w) (w_relay w)
  (w_mailbox w) (w_receiver w) (w_slept w) (S (w_tick w)).

(** Times in microseconds. *)
Class Env `{UrlOps} := {
  env_now : nat → Z;
  env_random : nat → nat → bytes;
  env_uuid : nat → nat → Uuid;
  env_message_id : nat → Z;
  env_db_fault : nat → bool;
  env_redis_now : nat → Z;
  env_redis_pool_fault : nat → bool;
  env_redis_fault : nat → bool;
  env_relay : nat → RelayRequest → option RelayClientError;
  env_http_get : nat → Url → option HttpResponse;
}.

(** [OsRng] fills the buffer it is given. *)
Class EnvLaws `{Env} : Prop := { env_random_length i n : length (env_random i n) = n }.

Abbreviation App := (M World).

Section ops.
Context `{UrlOps, !Env}.

(** One interaction: the answer is a function of its number. *)
Definition ask {E A} (f : nat → A) : App E A := λ w, (Ok (f (w_tick w)), bump w).

(** [Utc::now()]. *)
Definition utc_now {E} : App E Z := ask env_now.
Definition random_bytes {E} (n : nat) : App E bytes := ask (λ i, env_random i n).
(** [Uuid::new_v4()]. *)
Definition new_v4 {E} : App E Uuid := ask (λ i, env_uuid i 0).
(** [DEFAULT gen_random_uuid()] of [n] rows. *)
Definition fresh_uuids {E} (n : nat) : App E (list Uuid) :=
  ask (λ i, env_uuid i <$> seq 0 n).

(** A query run at the time the database received it, unless the connection
    fails first. *)
Definition query {A} (q : Z → Query A) : App SqlxError A := λ w,
  let i := w_tick w in
  if env_db_fault i then (Err SqlxIo, bump w)
  else let '(r, db) := q (env_now i) (w_db w) in (r, bump (set_w_db (λ _, db) w)).

(** The same for the statements with an error type of their own. *)
Definition query_err {E A} (fault : E) (q : Z → M Db E A) : App E A := λ w,
  let i := w_tick w in
  if env_db_fault i then (Err fault, bump w)
  else let '(r, db) := q (env_now i) (w_db w) in (r, bump (set_w_db (λ _, db) w)).

Definition redis_call (i : nat) : RedisCall :=
  mkRedisCall (timestamp_millis (env_now i)) (timestamp_millis (env_redis_now i))
    (if env_redis_pool_fault i then Some RateLimit_Pool
     else if env_redis_fault i then Some RateLimit_Redis else None).

(** [rate_limit::token_bucket] with the server's clock. *)
Definition rate_limit (key : string) (l : Limit) : App RateLimitError () := λ w,
  let '(r, b) := token_bucket (redis_call (w_tick w)) key l (w_buckets w) in
  (r, bump (set_w_buckets (λ _, b) w)).

Definition rate_limit_many (keys : list string) (l : Limit)
    : App InternalRateLimitError (gmap string (Z * Z)) := λ w,
  let '(r, b) := token_bucket_many (redis_call (w_tick w)) keys l (w_buckets w) in
  (r, bump (set_w_buckets (λ _, b) w)).

(** One call to the relay's RPC: it is recorded, and may fail. *)
Definition relay_call (r : RelayRequest) : App RelayClientError () := λ w,
  (match env_relay (w_tick w) r with None => Ok () | Some e => Err e end,
   bump (set_w_relay (λ l, l ++ [r]) w)).

Definition http_get {E} (url : Url) : App E (option HttpResponse) := ask (λ i, env_http_get i url).
End ops.

(** ** Lemmas *)

(** What a computation that does not touch the database leaves alone. *)
Definition same_db : relation World := λ w w', w_db w' = w_db w.
#[global] Instance same_db_preorder : PreOrder same_db.
Proof. split; unfold same_db; [done|intros ???; congruence]. Qed.

(** What a computation that does not call the relay leaves alone. *)
Definition same_relay : relation World := λ w w', w_relay w' = w_relay w.
#[global] Instance same_relay_preorder : PreOrder same_relay.
Proof. split; unfold same_relay; [done|intros ???; congruence]. Qed.

(** Calls to the relay are only ever added. *)
Definition relay_grows : relation World := λ w w', ∃ l, w_relay w' = w_relay w ++ l.
#[global] Instance relay_grows_preorder : PreOrder relay_grows.
Proof.
  split; unfold relay_grows; [intros w; exists []; by rewrite app_nil_r|].
  intros w1 w2 w3 [l1 H1] [l2 H2]. exists (l1 ++ l2). by rewrite H2, H1, app_assoc.
Qed.

Section world_lemmas.
Context `{UrlOps, !Env}.

Lemma keeps_ask {E A} (R : relation World) (f : nat → A) :
  (∀ w, R w (bump w)) → keeps R (ask (E:=E) f).
Proof. intros HR w. apply HR. Qed.

Lemma keeps_query {A} (R : relation World) (q : Z → Query A) :
  (∀ w, R w (bump w)) → (∀ w t, R w (bump (set_w_db (λ _, (q t (w_db w)).2) w))) →
  keeps R (query q).
Proof.
  intros HR Hq w. unfold query. destruct (env_db_fault _); [apply HR|].
  specialize (Hq w (env_now (w_tick w))). cbv zeta.
  destruct (q (env_now (w_tick w)) (w_db w)). exact Hq.
Qed.

Lemma keeps_relay_call (R : relation World) r :
  (∀ w, R w (bump (set_w_relay (λ l, l ++ [r]) w))) → keeps R (relay_call r).
Proof. intros HR w. apply HR. Qed.

Lemma keeps_rate_limit (R : relation World) key l :
  (∀ w b, R w (bump (set_w_buckets (λ _, b) w))) → keeps R (rate_limit key l).
Proof.
  intros HR w. unfold rate_limit.
  destruct (token_bucket (redis_call (w_tick w)) key l (w_buckets w)). apply HR.
Qed.

Lemma query_Ok {A} (q : Z → Query A) w a w' :
  query q w = (Ok a, w') ↔
  ∃ db', env_db_fault (w_tick w) = false ∧ q (env_now (w_tick w)) (w_db w) = (Ok a, db') ∧
    w' = bump (set_w_db (λ _, db') w).
Proof.
  unfold query. destruct (env_db_fault _); [split; [done|intros (?&?&?); done]|].
  destruct (q _ _) as [r db']. split; [intros [= -> <-]; by exists db'|naive_solver].
Qed.

Lemma errs_ask {E A} (Q : E → Prop) (f : nat → A) : errs_in Q (ask f).
Proof. done. Qed.

Lemma bind_ask {E A B} (f : nat → A) (k : A → App E B) w :
  (ask f ≫= k) w = k (f (w_tick w)) (bump w).
Proof. done. Qed.
End world_lemmas.

#[export] Hint Resolve errs_ask : errs.

(** ** Concrete environments, for witnesses

    URLs are their texts; the clock advances one millisecond per interaction;
    the relay and the HTTP servers are given. *)

Module EnvInstances.
#[export] Instance concrete_url : UrlOps :=
  {| Url := string;
     url_parse s := if starts_with "http" s then Some s else None;
     url_join u p := Some (u +:+ p);
     url_append_pair u k v := u +:+ "?" +:+ k +:+ "=" +:+ v;
     url_set_path u p := u +:+ p;
     url_to_string u := u;
     url_host_str u := strip_prefix "https://" u |}.

Definition make_env (relay : nat → RelayRequest → option RelayClientError)
    (http : nat → string → option HttpResponse) : Env :=
  {| env_now i := 1700000000 * usec + 1000 * Z.of_nat i;
     env_random i n := replicate n (Concrete.N_byte (N.of_nat (i + 1)));
     env_uuid i j := N.of_nat (1000 + 100 * i + j);
     env_message_id i := Z.of_nat i;
     env_db_fault i := false;
     env_redis_now i := 1700000000 * usec + 1000 * Z.of_nat i;
     env_redis_pool_fault i := false;
     env_redis_fault i := false;
     env_relay := relay;
     env_http_get := http |}.

Lemma make_env_laws relay http : EnvLaws (H0 := make_env relay http).
Proof. split. intros i n. apply length_replicate. Qed.

#[export] Instance jsonrpc_consts : JsonRpcConsts := {| JSON_RPC_VERSION := "2.0" |}.

Definition world_w (db : Db) : World := mkWorld db ∅ ∅ [] [] true [] 0.
End EnvInstances.
