(* ===== verification/RelayPublish.v ===== *)
(** * Calls to the relay with retries (publish_relay_message.rs)

    Publishing and subscribing try at most ten times, waiting longer each time.
    Metrics, logging and the analytics record of the request are dropped. *)

From S2P Require Import Prelude RustStr Externals Concrete AccountId Errors Types RateLimit.
From S2P Require Import Database Jwt World.
Open Scope Z_scope.

(** Milliseconds; the [f32] product of the source is exact for the tries made. *)
Definition calculate_retry_in (tries : Z) : Z := 50 * (tries - 1) ^ 2.

Definition MAX_TRIES : nat := 10.

Section retries.
Context `{UrlOps, !Env}.

(** [tokio::time::sleep]. *)
Definition sleep {E} (ms : Z) : App E () := λ w, (Ok (), bump (set_w_slept (λ l, l ++ [ms]) w)).

(** [while let Err(e) = call().await { ... }] with [tries] counted from the
    tries left; the loop returns before they run out. *)
Fixpoint retry_loop {A} (tries_left : nat) (call : App RelayClientError A) : App RelayClientError A :=
  match tries_left with
  | O => panic
  | S tries_left =>
      r ← attempt call;
      match r with
      | Ok a => mret a
      | Err e =>
          let tries := (MAX_TRIES - tries_left)%nat in
          if (10 <=? tries)%nat then throw e
          else sleep (calculate_retry_in (Z.of_nat tries)) ;; retry_loop tries_left call
      | Panic => panic
      end
  end.

Definition publish_call (publish : Publish) : App RelayClientError () :=
  result ← attempt (relay_call (RelayPublishReq publish));
  match result with
  | Ok _ => mret ()
  | Err MailboxLimitExceeded => mret ()
  | Err e => throw e
  | Panic => panic
  end.

Definition publish_relay_message (publish : Publish) : App RelayClientError () :=
  retry_loop MAX_TRIES (publish_call publish).

Definition subscribe_relay_topic (topic : Topic) : App RelayClientError () :=
  retry_loop MAX_TRIES (relay_call (RelaySubscribeReq topic)) ;; sleep 250.

Definition batch_subscribe_relay_topics (topics : list Topic) : App RelayClientError () :=
  retry_loop MAX_TRIES (relay_call (RelayBatchSubscribeReq topics)) ;; sleep 250.
End retries.

(** ** What the retries do *)

Section retry_theorems.
Context `{UrlOps, !Env}.

(** The waits after the first [n] calls. *)
Definition retry_waits (n : nat) : list Z := (λ t, calculate_retry_in (Z.of_nat t)) <$> seq 1 n.

(** The world after [n] calls with the request [r], each followed by a wait
    except, when [ticks] is odd, the last. *)
Definition after_calls (r : RelayRequest) (n ticks : nat) (w : World) : World :=
  mkWorld (w_db w) (w_buckets w) (w_cache w) (w_relay w ++ replicate n r) (w_mailbox w)
    (w_receiver w) (w_slept w ++ retry_waits (ticks - n)) (w_tick w + ticks).

Lemma after_calls_0 r w : after_calls r 0 0 w = w.
Proof. destruct w. unfold after_calls, retry_waits. cbn. by rewrite !app_nil_r, Nat.add_0_r. Qed.

Lemma after_calls_S r n k w :
  bump (set_w_relay (λ l, l ++ [r]) (after_calls r n k w)) = after_calls r (S n) (S k) w.
Proof.
  unfold after_calls, bump, set_w_relay. cbn. f_equal; [|lia].
  rewrite <-app_assoc. f_equal. by rewrite <-replicate_cons_app.
Qed.

(** The wait after the call number [n]. *)
Lemma after_calls_wait r n w :
  bump (set_w_slept (λ l, l ++ [calculate_retry_in (Z.of_nat (S n))])
    (after_calls r (S n) (S (2 * n)) w)) = after_calls r (S n) (2 * S n) w.
Proof.
  unfold after_calls, bump, set_w_slept, retry_waits. cbn. f_equal; [|lia].
  replace (n + S (n + 0) - n)%nat with (S n) by lia. replace (n + (n + 0) - n)%nat with n by lia.
  rewrite seq_S, fmap_app, app_assoc. done.
Qed.

(** A call that is one request to the relay, and the answers it takes as
    success. *)
Definition single_call (call : App RelayClientError ()) (r : RelayRequest)
    (good : option RelayClientError → bool) : Prop :=
  ∀ w, ∃ e, call w =
    (if good (env_relay (w_tick w) r) then Ok () else Err e,
     bump (set_w_relay (λ l, l ++ [r]) w)).

Lemma publish_single p :
  single_call (publish_call p) (RelayPublishReq p)
    (λ a, match a with None | Some MailboxLimitExceeded => true | _ => false end).
Proof.
  intros w. unfold publish_call, attempt, relay_call, mbind, M_bind. cbn.
  destruct (env_relay _ _) as [[|]|]; by exists OtherRelayError.
Qed.

Lemma relay_call_single r :
  single_call (relay_call r) r (λ a, match a with None => true | _ => false end).
Proof.
  intros w. unfold relay_call. destruct (env_relay _ _) as [e|]; [by exists e|].
  by exists OtherRelayError.
Qed.

Lemma retry_loop_unfold call r good m n w :
  single_call call r good → (n + S m = MAX_TRIES)%nat →
  ∃ e, retry_loop (S m) call (after_calls r n (2 * n) w) =
    if good (env_relay (w_tick w + 2 * n) r) then (Ok (), after_calls r (S n) (S (2 * n)) w)
    else if (10 <=? MAX_TRIES - m)%nat then (Err e, after_calls r (S n) (S (2 * n)) w)
    else retry_loop m call (after_calls r (S n) (2 * S n) w).
Proof.
  intros Hc Hn. destruct (Hc (after_calls r n (2 * n) w)) as [e He]. exists e. cbn [retry_loop].
  unfold mbind at 1, M_bind at 1, attempt. rewrite He, after_calls_S. cbn [w_tick after_calls].
  destruct (good _); [done|]. destruct (10 <=? _)%nat; [done|].
  unfold mbind, M_bind, sleep.
  replace (MAX_TRIES - m)%nat with (S n) by (unfold MAX_TRIES in *; lia).
  by rewrite after_calls_wait.
Qed.

(** Where the loop stops, by the number of tries left. *)
Lemma retry_loop_run call r good w : single_call call r good → ∀ m n,
  (n + S m = MAX_TRIES)%nat →
  (∀ k, (k < n)%nat → good (env_relay (w_tick w + 2 * k) r) = false) →
  (∃ k, (n <= k < MAX_TRIES)%nat ∧
     (∀ j, (j < k)%nat → good (env_relay (w_tick w + 2 * j) r) = false) ∧
     good (env_relay (w_tick w + 2 * k) r) = true ∧
     retry_loop (S m) call (after_calls r n (2 * n) w) =
       (Ok (), after_calls r (S k) (S (2 * k)) w)) ∨
  (∀ j, (j < MAX_TRIES)%nat → good (env_relay (w_tick w + 2 * j) r) = false) ∧
  ∃ e, retry_loop (S m) call (after_calls r n (2 * n) w) =
    (Err e, after_calls r MAX_TRIES 19 w).
Proof.
  intros Hc m. induction m as [|m IH]; intros n Hn Hbefore;
    edestruct (retry_loop_unfold call r good) as [e ->]; try done;
    (destruct (good _) eqn:Hg;
      [left; exists n; split_and!; [lia|unfold MAX_TRIES in *; lia|done..]|]).
  - right. assert (n = 9)%nat as -> by (unfold MAX_TRIES in *; lia). split; [|by exists e].
    intros j Hj. unfold MAX_TRIES in *.
    destruct (decide (j = 9%nat)) as [->|]; [done|]. apply Hbefore. lia.
  - destruct (Nat.leb_spec 10 (MAX_TRIES - S m)); [unfold MAX_TRIES in *; lia|].
    destruct (IH (S n)) as [(k & Hk & ?)|?]; [lia| |left; exists k; split; [lia|done]|by right].
    intros j Hj. destruct (decide (j = n)) as [->|]; [done|]. apply Hbefore. lia.
Qed.

Lemma retry_run call r good w : single_call call r good →
  (∃ k, (k < MAX_TRIES)%nat ∧
     (∀ j, (j < k)%nat → good (env_relay (w_tick w + 2 * j) r) = false) ∧
     good (env_relay (w_tick w + 2 * k) r) = true ∧
     retry_loop MAX_TRIES call w = (Ok (), after_calls r (S k) (S (2 * k)) w)) ∨
  (∀ j, (j < MAX_TRIES)%nat → good (env_relay (w_tick w + 2 * j) r) = false) ∧
  ∃ e, retry_loop MAX_TRIES call w = (Err e, after_calls r MAX_TRIES 19 w).
Proof.
  intros Hc. pose proof (retry_loop_run call r good w Hc 9 0 eq_refl ltac:(lia)) as Hr.
  change (2 * 0)%nat with 0%nat in Hr. rewrite (after_calls_0 r w) in Hr.
  destruct Hr as [(k & Hk & ?)|?]; [left; exists k; split; [lia|done]|by right].
Qed.
End retry_theorems.

Section retry_properties.
Context `{UrlOps, !Env}.

Lemma retry_waits_sum n : (n < MAX_TRIES)%nat → foldr Z.add 0 (retry_waits n) <= 10200.
Proof.
  intros Hn. do 10 (destruct n as [|n]; [by vm_compute|]). unfold MAX_TRIES in Hn. lia.
Qed.

(** C25. [publish_relay_message] makes the same publish call at most ten times,
    stops at the first one the relay accepts (a full mailbox counts as accepted)
    and then succeeds; it fails exactly when all ten are refused.  It changes
    nothing but the relay and never panics.  After the refusal of the call number
    [t] it waits [calculate_retry_in t]; the nine waits of a failure add up to
    10.2 seconds, within the five minutes a worker allows a message. *)
Theorem publish_relay_message_spec p w :
  let accepted k := env_relay (w_tick w + 2 * k) (RelayPublishReq p) ≠ Some OtherRelayError in
  ((∃ k, (k < 10)%nat ∧ (∀ j, (j < k)%nat → ¬ accepted j) ∧ accepted k ∧
      publish_relay_message p w = (Ok (), after_calls (RelayPublishReq p) (S k) (S (2 * k)) w)) ∨
   (∀ j, (j < 10)%nat → ¬ accepted j) ∧
    ∃ e, publish_relay_message p w = (Err e, after_calls (RelayPublishReq p) 10 19 w)) ∧
  (let slept := w_slept (publish_relay_message p w).2 in
   ∃ n, (n < 10)%nat ∧ slept = w_slept w ++ retry_waits n ∧
     foldr Z.add 0 (retry_waits n) <= 10200 ∧
     ((publish_relay_message p w).1 ≠ Ok () → foldr Z.add 0 (retry_waits n) = 10200)).
Proof.
  cbv zeta.
  assert (Hg : ∀ a : option RelayClientError,
    (match a with None | Some MailboxLimitExceeded => true | _ => false end) = true ↔
    a ≠ Some OtherRelayError) by (intros [[]|]; naive_solver).
  assert (Hn : ∀ a : option RelayClientError,
    (match a with None | Some MailboxLimitExceeded => true | _ => false end) = false →
    ¬ a ≠ Some OtherRelayError) by (intros [[]|]; naive_solver).
  unfold publish_relay_message.
  destruct (retry_run _ _ _ w (publish_single p)) as [(k & Hk & Hj & Ha & Hr)|(Hj & e & Hr)];
    rewrite Hr; split.
  - left. exists k. split_and!; [done|intros j Hlt; by apply Hn, Hj|by apply Hg|done].
  - exists k. cbn [fst snd after_calls w_slept]. replace (S (2 * k) - S k)%nat with k by lia.
    split_and!; [done|done|by apply retry_waits_sum|done].
  - right. split; [intros j Hlt; by apply Hn, Hj|by exists e].
  - exists 9%nat. split_and!; [lia|done|done|done].
Qed.

(** What a caller needs: the request is added to the relay's log at least once
    and nothing else but the clock moves. *)
Lemma publish_relay_message_run p w :
  ∃ r n t, publish_relay_message p w =
      (r, after_calls (RelayPublishReq p) (S n) t w) ∧ no_panic r.
Proof.
  destruct (retry_run _ _ _ w (publish_single p)) as [(k & _ & _ & _ & Hr)|(_ & e & Hr)].
  - exists (Ok ()), k, (S (2 * k)). split; [exact Hr|done].
  - exists (Err e), 9%nat, 19%nat. split; [exact Hr|done].
Qed.

Lemma keeps_publish (R : relation World) p :
  (∀ n t w, R w (after_calls (RelayPublishReq p) n t w)) → keeps R (publish_relay_message p).
Proof.
  intros HR w. destruct (publish_relay_message_run p w) as (r & n & t & -> & _). apply HR.
Qed.

Lemma keeps_sleep {E} (R : relation World) ms :
  (∀ f w, R w (bump (set_w_slept f w))) → keeps R (sleep (E:=E) ms).
Proof. intros HR w. apply HR. Qed.

Lemma keeps_retry (R : relation World) `{!PreOrder R} call n :
  (∀ f w, R w (bump (set_w_slept f w))) → keeps R call → keeps R (retry_loop (A := ()) n call).
Proof.
  intros Hb Hc. induction n as [|n IH]; cbn [retry_loop]; [by apply keeps_panic|].
  apply keeps_bind; [done|by apply keeps_attempt|]. intros [a|e|];
    [by apply keeps_ret| |by apply keeps_panic].
  destruct (10 <=? _)%nat; [by apply keeps_throw|].
  apply keeps_bind; [done|by apply keeps_sleep|done].
Qed.
End retry_properties.
