(* ===== verification/NotifyMessage.v ===== *)
(** * The notify message and its publication (notify_message.rs, publisher_service/mod.rs)

    The JWT that carries a notification to a subscriber, and the relay message
    [process_notification] makes of it. *)

From S2P Require Import Prelude RustStr Externals Concrete AccountId Errors Types RateLimit.
From S2P Require Import Database DbInvariant Jwt World RelayPublish.
Open Scope Z_scope.

Record ProjectSigningDetails := mkProjectSigningDetails {
  decoded_client_id : bytes;
  private_key : bytes;
  psd_app : DidWeb;
}.

Record JwtNotification := mkJwtNotification {
  jn_id : Uuid;
  jn_sent_at : Z;
  jn_type : Uuid;
  jn_title : string;
  jn_body : string;
  jn_icon : string;
  jn_url : string;
  jn_is_read : bool;
}.

Record NotifyMessage := mkNotifyMessage {
  nm_iat : Z;
  nm_exp : Z;
  nm_iss : string;
  nm_act : string;
  nm_sub : string;
  nm_app : DidWeb;
  nm_msg : JwtNotification;
}.

Inductive ProcessNotificationError :=
| PN_DecodeKey (e : DecodeKeyError)
| PN_SignJwt (e : SignJwtError)
| PN_EnvelopeSerialization
| PN_EnvelopeEncryption
| PN_RelayPublish (e : RelayClientError).

#[global] Instance ProcessNotificationError_eq_dec : EqDecision ProcessNotificationError.
Proof. solve_decision. Defined.

Section notify_message.
Context `{!Ext, !BuildProfile, !JwtConsts, !Json JwtHeader, !Json NotifyMessage}.
Context `{!JsonRpcConsts, !Json (JsonRpcRequest NotifyMessageAuth)}.
Context `{UrlOps, !Env}.

Definition sign_message (now : Z) (msg : JwtNotification) (account : AccountId)
    (details : ProjectSigningDetails) : outcome SignJwtError string :=
  expiry ← add_ttl now NOTIFY_MESSAGE_TTL;
  let message := mkNotifyMessage (timestamp now) (timestamp expiry)
    (to_did_key (decoded_client_id details)) NOTIFY_MESSAGE_ACT (to_did_pkh account)
    (psd_app details) msg in
  sign_jwt message (private_key details).

Definition format_follow_link {E} (notify_url : Url) (subscriber_notification_id : Uuid)
    : outcome E Url :=
  unwrap (url_join notify_url
            ("/v1/notification/" +:+ uuid_to_string subscriber_notification_id)).

(** The relay message for a notification, given the time, the request id and the
    nonce drawn; [process_notification] up to the publishing. *)
Definition notification_publish (notify_url : Url) (now msg_id : Z) (nonce : bytes)
    (n : NotificationToProcess) : outcome ProcessNotificationError Publish :=
  private_key ← map_err PN_DecodeKey (decode_key (np_project_authentication_private_key n));
  client_id ← map_err PN_DecodeKey (decode_key (np_project_authentication_public_key n));
  let details := mkProjectSigningDetails client_id private_key
                   (from_domain (np_project_app_domain n)) in
  let c := np_content n in
  url ← match n_url c with
        | Some _ =>
            link ← format_follow_link notify_url (np_subscriber_notification n);
            Ok (url_to_string link)
        | None => Ok ""
        end;
  auth ← map_err PN_SignJwt (sign_message now
    (mkJwtNotification (np_subscriber_notification n)
       (timestamp_millis (np_notification_created_at n)) (n_type c) (n_title c) (n_body c)
       (default "" (n_icon c)) url (np_is_read n))
    (np_subscriber_account n) details);
  let message := JsonRpcRequest_new msg_id NOTIFY_MESSAGE_METHOD {| message_auth := auth |} in
  sym_key ← map_err PN_DecodeKey (decode_key (np_subscriber_sym_key n));
  serialized ← ok_or (to_json message) PN_EnvelopeSerialization;
  envelope ← map_err (λ _, PN_EnvelopeEncryption) (envelope0_new nonce sym_key (as_bytes serialized));
  Ok (mkPublish (topic_from_key sym_key) (b64_std_encode (envelope0_to_bytes envelope))
        NOTIFY_MESSAGE_TTL NOTIFY_MESSAGE_TAG true).

(** Everything before the first network call. *)
Definition prepare_notification (notify_url : Url) (n : NotificationToProcess)
    : App ProcessNotificationError Publish :=
  now ← utc_now;
  msg_id ← ask env_message_id;
  nonce ← random_bytes 12;
  lift (notification_publish notify_url now msg_id nonce n).

Definition process_notification (notify_url : Url) (n : NotificationToProcess)
    : App ProcessNotificationError () :=
  publish ← prepare_notification notify_url n;
  m_map_err PN_RelayPublish (publish_relay_message publish).
End notify_message.

(** ** Lemmas *)

Section message_lemmas.
Context `{!Ext, !HashLaws, !HexLaws, !CipherLaws, !BuildProfile, !JwtConsts}.
Context `{!Json JwtHeader, !JsonLaws JwtHeader, !Json NotifyMessage, !JsonLaws NotifyMessage}.
Context `{!JsonRpcConsts, !Json (JsonRpcRequest NotifyMessageAuth),
          !JsonLaws (JsonRpcRequest NotifyMessageAuth)}.
Context `{UrlOps, !Env}.

Lemma sign_jwt_total {T} `{!Json T, !JsonLaws T} (c : T) sk : ∃ s, sign_jwt c sk = Ok s.
Proof.
  unfold sign_jwt. destruct (to_json_total (mkJwtHeader JWT_HEADER_TYP JWT_HEADER_ALG)) as [h ->].
  cbn [ok_or mbind outcome_bind]. destruct (to_json_total c) as [t ->].
  cbn [ok_or mbind outcome_bind]. by eexists.
Qed.

Lemma sign_message_total now msg a d : ∃ s, sign_message now msg a d = Ok s.
Proof. unfold sign_message. apply sign_jwt_total. Qed.

(** With the keys of a stored project and subscriber, and a base URL that joins,
    the message can be made. *)
Lemma notification_publish_total notify_url now mid nonce n :
  is_ok (decode_key (np_project_authentication_private_key n)) = true →
  is_ok (decode_key (np_project_authentication_public_key n)) = true →
  is_ok (decode_key (np_subscriber_sym_key n)) = true →
  (∀ u, is_Some (url_join notify_url ("/v1/notification/" +:+ uuid_to_string u))) →
  ∃ p, notification_publish notify_url now mid nonce n = Ok p.
Proof.
  intros Hk1 Hk2 Hk3 Hu. unfold notification_publish.
  destruct (decode_key (np_project_authentication_private_key n)) as [sk| |]; try done.
  destruct (decode_key (np_project_authentication_public_key n)) as [pk| |]; try done.
  cbn [map_err mbind outcome_bind].
  match goal with |- ∃ p, (?m ≫= _) = _ => assert (∃ u, m = Ok u) as [u ->] end.
  { destruct (n_url (np_content n)); [|by eexists]. unfold format_follow_link.
    edestruct Hu as [l ->]. by eexists. }
  cbn [mbind outcome_bind].
  edestruct (sign_message_total now) as [s ->]. cbn [map_err mbind outcome_bind].
  destruct (decode_key (np_subscriber_sym_key n)) as [k| |]; try done.
  cbn [map_err mbind outcome_bind]. edestruct to_json_total as [t ->].
  cbn [ok_or mbind outcome_bind]. unfold envelope0_new.
  destruct (aead_encrypt_total k nonce (as_bytes t)) as [b ->]. cbn. by eexists.
Qed.

Lemma prepare_notification_keeps (R : relation World) `{!PreOrder R} notify_url n :
  (∀ w, R w (bump w)) → keeps R (prepare_notification notify_url n).
Proof.
  intros HR. unfold prepare_notification, utc_now, random_bytes.
  repeat (apply keeps_bind; [done|by apply keeps_ask|intros ?]). by apply keeps_lift.
Qed.
End message_lemmas.

(** ** Concrete codecs, for witnesses *)

Definition notify_message_fields : Fields NotifyMessage.
Proof.
  refine {| to_fields m := let j := nm_msg m in
      [enc (nm_iat m); enc (nm_exp m); nm_iss m; nm_act m; nm_sub m; domain (nm_app m);
       enc (jn_id j); enc (jn_sent_at j); enc (jn_type j); jn_title j; jn_body j; jn_icon j;
       jn_url j; enc (jn_is_read j)];
    of_fields l := match l with
      | [a; b; c; d; e; f; g; h; i; j; k; m; n; o] =>
          a ← dec a; b ← dec b; g ← dec g; h ← dec h; i ← dec i; o ← dec o;
          Some (mkNotifyMessage a b c d e (mkDidWeb f) (mkJwtNotification g h i j k m n o))
      | _ => None end |}; intros [?????[] []]; cbn -[enc dec]; [by rewrite !dec_enc|done].
Defined.

Definition message_request_fields : Fields (JsonRpcRequest NotifyMessageAuth).
Proof.
  refine {| to_fields r := [enc (req_id r); req_jsonrpc r; req_method r; message_auth (req_params r)];
    of_fields l := match l with
      | [a; b; c; d] => a ← dec a; Some (mkJsonRpcRequest a b c {| message_auth := d |})
      | _ => None end |}; intros [???[]]; cbn -[enc dec]; [by rewrite !dec_enc|done].
Defined.

Module MessageInstances.
#[export] Instance notify_message_json : Json NotifyMessage :=
  fields_json (H:=notify_message_fields).
#[export] Instance notify_message_json_laws : JsonLaws NotifyMessage :=
  fields_json_laws (H:=notify_message_fields).
#[export] Instance message_request_json : Json (JsonRpcRequest NotifyMessageAuth) :=
  fields_json (H:=message_request_fields).
#[export] Instance message_request_json_laws : JsonLaws (JsonRpcRequest NotifyMessageAuth) :=
  fields_json_laws (H:=message_request_fields).
End MessageInstances.
