(* ===== verification/Queue.v ===== *)
(** * The queue statements, as updates of the rows (publisher_service/helpers.rs)

    What each statement of the publishing queue does to the table
    [subscriber_notification], row by row. *)

From S2P Require Import Prelude RustStr Externals AccountId Errors Types Database DbInvariant.
Open Scope Z_scope.

Abbreviation rows := subscriber_notification.

Definition row_with (now : Z) (st : Status) (r : SubscriberNotificationRow) :=
  mkSubscriberNotificationRow (sn_notification r) (sn_subscriber r) st (sn_created_at r) now
    (sn_is_read r).

(** The tables other than the queue. *)
Definition same_tables (db db' : Db) : Prop :=
  same_typed db db' ∧ notification db' = notification db ∧
  welcome_notification db' = welcome_notification db.

#[global] Instance same_tables_preorder : PreOrder same_tables.
Proof.
  split; [by intros ?|]. intros ??? (?&?&?) (?&?&?). split; [by etrans|]. split; congruence.
Qed.

Lemma insert_as_alter {K V} `{Countable K} (f : V → V) (m : gmap K V) i x :
  m !! i = Some x → <[i := f x]> m = alter f i m.
Proof.
  intros Hi. apply map_eq. intros j. rewrite lookup_alter, lookup_insert.
  case_decide; [|done]. subst. by rewrite Hi.
Qed.

Lemma set_status_effect now st i r db :
  ∃ db', set_status now st i r db = (Ok (), db') ∧
    rows db' = <[i := row_with now st r]> (rows db) ∧ same_tables db db'.
Proof.
  unfold set_status. rewrite bind_modify.
  destruct (_ && _); eexists; (split; [done|]); done.
Qed.

Lemma pick_queued_effect now locked choose db :
  (pick_queued now locked choose db = (Ok None, db) ∧
     (∀ i r, rows db !! i = Some r → sn_status r = Queued → i ∈ locked)) ∨
  ∃ i r db', rows db !! i = Some r ∧ sn_status r = Queued ∧ (i ∉ locked) ∧
    pick_queued now locked choose db = (Ok (Some i), db') ∧
    rows db' = <[i := row_with now Processing r]> (rows db) ∧ same_tables db db'.
Proof.
  unfold pick_queued. rewrite bind_gets. cbv zeta.
  match goal with |- context [(fst <$> ?l)] => set (q := (fst <$> l)) end.
  assert (Hq : ∀ i, i ∈ q ↔ ∃ r, rows db !! i = Some r ∧ sn_status r = Queued ∧ i ∉ locked).
  { intros i. subst q. rewrite list_elem_of_fmap. split.
    - intros ([j r] & -> & [Hr [Hd1 Hd2]%andb_prop]%elem_of_select).
      apply bool_decide_eq_true in Hd1, Hd2. by exists r.
    - intros (r & Hr & Hst & Hl). exists (i, r). split; [done|]. apply elem_of_select.
      split; [done|]. by rewrite !bool_decide_true. }
  destruct (q !! _) as [i|] eqn:Ei.
  - right. apply list_elem_of_lookup_2 in Ei. apply Hq in Ei as (r & Hr & Hst & Hl). rewrite Hr.
    destruct (set_status_effect now Processing i r db) as (db' & Hrun & Hrows & Hsame).
    exists i, r, db'. split_and!; try done. erewrite bind_Ok by exact Hrun. done.
  - left. split; [done|]. intros i r Hr Hst. destruct (decide (i ∈ locked)); [done|].
    assert (Hin : i ∈ q) by (apply Hq; by exists r).
    apply lookup_ge_None in Ei. apply list_elem_of_lookup_1 in Hin as [j Hj].
    apply lookup_lt_Some in Hj.
    pose proof (Nat.mod_upper_bound choose (length q)). lia.
Qed.

Section queue.
Context `{!Ext}.

Lemma select_for_processing_id i db n :
  (select_for_processing i db).1 = Ok (Some n) → np_subscriber_notification n = i.
Proof.
  unfold select_for_processing. rewrite bind_gets. unfold id.
  destruct ((rows db !! i) ≫= _) as [[[[sn nt] s] p]|]; [|done].
  unfold mbind, M_bind. destruct (decode_account _ _) as [[] ?]; try done.
  cbn. by intros [= <-].
Qed.

(** Picking takes one queued row to [Processing]; what it returns is the row
    selected afterwards. *)
Lemma pick_effect now locked choose db :
  (pick_subscriber_notification_for_processing now locked choose db = (Ok None, db) ∧
     (∀ i r, rows db !! i = Some r → sn_status r = Queued → i ∈ locked)) ∨
  ∃ i r db', rows db !! i = Some r ∧ sn_status r = Queued ∧ (i ∉ locked) ∧
    pick_subscriber_notification_for_processing now locked choose db =
      ((select_for_processing i db').1, db') ∧
    rows db' = <[i := row_with now Processing r]> (rows db) ∧ same_tables db db'.
Proof.
  unfold pick_subscriber_notification_for_processing.
  destruct (pick_queued_effect now locked choose db) as [[Hrun Hn]|(i & r & db' & Hr & Hst & Hl & Hrun & ?)].
  - left. by rewrite (bind_Ok _ _ _ _ _ Hrun).
  - right. exists i, r, db'. split_and!; try done; try tauto.
    rewrite (bind_Ok _ _ _ _ _ Hrun).
    pose proof (select_for_processing_read_only i db') as Hro.
    destruct (select_for_processing i db'). cbn in *. by subst.
Qed.

(** The status the database enum has for a status of the code. *)
Lemma update_effect now i st db :
  match cast_status (status_to_string st) with
  | None => update_message_processing_status now i st db = (Err InvalidEnumValue, db)
  | Some st' => ∃ db', update_message_processing_status now i st db = (Ok (), db') ∧
      rows db' = alter (row_with now st') i (rows db) ∧ same_tables db db'
  end.
Proof.
  unfold update_message_processing_status. destruct (cast_status _) as [st'|]; [|done].
  rewrite bind_gets. destruct (rows db !! i) as [r|] eqn:E.
  - destruct (set_status_effect now st' i r db) as (db' & Hrun & Hrows & Hsame).
    exists db'. split_and!; [done| |done]. rewrite Hrows. by apply insert_as_alter.
  - exists db. split_and!; [done| |done]. symmetry. apply alter_id. intros r Hr. congruence.
Qed.

Definition requeued (r : SubscriberNotificationRow) := row_with (sn_updated_at r) Queued r.

Lemma requeue_effect i db :
  ∃ db', requeue i db = (Ok (), db') ∧ rows db' = alter requeued i (rows db) ∧ same_tables db db'.
Proof.
  unfold requeue. rewrite bind_gets. destruct (rows db !! i) as [r|] eqn:E.
  - destruct (set_status_effect (sn_updated_at r) Queued i r db) as (db' & Hrun & Hrows & Hsame).
    exists db'. split_and!; [done| |done]. rewrite Hrows. by apply (insert_as_alter requeued).
  - exists db. split_and!; [done| |done]. symmetry. apply alter_id. intros r Hr. congruence.
Qed.

Lemma requeue_all_effect l : ∀ db,
  ∃ db', for_each requeue l db = (Ok (), db') ∧ same_tables db db' ∧
    ∀ i, rows db' !! i = (if decide (i ∈ l) then requeued <$> (rows db !! i) else rows db !! i).
Proof.
  induction l as [|j l IH]; intros db; cbn [for_each].
  - exists db. split_and!; [done..|]. intros i. by rewrite decide_False by apply not_elem_of_nil.
  - destruct (requeue_effect j db) as (db1 & Hrun & Hrows & Hs1).
    destruct (IH db1) as (db' & Hrun' & Hs' & Hl). exists db'.
    split_and!; [by rewrite (bind_Ok _ _ _ _ _ Hrun)|by etrans|]. intros i.
    rewrite Hl, Hrows, lookup_alter. destruct (decide (j = i)) as [->|Hne].
    + rewrite (decide_True (P := i ∈ i :: l)) by left. case_decide; [|done].
      by destruct (rows db !! i).
    + destruct (decide (i ∈ l)) as [Hi|Hi].
      * by rewrite decide_True by (by right).
      * rewrite decide_False; [done|]. by intros [->|?]%elem_of_cons.
Qed.

(** The check returns exactly the rows processing since before the threshold. *)
Lemma dead_letters_effect now threshold db :
  ∃ db', dead_letters_check now threshold db = (Ok (), db') ∧ same_tables db db' ∧
    ∀ i, rows db' !! i =
      (λ r, if decide (sn_status r = Processing ∧ sn_updated_at r < now - threshold)
            then requeued r else r) <$> (rows db !! i).
Proof.
  unfold dead_letters_check. rewrite bind_gets.
  set (l := select _ _).
  assert (Hf : ∀ db, for_each (λ kv, requeue kv.1) l db = for_each requeue (l.*1) db).
  { clearbody l. induction l as [|x l IH]; intros d; [done|]. cbn.
    unfold mbind, M_bind. destruct (requeue x.1 d) as [[] ?]; [apply IH|done..]. }
  rewrite Hf. destruct (requeue_all_effect (l.*1) db) as (db' & Hrun & Hs & Hl).
  exists db'. split_and!; [done..|]. intros i. rewrite Hl.
  assert (Hin : i ∈ l.*1 ↔ ∃ r, rows db !! i = Some r ∧
    sn_status r = Processing ∧ sn_updated_at r < now - threshold).
  { rewrite list_elem_of_fmap. subst l. split.
    - intros ([j r] & -> & [Hr [Hd1 Hd2]%andb_prop]%elem_of_select).
      apply bool_decide_eq_true in Hd1, Hd2. by exists r.
    - intros (r & Hr & ? & ?). exists (i, r). split; [done|]. apply elem_of_select.
      split; [done|]. by rewrite !bool_decide_true. }
  destruct (rows db !! i) as [r|] eqn:E; [|by destruct (decide (i ∈ l.*1))].
  cbn. destruct (decide (sn_status r = Processing ∧ _)) as [Hd|Hd].
  - rewrite decide_True; [done|]. apply Hin. by exists r.
  - rewrite decide_False; [done|]. rewrite Hin. intros (r' & [= <-] & ?). done.
Qed.
End queue.
