(* ===== verification/Publisher.v ===== *)
(** * The publisher service (publisher_service/mod.rs)

    Workers pick queued notifications, publish them and record the result; a
    listener spawns workers as PostgreSQL announces new rows; a periodic check
    returns to the queue what has been processing for too long.  The tasks run
    concurrently: the service is a state machine whose steps are the atomic
    actions of the tasks, in any order. *)

From S2P Require Import Prelude RustStr Externals Concrete AccountId Errors Types RateLimit.
From S2P Require Import Database DbInvariant Subscriptions Jwt World RelayPublish NotifyMessage.
From S2P Require Import Queue.
Open Scope Z_scope.

Definition MAX_WORKERS : Z := 50.
Definition START_WORKERS : nat := 50.
Definition PUBLISHING_TIMEOUT : Z := 60 * 5 * usec.
Definition PUBLISHING_GIVE_UP_TIMEOUT : Z := 60 * 60 * 24 * usec.

(** What [process_queued_messages] does once [process_notification] returned. *)
Inductive Followup := ToPublished | ToQueuedOrFailed.

(** Where a worker is in its loop: about to pick; with a notification picked;
    with the result of its publishing; past the loop, about to decrement the
    counter; or unwound by a panic, never to decrement it. *)
Inductive Worker :=
| Picking
| Working (n : NotificationToProcess)
| Updating (notification_id : Uuid) (notification_created_at : Z) (f : Followup)
| Exiting
| Dead.

(** [Connecting] lasts until [LISTEN] took effect; [Spawning] is between the
    load of the counter and the [fetch_add]. *)
Inductive Listener := Connecting | Receiving | Spawning | Stopped.

#[global] Instance Listener_eq_dec : EqDecision Listener.
Proof. solve_decision. Defined.

Record Service := mkService {
  sv_world : World;
  sv_workers : gmap nat Worker;
  sv_counter : Z;
  sv_listener : Listener;
}.

Inductive Event :=
| EPick (k : nat) (locked : gset Uuid) (choose : nat)
| EProcess (k : nat)
| ETimeout (k calls : nat)
| EUpdate (k : nat)
| EExit (k : nat)
| EListen
| ERecv
| ESpawn (k : nat)
| EListenerFail
| EDeadLetters
| EOther (q : Z → Query ()).

Section publisher.
Context `{!Ext, !BuildProfile, !JwtConsts, !Json JwtHeader, !Json NotifyMessage}.
Context `{!JsonRpcConsts, !Json (JsonRpcRequest NotifyMessageAuth)}.
Context `{UrlOps, !Env}.
Context (notify_url : Url).

(** [update_message_status_queued_or_failed]. *)
Definition update_message_status_queued_or_failed (notification_id : Uuid)
    (notification_created_at giveup_threshold : Z) : App SqlxError () :=
  now ← utc_now;
  if dead_letter_give_up_check now notification_created_at giveup_threshold
  then query (λ now, update_message_processing_status now notification_id SNS_Failed)
  else query (λ now, update_message_processing_status now notification_id SNS_Queued).

Definition pick (locked : gset Uuid) (choose : nat) : App SqlxError (option NotificationToProcess) :=
  query (λ now, pick_subscriber_notification_for_processing now locked choose).

(** The atomic actions of one iteration of [process_queued_messages]. *)
Definition run_pick (locked : gset Uuid) (choose : nat) (w : World) : Worker * World :=
  match pick locked choose w with
  | (Ok (Some n), w') => (Working n, w')
  | (Ok None, w') | (Err _, w') => (Exiting, w')
  | (Panic, w') => (Dead, w')
  end.

Definition followup (n : NotificationToProcess) (f : Followup) : Worker :=
  Updating (np_subscriber_notification n) (np_notification_created_at n) f.

Definition run_process (n : NotificationToProcess) (w : World) : Worker * World :=
  match process_notification notify_url n w with
  | (Ok (), w') => (followup n ToPublished, w')
  | (Err _, w') => (followup n ToQueuedOrFailed, w')
  | (Panic, w') => (Dead, w')
  end.

(** [timeout] dropped the future after [calls] requests to the relay had been
    made; before the first one it never waits, hence is not dropped. *)
Definition run_timeout (n : NotificationToProcess) (calls : nat) (w : World) : Worker * World :=
  match prepare_notification notify_url n w with
  | (Ok p, w') => (followup n ToQueuedOrFailed, after_calls (RelayPublishReq p) calls (2 * calls) w')
  | (Err _, w') => (followup n ToQueuedOrFailed, w')
  | (Panic, w') => (Dead, w')
  end.

(** The [?] on the result of the update, then the next iteration. *)
Definition after_update (r : outcome SqlxError ()) : Worker :=
  match r with Ok _ => Picking | Err _ => Exiting | Panic => Dead end.

Definition run_update (i : Uuid) (created_at : Z) (f : Followup) (w : World) : Worker * World :=
  let m := match f with
           | ToPublished =>
               query (λ now, update_message_processing_status now i SNS_Published)
           | ToQueuedOrFailed =>
               update_message_status_queued_or_failed i created_at PUBLISHING_GIVE_UP_TIMEOUT
           end in
  let '(r, w') := m w in (after_update r, w').

Definition set_worker (k : nat) (x : Worker * World) (s : Service) : Service :=
  mkService x.2 (<[k := x.1]> (sv_workers s)) (sv_counter s) (sv_listener s).

Definition set_listener (l : Listener) (s : Service) : Service :=
  mkService (sv_world s) (sv_workers s) (sv_counter s) l.

Definition with_world (w : World) (s : Service) : Service :=
  mkService w (sv_workers s) (sv_counter s) (sv_listener s).

Definition step (e : Event) (s : Service) : option Service :=
  let w := sv_world s in
  match e with
  | EPick k locked choose =>
      match sv_workers s !! k with
      | Some Picking => Some (set_worker k (run_pick locked choose w) s)
      | _ => None
      end
  | EProcess k =>
      match sv_workers s !! k with
      | Some (Working n) => Some (set_worker k (run_process n w) s)
      | _ => None
      end
  | ETimeout k calls =>
      match sv_workers s !! k with
      | Some (Working n) =>
          if (calls <=? MAX_TRIES)%nat then Some (set_worker k (run_timeout n calls w) s)
          else None
      | _ => None
      end
  | EUpdate k =>
      match sv_workers s !! k with
      | Some (Updating i c f) => Some (set_worker k (run_update i c f w) s)
      | _ => None
      end
  | EExit k =>
      match sv_workers s !! k with
      | Some Exiting =>
          Some (mkService w (delete k (sv_workers s)) (sv_counter s - 1) (sv_listener s))
      | _ => None
      end
  | EListen =>
      if decide (sv_listener s = Connecting)
      then Some (mkService (set_w_db (set_deliveries (λ _, [])) w) (sv_workers s)
                   (sv_counter s) Receiving)
      else None
  | ERecv =>
      match sv_listener s, deliveries (w_db w) with
      | Receiving, _ :: rest =>
          Some (mkService (set_w_db (set_deliveries (λ _, rest)) w) (sv_workers s) (sv_counter s)
                  (if sv_counter s <? MAX_WORKERS then Spawning else Receiving))
      | _, _ => None
      end
  | ESpawn k =>
      if decide (sv_listener s = Spawning ∧ sv_workers s !! k = None)
      then Some (mkService w (<[k := Picking]> (sv_workers s)) (sv_counter s + 1) Receiving)
      else None
  | EListenerFail => Some (set_listener Stopped s)
  | EDeadLetters =>
      Some (with_world (query (λ now, dead_letters_check now PUBLISHING_TIMEOUT) w).2 s)
  | EOther q => Some (with_world (query q w).2 s)
  end.

Fixpoint run (es : list Event) (s : Service) : option Service :=
  match es with
  | [] => Some s
  | e :: es => s' ← step e s; run es s'
  end.

(** [start]: the initial workers, their count, and no listener yet. *)
Definition start (w : World) : Service :=
  mkService w (list_to_map ((λ k, (k, Picking)) <$> seq 0 START_WORKERS))
    (Z.of_nat START_WORKERS) Connecting.

(** One worker on its own: [process_queued_messages] with no other task between
    its actions.  The fuel is the number of loop iterations. *)
Fixpoint process_queued_messages (fuel : nat) (w : World) : option (outcome SqlxError () * World) :=
  match fuel with
  | O => None
  | S fuel =>
      match pick ∅ 0 w with
      | (Ok (Some n), w1) =>
          let '(r, w2) := process_notification notify_url n w1 in
          let i := np_subscriber_notification n in
          let handle_error := update_message_status_queued_or_failed i
                                (np_notification_created_at n) PUBLISHING_GIVE_UP_TIMEOUT in
          let '(r', w3) :=
            match r with
            | Ok _ => query (λ now, update_message_processing_status now i SNS_Published) w2
            | Err _ => handle_error w2
            | Panic => (Panic, w2)
            end in
          match r' with
          | Ok _ => process_queued_messages fuel w3
          | Err e => Some (Err e, w3)
          | Panic => Some (Panic, w3)
          end
      | (Ok None, w1) => Some (Ok (), w1)
      | (Err e, w1) => Some (Err e, w1)
      | (Panic, w1) => Some (Panic, w1)
      end
  end.
End publisher.

(** ** The worker counter *)

Section counter.
Context `{!Ext, !BuildProfile, !JwtConsts, !Json JwtHeader, !Json NotifyMessage}.
Context `{!JsonRpcConsts, !Json (JsonRpcRequest NotifyMessageAuth)}.
Context `{UrlOps, !Env}.
Context (notify_url : Url).

(** Any action of any task. *)
Definition any_step (s s' : Service) : Prop := ∃ e, step notify_url e s = Some s'.

Definition counter_inv (s : Service) : Prop :=
  sv_counter s = Z.of_nat (size (sv_workers s)) ∧ sv_counter s <= MAX_WORKERS ∧
  (sv_listener s = Spawning → sv_counter s < MAX_WORKERS).

Lemma size_insert_is_Some {V} (m : gmap nat V) k x : is_Some (m !! k) → size (<[k:=x]> m) = size m.
Proof. intros Hk. by apply map_size_insert_Some. Qed.

Lemma counter_inv_start w : counter_inv (start w).
Proof. unfold counter_inv, start. cbn [sv_counter sv_workers sv_listener]. by vm_compute. Qed.

Lemma counter_inv_step s s' : counter_inv s → any_step s s' → counter_inv s'.
Proof.
  intros (Hc & Hm & Hl) [e He]. unfold counter_inv.
  destruct e as [k locked choose|k|k calls|k|k| | |k| | |q]; cbn [step] in He; cbv zeta in He.
  1-4: destruct (sv_workers s !! k) as [[]|] eqn:Ek; try done;
    try (destruct (_ <=? _)%nat; [|done]); injection He as <-;
    unfold set_worker; cbn [sv_counter sv_workers sv_listener];
    by rewrite size_insert_is_Some by (by eexists).
  - destruct (sv_workers s !! k) as [[]|] eqn:Ek; try done. injection He as <-.
    cbn [sv_counter sv_workers sv_listener].
    rewrite map_size_delete_Some by (by eexists).
    assert (size (sv_workers s) ≠ 0)%nat.
    { rewrite map_size_non_empty_iff. intros E. by rewrite E in Ek. }
    split_and!; [lia|lia|]. intros H'. specialize (Hl H'). lia.
  - case_decide; [|done]. injection He as <-. by cbn.
  - destruct (sv_listener s); try done. destruct (deliveries _); [done|]. injection He as <-.
    cbn [sv_counter sv_workers sv_listener]. split_and!; [done|done|].
    destruct (Z.ltb_spec (sv_counter s) MAX_WORKERS); done.
  - case_decide as Hd; [|done]. destruct Hd as [Hd Hk]. injection He as <-. cbn [sv_counter sv_workers sv_listener].
    specialize (Hl Hd). rewrite map_size_insert_None by done. split_and!; [lia|lia|done].
  - injection He as <-. by cbn.
  - by injection He as <-.
  - by injection He as <-.
Qed.

(** Whatever the order of the tasks' actions, the counter of spawned workers
    is the number of workers that have not decremented it, never exceeds
    [MAX_WORKERS] and never goes below zero, although the listener's load and
    increment are two separate actions. *)
Theorem worker_counter w s :
  rtc any_step (start w) s →
  sv_counter s = Z.of_nat (size (sv_workers s)) ∧ 0 <= sv_counter s <= MAX_WORKERS.
Proof.
  intros Hs. assert (counter_inv s) as (Hc & Hm & _).
  { eapply (rtc_ind_l (λ x, counter_inv x → counter_inv s) s); [done| |exact Hs|apply counter_inv_start].
    intros x y Hxy _ IH Hx. by eapply IH, counter_inv_step. }
  split; [done|lia].
Qed.
End counter.

(** ** The life cycle of a queued row *)

Section life_cycle.
Context `{!Ext, !BuildProfile, !JwtConsts, !Json JwtHeader, !Json NotifyMessage}.
Context `{!JsonRpcConsts, !Json (JsonRpcRequest NotifyMessageAuth)}.
Context `{UrlOps, !Env}.
Context (notify_url : Url).

(** The rows a worker has picked and not yet updated. *)
Definition holds (x : Worker) (i : Uuid) : Prop :=
  match x with
  | Working n => np_subscriber_notification n = i
  | Updating j _ _ => j = i
  | _ => False
  end.

Definition sv_rows (s : Service) := rows (w_db (sv_world s)).
Definition held (s : Service) (k : nat) (i : Uuid) : Prop :=
  ∃ x, sv_workers s !! k = Some x ∧ holds x i.
Definition status (s : Service) (i : Uuid) : option Status := sn_status <$> (sv_rows s !! i).

Lemma prepare_db n w : w_db (prepare_notification notify_url n w).2 = w_db w.
Proof. by apply (prepare_notification_keeps same_db). Qed.

Lemma process_db n w : w_db (process_notification notify_url n w).2 = w_db w.
Proof.
  assert (keeps same_db (process_notification notify_url n)) as Hk; [|apply Hk].
  unfold process_notification. apply keeps_bind; [apply _|by apply (prepare_notification_keeps same_db)|].
  intros p. apply keeps_map_err. by apply keeps_publish.
Qed.

Lemma run_pick_effect locked choose w :
  let '(x, w') := run_pick locked choose w in
  ((x = Exiting ∨ x = Dead) ∧ rows (w_db w') = rows (w_db w)) ∨
  ∃ now i r, rows (w_db w) !! i = Some r ∧ sn_status r = Queued ∧
    rows (w_db w') = <[i := row_with now Processing r]> (rows (w_db w)) ∧
    ∀ j, holds x j → j = i.
Proof.
  unfold run_pick, pick, query. cbv zeta. destruct (env_db_fault (w_tick w)); [naive_solver|].
  destruct (pick_effect (env_now (w_tick w)) locked choose (w_db w))
    as [[-> _]|(i & r & db' & Hr & Hst & _ & -> & Hrows & _)]; [naive_solver|].
  assert (Hid := select_for_processing_id i db').
  destruct ((select_for_processing i db').1) as [[n|]|e|]; cbv zeta;
    right; exists (env_now (w_tick w)), i, r; split_and!; try done.
  intros j <-. by apply Hid.
Qed.

Lemma run_process_effect n w :
  let '(x, w') := run_process notify_url n w in
  rows (w_db w') = rows (w_db w) ∧ ∀ j, holds x j → j = np_subscriber_notification n.
Proof.
  pose proof (process_db n w) as Hdb. unfold run_process.
  destruct (process_notification notify_url n w) as [[[]|e|] w']; cbn in Hdb;
    rewrite Hdb; by split; [|intros j Hj; cbn in Hj].
Qed.

Lemma run_timeout_effect n calls w :
  let '(x, w') := run_timeout notify_url n calls w in
  rows (w_db w') = rows (w_db w) ∧ ∀ j, holds x j → j = np_subscriber_notification n.
Proof.
  pose proof (prepare_db n w) as Hdb. unfold run_timeout.
  destruct (prepare_notification notify_url n w) as [[p|e|] w']; cbn in Hdb; cbn [w_db after_calls];
    rewrite Hdb; by split; [|intros j Hj; cbn in Hj].
Qed.

Lemma query_update_effect i st w :
  let '(r, w') := query (λ now, update_message_processing_status now i st) w in
  rows (w_db w') = rows (w_db w) ∨
  ∃ now st', cast_status (status_to_string st) = Some st' ∧ r = Ok () ∧
    rows (w_db w') = alter (row_with now st') i (rows (w_db w)).
Proof.
  unfold query. cbv zeta. destruct (env_db_fault (w_tick w)); [by left|].
  pose proof (update_effect (env_now (w_tick w)) i st (w_db w)) as Hu.
  destruct (cast_status (status_to_string st)) as [st'|]; [|rewrite Hu; by left].
  destruct Hu as (db' & -> & Hrows & _). right. by exists (env_now (w_tick w)), st'.
Qed.

Lemma run_update_effect i created f w :
  let '(x, w') := run_update i created f w in
  (x = Picking ∨ x = Exiting ∨ x = Dead) ∧
  (rows (w_db w') = rows (w_db w) ∨
   ∃ now st, rows (w_db w') = alter (row_with now st) i (rows (w_db w)) ∧
     (st = Published ↔ f = ToPublished) ∧ (st = Queued → f = ToQueuedOrFailed)).
Proof.
  assert (Hx : ∀ r, after_update r = Picking ∨ after_update r = Exiting ∨ after_update r = Dead)
    by (intros [[]|e|]; naive_solver).
  unfold run_update. destruct f.
  - pose proof (query_update_effect i SNS_Published w) as He.
    destruct (query _ w) as [r w1]. split; [done|].
    destruct He as [He|(now & st & [= <-] & _ & He)]; [by left|].
    right. by exists now, Published.
  - unfold update_message_status_queued_or_failed. unfold utc_now. rewrite bind_ask.
    destruct (dead_letter_give_up_check _ _ _);
    [pose proof (query_update_effect i SNS_Failed (bump w)) as He
    |pose proof (query_update_effect i SNS_Queued (bump w)) as He];
    destruct (query _ (bump w)) as [r w1];
    (split; [done|]); (destruct He as [He|(now & st & [= <-] & _ & He)]; [by left|]);
    right; eexists now, _; split_and!; done.
Qed.

(** What statements of other components do to the rows: they may delete some,
    insert queued ones under keys no worker holds, and keep the statuses. *)
Definition outside (s s' : Service) : Prop := ∀ i r', sv_rows s' !! i = Some r' →
  (∃ r, sv_rows s !! i = Some r ∧ sn_status r' = sn_status r) ∨
  (sv_rows s !! i = None ∧ sn_status r' = Queued ∧ ∀ k, ¬ held s k i).

(** A step in which the dead letters check requeues no row a worker holds, as
    when every worker updates its row within [PUBLISHING_TIMEOUT] of picking it. *)
Definition exclusive_step (s s' : Service) : Prop := ∃ e, step notify_url e s = Some s' ∧
  match e with
  | EDeadLetters => ∀ k i, held s k i → sv_rows s' !! i = sv_rows s !! i
  | EOther _ => outside s s'
  | _ => True
  end.

Inductive transition : option Status → option Status → Prop :=
| tr_same o : transition o o
| tr_insert : transition None (Some Queued)
| tr_delete st : transition (Some st) None
| tr_pick : transition (Some Queued) (Some Processing)
| tr_done st : transition (Some Processing) (Some st).

Definition life_inv (s : Service) : Prop :=
  (∀ k i r, held s k i → sv_rows s !! i = Some r → sn_status r = Processing) ∧
  (∀ k1 k2 i, held s k1 i → held s k2 i → k1 = k2).

Lemma held_set_worker s k x w j i :
  held (set_worker k (x, w) s) j i ↔ (j = k ∧ holds x i) ∨ (j ≠ k ∧ held s j i).
Proof.
  unfold held, set_worker. cbn [sv_workers fst snd]. destruct (decide (j = k)) as [->|Hne].
  - rewrite lookup_insert_eq. naive_solver.
  - rewrite lookup_insert_ne by done. naive_solver.
Qed.

Lemma life_inv_same_rows s k x x' w :
  life_inv s → sv_workers s !! k = Some x → (∀ i, holds x' i → holds x i) →
  rows (w_db w) = sv_rows s →
  life_inv (set_worker k (x', w) s) ∧
  ∀ i, transition (status s i) (status (set_worker k (x', w) s) i).
Proof.
  intros [Hp Hu] Hk Hx Hw. split; [split|].
  - intros j i r [[-> Hi]|[_ Hi]]%held_set_worker; unfold sv_rows; cbn; rewrite Hw; [|by eauto].
    apply (Hp k). exists x. eauto.
  - intros k1 k2 i Ha%held_set_worker Hb%held_set_worker.
    assert (Hs : holds x' i → held s k i) by (intros; exists x; eauto). naive_solver.
  - intros i. unfold status, sv_rows at 2. cbn. rewrite Hw. constructor.
Qed.

Lemma life_inv_pick s k w now i r x' :
  life_inv s → sv_rows s !! i = Some r → sn_status r = Queued →
  rows (w_db w) = <[i := row_with now Processing r]> (sv_rows s) →
  (∀ j, holds x' j → j = i) →
  life_inv (set_worker k (x', w) s) ∧
  ∀ j, transition (status s j) (status (set_worker k (x', w) s) j).
Proof.
  intros [Hp Hu] Hr Hq Hw Hx.
  assert (Hfree : ∀ j, ¬ held s j i) by (intros j Hj; specialize (Hp j i r Hj Hr); congruence).
  split; [split|].
  - intros j m r' Hj. unfold sv_rows. cbn. rewrite Hw, lookup_insert. case_decide; [by intros [= <-]|].
    apply held_set_worker in Hj as [[-> Hm%Hx]|[_ Hm]]; [by subst|by eauto].
  - intros k1 k2 m Ha%held_set_worker Hb%held_set_worker.
    destruct Ha as [[-> Ha]|[? Ha]], Hb as [[-> Hb]|[? Hb]]; [done| | |by eauto].
    + apply Hx in Ha. subst. by destruct (Hfree k2).
    + apply Hx in Hb. subst. by destruct (Hfree k1).
  - intros j. unfold status, sv_rows at 2. cbn. rewrite Hw, lookup_insert. case_decide; [|constructor].
    subst. rewrite Hr. cbn. rewrite Hq. constructor.
Qed.

Lemma life_inv_update s k w now st i c f x' :
  life_inv s → sv_workers s !! k = Some (Updating i c f) →
  rows (w_db w) = alter (row_with now st) i (sv_rows s) →
  (∀ j, ¬ holds x' j) →
  life_inv (set_worker k (x', w) s) ∧
  ∀ j, transition (status s j) (status (set_worker k (x', w) s) j).
Proof.
  intros [Hp Hu] Hk Hw Hx. assert (Hh : held s k i) by (by exists (Updating i c f)).
  split; [split|].
  - intros j m r' [[-> Hm]|[Hne Hm]]%held_set_worker; [by destruct (Hx m)|].
    unfold sv_rows. cbn. rewrite Hw, lookup_alter. case_decide; [|by eauto].
    subst. destruct Hne. by eapply Hu.
  - intros k1 k2 m Ha%held_set_worker Hb%held_set_worker. naive_solver.
  - intros j. unfold status, sv_rows at 2. cbn. rewrite Hw, lookup_alter. case_decide; [|constructor].
    subst. destruct (sv_rows s !! j) as [r|] eqn:E; [|constructor]. cbn.
    rewrite (Hp k j r Hh E). constructor.
Qed.

Lemma dead_letters_inv s :
  let s' := with_world (query (λ now, dead_letters_check now PUBLISHING_TIMEOUT) (sv_world s)).2 s in
  life_inv s → (∀ k i, held s k i → sv_rows s' !! i = sv_rows s !! i) →
  life_inv s' ∧ ∀ i, transition (status s i) (status s' i).
Proof.
  cbv zeta. intros [Hp Hu] Hside. split; [split|].
  - intros k i r Hi. rewrite (Hside k i Hi). by apply (Hp k).
  - exact Hu.
  - intros i. unfold status, sv_rows at 2. clear Hside. unfold query, with_world. cbn.
    destruct (env_db_fault _); [constructor|].
    destruct (dead_letters_effect (env_now (w_tick (sv_world s))) PUBLISHING_TIMEOUT
      (w_db (sv_world s))) as (db' & -> & _ & Hl). cbn. rewrite Hl. unfold sv_rows.
    destruct (rows _ !! i) as [r|]; [|constructor]. cbn. case_decide as Hd; [|constructor].
    destruct Hd as [-> _]. constructor.
Qed.

Lemma outside_inv s w :
  life_inv s → outside s (with_world w s) →
  life_inv (with_world w s) ∧ ∀ i, transition (status s i) (status (with_world w s) i).
Proof.
  intros [Hp Hu] Ho. split; [split|].
  - intros k i r Hh Hr. destruct (Ho i r Hr) as [(r0 & Hr0 & ->)|(_ & _ & Hn)];
      [by apply (Hp k i)|by destruct (Hn k)].
  - exact Hu.
  - intros i. unfold status. destruct (sv_rows (with_world w s) !! i) as [r|] eqn:E.
    + destruct (Ho i r E) as [(r0 & -> & Heq)|(-> & Heq & _)]; cbn; rewrite Heq; constructor.
    + destruct (sv_rows s !! i); constructor.
Qed.

Lemma life_inv_quiet s s' :
  life_inv s → (∀ k i, held s' k i → held s k i) → sv_rows s' = sv_rows s →
  life_inv s' ∧ ∀ i, transition (status s i) (status s' i).
Proof.
  intros [Hp Hu] Hh Hr. split; [split|].
  - intros k i r Hi. rewrite Hr. eauto.
  - intros k1 k2 i Ha Hb. eauto.
  - intros i. unfold status. rewrite Hr. constructor.
Qed.

Lemma exclusive_step_inv s s' :
  life_inv s → exclusive_step s s' →
  life_inv s' ∧ ∀ i, transition (status s i) (status s' i).
Proof.
  intros Hinv (e & He & Hside). destruct e as [k locked choose|k|k calls|k|k| | |k| | |q];
    cbn [step] in He; cbv zeta in He.
  - destruct (sv_workers s !! k) as [[]|] eqn:Ek; try done. injection He as <-.
    pose proof (run_pick_effect locked choose (sv_world s)) as Hp.
    destruct (run_pick locked choose (sv_world s)) as [x w'].
    destruct Hp as [[Hx Hw]|(now & i & r & Hr & Hq & Hw & Hx)];
      [eapply life_inv_same_rows; eauto; naive_solver|by eapply life_inv_pick].
  - destruct (sv_workers s !! k) as [[]|] eqn:Ek; try done. injection He as <-.
    pose proof (run_process_effect n (sv_world s)) as Hp.
    destruct (run_process notify_url n (sv_world s)) as [x w']. destruct Hp as [Hw Hx].
    eapply life_inv_same_rows; eauto. cbn. intros i Hi. symmetry. eauto.
  - destruct (sv_workers s !! k) as [[]|] eqn:Ek; try done. destruct (_ <=? _)%nat; [|done].
    injection He as <-.
    pose proof (run_timeout_effect n calls (sv_world s)) as Hp.
    destruct (run_timeout notify_url n calls (sv_world s)) as [x w']. destruct Hp as [Hw Hx].
    eapply life_inv_same_rows; eauto. cbn. intros i Hi. symmetry. eauto.
  - destruct (sv_workers s !! k) as [[|?|i c f| |]|] eqn:Ek; try done. injection He as <-.
    pose proof (run_update_effect i c f (sv_world s)) as Hp.
    destruct (run_update i c f (sv_world s)) as [x w']. destruct Hp as [Hx [Hw|(now & st & Hw & _)]].
    + eapply life_inv_same_rows; eauto. naive_solver.
    + eapply life_inv_update; eauto. naive_solver.
  - destruct (sv_workers s !! k) as [[]|] eqn:Ek; try done. injection He as <-.
    apply life_inv_quiet; [done| |done]. intros j i (x & Hj & Hx). exists x.
    split; [|done]. cbn in Hj. by apply lookup_delete_Some in Hj as [_ Hj].
  - case_decide; [|done]. injection He as <-. by apply life_inv_quiet.
  - destruct (sv_listener s); try done. destruct (deliveries _); [done|]. injection He as <-.
    by apply life_inv_quiet.
  - case_decide as Hd; [|done]. injection He as <-. apply life_inv_quiet; [done| |done].
    intros j i (x & Hj & Hx). cbn in Hj. apply lookup_insert_Some in Hj as [[_ <-]|[_ Hj]]; [done|].
    by exists x.
  - injection He as <-. by apply life_inv_quiet.
  - injection He as <-. by apply dead_letters_inv.
  - injection He as <-. by apply outside_inv.
Qed.

(** C17. As long as the dead letters check requeues no row a worker still holds,
    every row is held by at most one worker, a held row is [Processing], and
    from then on each row follows the life cycle queued, processing, then
    published, failed or queued again: on every run a published or failed row
    keeps its status, unless it is deleted on that run, so no notification is
    published after it was recorded as such. *)
Theorem row_life_cycle w s :
  rtc exclusive_step (start w) s →
  (∀ k i st, held s k i → status s i = Some st → st = Processing) ∧
  (∀ k1 k2 i, held s k1 i → held s k2 i → k1 = k2) ∧
  (∀ s' i, exclusive_step s s' → transition (status s i) (status s' i)) ∧
  (∀ s' i st, rtc exclusive_step s s' → st = Published ∨ st = Failed →
     status s i = Some st → status s' i = Some st ∨
     ∃ s1, rtc exclusive_step s s1 ∧ rtc exclusive_step s1 s' ∧ status s1 i = None).
Proof.
  intros Hs.
  assert (Hmono : ∀ x y, rtc exclusive_step x y → life_inv x → life_inv y).
  { intros x y Hxy. induction Hxy as [|x y z Hxy _ IH]; [done|]. intros Hx.
    by apply IH, (exclusive_step_inv x y). }
  assert (Hinv : life_inv s).
  { eapply Hmono; [exact Hs|]. split; intros k; unfold held, start; cbn [sv_workers];
      [intros i r (x & Hx%elem_of_list_to_map_2 & Hh) _|intros k2 i (x & Hx%elem_of_list_to_map_2 & Hh) _];
      apply list_elem_of_fmap in Hx as (m & [= -> ->] & _); done. }
  split_and!.
  - intros k i st Hh. unfold status. destruct (sv_rows s !! i) as [r|] eqn:E; [|done].
    intros [= <-]. by eapply Hinv.
  - apply Hinv.
  - intros s' i He. by apply (exclusive_step_inv s s').
  - intros s' i st Hss' Hst Hi. revert Hinv Hi. clear Hs. induction Hss' as [|x y z Hxy Hyz IH]; [by left|].
    intros Hx Hi. destruct (exclusive_step_inv x y Hx Hxy) as [Hy Ht]. specialize (Ht i).
    rewrite Hi in Ht. destruct (status y i) as [st'|] eqn:Ey.
    + assert (st' = st) as -> by (inversion Ht; subst; naive_solver).
      destruct (IH Hy eq_refl) as [?|(s1 & Hs1 & ? & ?)]; [by left|].
      right. exists s1. split_and!; [by eapply rtc_l|done|done].
    + right. exists y. split_and!; [by apply rtc_once|done|done].
Qed.
End life_cycle.

(** ** What is recorded as published was published *)

Section handed.
Context `{!Ext, !BuildProfile, !JwtConsts, !Json JwtHeader, !Json NotifyMessage}.
Context `{!JsonRpcConsts, !Json (JsonRpcRequest NotifyMessageAuth)}.
Context `{UrlOps, !Env}.
Context (notify_url : Url).

(** The message of the notification [n], made at some time, was sent to the
    relay, which accepted it. *)
Definition handed_over (n : NotificationToProcess) (w : World) : Prop :=
  ∃ now mid nonce p k, notification_publish notify_url now mid nonce n = Ok p ∧
    RelayPublishReq p ∈ w_relay w ∧ env_relay k (RelayPublishReq p) ≠ Some OtherRelayError.

(** A message made from the row [i] as some state of the database had it. *)
Definition delivered (i : Uuid) (w : World) : Prop :=
  ∃ n db, (select_for_processing i db).1 = Ok (Some n) ∧ handed_over n w.

Lemma handed_over_grows n w w' : relay_grows w w' → handed_over n w → handed_over n w'.
Proof.
  intros [l Hl] (now & mid & nonce & p & k & Hp & Hin & Ha). exists now, mid, nonce, p, k.
  split_and!; [done| |done]. rewrite Hl. apply elem_of_app. by left.
Qed.

Lemma delivered_grows i w w' : relay_grows w w' → delivered i w → delivered i w'.
Proof. intros Hg (n & db & Hn & Hh). exists n, db. split; [done|]. by eapply handed_over_grows. Qed.

Lemma relay_grows_bump w : relay_grows w (bump w).
Proof. exists []. cbn. by rewrite app_nil_r. Qed.

Lemma after_calls_grows r n t w : relay_grows w (after_calls r n t w).
Proof. by exists (replicate n r). Qed.

Lemma prepare_grows n w : relay_grows w (prepare_notification notify_url n w).2.
Proof. apply (prepare_notification_keeps relay_grows). apply relay_grows_bump. Qed.

Lemma process_grows n w : relay_grows w (process_notification notify_url n w).2.
Proof.
  assert (keeps relay_grows (process_notification notify_url n)) as Hk; [|apply Hk].
  unfold process_notification. apply keeps_bind; [apply _| |].
  - intros w'. apply prepare_grows.
  - intros p. apply keeps_map_err, keeps_publish. intros. apply after_calls_grows.
Qed.

Lemma query_grows {A} (q : Z → Query A) w : relay_grows w (query q w).2.
Proof.
  apply (keeps_query relay_grows); [apply relay_grows_bump|].
  intros w' t. exists []. cbn. by rewrite app_nil_r.
Qed.

Lemma run_update_grows i c f w : relay_grows w (run_update i c f w).2.
Proof.
  unfold run_update. destruct f.
  - pose proof (query_grows (λ now, update_message_processing_status now i SNS_Published) w) as Hq.
    by destruct (query _ w).
  - unfold update_message_status_queued_or_failed, utc_now. rewrite bind_ask.
    destruct (dead_letter_give_up_check _ _ _);
    (match goal with |- context [query ?q (bump w)] => pose proof (query_grows q (bump w)) as Hq end;
     destruct (query _ (bump w)); cbn in *; etrans; [apply relay_grows_bump|done]).
Qed.

Lemma process_handed n w w' :
  process_notification notify_url n w = (Ok (), w') → handed_over n w'.
Proof.
  unfold process_notification. intros (p & w1 & Hp & Hr)%bind_Ok_inv.
  unfold prepare_notification, utc_now, random_bytes in Hp. rewrite !bind_ask in Hp.
  apply lift_Ok_inv in Hp as [Hp ->]. apply m_map_err_Ok_inv in Hr.
  destruct (retry_run _ _ _ (bump (bump (bump w))) (publish_single p))
    as [(k & _ & _ & Hg & Hrun)|(_ & e & Hrun)];
    unfold publish_relay_message in Hr; rewrite Hrun in Hr; [|done]. injection Hr as <-.
  eexists _, _, _, p, _. split_and!; [exact Hp| |].
  - cbn. apply elem_of_app. right. left.
  - intros Hrel. rewrite Hrel in Hg. done.
Qed.

(** A step in which other statements record nothing as published. *)
Definition publisher_step (s s' : Service) : Prop := ∃ e, step notify_url e s = Some s' ∧
  match e with
  | EOther _ => ∀ i, status s' i = Some Published → status s i = Some Published
  | _ => True
  end.

Definition from_db (n : NotificationToProcess) : Prop :=
  ∃ db, (select_for_processing (np_subscriber_notification n) db).1 = Ok (Some n).

Definition worker_ok (w : World) (x : Worker) : Prop :=
  match x with
  | Working n => from_db n
  | Updating i _ ToPublished => delivered i w
  | _ => True
  end.

Definition handed_inv (s : Service) : Prop :=
  (∀ k x, sv_workers s !! k = Some x → worker_ok (sv_world s) x) ∧
  (∀ i, status s i = Some Published → delivered i (sv_world s)).

Lemma worker_ok_grows x w w' : relay_grows w w' → worker_ok w x → worker_ok w' x.
Proof. intros Hg. destruct x as [| |? ? []| |]; cbn; try done. by apply delivered_grows. Qed.

Lemma handed_inv_set s k x w :
  handed_inv s → relay_grows (sv_world s) w → worker_ok w x →
  (∀ i, sn_status <$> (rows (w_db w) !! i) = Some Published →
     status s i = Some Published ∨ delivered i w) →
  handed_inv (set_worker k (x, w) s).
Proof.
  intros [Hw Hr] Hg Hx Hst. split.
  - intros j y. cbn. rewrite lookup_insert. case_decide; [by intros [= <-]|].
    intros Hy. eapply worker_ok_grows; [exact Hg|]. by eapply Hw.
  - intros i Hi. unfold status, sv_rows in Hi. cbn in *. destruct (Hst i Hi); [|done].
    eapply delivered_grows; [exact Hg|]. by apply Hr.
Qed.

Lemma handed_inv_world s w l ws c :
  handed_inv s → relay_grows (sv_world s) w →
  (∀ k x, ws !! k = Some x → sv_workers s !! k = Some x ∨ x = Picking) →
  (∀ i, sn_status <$> (rows (w_db w) !! i) = Some Published → status s i = Some Published) →
  handed_inv (mkService w ws c l).
Proof.
  intros [Hw Hr] Hg Hws Hst. split.
  - intros k x Hx. destruct (Hws k x Hx) as [Hx'| ->]; [|done].
    eapply worker_ok_grows; [exact Hg|]. by eapply Hw.
  - intros i Hi. eapply delivered_grows; [exact Hg|]. by apply Hr, Hst.
Qed.

Lemma run_pick_ok locked choose w :
  worker_ok (run_pick locked choose w).2 (run_pick locked choose w).1 ∧
  relay_grows w (run_pick locked choose w).2.
Proof.
  pose proof (query_grows (λ now, pick_subscriber_notification_for_processing now locked choose) w) as Hg.
  unfold run_pick, pick. unfold query in *. cbv zeta in *.
  destruct (env_db_fault (w_tick w)); [done|].
  destruct (pick_effect (env_now (w_tick w)) locked choose (w_db w))
    as [[Hrun _]|(i & r & db' & _ & _ & _ & Hrun & _)]; rewrite Hrun in *; [done|].
  destruct ((select_for_processing i db').1) as [[n|]|e|] eqn:E; split; try done.
  exists db'. by rewrite (select_for_processing_id _ _ _ E).
Qed.

Lemma run_process_ok n w :
  from_db n → worker_ok (run_process notify_url n w).2 (run_process notify_url n w).1 ∧
  relay_grows w (run_process notify_url n w).2.
Proof.
  intros [db Hn]. pose proof (process_grows n w) as Hg. unfold run_process.
  destruct (process_notification notify_url n w) as [[[]|e|] w'] eqn:E; (split; [|exact Hg]); try done.
  exists n, db. split; [done|]. by eapply process_handed.
Qed.

Lemma run_timeout_ok n calls w :
  worker_ok (run_timeout notify_url n calls w).2 (run_timeout notify_url n calls w).1 ∧
  relay_grows w (run_timeout notify_url n calls w).2.
Proof.
  pose proof (prepare_grows n w) as Hg. unfold run_timeout.
  destruct (prepare_notification notify_url n w) as [[p|e|] w']; split; try done.
  cbn in *. etrans; [exact Hg|apply after_calls_grows].
Qed.

Lemma handed_inv_step s s' : handed_inv s → publisher_step s s' → handed_inv s'.
Proof.
  intros Hinv (e & He & Hside). pose proof Hinv as [Hw Hr].
  destruct e as [k locked choose|k|k calls|k|k| | |k| | |q]; cbn [step] in He; cbv zeta in He.
  - destruct (sv_workers s !! k) as [[]|] eqn:Ek; try done. injection He as <-.
    destruct (run_pick_ok locked choose (sv_world s)) as [Hok Hg].
    pose proof (run_pick_effect locked choose (sv_world s)) as Hp.
    destruct (run_pick locked choose (sv_world s)) as [x w']. apply handed_inv_set; [done..|].
    intros i Hi. left. unfold status, sv_rows.
    destruct Hp as [[_ Heq]|(now & j & r & _ & _ & Heq & _)]; rewrite Heq in Hi; [done|].
    rewrite lookup_insert in Hi. by case_decide.
  - destruct (sv_workers s !! k) as [[]|] eqn:Ek; try done. injection He as <-.
    destruct (run_process_ok n (sv_world s) (Hw _ _ Ek)) as [Hok Hg].
    pose proof (run_process_effect notify_url n (sv_world s)) as Hp.
    destruct (run_process notify_url n (sv_world s)) as [x w']. apply handed_inv_set; [done..|].
    intros i Hi. left. unfold status, sv_rows. destruct Hp as [Hp _]. by rewrite Hp in Hi.
  - destruct (sv_workers s !! k) as [[]|] eqn:Ek; try done. destruct (_ <=? _)%nat; [|done].
    injection He as <-. destruct (run_timeout_ok n calls (sv_world s)) as [Hok Hg].
    pose proof (run_timeout_effect notify_url n calls (sv_world s)) as Hp.
    destruct (run_timeout notify_url n calls (sv_world s)) as [x w']. apply handed_inv_set; [done..|].
    intros i Hi. left. unfold status, sv_rows. destruct Hp as [Hp _]. by rewrite Hp in Hi.
  - destruct (sv_workers s !! k) as [[|?|i c f| |]|] eqn:Ek; try done. injection He as <-.
    pose proof (run_update_effect i c f (sv_world s)) as Hp.
    pose proof (run_update_grows i c f (sv_world s)) as Hg. specialize (Hw _ _ Ek). cbn in Hw.
    destruct (run_update i c f (sv_world s)) as [x w']. destruct Hp as [Hx Hp].
    apply handed_inv_set; [done|done|by destruct Hx as [->|[->| ->]]|].
    intros j Hj. destruct Hp as [Hp|(now & st & Hp & Hst & _)]; rewrite Hp in Hj; [by left|].
    rewrite lookup_alter in Hj. case_decide; [|by left]. subst.
    destruct (rows (w_db (sv_world s)) !! j) as [r|] eqn:E; [|done]. cbn in Hj. injection Hj as ->.
    rewrite (proj1 Hst eq_refl) in Hw. right. by eapply delivered_grows.
  - destruct (sv_workers s !! k) as [[]|] eqn:Ek; try done. injection He as <-.
    eapply (handed_inv_world s); [done|done| |done]. intros j x Hx. left.
    by apply lookup_delete_Some in Hx as [_ Hx].
  - case_decide; [|done]. injection He as <-.
    eapply (handed_inv_world s); [done|exists []; by rewrite app_nil_r|by left|done].
  - destruct (sv_listener s); try done. destruct (deliveries _); [done|]. injection He as <-.
    eapply (handed_inv_world s); [done|exists []; by rewrite app_nil_r|by left|done].
  - case_decide; [|done]. injection He as <-. eapply (handed_inv_world s); [done|done| |done].
    intros j x [[_ <-]|[_ Hx]]%lookup_insert_Some; [by right|by left].
  - injection He as <-. by apply (handed_inv_world s); [|done|left|].
  - injection He as <-. eapply (handed_inv_world s); [done|apply query_grows|by left|].
    intros i Hi. unfold status, sv_rows. unfold query in Hi. cbv zeta in Hi.
    destruct (env_db_fault _); [done|].
    destruct (dead_letters_effect (env_now (w_tick (sv_world s))) PUBLISHING_TIMEOUT
      (w_db (sv_world s))) as (db' & Hrun & _ & Hl). rewrite Hrun in Hi. cbn in Hi. rewrite Hl in Hi.
    destruct (rows (w_db (sv_world s)) !! i); [|done]. cbn in *. by case_decide.
  - injection He as <-. eapply (handed_inv_world s); [done|apply query_grows|by left|exact Hside].
Qed.

(** C18. A row is recorded as published only after a message made from it was
    sent to the relay and accepted: in every state reachable from a start where
    no row is published, each published row has such a message in the relay's
    log, whatever the order of the tasks' actions. *)
Theorem published_was_delivered w s :
  (∀ i r, rows (w_db w) !! i = Some r → sn_status r ≠ Published) →
  rtc publisher_step (start w) s →
  ∀ i, status s i = Some Published → delivered i (sv_world s).
Proof.
  intros Hw Hs. assert (Hinv : handed_inv (start w)).
  { split.
    - intros k x Hx%elem_of_list_to_map_2%list_elem_of_fmap.
      destruct Hx as (m & [= -> ->] & _). done.
    - intros i. unfold status, sv_rows. cbn. destruct (rows (w_db w) !! i) as [r|] eqn:E; [|done].
      cbn. intros [= Hp]. by destruct (Hw i r E). }
  revert Hinv. generalize dependent (start w). intros s0 Hs. clear Hw.
  induction Hs as [|x y z Hxy _ IH]; [by intros [_ Hr]; apply Hr|]. intros Hx.
  apply IH. by eapply handed_inv_step.
Qed.
End handed.

(** ** The queue drains *)

Section drain.
Context `{!Ext, !HashLaws, !HexLaws, !CipherLaws, !Base64Laws, !SigLaws}.
Context `{!BuildProfile, !JwtConsts}.
Context `{!Json JwtHeader, !JsonLaws JwtHeader, !Json NotifyMessage, !JsonLaws NotifyMessage}.
Context `{!JsonRpcConsts, !Json (JsonRpcRequest NotifyMessageAuth),
          !JsonLaws (JsonRpcRequest NotifyMessageAuth)}.
Context `{UrlOps, !Env}.
Context (notify_url : Url).

(** No fault, a relay that takes every message, and a URL that joins. *)
Class Healthy : Prop := {
  healthy_db i : env_db_fault i = false;
  healthy_relay i p : env_relay i (RelayPublishReq p) ≠ Some OtherRelayError;
  healthy_url u : is_Some (url_join notify_url ("/v1/notification/" +:+ uuid_to_string u));
}.

Definition queued (w : World) : gset Uuid :=
  dom (filter (λ kv, sn_status kv.2 = Queued) (rows (w_db w))).

Lemma elem_of_queued w i :
  i ∈ queued w ↔ ∃ r, rows (w_db w) !! i = Some r ∧ sn_status r = Queued.
Proof.
  unfold queued. rewrite elem_of_dom. unfold is_Some. setoid_rewrite map_lookup_filter_Some. done.
Qed.

Lemma select_for_processing_total i r db :
  wf_db db → typed_db db → rows db !! i = Some r →
  ∃ n, (select_for_processing i db).1 = Ok (Some n) ∧ np_subscriber_notification n = i ∧
    is_ok (decode_key (np_project_authentication_private_key n)) = true ∧
    is_ok (decode_key (np_project_authentication_public_key n)) = true ∧
    is_ok (decode_key (np_subscriber_sym_key n)) = true.
Proof.
  intros Hwf Hty Hr. destruct (wf_sn_fk _ Hwf _ _ Hr) as [[nt Hnt] [s Hs]].
  destruct (wf_notification_fk _ Hwf _ _ Hnt) as [p Hp].
  destruct (ty_subscriber _ Hty _ _ Hs) as (Ha & k & Hk & Hsk & _).
  destruct (ty_project _ Hty _ _ Hp) as (ak & sk & Hak & _ & Hpub & Hpriv & _).
  unfold select_for_processing. rewrite bind_gets. unfold id.
  rewrite Hr. cbn [mbind option_bind]. rewrite Hnt. cbn [mbind option_bind].
  rewrite Hs. cbn [mbind option_bind]. rewrite Hp. cbn [mbind option_bind].
  rewrite (bind_Ok _ _ _ _ _ (decode_account_valid _ db Ha)).
  eexists. split; [done|].
  cbn [np_subscriber_notification np_project_authentication_private_key
       np_project_authentication_public_key np_subscriber_sym_key].
  rewrite Hpub, Hpriv, Hsk.
  unfold encode_authentication_public_key, encode_authentication_private_key.
  rewrite !decode_key_encode; try done. apply (verifying_key_valid ak Hak).
Qed.

Context `{!Healthy}.

Lemma process_notification_healthy n w :
  is_ok (decode_key (np_project_authentication_private_key n)) = true →
  is_ok (decode_key (np_project_authentication_public_key n)) = true →
  is_ok (decode_key (np_subscriber_sym_key n)) = true →
  ∃ p, process_notification notify_url n w =
    (Ok (), after_calls (RelayPublishReq p) 1 1 (Nat.iter 3 bump w)).
Proof.
  intros Hk1 Hk2 Hk3. unfold process_notification, prepare_notification, utc_now, random_bytes.
  set (w1 := bump (bump (bump w))).
  edestruct (notification_publish_total notify_url (env_now (w_tick w)) (env_message_id (S (w_tick w)))
    (env_random (S (S (w_tick w))) 12) n) as [p Hp]; [done..|apply healthy_url|].
  exists p.
  assert (Hprep : (now ← ask env_now; msg_id ← ask env_message_id;
    nonce ← ask (λ i, env_random i 12); lift (notification_publish notify_url now msg_id nonce n)) w
    = (Ok p, w1)).
  { rewrite !bind_ask. cbn [w_tick bump]. unfold lift. by rewrite Hp. }
  rewrite (bind_Ok _ _ _ _ _ Hprep).
  destruct (retry_run _ _ _ w1 (publish_single p)) as [(k & _ & Hj & _ & Hrun)|(Hj & _)].
  - assert (k = 0)%nat as ->.
    { destruct k as [|k]; [done|]. specialize (Hj 0%nat ltac:(lia)).
      pose proof (healthy_relay (w_tick w1 + 2 * 0) p). by repeat case_match. }
    unfold m_map_err, publish_relay_message. by rewrite Hrun.
  - specialize (Hj 0%nat ltac:(unfold MAX_TRIES; lia)).
    pose proof (healthy_relay (w_tick w1 + 2 * 0) p). by repeat case_match.
Qed.

(** One iteration of the loop when a row is queued. *)
Lemma iteration fuel w :
  wf_db (w_db w) → typed_db (w_db w) → queued w ≠ ∅ →
  ∃ i r now now' w', rows (w_db w) !! i = Some r ∧ sn_status r = Queued ∧
    process_queued_messages notify_url (S fuel) w = process_queued_messages notify_url fuel w' ∧
    rows (w_db w') = <[i := row_with now' Published (row_with now Processing r)]> (rows (w_db w)) ∧
    wf_db (w_db w') ∧ typed_db (w_db w') ∧ ∃ p, w_relay w' = w_relay w ++ [RelayPublishReq p].
Proof.
  intros Hwf Hty Hne. cbn [process_queued_messages]. unfold pick, query at 1. cbv zeta.
  rewrite healthy_db. set (now := env_now (w_tick w)).
  destruct (pick_effect now ∅ 0 (w_db w))
    as [[_ Hnone]|(i & r & db1 & Hr & Hst & _ & Hpick & Hrows & Hsame)].
  { apply set_choose_L in Hne as [i (r & Hr & Hst)%elem_of_queued].
    specialize (Hnone i r Hr Hst). set_solver. }
  assert (Hwf1 : wf_db db1).
  { pose proof (pick_wf now ∅ 0 (w_db w) Hwf) as Hw. by rewrite Hpick in Hw. }
  assert (Hty1 : typed_db db1) by (by eapply same_typed_typed; [apply Hsame|]).
  assert (Hr1 : rows db1 !! i = Some (row_with now Processing r))
    by (by rewrite Hrows, lookup_insert_eq).
  destruct (select_for_processing_total i _ db1 Hwf1 Hty1 Hr1) as (n & Hn & Hid & Hk1 & Hk2 & Hk3).
  rewrite Hpick, Hn.
  set (w1 := bump (set_w_db (λ _, db1) w)).
  destruct (process_notification_healthy n w1 Hk1 Hk2 Hk3) as (p & ->).
  set (w2 := after_calls _ _ _ _). unfold query. cbv zeta. rewrite healthy_db, Hid.
  set (now' := env_now (w_tick w2)).
  destruct (update_effect now' i SNS_Published (w_db w2)) as (db2 & Hupd & Hrows2 & Hsame2).
  assert (Hwf2 : wf_db db2).
  { pose proof (update_message_processing_status_wf now' i SNS_Published (w_db w2) Hwf1) as Hw.
    by rewrite Hupd in Hw. }
  rewrite Hupd. exists i, r, now, now', (bump (set_w_db (λ _, db2) w2)).
  split_and!; try done.
  - cbn [w_db bump set_w_db]. rewrite Hrows2. change (rows (w_db w2)) with (rows db1).
    rewrite Hrows. rewrite alter_insert_eq. done.
  - cbn [w_db bump set_w_db]. eapply same_typed_typed; [apply Hsame2|exact Hty1].
  - by exists p.
Qed.

(** C19. A worker alone drains the queue: with a healthy relay and database, on a
    well-formed database, one iteration per queued row and a last one suffice
    for [process_queued_messages] to return; then every row that was queued is
    published, every other row is as before, and the relay got exactly one
    message per queued row. *)
Theorem queue_drains w fuel :
  wf_db (w_db w) → typed_db (w_db w) → (size (queued w) < fuel)%nat →
  ∃ w' ps, process_queued_messages notify_url fuel w = Some (Ok (), w') ∧
    (∀ i, i ∈ queued w → sn_status <$> (rows (w_db w') !! i) = Some Published) ∧
    (∀ i, i ∉ queued w → rows (w_db w') !! i = rows (w_db w) !! i) ∧
    w_relay w' = w_relay w ++ (RelayPublishReq <$> ps) ∧ length ps = size (queued w).
Proof.
  revert w. induction fuel as [|fuel IH]; intros w Hwf Hty Hsize; [lia|].
  destruct (decide (queued w = ∅)) as [He|Hne].
  - exists (bump w), []. rewrite He. split_and!; [|set_solver|done|by rewrite app_nil_r|done].
    cbn [process_queued_messages]. unfold pick, query. cbv zeta. rewrite healthy_db.
    destruct (pick_effect (env_now (w_tick w)) ∅ 0 (w_db w))
      as [[-> _]|(i & r & db' & Hr & Hst & _)]; [by destruct w|].
    assert (i ∈ queued w) by (apply elem_of_queued; eauto). set_solver.
  - destruct (iteration fuel w Hwf Hty Hne)
      as (i & r & now & now' & w1 & Hr & Hst & Hrun & Hrows & Hwf1 & Hty1 & p & Hrel).
    assert (Hq : queued w1 = queued w ∖ {[i]}).
    { apply set_eq. intros j. rewrite elem_of_difference, elem_of_singleton, !elem_of_queued.
      rewrite Hrows. setoid_rewrite lookup_insert. case_decide; naive_solver. }
    assert (Hi : i ∈ queued w) by (apply elem_of_queued; eauto).
    assert (Hs : size (queued w) = S (size (queued w1))).
    { rewrite Hq. rewrite size_difference by set_solver. rewrite size_singleton.
      assert (size (queued w) ≠ 0)%nat by (intros ?%size_empty_inv; set_solver). lia. }
    destruct (IH w1 Hwf1 Hty1 ltac:(lia)) as (w' & ps & Hrun' & Hpub & Hoth & Hrel' & Hlen).
    exists w', (p :: ps). split_and!.
    + by rewrite Hrun.
    + intros j Hj. destruct (decide (j = i)) as [->|Hne'].
      * rewrite Hoth by set_solver. by rewrite Hrows, lookup_insert_eq.
      * apply Hpub. set_solver.
    + intros j Hj. rewrite Hoth by set_solver. rewrite Hrows, lookup_insert_ne; [done|].
      intros <-. done.
    + rewrite Hrel', Hrel, <-app_assoc. done.
    + cbn. lia.
Qed.
End drain.

(** ** Witnesses *)

Section publisher_witnesses.
Import Concrete.Instances JwtInstances EnvInstances MessageInstances.

(** A healthy outside, whose clock advances 100 seconds per interaction. *)
Definition slow_env : Env :=
  {| env_now i := 100 * usec * Z.of_nat i;
     env_random i n := replicate n (Concrete.N_byte (N.of_nat (i + 1)));
     env_uuid i j := N.of_nat (1000 + 100 * i + j);
     env_message_id i := Z.of_nat i;
     env_db_fault i := false;
     env_redis_now i := 100 * usec * Z.of_nat i;
     env_redis_pool_fault i := false;
     env_redis_fault i := false;
     env_relay _ _ := None;
     env_http_get _ _ := None |}.
#[local] Existing Instance slow_env.

Definition url_w : Url := "https://notify.example.com".

#[local] Instance slow_healthy : Healthy url_w.
Proof. split; [done|done|]. intros p. by eexists. Qed.

Lemma run_rtc (R : relation Service) es : ∀ s s',
  (∀ e x y, e ∈ es → step url_w e x = Some y → R x y) → run url_w es s = Some s' → rtc R s s'.
Proof.
  induction es as [|e es IH]; intros s s' HR; cbn; [intros [= ->]; apply rtc_refl|].
  destruct (step url_w e s) as [s1|] eqn:E; cbn; [|done]. intros Hrun.
  eapply rtc_l; [by eapply HR; [left|]|]. apply IH; [|done]. intros e' x y He'. apply HR. by right.
Qed.

(** Worker 0 publishes the only queued row; worker 1 finds none and exits. *)
Definition events_w : list Event :=
  [EPick 0 ∅ 0; EPick 1 ∅ 0; EExit 1; EProcess 0; EUpdate 0].
Definition start_w : Service := start (world_w db4_w).
Definition end_w : Service := default start_w (run url_w events_w start_w).

Lemma end_w_run : run url_w events_w start_w = Some end_w.
Proof. by vm_compute. Qed.

Lemma end_w_facts :
  (status end_w 4%N, sv_counter end_w, length (w_relay (sv_world end_w))) = (Some Published, 49, 1%nat).
Proof. by vm_compute. Qed.

Lemma end_w_plain (R : relation Service) :
  (∀ e x y, step url_w e x = Some y →
     match e with EDeadLetters | EOther _ => False | _ => True end → R x y) →
  rtc R start_w end_w.
Proof.
  intros HR. apply (run_rtc R events_w); [|exact end_w_run].
  intros e x y He Hs. apply (HR e); [done|]. unfold events_w in He.
  repeat (apply elem_of_cons in He as [->|He]; [done|]). by apply elem_of_nil in He.
Qed.

Lemma worker_counter_witness :
  sv_counter end_w = Z.of_nat (size (sv_workers end_w)) ∧ 0 <= sv_counter end_w <= MAX_WORKERS.
Proof.
  apply (worker_counter url_w (world_w db4_w) end_w).
  apply end_w_plain. intros e x y Hs _. exists e. exact Hs.
Defined.

(** One more step: worker 0 looks at the queue again. *)
Definition later_w : Service := default end_w (step url_w (EPick 0 ∅ 0) end_w).

Lemma later_w_step : step url_w (EPick 0 ∅ 0) end_w = Some later_w.
Proof. by vm_compute. Qed.

Lemma row_life_cycle_witness :
  transition (status end_w 4%N) (status later_w 4%N) ∧
  (status end_w 4%N, status later_w 4%N) = (Some Published, Some Published).
Proof.
  split; [|vm_compute; reflexivity].
  apply (row_life_cycle url_w (world_w db4_w) end_w).
  - apply end_w_plain. intros e x y Hs He. exists e. split; [exact Hs|]. by destruct e.
  - exists (EPick 0 ∅ 0). split; [exact later_w_step|exact I].
Defined.

Lemma db4_w_row i r : rows db4_w !! i = Some r → sn_status r = Queued ∧ i = 4%N.
Proof.
  intros Hr. assert (Hf : map_to_list (rows db4_w) = [(4%N, mkSubscriberNotificationRow 3 2 Queued 0 0 false)])
    by (by vm_compute).
  apply elem_of_map_to_list in Hr. rewrite Hf in Hr. apply list_elem_of_singleton in Hr.
  injection Hr as Hi ->. exact (conj eq_refl Hi).
Qed.

Lemma published_was_delivered_witness : delivered url_w 4%N (sv_world end_w).
Proof.
  apply (published_was_delivered url_w (world_w db4_w) end_w).
  - intros i r Hr. apply db4_w_row in Hr as [Hq _]. rewrite Hq. discriminate.
  - apply end_w_plain. intros e x y Hs He. exists e. split; [exact Hs|]. by destruct e.
  - by vm_compute.
Defined.

Lemma queue_drains_witness :
  ∃ w' ps, process_queued_messages url_w 2 (world_w db4_w) = Some (Ok (), w') ∧
    sn_status <$> (rows (w_db w') !! 4%N) = Some Published ∧
    w_relay w' = [] ++ (RelayPublishReq <$> ps) ∧ length ps = 1%nat.
Proof.
  assert (Hq : queued (world_w db4_w) = {[4%N]}).
  { apply set_eq. intros i. rewrite elem_of_queued, elem_of_singleton. split.
    - intros (r & Hr & _). by apply db4_w_row in Hr as [_ ->].
    - intros ->. eexists. split; [vm_compute; reflexivity|done]. }
  destruct (queue_drains url_w (world_w db4_w) 2) as (w' & ps & Hrun & Hpub & _ & Hrel & Hlen).
  - exact db4_w_wf.
  - exact db4_w_typed.
  - rewrite Hq, size_singleton. lia.
  - exists w', ps. rewrite Hq, size_singleton in Hlen. rewrite Hq in Hpub.
    split_and!; [exact Hrun|apply Hpub, elem_of_singleton; reflexivity|exact Hrel|exact Hlen].
Defined.
End publisher_witnesses.
