(* ===== verification/PublisherRaces.v ===== *)
(** * What the publisher does not guard against (publisher_service/mod.rs)

    Two consequences of the way the tasks of the publisher share the queue: the
    result of a worker is recorded whatever has become of its row meanwhile, and
    an announcement wakes a worker by the counter alone. *)

From S2P Require Import Prelude RustStr Externals Concrete AccountId Errors Types RateLimit.
From S2P Require Import Database DbInvariant Subscriptions Jwt World RelayPublish NotifyMessage.
From S2P Require Import Queue Publisher.
Open Scope Z_scope.

(** ** Recording a result *)

(** The status a worker records, at a time, from its result and the age of the
    notification. *)
Definition recorded (f : Followup) (created_at now : Z) : Status :=
  match f with
  | ToPublished => Published
  | ToQueuedOrFailed =>
      if dead_letter_give_up_check now created_at PUBLISHING_GIVE_UP_TIMEOUT then Failed else Queued
  end.

Section update.
Context `{!Ext, !BuildProfile, !JwtConsts, !Json JwtHeader, !Json NotifyMessage}.
Context `{!JsonRpcConsts, !Json (JsonRpcRequest NotifyMessageAuth)}.
Context `{UrlOps, !Env}.
Context (notify_url : Url).

(** The database answers while the world is at [i], [i + 1] and so on. *)
Definition database_up (i : nat) : Prop := ∀ j, (i <= j)%nat → env_db_fault j = false.

Lemma query_update_runs i st st' w :
  cast_status (status_to_string st) = Some st' → env_db_fault (w_tick w) = false →
  ∃ now db', query (λ now, update_message_processing_status now i st) w =
      (Ok (), bump (set_w_db (λ _, db') w)) ∧
    rows db' = alter (row_with now st') i (rows (w_db w)).
Proof.
  intros Hst Hf. unfold query. cbv zeta. rewrite Hf.
  pose proof (update_effect (env_now (w_tick w)) i st (w_db w)) as Hu. rewrite Hst in Hu.
  destruct Hu as (db' & -> & Hrows & _). by exists (env_now (w_tick w)), db'.
Qed.

Lemma run_update_runs i c f w : database_up (w_tick w) →
  ∃ now db' n, run_update i c f w = (Picking, Nat.iter n bump (set_w_db (λ _, db') w)) ∧
    rows db' = alter (row_with now (recorded f c (env_now (w_tick w)))) i (rows (w_db w)).
Proof.
  intros Hup. unfold run_update. destruct f; cbn [recorded].
  - destruct (query_update_runs i SNS_Published Published w eq_refl) as (now & db' & -> & Hr);
      [by apply Hup|]. by exists now, db', 1%nat.
  - unfold update_message_status_queued_or_failed, utc_now. rewrite bind_ask.
    destruct (dead_letter_give_up_check _ _ _).
    + destruct (query_update_runs i SNS_Failed Failed (bump w) eq_refl) as (now & db' & -> & Hr);
        [apply Hup; cbn; lia|]. by exists now, db', 2%nat.
    + destruct (query_update_runs i SNS_Queued Queued (bump w) eq_refl) as (now & db' & -> & Hr);
        [apply Hup; cbn; lia|]. by exists now, db', 2%nat.
Qed.

Lemma iter_bump n w : w_db (Nat.iter n bump w) = w_db w ∧ w_tick (Nat.iter n bump w) = (n + w_tick w)%nat.
Proof.
  induction n as [|n [IHd IHt]]; [done|]. rewrite !Nat.iter_succ.
  split; [exact IHd|exact (f_equal S IHt)].
Qed.

(** The update of one worker. *)
Lemma update_step k i c f s :
  database_up (w_tick (sv_world s)) → sv_workers s !! k = Some (Updating i c f) →
  ∃ s', step notify_url (EUpdate k) s = Some s' ∧
    sv_workers s' = <[k := Picking]> (sv_workers s) ∧ database_up (w_tick (sv_world s')) ∧
    (w_tick (sv_world s) <= w_tick (sv_world s'))%nat ∧
    ∀ j, status s' j = if decide (j = i)
      then (λ _, recorded f c (env_now (w_tick (sv_world s)))) <$> status s i else status s j.
Proof.
  intros Hup Hk. destruct (run_update_runs i c f (sv_world s) Hup) as (now & db' & n & Hrun & Hrows).
  cbn [step]. rewrite Hk, Hrun. eexists. split; [done|]. unfold set_worker.
  cbn [sv_workers sv_world fst snd]. destruct (iter_bump n (set_w_db (λ _, db') (sv_world s))) as [Hd Ht].
  rewrite Ht. cbn [set_w_db w_tick]. split_and!; [done| |lia|].
  - intros j Hj. apply Hup. lia.
  - intros j. unfold status, sv_rows. cbn [sv_world]. rewrite Hd. cbn [set_w_db w_db].
    rewrite Hrows, lookup_alter. destruct (decide (i = j)) as [->|Hne].
    + rewrite decide_True by done. by destruct (rows _ !! j).
    + by rewrite decide_False by done.
Qed.

(** C38. A worker records its result blindly: the status it writes is a function
    of its result and the age of the notification only, whatever the status of
    the row has become.  So when two workers hold a row, because the dead
    letters check requeued it while one of them was still at work, the last one
    to record wins: a row recorded as published is queued again, to be published
    once more, by a worker that timed out. *)
Theorem result_recorded_blindly k i c f s :
  database_up (w_tick (sv_world s)) → sv_workers s !! k = Some (Updating i c f) →
  (∃ s', step notify_url (EUpdate k) s = Some s' ∧
     sv_workers s' = <[k := Picking]> (sv_workers s) ∧
     ∀ j, status s' j = if decide (j = i)
       then (λ _, recorded f c (env_now (w_tick (sv_world s)))) <$> status s i else status s j) ∧
  (∀ k' c' f', k' ≠ k → sv_workers s !! k' = Some (Updating i c' f') → is_Some (status s i) →
   ∃ s1 s2 t, step notify_url (EUpdate k) s = Some s1 ∧
     status s1 i = Some (recorded f c (env_now (w_tick (sv_world s)))) ∧
     step notify_url (EUpdate k') s1 = Some s2 ∧ (w_tick (sv_world s) <= t)%nat ∧
     status s2 i = Some (recorded f' c' (env_now t))).
Proof.
  intros Hup Hk. destruct (update_step k i c f s Hup Hk) as (s1 & Hs1 & Hws & Hup1 & Ht & Hst).
  split; [by exists s1|]. intros k' c' f' Hne Hk' [st Hi].
  assert (Hk1 : sv_workers s1 !! k' = Some (Updating i c' f')) by (by rewrite Hws, lookup_insert_ne).
  destruct (update_step k' i c' f' s1 Hup1 Hk1) as (s2 & Hs2 & _ & _ & _ & Hst2).
  assert (Hs1i : status s1 i = Some (recorded f c (env_now (w_tick (sv_world s)))))
    by (by rewrite Hst, decide_True, Hi).
  exists s1, s2, (w_tick (sv_world s1)). split_and!; [done..|]. by rewrite Hst2, decide_True, Hs1i.
Qed.
End update.

(** ** Waking a worker *)

Section wakeup.
Context `{!Ext, !BuildProfile, !JwtConsts, !Json JwtHeader, !Json NotifyMessage}.
Context `{!JsonRpcConsts, !Json (JsonRpcRequest NotifyMessageAuth)}.
Context `{UrlOps, !Env}.
Context (notify_url : Url).








End wakeup.

(** ** Witnesses *)

Module RaceInstances.
Import Concrete.Instances JwtInstances EnvInstances MessageInstances.
#[local] Existing Instance slow_env.

(** Worker 0 times out after five minutes; before it records that, the dead
    letters check requeues its row and worker 1 publishes it. *)
Definition race_w : list Event :=
  [EPick 0 ∅ 0; ETimeout 0 3; EDeadLetters; EPick 1 ∅ 0; EProcess 1].
Definition raced_w : Service := default start_w (run url_w race_w start_w).

(** Worker 1 records [Published], then worker 0 [Queued]. *)
Lemma result_recorded_blindly_witness :
  run url_w race_w start_w = Some raced_w ∧
  ∃ s1 s2 t, step url_w (EUpdate 1) raced_w = Some s1 ∧ status s1 4%N = Some Published ∧
    step url_w (EUpdate 0) s1 = Some s2 ∧ (w_tick (sv_world raced_w) <= t)%nat ∧
    status s2 4%N = Some (recorded ToQueuedOrFailed 0 (env_now t)).
Proof.
  split; [vm_compute; reflexivity|].
  apply (result_recorded_blindly url_w 1 4%N 0 ToPublished raced_w).
  - intros j _. reflexivity.
  - vm_compute. reflexivity.
  - discriminate.
  - vm_compute. reflexivity.
  - vm_compute. eexists. reflexivity.
Defined.

Example raced_twice :
  (λ s, status s 4%N) <$> run url_w (race_w ++ [EUpdate 1; EUpdate 0]) start_w = Some (Some Queued).
Proof. by vm_compute. Qed.





End RaceInstances.
