(* ===== verification/Siwx.v ===== *)
(** * ReCaps: the abilities a wallet grants (siwx/erc5573.rs, siwx/notify_recap.rs)

    Parsing of abilities and recap URIs and the statement a recap stands for in
    the message the user signs. *)

From Stdlib Require Import Ascii.
From stdpp Require Import pretty.
From S2P Require Import Prelude RustStr Regex Externals Concrete.
Open Scope Z_scope.

Record Ability := mkAbility { namespace : string; name : string }.

#[global] Instance Ability_eq_dec : EqDecision Ability.
Proof. solve_decision. Defined.
#[global] Program Instance Ability_countable : Countable Ability :=
  inj_countable' (λ a, (namespace a, name a)) (λ p, mkAbility p.1 p.2) _.
Next Obligation. by intros []. Qed.

(** [impl Serialize for Ability]. *)
Definition ability_to_string (a : Ability) : string := namespace a +:+ "/" +:+ name a.

Definition in_range (lo hi : ascii) (c : ascii) : bool :=
  (N_of_ascii lo <=? N_of_ascii c)%N && (N_of_ascii c <=? N_of_ascii hi)%N.

Definition ability_punct (c : ascii) : bool :=
  Ascii.eqb "." c || Ascii.eqb "*" c || Ascii.eqb "_" c || Ascii.eqb "+" c || Ascii.eqb "-" c.

(** The two character classes of the pattern; the second says [A-z]. *)
Definition namespace_char (c : ascii) : bool :=
  in_range "a" "z" c || in_range "A" "Z" c || in_range "0" "9" c || ability_punct c.
Definition name_char (c : ascii) : bool :=
  in_range "a" "z" c || in_range "A" "z" c || in_range "0" "9" c || ability_punct c.

Definition ABILITY_REGEX : re :=
  RSeq (RCap (RPlus namespace_char)) (RSeq (RChr "/") (RCap (RPlus name_char))).

(** [impl Deserialize for Ability]. *)
Definition ability_from_str (s : string) : option Ability :=
  match captures ABILITY_REGEX s with
  | Some [namespace; name] => Some (mkAbility namespace name)
  | _ => None
  end.

Abbreviation Abilities := (gmap Ability (list Value)).

Record ReCapDetailsObject := mkReCapDetailsObject { att : gmap string Abilities }.

Inductive RecapParseError := RecapDecode | RecapJson | InvalidUri (uri : string).

#[global] Instance RecapParseError_eq_dec : EqDecision RecapParseError.
Proof. solve_decision. Defined.

Definition RECAP_URI_PREFIX : string := "urn:recap:".

(** The entries of the object [att] in the order of the text. *)
Definition RawRecap : Type := list (string * list (string * list Value)).

(** Deserialization into [HashMap]s: every key must parse, and of equal keys the
    last entry counts. *)
Fixpoint abilities_of_entries (l : list (string * list Value)) (m : Abilities)
    : option Abilities :=
  match l with
  | [] => Some m
  | (k, v) :: l => a ← ability_from_str k; abilities_of_entries l (<[a := v]> m)
  end.

Fixpoint att_of_entries (l : RawRecap) (m : gmap string Abilities)
    : option (gmap string Abilities) :=
  match l with
  | [] => Some m
  | (uri, entries) :: l =>
      abilities ← abilities_of_entries entries ∅; att_of_entries l (<[uri := abilities]> m)
  end.

Definition not_newline (c : ascii) : bool := negb (Ascii.eqb "010" c).

Definition URI_REGEX : re :=
  RSeq (RPlus not_newline) (RSeq (RChr ":") (RStar not_newline)).

Definition uri_ok (uri : string) : bool := is_match URI_REGEX uri || String.eqb uri "eip155".

Section recap.
Context `{Base64Ops, !Json RawRecap}.

Definition recap_from_slice (b : bytes) : option ReCapDetailsObject :=
  raw ← from_json RawRecap b; m ← att_of_entries raw ∅; Some (mkReCapDetailsObject m).

(** The loop over [att.keys()]: which invalid key it reports is the map's. *)
Definition check_uris (recap : ReCapDetailsObject) : outcome RecapParseError ReCapDetailsObject :=
  match filter (λ uri, uri_ok uri = false) ((map_to_list (att recap)).*1) with
  | [] => Ok recap
  | uri :: _ => Err (InvalidUri uri)
  end.

Definition parse_recap (last_resource : option string)
    : outcome RecapParseError (option ReCapDetailsObject) :=
  match last_resource ≫= strip_prefix RECAP_URI_PREFIX with
  | None => Ok None
  | Some recap_encoded =>
      recap_decoded ← ok_or (b64_url_no_pad_decode recap_encoded) RecapDecode;
      recap ← ok_or (recap_from_slice recap_decoded) RecapJson;
      recap ← check_uris recap;
      Ok (Some recap)
  end.
End recap.

(** [Ord for String]: bytewise. *)
Definition string_le (s t : string) : Prop := String.leb s t = true.
#[global] Instance string_le_dec : RelDecision string_le.
Proof. intros s t. unfold string_le. apply _. Defined.
Definition sort_strings (l : list string) : list string := merge_sort string_le l.

(** [ability_groups]: the names of each namespace. *)
Definition push_ability (m : gmap string (list string)) (a : Ability) : gmap string (list string) :=
  <[namespace a := default [] (m !! namespace a) ++ [name a]]> m.
Definition ability_groups (abilities : Abilities) : gmap string (list string) :=
  foldl push_ability ∅ ((map_to_list abilities).*1).

Definition group_text (index : Z) (namespace : string) (names : list string) (uri : string)
    : string :=
  let abilities := join "," ((λ n, " '" +:+ n +:+ "'") <$> sort_strings names) in
  " (" +:+ pretty index +:+ ") '" +:+ namespace +:+ "':" +:+ abilities
  +:+ " for '" +:+ uri +:+ "'.".

(** One step of the inner loop on the statement and [ability_index]. *)
Definition add_group (uri : string) (groups : gmap string (list string))
    (acc : string * Z) (namespace : string) : string * Z :=
  let '(statement, ability_index) := acc in
  (statement +:+ group_text ability_index namespace (default [] (groups !! namespace)) uri,
   ability_index + 1).

Definition add_uri (recap : ReCapDetailsObject) (acc : string * Z) (uri : string) : string * Z :=
  let groups := ability_groups (default ∅ (att recap !! uri)) in
  foldl (add_group uri groups) acc (sort_strings ((map_to_list groups).*1)).

Definition STATEMENT_PREFIX : string :=
  "I further authorize the stated URI to perform the following actions on my behalf:".

Definition build_statement (recap : ReCapDetailsObject) : string :=
  (foldl (add_uri recap) (STATEMENT_PREFIX, 1)
     (sort_strings ((map_to_list (att recap)).*1))).1.

(** [test_utils::encode_recaip_uri], for an encoder of the recap's JSON. *)
Definition encode_recaip_uri `{Base64Ops, !Json RawRecap} (raw : RawRecap) : option string :=
  payload ← to_json raw; Some (RECAP_URI_PREFIX +:+ b64_url_no_pad_encode (as_bytes payload)).

(** ** notify_recap.rs *)

Definition NOTIFY_URI : string := "https://notify.walletconnect.com".
Definition ABILITY_NAMESPACE_MANAGE : string := "manage".
Definition ABILITY_ABILITY_ALL_APPS_MAGIC : string := "all-apps".
Definition ABILITY_ABILITY_SUFFIX : string := "-notifications".

(** [test_utils::build_recap_details_object]. *)
Definition build_recap_details_object (d : option string) : ReCapDetailsObject :=
  mkReCapDetailsObject {[NOTIFY_URI :=
    {[mkAbility ABILITY_NAMESPACE_MANAGE
        (default ABILITY_ABILITY_ALL_APPS_MAGIC d +:+ ABILITY_ABILITY_SUFFIX) := [VObject []]]}]}.

(** ** The vectors of the source's tests *)

Definition abilities_vec (l : list (string * string)) : Abilities :=
  list_to_map ((λ p, (mkAbility p.1 p.2, [VObject []])) <$> l).

Example statement1_vec :
  build_statement (mkReCapDetailsObject
    {["https://example.com/pictures/" :=
        abilities_vec [("crud", "delete"); ("crud", "update"); ("other", "action")];
      "mailto:username@example.com" := abilities_vec [("msg", "receive"); ("msg", "send")]]})
  = STATEMENT_PREFIX +:+ " (1) 'crud': 'delete', 'update' for 'https://example.com/pictures/'. (2) 'other': 'action' for 'https://example.com/pictures/'. (3) 'msg': 'receive', 'send' for 'mailto:username@example.com'.".
Proof. by vm_compute. Qed.

Example statement_2_uri_2_namespace_2_ability_vec :
  build_statement (mkReCapDetailsObject
    {["uri2" := abilities_vec [("namespace1", "ability1"); ("namespace1", "ability2")];
      "uri1" := abilities_vec [("namespace1", "ability1"); ("namespace2", "ability1");
                               ("namespace1", "ability2"); ("namespace2", "ability2")]]})
  = STATEMENT_PREFIX +:+ " (1) 'namespace1': 'ability1', 'ability2' for 'uri1'. (2) 'namespace2': 'ability1', 'ability2' for 'uri1'. (3) 'namespace1': 'ability1', 'ability2' for 'uri2'.".
Proof. by vm_compute. Qed.

Example statement_empty_vec :
  (build_statement (mkReCapDetailsObject ∅), build_statement (mkReCapDetailsObject {["uri1" := ∅]}))
  = (STATEMENT_PREFIX, STATEMENT_PREFIX).
Proof. by vm_compute. Qed.

Example ability_parse_vec :
  (ability_from_str "crud/delete", ability_from_str "crud", ability_from_str "a/b/c",
   ability_from_str "a/[") =
  (Some (mkAbility "crud" "delete"), None, None, Some (mkAbility "a" "[")).
Proof. by vm_compute. Qed.

(** ** Theorems *)

Lemma slash_not_namespace c : namespace_char c = true → Ascii.eqb "/" c = false.
Proof.
  intros Hc. apply Ascii.eqb_neq. intros <-. revert Hc. by vm_compute.
Qed.

(** Parsing and printing abilities are inverse: a text parses to an ability
    exactly when it is the ability's text and its namespace and name are not
    empty and made of the allowed characters (those of the name include the
    six between [Z] and [a], as the pattern says [A-z]). *)
Theorem ability_from_str_iff s a :
  ability_from_str s = Some a ↔
  s = ability_to_string a ∧
  namespace a ≠ "" ∧ str_forallb namespace_char (namespace a) = true ∧
  name a ≠ "" ∧ str_forallb name_char (name a) = true.
Proof.
  assert (Hinv : ∀ c, matches ABILITY_REGEX s c → ∃ ns nm, c = [ns; nm] ∧
    s = ns +:+ String "/" nm ∧ ns ≠ "" ∧ str_forallb namespace_char ns = true ∧
    nm ≠ "" ∧ str_forallb name_char nm = true).
  { intros c Hm. unfold ABILITY_REGEX, RPlus in Hm. inv_matches. do 2 eexists.
    split; [done|]. split_and!; [done| |done| |done]; intros ->; simpl in *; lia. }
  unfold ability_from_str. split.
  - destruct (captures ABILITY_REGEX s) as [c|] eqn:Hc; [|done].
    apply captures_sound, Hinv in Hc as (ns & nm & -> & -> & ? & ? & ? & ?).
    intros [= <-]. unfold ability_to_string. cbn. split_and!; done.
  - intros (-> & Hn & Hnc & Hm & Hmc). destruct a as [ns nm]. unfold ability_to_string in *.
    cbn [namespace name] in *.
    assert (Hmt : matches ABILITY_REGEX (ns +:+ "/" +:+ nm) ([ns] ++ [] ++ [nm])).
    { assert (Hlen : ∀ t, t ≠ "" → (1 ≤ String.length t)%nat) by (intros [|? ?] ?; cbn; [done|lia]).
      unfold ABILITY_REGEX, RPlus. constructor; [|constructor; [apply matches_chr|]];
        constructor; constructor; auto; done. }
    destruct (captures_complete _ _ _ Hmt) as [c Hc]. rewrite Hc.
    apply captures_sound, Hinv in Hc as (ns' & nm' & -> & Heq & _ & Hnc' & _ & _).
    apply app_sep_inj in Heq as [-> ->]; [done| |];
      (eapply str_forallb_impl; [|eassumption]); intros c Hc; by rewrite slash_not_namespace.
Qed.

Lemma foldl_map_to_list_singleton {K V B} `{Countable K} (f : B → K → B) b (k : K) (v : V) :
  foldl f b ((map_to_list {[k := v]}).*1) = f b k.
Proof. by rewrite map_to_list_singleton. Qed.

(** The statement of the recap for the notifications of one app (or of all
    apps) is the same text as for the user: it names the app, the ability and
    the Notify URI. *)
Theorem notify_recap_statement d :
  build_statement (build_recap_details_object d) =
  STATEMENT_PREFIX +:+ " (1) 'manage': '" +:+ default "all-apps" d
  +:+ "-notifications' for 'https://notify.walletconnect.com'.".
Proof.
  unfold build_statement, build_recap_details_object. cbn [att].
  rewrite map_to_list_singleton. cbn [fmap list_fmap fst].
  unfold sort_strings at 1. cbn [merge_sort merge_sort_aux merge_list_to_stack merge_stack list_merge].
  cbn [foldl]. unfold add_uri. cbn [att]. rewrite lookup_singleton_eq. cbn [default].
  set (ab := mkAbility _ _).
  assert (Hg : ability_groups {[ab := [VObject []]]} = {[namespace ab := [name ab]]}).
  { unfold ability_groups. rewrite foldl_map_to_list_singleton. unfold push_ability.
    by rewrite lookup_empty, insert_empty. }
  unfold id. rewrite Hg, map_to_list_singleton. cbn [fmap list_fmap fst foldl].
  change (sort_strings [namespace ab]) with [namespace ab]. cbn [foldl]. unfold add_group.
  rewrite lookup_singleton_eq. cbn [default fst]. unfold group_text.
  change (sort_strings (id [name ab])) with [name ab].
  change (join "," ((λ n, " '" +:+ n +:+ "'") <$> [name ab])) with (" '" +:+ name ab +:+ "'").
  subst ab. cbn [namespace name]. unfold ABILITY_ABILITY_SUFFIX. rewrite !str_app_assoc. done.
Qed.

Section recap_roundtrip.
Context `{Base64Ops, !Base64Laws, !Json RawRecap, !JsonLaws RawRecap}.

Lemma check_uris_Ok recap :
  check_uris recap = Ok recap ↔ ∀ uri, is_Some (att recap !! uri) → uri_ok uri = true.
Proof.
  unfold check_uris. split.
  - destruct (filter _ _) eqn:E; [|done]. intros _ uri [m Hm].
    apply not_false_iff_true. intros Hf. eapply (filter_nil_not_elem_of _ _ uri E); [done|].
    apply list_elem_of_fmap. exists (uri, m). split; [done|]. by apply elem_of_map_to_list.
  - intros Hok. rewrite filter_all_false; [done|]. apply Forall_fmap, list.Forall_forall.
    intros [uri m] Hm%elem_of_map_to_list. cbn. by rewrite Hok by eauto.
Qed.
(** A recap whose keys all parse and whose URIs are valid is read back from
    its URI as the maps of its entries; without the [urn:recap:] prefix there is
    no recap, and no error. *)
Theorem recap_uri_roundtrip raw m :
  att_of_entries raw ∅ = Some m →
  (∀ uri, is_Some (m !! uri) → uri_ok uri = true) →
  (∃ uri, encode_recaip_uri raw = Some uri ∧
     parse_recap (Some uri) = Ok (Some (mkReCapDetailsObject m))) ∧
  parse_recap None = Ok None ∧
  (∀ s, starts_with RECAP_URI_PREFIX s = false → parse_recap (Some s) = Ok None).
Proof.
  intros Hm Hok. split_and!; [|done|].
  - unfold encode_recaip_uri. destruct (to_json_total raw) as [t Ht]. rewrite Ht.
    cbn [mbind option_bind]. eexists. split; [done|]. unfold parse_recap.
    cbn [mbind option_bind]. rewrite strip_prefix_app, b64_url_decode_encode.
    cbn [ok_or mbind outcome_bind]. unfold recap_from_slice. rewrite (from_to_json raw t Ht).
    cbn [mbind option_bind]. rewrite Hm. cbn [mbind option_bind ok_or outcome_bind].
    by rewrite (proj2 (check_uris_Ok (mkReCapDetailsObject m)) Hok).
  - intros s Hs. unfold parse_recap. cbn [mbind option_bind]. unfold starts_with in Hs.
    by destruct (strip_prefix RECAP_URI_PREFIX s).
Qed.
End recap_roundtrip.

(** ** A concrete codec of recaps, for the witness *)

Module RecapInstances.
Import Concrete.Instances.

Fixpoint value_tree (v : Value) : gen_tree (string + bool) :=
  match v with
  | VNull => GenNode 0 []
  | VBool b => GenNode 1 [GenLeaf (inr b)]
  | VNumber n => GenNode 2 [GenLeaf (inl n)]
  | VString s => GenNode 3 [GenLeaf (inl s)]
  | VArray l => GenNode 4 (value_tree <$> l)
  | VObject l => GenNode 5 ((λ p, GenNode 6 [GenLeaf (inl p.1); value_tree p.2]) <$> l)
  end.

Fixpoint tree_value (t : gen_tree (string + bool)) : Value :=
  match t with
  | GenNode 1 [GenLeaf (inr b)] => VBool b
  | GenNode 2 [GenLeaf (inl n)] => VNumber n
  | GenNode 3 [GenLeaf (inl s)] => VString s
  | GenNode 4 l => VArray (tree_value <$> l)
  | GenNode 5 l => VObject ((λ t, match t with
      | GenNode 6 [GenLeaf (inl k); t] => (k, tree_value t) | _ => ("", VNull) end) <$> l)
  | _ => VNull
  end.

Fixpoint tree_value_tree (v : Value) : tree_value (value_tree v) = v.
Proof.
  destruct v as [| | | |l|l]; try reflexivity; cbn [value_tree tree_value]; f_equal;
    rewrite <-list_fmap_compose.
  - induction l as [|v l IH]; [reflexivity|]. cbn.
    apply (f_equal2 cons); [apply tree_value_tree|exact IH].
  - induction l as [|[k v] l IH]; [reflexivity|]. cbn.
    apply (f_equal2 cons); [|exact IH]. apply (f_equal (pair k)), tree_value_tree.
Qed.

#[export] Instance Value_eq_dec : EqDecision Value.
Proof.
  refine (λ x y, cast_if (decide (value_tree x = value_tree y))); [|by intros ->].
  rewrite <-(tree_value_tree x), <-(tree_value_tree y). congruence.
Defined.
#[export] Instance Value_countable : Countable Value :=
  inj_countable' value_tree tree_value tree_value_tree.

#[export] Instance recap_fields : Fields RawRecap.
Proof.
  refine {| to_fields r := [enc r]; of_fields l := head l ≫= dec |}; [|done].
  intros r. cbn. apply dec_enc.
Defined.
#[export] Instance recap_json : Json RawRecap := fields_json.
#[export] Instance recap_json_laws : JsonLaws RawRecap := fields_json_laws.

Definition recap_w : RawRecap :=
  [(NOTIFY_URI, [("manage/app.example.com-notifications", [VObject []])])].
Definition recap_map_w : gmap string Abilities :=
  att (build_recap_details_object (Some "app.example.com")).

Lemma recap_uri_roundtrip_witness :
  ∃ uri, encode_recaip_uri recap_w = Some uri ∧
    parse_recap (Some uri) = Ok (Some (mkReCapDetailsObject recap_map_w)).
Proof.
  refine (proj1 (recap_uri_roundtrip recap_w recap_map_w _ _)).
  - apply (bool_decide_unpack _). vm_compute. exact I.
  - intros uri [m Hm]. unfold recap_map_w, build_recap_details_object in Hm. cbn [att] in Hm.
    apply lookup_singleton_Some in Hm as [<- _]. vm_compute; reflexivity.
Defined.
End RecapInstances.
