(* ===== verification/Cache.v ===== *)
(** * Redis as a key-value storage (registry/storage/)

    [KeyValueStorage::get], [set] and [del] of [Redis], over the cache of the
    world.  Values are MessagePack ([rmp_serde]), a parameter. *)

From S2P Require Import Prelude RustStr Externals Errors Database Jwt World.
Open Scope Z_scope.

Class Msgpack (A : Type) := {
  rmp_to_vec : A → option bytes;
  rmp_from_slice : bytes → option A;
}.

Class MsgpackLaws (A : Type) `{Msgpack A} : Prop := {
  rmp_from_to (a : A) b : rmp_to_vec a = Some b → rmp_from_slice b = Some a;
}.

Definition serialize {A} `{Msgpack A} (a : A) : outcome StorageError bytes :=
  ok_or (rmp_to_vec a) StorageError_Serialize.
Definition deserialize {A} `{Msgpack A} (b : bytes) : outcome StorageError A :=
  ok_or (rmp_from_slice b) StorageError_Deserialize.

(** What [GET] answers at a time: entries past their expiry are gone. *)
Definition cache_lookup (now : Z) (cache : gmap string CacheEntry) (key : string)
    : option bytes :=
  e ← cache !! key;
  match ce_expires e with
  | Some t => if t <? timestamp_millis now then None else Some (ce_data e)
  | None => Some (ce_data e)
  end.

Section redis.
Context `{UrlOps, !Env}.

(** One command on a connection of a pool. *)
Definition redis_cmd {A} (f : Z → gmap string CacheEntry → A * gmap string CacheEntry)
    : App StorageError A := λ w,
  let i := w_tick w in
  if env_redis_pool_fault i then (Err StorageError_Connection, bump w)
  else if env_redis_fault i then (Err StorageError_Other, bump w)
  else let '(a, cache) := f (env_redis_now i) (w_cache w) in
       (Ok a, bump (set_w_cache (λ _, cache) w)).

Definition redis_get {A} `{!Msgpack A} (key : string) : App StorageError (option A) :=
  data ← redis_cmd (λ now cache, (cache_lookup now cache key, cache));
  match data with
  | None => mret None
  | Some data => a ← lift (deserialize data); mret (Some a)
  end.

(** [ttl] in seconds. *)
Definition set_internal (key : string) (data : bytes) (ttl : option Z) : App StorageError () :=
  redis_cmd (λ now cache,
    ((), <[key := mkCacheEntry data ((λ t, timestamp_millis now + t * 1000) <$> ttl)]> cache)).

Definition redis_set {A} `{!Msgpack A} (key : string) (value : A) (ttl : option Z)
    : App StorageError () :=
  data ← lift (serialize value); set_internal key data ttl.

Definition redis_del (key : string) : App StorageError () :=
  redis_cmd (λ _ cache, ((), delete key cache)).

(** [tokio::spawn]: neither an error nor a panic of the task reaches the
    caller.  The task is run where it is spawned. *)
Definition spawn {E E' A} (m : App E' A) : App E () := λ w, (Ok (), (m w).2).

(** ** Lemmas *)

(** What a computation that only uses the cache leaves alone. *)
Definition only_cache : relation World := λ w w',
  w_db w' = w_db w ∧ w_buckets w' = w_buckets w ∧ w_relay w' = w_relay w ∧
  w_mailbox w' = w_mailbox w ∧ (w_tick w ≤ w_tick w')%nat.
#[global] Instance only_cache_preorder : PreOrder only_cache.
Proof.
  split; unfold only_cache; [intros w; split_and!; [done..|lia]|]. intros w1 w2 w3 (?&?&?&?&?) (?&?&?&?&?).
  split_and!; first [congruence|lia].
Qed.

Lemma keeps_redis_cmd {A} (f : Z → gmap string CacheEntry → A * gmap string CacheEntry) :
  keeps only_cache (redis_cmd f).
Proof.
  intros w. unfold redis_cmd, only_cache, bump, set_w_cache.
  repeat case_match; cbn in *; simplify_eq; cbn; (split_and!; [done..|lia]).
Qed.

Lemma keeps_spawn {E E' A} (R : relation World) (m : App E' A) :
  keeps R m → keeps R (spawn (E:=E) m).
Proof. intros Hm w. apply Hm. Qed.

Lemma keeps_only_cache_ask {E A} (f : nat → A) : keeps only_cache (ask (E:=E) f).
Proof. apply keeps_ask. intros w. unfold only_cache. cbn. split_and!; [done..|lia]. Qed.

Hint Resolve keeps_redis_cmd keeps_spawn keeps_only_cache_ask : keeps.

Lemma keeps_redis_get {A} `{!Msgpack A} key : keeps only_cache (redis_get (A:=A) key).
Proof. unfold redis_get. solve_keeps. Qed.

Lemma keeps_redis_set {A} `{!Msgpack A} key (a : A) ttl : keeps only_cache (redis_set key a ttl).
Proof. unfold redis_set, set_internal. solve_keeps. Qed.

(** A command whose connection works. *)
Lemma redis_cmd_run {A} (f : Z → gmap string CacheEntry → A * gmap string CacheEntry) w :
  env_redis_pool_fault (w_tick w) = false → env_redis_fault (w_tick w) = false →
  redis_cmd f w = (Ok (f (env_redis_now (w_tick w)) (w_cache w)).1,
                   bump (set_w_cache (λ _, (f (env_redis_now (w_tick w)) (w_cache w)).2) w)).
Proof. intros Hp Hf. unfold redis_cmd. rewrite Hp, Hf. by destruct (f _ _). Qed.

Lemma redis_get_run {A} `{!Msgpack A} key w :
  env_redis_pool_fault (w_tick w) = false → env_redis_fault (w_tick w) = false →
  redis_get (A:=A) key w =
  (match cache_lookup (env_redis_now (w_tick w)) (w_cache w) key with
   | None => Ok None
   | Some data => Some <$> deserialize data
   end, bump w).
Proof.
  intros Hp Hf. unfold redis_get, mbind, M_bind. rewrite redis_cmd_run by done. cbn [fst snd].
  replace (bump (set_w_cache (λ _, w_cache w) w)) with (bump w) by by destruct w.
  destruct (cache_lookup _ _ _) as [data|]; [|done]. unfold lift.
  by destruct (deserialize data).
Qed.

Lemma redis_get_Ok {A} `{!Msgpack A} key w (r : option A) w' :
  redis_get key w = (Ok r, w') →
  env_redis_pool_fault (w_tick w) = false ∧ env_redis_fault (w_tick w) = false ∧ w' = bump w.
Proof.
  destruct (env_redis_pool_fault (w_tick w)) eqn:Hp;
    [unfold redis_get, redis_cmd, mbind, M_bind; by rewrite Hp|].
  destruct (env_redis_fault (w_tick w)) eqn:Hf;
    [unfold redis_get, redis_cmd, mbind, M_bind; by rewrite Hp, Hf|].
  rewrite redis_get_run by done. naive_solver.
Qed.

(** A value is read back until its entry expires. *)
Lemma cache_lookup_insert now cache key data ttl t0 :
  cache_lookup now (<[key := mkCacheEntry data ((λ t, t0 + t * 1000) <$> ttl)]> cache) key =
  match ttl with
  | Some t => if t0 + t * 1000 <? timestamp_millis now then None else Some data
  | None => Some data
  end.
Proof. unfold cache_lookup. rewrite lookup_insert_eq. by destruct ttl. Qed.
End redis.

#[export] Hint Resolve keeps_redis_cmd keeps_spawn keeps_only_cache_ask
  keeps_redis_get keeps_redis_set : keeps.
