(* ===== verification/Identity.v ===== *)
(** * Identity keys (auth.rs, [verify_identity])

    A request of a wallet is signed by an identity key; the keys server holds
    the CACAO with which the account's owner authorised that key.  The server
    fetches it (through a cache), verifies it and reads from its statement or
    recap which apps the key may manage. *)

From Stdlib Require Import Ascii.
From S2P Require Import Prelude RustStr Regex Externals AccountId Errors Types Database.
From S2P Require Import Concrete Jwt World Siwx Cache.
Open Scope Z_scope.

Definition STATEMENT : string := "I further authorize this app to send and receive messages on my behalf using my WalletConnect identity. Read more at https://walletconnect.com/identity".
Definition STATEMENT_ALL_DOMAINS_IDENTITY : string := "I further authorize this app to send and receive messages on my behalf for ALL domains using my WalletConnect identity. Read more at https://walletconnect.com/identity".
Definition STATEMENT_THIS_DOMAIN_IDENTITY : string := "I further authorize this app to send and receive messages on my behalf for THIS domain using my WalletConnect identity. Read more at https://walletconnect.com/identity".
Definition STATEMENT_ALL_DOMAINS_OLD : string := "I further authorize this app to view and manage my notifications for ALL apps. Read more at https://walletconnect.com/notifications".
Definition STATEMENT_ALL_DOMAINS : string := "I further authorize this app to view and manage my notifications for ALL apps. Read more at https://walletconnect.com/notifications-all-apps".
Definition STATEMENT_THIS_DOMAIN : string := "I further authorize this app to send me notifications. Read more at https://walletconnect.com/notifications".

Inductive AuthorizedApp := Limited (domain : string) | Unlimited.

#[global] Instance AuthorizedApp_eq_dec : EqDecision AuthorizedApp.
Proof. solve_decision. Defined.

Record Authorization := mkAuthorization {
  auth_account : AccountId;
  auth_app : AuthorizedApp;
  auth_domain : string;
}.

#[global] Instance Authorization_eq_dec : EqDecision Authorization.
Proof. solve_decision. Defined.

(** [relay_rpc::auth::cacao]: what the server reads of a [Cacao].  [verify] may
    ask a blockchain provider, so its answer depends on the moment. *)
Class CacaoOps := {
  Cacao : Type;
  cacao_iss : Cacao → string;
  cacao_domain : Cacao → string;
  cacao_statement : Cacao → option string;
  cacao_resources : Cacao → option (list string);
  cacao_nbf : Cacao → option string;
  cacao_exp : Cacao → option string;
  cacao_verify : nat → Cacao → option bool;
  cacao_identity_key : Cacao → option string;
  parse_from_rfc3339 : string → option Z;
}.

Record KeyServerResponse `{CacaoOps} := mkKeyServerResponse {
  ksr_status : string;
  ksr_error : option Value;
  ksr_value : option Cacao;
}.

Inductive IdentityVerificationClientError :=
| NotRegistered | KsuNotUrl
| CacaoAccountId (e : AccountIdParseError)
| CacaoVerification | CacaoMissingIdentityKey | CacaoWrongIdentityKey
| CacaoStatementMissing | CacaoStatementInvalid | CacaoAccountMismatch
| CacaoNotYetValid | CacaoNbfParse | CacaoExpired | CacaoExpParse
| CacaoMoreThanOneRecapUri
| CacaoRecapParse (e : RecapParseError)
| CacaoStatementDoesNotMatchRecap | CacaoRecapNoNotifyUri | CacaoRecapNoAbilities
| CacaoRecapMoreThanOneAbility | CacaoRecapAbilityNamespaceNotManage
| CacaoRecapAbilityNameNotNotifications | CacaoRecapAbilityEmptyObjects
| CacaoRecapAbilityMoreThanOneObject | CacaoRecapAbilityNonEmptyObject
| CacaoRecapAbilityNameNotValidDomain.

Inductive IdentityVerificationInternalError :=
| Identity_Http | Identity_Json
| KeyServerNotSuccess (status : string) (error : option Value)
| KeyServerResponseMissingValue
| KeyServerUnsuccessfulResponse (status : Z)
| CacheLookup (e : StorageError)
| KeysServerRequestUrlConstruction.

Inductive IdentityVerificationError :=
| Identity_Client (e : IdentityVerificationClientError)
| Identity_Internal (e : IdentityVerificationInternalError).

Inductive KeysServerResponseSource := Source_Cache | Source_Server.

Definition KEYS_SERVER_STATUS_SUCCESS : string := "SUCCESS".
Definition KEYS_SERVER_IDENTITY_ENDPOINT : string := "/identity".
Definition KEYS_SERVER_IDENTITY_ENDPOINT_PUBLIC_KEY_QUERY : string := "publicKey".
Definition KEYS_SERVER_CACHE_TTL : Z := 7 * 86400.

Definition parse_cacao_statement (statement domain : string) : option AuthorizedApp :=
  if str_contains "DAPP" statement
     || String.eqb statement STATEMENT_THIS_DOMAIN_IDENTITY
     || String.eqb statement STATEMENT_THIS_DOMAIN
  then Some (Limited domain)
  else if str_contains "WALLET" statement
     || String.eqb statement STATEMENT
     || String.eqb statement STATEMENT_ALL_DOMAINS_IDENTITY
     || String.eqb statement STATEMENT_ALL_DOMAINS_OLD
     || String.eqb statement STATEMENT_ALL_DOMAINS
  then Some Unlimited
  else None.

(** [^[a-zA-Z0-9.-]+$]. *)
Definition domain_char (c : ascii) : bool :=
  in_range "a" "z" c || in_range "A" "Z" c || in_range "0" "9" c
  || Ascii.eqb "." c || Ascii.eqb "-" c.
Definition DOMAIN_REGEX : re := RPlus domain_char.

Definition is_empty_object (v : Value) : bool :=
  match v with VObject [] => true | _ => false end.

Section recap_app.
Context `{Base64Ops, !Json RawRecap}.

(** The abilities at the Notify URI. *)
Definition app_of_abilities (abilities : Abilities)
    : outcome IdentityVerificationClientError AuthorizedApp :=
  (if (1 <? length (map_to_list abilities))%nat then Err CacaoRecapMoreThanOneAbility else Ok ()) ;;
  '(ability, objects) ← ok_or (head (map_to_list abilities)) CacaoRecapNoAbilities;
  (if negb (String.eqb (namespace ability) ABILITY_NAMESPACE_MANAGE)
   then Err CacaoRecapAbilityNamespaceNotManage else Ok ()) ;;
  maybe_domain ← ok_or (strip_suffix ABILITY_ABILITY_SUFFIX (name ability))
                       CacaoRecapAbilityNameNotNotifications;
  (if (1 <? length objects)%nat then Err CacaoRecapAbilityMoreThanOneObject else Ok ()) ;;
  object ← ok_or (head objects) CacaoRecapAbilityEmptyObjects;
  (if negb (is_empty_object object) then Err CacaoRecapAbilityNonEmptyObject else Ok ()) ;;
  if String.eqb maybe_domain ABILITY_ABILITY_ALL_APPS_MAGIC then Ok Unlimited
  else if is_match DOMAIN_REGEX maybe_domain then Ok (Limited maybe_domain)
  else Err CacaoRecapAbilityNameNotValidDomain.

(** The block [let app = { .. }] of [verify_identity]. *)
Definition cacao_app (statement : option string) (resources : option (list string))
    (domain : string) : outcome IdentityVerificationClientError AuthorizedApp :=
  statement ← ok_or statement CacaoStatementMissing;
  let resources := default [] resources in
  (if (1 <? length (filter (λ uri, starts_with RECAP_URI_PREFIX uri = true) resources))%nat
   then Err CacaoMoreThanOneRecapUri else Ok ()) ;;
  recap ← map_err CacaoRecapParse (parse_recap (list.last resources));
  match recap with
  | Some recap =>
      (if negb (ends_with (build_statement recap) statement)
       then Err CacaoStatementDoesNotMatchRecap else Ok ()) ;;
      abilities ← ok_or (att recap !! NOTIFY_URI) CacaoRecapNoNotifyUri;
      app_of_abilities abilities
  | None => ok_or (parse_cacao_statement statement domain) CacaoStatementInvalid
  end.
End recap_app.

Section verify_identity.
Context `{!Ext, !UrlOps, !Env, !CacaoOps, !Msgpack Cacao, !Json KeyServerResponse,
  !Json RawRecap}.

Definition keys_server_request (url : Url) : App IdentityVerificationError Cacao :=
  response ← http_get url;
  response ← lift (ok_or response (Identity_Internal Identity_Http));
  lift (
    if http_status response =? 404 then Err (Identity_Client NotRegistered)
    else if is_success (http_status response) then
      r ← ok_or (from_json KeyServerResponse (http_body response))
                (Identity_Internal Identity_Json);
      (if negb (String.eqb (ksr_status r) KEYS_SERVER_STATUS_SUCCESS)
       then Err (Identity_Internal (KeyServerNotSuccess (ksr_status r) (ksr_error r)))
       else Ok ()) ;;
      ok_or (ksr_value r) (Identity_Internal KeyServerResponseMissingValue)
    else Err (Identity_Internal (KeyServerUnsuccessfulResponse (http_status response)))).

Definition cache_key (url : Url) : string := "keys-server-" +:+ url_to_string url.

(** [redis]: whether the server runs with a cache. *)
Definition keys_server_request_cached (url : Url) (redis : bool)
    : App IdentityVerificationError (Cacao * KeysServerResponseSource) :=
  value ← (if redis
           then m_map_err (λ e, Identity_Internal (CacheLookup e)) (redis_get (cache_key url))
           else mret None);
  match value with
  | Some cacao => mret (cacao, Source_Cache)
  | None =>
      cacao ← keys_server_request url;
      (if redis then spawn (redis_set (cache_key url) cacao (Some KEYS_SERVER_CACHE_TTL))
       else mret ()) ;;
      mret (cacao, Source_Server)
  end.

Definition keys_server_url (iss_client_id : bytes) (ksu : string)
    : outcome IdentityVerificationError Url :=
  url ← ok_or (url_parse ksu) (Identity_Client KsuNotUrl);
  url ← ok_or (url_join url KEYS_SERVER_IDENTITY_ENDPOINT)
              (Identity_Internal KeysServerRequestUrlConstruction);
  Ok (url_append_pair url KEYS_SERVER_IDENTITY_ENDPOINT_PUBLIC_KEY_QUERY
        (client_id_to_string iss_client_id)).

Definition check_nbf (nbf : option string) : App IdentityVerificationError () :=
  match nbf with
  | None => mret ()
  | Some nbf =>
      nbf ← lift (ok_or (parse_from_rfc3339 nbf) (Identity_Client CacaoNbfParse));
      now ← utc_now;
      guard_err (timestamp now <=? nbf) (Identity_Client CacaoNotYetValid)
  end.

Definition check_exp (exp : option string) : App IdentityVerificationError () :=
  match exp with
  | None => mret ()
  | Some exp =>
      exp ← lift (ok_or (parse_from_rfc3339 exp) (Identity_Client CacaoExpParse));
      now ← utc_now;
      guard_err (exp <=? timestamp now) (Identity_Client CacaoExpired)
  end.

(** [verify_identity] once the CACAO is there. *)
Definition verify_cacao (pubkey sub : string) (cacao : Cacao)
    : App IdentityVerificationError Authorization :=
  account ← lift (map_err (λ e, Identity_Client (CacaoAccountId e))
                    (from_did_pkh (cacao_iss cacao)));
  always_true ← ask (λ i, cacao_verify i cacao);
  always_true ← lift (ok_or always_true (Identity_Client CacaoVerification));
  (if always_true : bool then mret () else panic) ;;
  cacao_key ← lift (ok_or (cacao_identity_key cacao) (Identity_Client CacaoMissingIdentityKey));
  guard_err (negb (String.eqb cacao_key pubkey)) (Identity_Client CacaoWrongIdentityKey) ;;
  app ← lift (map_err Identity_Client
                (cacao_app (cacao_statement cacao) (cacao_resources cacao) (cacao_domain cacao)));
  guard_err (negb (String.eqb (cacao_iss cacao) sub)) (Identity_Client CacaoAccountMismatch) ;;
  check_nbf (cacao_nbf cacao) ;;
  check_exp (cacao_exp cacao) ;;
  mret (mkAuthorization account app (cacao_domain cacao)).

Definition verify_identity (iss_client_id : bytes) (ksu sub : string) (redis : bool)
    : App IdentityVerificationError Authorization :=
  url ← lift (keys_server_url iss_client_id ksu);
  '(cacao, _) ← keys_server_request_cached url redis;
  verify_cacao (client_id_to_string iss_client_id) sub cacao.
End verify_identity.

(** ** Which app a CACAO authorises *)

Definition app_of_domain (d : string) (app : AuthorizedApp) : Prop :=
  (d = ABILITY_ABILITY_ALL_APPS_MAGIC ∧ app = Unlimited) ∨
  (d ≠ ABILITY_ABILITY_ALL_APPS_MAGIC ∧ d ≠ "" ∧ str_forallb domain_char d = true ∧
   app = Limited d).

Definition not_recap (uri : string) : Prop := starts_with RECAP_URI_PREFIX uri = false.

(** Either no recap is the last resource and the statement is a known one, or
    the last resource is the only recap, the statement ends with the recap's
    own statement, and the recap grants, at the Notify URI, exactly one ability
    [manage/<app>-notifications] with one empty object. *)
Inductive Authorizes `{Base64Ops, !Json RawRecap} (statement : string) (resources : list string)
    (domain : string) : AuthorizedApp → Prop :=
| by_statement app :
    (∀ uri, list.last resources = Some uri → not_recap uri) →
    (length (filter (λ uri, starts_with RECAP_URI_PREFIX uri = true) resources) ≤ 1)%nat →
    parse_cacao_statement statement domain = Some app →
    Authorizes statement resources domain app
| by_recap others uri recap before d app :
    resources = others ++ [uri] → Forall not_recap others →
    parse_recap (Some uri) = Ok (Some recap) →
    statement = before +:+ build_statement recap →
    att recap !! NOTIFY_URI =
      Some {[mkAbility ABILITY_NAMESPACE_MANAGE (d +:+ ABILITY_ABILITY_SUFFIX) := [VObject []]]} →
    app_of_domain d app →
    Authorizes statement resources domain app.

Lemma domain_regex_spec d :
  is_match DOMAIN_REGEX d = true ↔ d ≠ "" ∧ str_forallb domain_char d = true.
Proof.
  rewrite is_match_spec. split.
  - intros [c Hc]. unfold DOMAIN_REGEX, RPlus in Hc. inv_matches.
    split; [|done]. intros ->. simpl in *; lia.
  - intros [Hn Hd]. exists []. constructor; [done| |done]. destruct d; [done|]. simpl. lia.
Qed.

Section authorizes.
Context `{Base64Ops, !Json RawRecap}.

Lemma if_err_Ok {E} (b : bool) (e : E) u : (if b then Err e else Ok ()) = Ok u ↔ b = false.
Proof. destruct b, u; done. Qed.

Lemma map_to_list_one {K V} `{Countable K} (m : gmap K V) k v :
  (1 <? length (map_to_list m))%nat = false → head (map_to_list m) = Some (k, v) →
  m = {[k := v]}.
Proof.
  intros Hl%Nat.ltb_ge Hh. rewrite <-(list_to_map_to_list m).
  destruct (map_to_list m) as [|? [|]]; [done| |simpl in Hl; lia]. cbn in Hh. simplify_eq.
  cbn. by rewrite insert_empty.
Qed.

Lemma app_of_abilities_Ok abilities app :
  app_of_abilities abilities = Ok app ↔
  ∃ d, abilities = {[mkAbility ABILITY_NAMESPACE_MANAGE (d +:+ ABILITY_ABILITY_SUFFIX)
                       := [VObject []]]} ∧ app_of_domain d app.
Proof.
  unfold app_of_abilities, app_of_domain. split.
  - rewrite !outcome_bind_Ok. intros (u & Hone%if_err_Ok & Hr).
    apply outcome_bind_Ok in Hr as ([a objects] & Hhead%ok_or_Ok & Hr).
    apply (map_to_list_one _ _ _ Hone) in Hhead as ->.
    apply outcome_bind_Ok in Hr as (u1 & Hns%if_err_Ok%negb_false_iff%String.eqb_eq & Hr).
    apply outcome_bind_Ok in Hr as (d & Hd%ok_or_Ok%strip_suffix_Some & Hr).
    apply outcome_bind_Ok in Hr as (u2 & Hobj%if_err_Ok & Hr).
    apply outcome_bind_Ok in Hr as (o & Ho%ok_or_Ok & Hr).
    apply outcome_bind_Ok in Hr as (u3 & Hoe%if_err_Ok%negb_false_iff & Hr).
    destruct objects as [|? [|]]; [done| |done]. cbn in Ho. simplify_eq.
    destruct o as [| | | | |[]]; try done. destruct a as [ns nm]. cbn in *. subst.
    exists d. split; [done|]. revert Hr. destruct (String.eqb_spec d ABILITY_ABILITY_ALL_APPS_MAGIC).
    + intros [= <-]. by left.
    + destruct (is_match DOMAIN_REGEX d) eqn:Hm; [|done]. intros [= <-].
      apply domain_regex_spec in Hm. right. naive_solver.
  - intros (d & -> & Happ). rewrite map_to_list_singleton. cbn [head length Nat.ltb Nat.leb].
    cbn -[strip_suffix String.eqb is_match]. rewrite strip_suffix_app.
    cbn -[String.eqb is_match].
    destruct (String.eqb_spec d ABILITY_ABILITY_ALL_APPS_MAGIC).
    + destruct Happ as [[_ ->]|[? _]]; done.
    + destruct Happ as [[? _]|(_ & Hn & Hc & ->)]; [done|].
      by rewrite (proj2 (domain_regex_spec d) (conj Hn Hc)).
Qed.
End authorizes.

Section authorizes_app.
Context `{Base64Ops, !Json RawRecap}.

Lemma parse_recap_None o :
  parse_recap o = Ok None ↔ ∀ uri, o = Some uri → not_recap uri.
Proof.
  unfold parse_recap, not_recap, starts_with. destruct o as [uri|]; [|by split].
  cbn [mbind option_bind]. destruct (strip_prefix RECAP_URI_PREFIX uri) as [e|] eqn:E.
  - split; [|intros Hn; specialize (Hn _ eq_refl); by rewrite E in Hn].
    intros (? & _ & (? & _ & (? & _ & [=])%outcome_bind_Ok)%outcome_bind_Ok)%outcome_bind_Ok.
  - split; [|done]. intros _ ? [= <-]. by rewrite E.
Qed.

Lemma parse_recap_Some_not uri recap :
  parse_recap (Some uri) = Ok (Some recap) → ¬ not_recap uri.
Proof.
  intros Hp Hn. assert (parse_recap (Some uri) = Ok None) as Hnone
    by (apply parse_recap_None; by intros ? [= <-]). congruence.
Qed.

Lemma ends_with_spec p s : ends_with p s = true ↔ ∃ t, s = t +:+ p.
Proof.
  unfold ends_with. split.
  - destruct (strip_suffix p s) as [t|] eqn:E; [|done]. exists t. by apply strip_suffix_Some.
  - intros [t ->]. by rewrite strip_suffix_app.
Qed.

Lemma single_recap others uri :
  ¬ not_recap uri →
  ((1 <? length (filter (λ uri, starts_with RECAP_URI_PREFIX uri = true) (others ++ [uri])))%nat
    = false ↔ Forall not_recap others).
Proof.
  intros Hr%not_false_is_true. rewrite list.filter_app, length_app.
  rewrite (filter_cons_True _ uri []) by done. cbn [filter list_filter length].
  rewrite Nat.ltb_ge. split.
  - intros Hl. assert (Hnil : filter (λ uri, starts_with RECAP_URI_PREFIX uri = true) others = [])
      by (apply nil_length_inv; lia).
    apply list.Forall_forall. intros x Hx. apply not_true_is_false. intros Ht.
    eapply (filter_nil_not_elem_of _ _ x Hnil); [done|done].
  - intros Ho. rewrite filter_all_false; [simpl; lia|].
    eapply list.Forall_impl; [exact Ho|]. unfold not_recap. intros x ->. done.
Qed.

Lemma cacao_app_Ok o resources domain app :
  cacao_app o resources domain = Ok app ↔
  ∃ statement, o = Some statement ∧ Authorizes statement (default [] resources) domain app.
Proof.
  unfold cacao_app. rewrite outcome_bind_Ok. setoid_rewrite ok_or_Ok. apply exist_proper.
  intros statement. f_equiv. set (rs := default [] resources). split.
  - intros (u & Hone%if_err_Ok & Hr)%outcome_bind_Ok.
    apply outcome_bind_Ok in Hr as ([recap|] & Hp%map_err_Ok & Hr).
    + destruct (list.last rs) as [uri|] eqn:Hl; [|done].
      apply last_Some in Hl as [others Hl].
      apply outcome_bind_Ok in Hr as (u1 & Hs%if_err_Ok%negb_false_iff%ends_with_spec & Hr).
      destruct Hs as [before Hs].
      apply outcome_bind_Ok in Hr as (abilities & Ha%ok_or_Ok & Hr).
      apply app_of_abilities_Ok in Hr as (d & -> & Hd).
      eapply by_recap; eauto. rewrite Hl in Hone.
      by apply single_recap in Hone; [|eapply parse_recap_Some_not].
    + pose proof (proj1 (parse_recap_None _) Hp) as Hn.
      apply by_statement; [done| |by apply ok_or_Ok in Hr]. by apply Nat.ltb_ge.
  - intros [app' Hn Hc Hp|others uri recap before d app' Hrs Ho Hp Hs Ha Hd].
    + apply Nat.ltb_ge in Hc. rewrite Hc. cbn [mbind outcome_bind].
      rewrite (proj2 (parse_recap_None _) Hn). cbn [map_err mbind outcome_bind]. by rewrite Hp.
    + rewrite Hrs, last_snoc, (proj2 (single_recap others uri (parse_recap_Some_not _ _ Hp)) Ho).
      cbn [mbind outcome_bind]. rewrite Hp. cbn [map_err mbind outcome_bind].
      rewrite (proj2 (ends_with_spec _ _)) by eauto. cbn [negb mbind outcome_bind].
      rewrite Ha. cbn [ok_or mbind outcome_bind]. apply app_of_abilities_Ok. eauto.
Qed.

Lemma cacao_app_no_panic o resources domain : no_panic (cacao_app o resources domain).
Proof.
  unfold cacao_app, app_of_abilities, parse_recap, check_uris.
  repeat first [apply no_panic_bind; [|intros]|apply no_panic_ok_or|rewrite no_panic_map_err
    |case_match|done].
Qed.

(** C22. The app an identity key may manage: the check accepts exactly the
    statements and resources that authorise an app, with that app; without a
    statement it fails, and it never panics. *)
Theorem cacao_app_authorizes statement resources domain :
  (∀ app, cacao_app (Some statement) resources domain = Ok app ↔
          Authorizes statement (default [] resources) domain app) ∧
  cacao_app None resources domain = Err CacaoStatementMissing ∧
  no_panic (cacao_app (Some statement) resources domain).
Proof.
  split; [|split; [done|apply cacao_app_no_panic]]. intros app. rewrite cacao_app_Ok.
  naive_solver.
Qed.
End authorizes_app.

(** ** Which identity is accepted *)

Section runs.
Context {W E A B : Type}.
Implicit Types (k : A → M W E B) (w : W).

Lemma bind_lift_iff (o : outcome E A) k w b w' :
  (lift o ≫= k) w = (Ok b, w') ↔ ∃ a, o = Ok a ∧ k a w = (Ok b, w').
Proof. unfold mbind, M_bind, lift. destruct o; naive_solver. Qed.

Lemma bind_guard_iff (c : bool) e (k : () → M W E B) w b w' :
  (guard_err c e ≫= k) w = (Ok b, w') ↔ c = false ∧ k () w = (Ok b, w').
Proof. unfold mbind, M_bind, guard_err, throw, mret, M_ret. destruct c; naive_solver. Qed.

Lemma bind_assert_iff (c : bool) (k : () → M W E B) w b w' :
  ((if c then mret () else panic) ≫= k) w = (Ok b, w') ↔ c = true ∧ k () w = (Ok b, w').
Proof. unfold mbind, M_bind, panic, mret, M_ret. destruct c; naive_solver. Qed.

Lemma ret_iff (a b : A) w w' : mret (M := M W E) a w = (Ok b, w') ↔ a = b ∧ w = w'.
Proof. unfold mret, M_ret. naive_solver. Qed.
End runs.

Section accepts.
Context `{!Ext, !UrlOps, !Env, !CacaoOps, !Msgpack Cacao, !Json KeyServerResponse,
  !Json RawRecap}.

(** Where the CACAO comes from: a live cache entry, or a successful answer of
    the keys server with a value. *)
Inductive Fetched (url : Url) (redis : bool) (w : World) (cacao : Cacao)
    : KeysServerResponseSource → Prop :=
| fetched_cache data :
    redis = true →
    cache_lookup (env_redis_now (w_tick w)) (w_cache w) (cache_key url) = Some data →
    rmp_from_slice data = Some cacao →
    Fetched url redis w cacao Source_Cache
| fetched_server i response r :
    env_http_get i url = Some response →
    is_success (http_status response) = true →
    from_json KeyServerResponse (http_body response) = Some r →
    ksr_status r = KEYS_SERVER_STATUS_SUCCESS →
    ksr_value r = Some cacao →
    (w_tick w ≤ i)%nat →
    Fetched url redis w cacao Source_Server.

(** A bound of the validity window, against the clock read at moment [i]. *)
Definition bound_ok (P : Z → Z → Prop) (i : nat) (bound : option string) : Prop :=
  match bound with
  | None => True
  | Some s => ∃ t, parse_from_rfc3339 s = Some t ∧ P t (timestamp (env_now i))
  end.
Definition reads (bound : option string) : nat := if bound is Some _ then 1 else 0.

(** The CACAO was verified at moment [i], names the key and the account of the
    request, is within its validity window and authorises the app. *)
Definition ValidCacao (i : nat) (pubkey sub : string) (cacao : Cacao) (a : Authorization) : Prop :=
  cacao_verify i cacao = Some true ∧
  cacao_identity_key cacao = Some pubkey ∧
  cacao_iss cacao = sub ∧
  from_did_pkh sub = Ok (auth_account a) ∧
  auth_domain a = cacao_domain cacao ∧
  (∃ statement, cacao_statement cacao = Some statement ∧
     Authorizes statement (default [] (cacao_resources cacao)) (cacao_domain cacao) (auth_app a)) ∧
  bound_ok Z.lt (i + 1) (cacao_nbf cacao) ∧
  bound_ok (λ exp now, now < exp) (i + 1 + reads (cacao_nbf cacao)) (cacao_exp cacao).

Lemma tick_iter n w : w_tick (Nat.iter n bump w) = (n + w_tick w)%nat.
Proof.
  induction n as [|n IH]; [done|].
  change (S (w_tick (Nat.iter n bump w)) = (S n + w_tick w)%nat). lia.
Qed.

Lemma iter_bump_S a b w :
  Nat.iter a bump (Nat.iter b bump (bump w)) = Nat.iter (1 + b + a) bump w.
Proof.
  replace (1 + b + a)%nat with (a + (b + 1))%nat by lia.
  by rewrite Nat.iter_add, (Nat.iter_add b 1).
Qed.

Lemma check_nbf_run nbf {B} (k : () → App IdentityVerificationError B) w b w' :
  (check_nbf nbf ≫= k) w = (Ok b, w') ↔
  bound_ok Z.lt (w_tick w) nbf ∧ k () (Nat.iter (reads nbf) bump w) = (Ok b, w').
Proof.
  destruct nbf as [s|]; cbn [check_nbf bound_ok reads Nat.iter]; [|naive_solver].
  unfold mbind at 1, M_bind, lift, utc_now, ask, guard_err, mbind, M_bind, throw, mret, M_ret.
  destruct (parse_from_rfc3339 s) as [t|]; cbn; [|naive_solver].
  destruct (Z.leb_spec (timestamp (env_now (w_tick w))) t).
  - split; [done|]. intros [(? & [= <-] & ?) _]. lia.
  - naive_solver.
Qed.

Lemma check_exp_run exp {B} (k : () → App IdentityVerificationError B) w b w' :
  (check_exp exp ≫= k) w = (Ok b, w') ↔
  bound_ok (λ exp now, now < exp) (w_tick w) exp ∧
  k () (Nat.iter (reads exp) bump w) = (Ok b, w').
Proof.
  destruct exp as [s|]; cbn [check_exp bound_ok reads Nat.iter]; [|naive_solver].
  unfold mbind at 1, M_bind, lift, utc_now, ask, guard_err, mbind, M_bind, throw, mret, M_ret.
  destruct (parse_from_rfc3339 s) as [t|]; cbn; [|naive_solver].
  destruct (Z.leb_spec t (timestamp (env_now (w_tick w)))).
  - split; [done|]. intros [(? & [= <-] & ?) _]. lia.
  - naive_solver.
Qed.

Lemma verify_cacao_run pubkey sub cacao w a w' :
  verify_cacao pubkey sub cacao w = (Ok a, w') ↔
  ValidCacao (w_tick w) pubkey sub cacao a ∧
  w' = Nat.iter (1 + reads (cacao_nbf cacao) + reads (cacao_exp cacao)) bump w.
Proof.
  unfold verify_cacao. rewrite bind_lift_iff. setoid_rewrite bind_ask.
  repeat first [setoid_rewrite bind_lift_iff | setoid_rewrite bind_assert_iff
    | setoid_rewrite bind_guard_iff | setoid_rewrite check_nbf_run
    | setoid_rewrite check_exp_run | setoid_rewrite ret_iff].
  repeat first [setoid_rewrite map_err_Ok | setoid_rewrite ok_or_Ok
    | setoid_rewrite negb_false_iff | setoid_rewrite String.eqb_eq | setoid_rewrite cacao_app_Ok].
  rewrite tick_iter, iter_bump_S. unfold ValidCacao. cbn [w_tick bump].
  replace (reads (cacao_nbf cacao) + S (w_tick w))%nat
    with (w_tick w + 1 + reads (cacao_nbf cacao))%nat by lia.
  replace (S (w_tick w)) with (w_tick w + 1)%nat by lia. split.
  - intros (acc & Hacc & ? & Hv & -> & ? & Hk & -> & app & Hs & <- & Hn & Hx & <- & <-).
    cbn [auth_account auth_app auth_domain]. by split_and!.
  - intros [(Hv & Hk & <- & Hacc & Hd & Hs & Hn & Hx) ->].
    destruct a as [acc app dom]. cbn [auth_account auth_app auth_domain] in *. subst dom.
    exists acc. split; [done|]. exists true. split; [done|]. split; [done|].
    exists pubkey. split; [done|]. split; [done|]. exists app. by split_and!.
Qed.

Lemma keys_server_request_Ok url w cacao w' :
  keys_server_request url w = (Ok cacao, w') ↔
  w' = bump w ∧ ∃ response r, env_http_get (w_tick w) url = Some response ∧
    is_success (http_status response) = true ∧
    from_json KeyServerResponse (http_body response) = Some r ∧
    ksr_status r = KEYS_SERVER_STATUS_SUCCESS ∧ ksr_value r = Some cacao.
Proof.
  unfold keys_server_request, http_get. setoid_rewrite bind_ask. rewrite bind_lift_iff.
  setoid_rewrite ok_or_Ok. unfold lift. split.
  - intros (response & Hr & Hk). destruct (http_status response =? 404) eqn:E4; [done|].
    destruct (is_success _) eqn:Es; [|done]. injection Hk as Hk <-. split; [done|].
    apply outcome_bind_Ok in Hk as (r & Hj%ok_or_Ok & Hk).
    apply outcome_bind_Ok in Hk as (u & Hst%if_err_Ok%negb_false_iff%String.eqb_eq & Hv%ok_or_Ok).
    naive_solver.
  - intros (-> & response & r & Hr & Hs & Hj & Hst & Hv). exists response. split; [done|].
    assert ((http_status response =? 404) = false) as ->.
    { unfold is_success in Hs. lia. }
    rewrite Hs, Hj. cbn [ok_or mbind outcome_bind]. rewrite Hst, String.eqb_refl.
    cbn [negb mbind outcome_bind]. by rewrite Hv.
Qed.

Lemma keys_server_request_cached_Ok url redis w cacao src w' :
  keys_server_request_cached url redis w = (Ok (cacao, src), w') →
  Fetched url redis w cacao src ∧ (w_tick w < w_tick w')%nat.
Proof.
  unfold keys_server_request_cached. intros Hrun. apply bind_Ok_inv in Hrun as (v & w1 & Hv & Hrun).
  assert (Hw1 : (w_tick w ≤ w_tick w1)%nat ∧ (v = None ∨ (w_tick w < w_tick w1)%nat)).
  { destruct redis; [|unfold mret, M_ret in Hv; simplify_eq; naive_solver].
    unfold m_map_err, redis_get, redis_cmd, mbind, M_bind in Hv.
    destruct (env_redis_pool_fault _); [done|]. destruct (env_redis_fault _); [done|].
    unfold lift, mret, M_ret in Hv. repeat case_match; simplify_eq; cbn; lia. }
  destruct v as [c|].
  - unfold mret, M_ret in Hrun. injection Hrun as <- <- <-. split; [|naive_solver lia].
    destruct redis; [|done]. unfold m_map_err, redis_get, redis_cmd, mbind, M_bind in Hv.
    destruct (env_redis_pool_fault _); [done|]. destruct (env_redis_fault _); [done|].
    cbv beta in Hv. destruct (cache_lookup _ _ _) as [data|] eqn:Hl; [|done].
    unfold lift, deserialize in Hv. destruct (rmp_from_slice data) eqn:Hd; [|done].
    unfold ok_or, mret, M_ret in Hv. cbn [map_err] in Hv. simplify_eq.
    by eapply fetched_cache.
  - apply bind_Ok_inv in Hrun as (c & w2 & Hr & Hrun).
    apply keys_server_request_Ok in Hr as (-> & response & r & ?&?&?&?&?).
    apply bind_Ok_inv in Hrun as (u & w3 & Hw3 & Hrun). unfold mret, M_ret in Hrun.
    injection Hrun as <- <- <-. split.
    + eapply fetched_server; try done. naive_solver lia.
    + destruct redis.
      * unfold spawn in Hw3. injection Hw3 as <- <-.
        destruct (keeps_redis_set (cache_key url) c (Some KEYS_SERVER_CACHE_TTL) (bump w1))
          as (_ & _ & _ & _ & Ht). cbn in Ht. lia.
      * unfold mret, M_ret in Hw3. simplify_eq. cbn. lia.
Qed.

Lemma keeps_verify_identity iss_client_id ksu sub redis :
  keeps only_cache (verify_identity iss_client_id ksu sub redis).
Proof.
  unfold verify_identity, keys_server_request_cached, keys_server_request, verify_cacao,
    check_nbf, check_exp, http_get, utc_now.
  repeat first [apply keeps_bind; [apply _| |intros ?]|progress auto with keeps|case_match].
Qed.

(** C21. [verify_identity] accepts exactly the CACAO that the cache or the keys
    server returned for the key, that was verified, names the identity key and
    the account of the request, is within its validity window and authorises
    the returned app; it only ever touches the cache. *)
Theorem verify_identity_accepts iss_client_id ksu sub redis w :
  (∀ a w', verify_identity iss_client_id ksu sub redis w = (Ok a, w') ↔
     ∃ url cacao src w1,
       keys_server_url iss_client_id ksu = Ok url ∧
       keys_server_request_cached url redis w = (Ok (cacao, src), w1) ∧
       Fetched url redis w cacao src ∧ (w_tick w < w_tick w1)%nat ∧
       ValidCacao (w_tick w1) (client_id_to_string iss_client_id) sub cacao a ∧
       w' = Nat.iter (1 + reads (cacao_nbf cacao) + reads (cacao_exp cacao)) bump w1) ∧
  only_cache w (verify_identity iss_client_id ksu sub redis w).2.
Proof.
  split; [|apply keeps_verify_identity]. intros a w'. unfold verify_identity.
  rewrite bind_lift_iff. apply exist_proper. intros url. split.
  - intros [Hurl Hrun]. apply bind_Ok_inv in Hrun as ([cacao src] & w1 & Hk & Hrun).
    apply verify_cacao_run in Hrun as [Hv ->]. exists cacao, src, w1.
    destruct (keys_server_request_cached_Ok _ _ _ _ _ _ Hk). by split_and!.
  - intros (cacao & src & w1 & Hurl & Hk & _ & _ & Hv & ->). split; [done|].
    rewrite (bind_Ok _ _ _ _ _ Hk). by apply verify_cacao_run.
Qed.

(** A CACAO fetched from the keys server is served from the cache for
    exactly one week, to the millisecond, once its write has succeeded. *)
Theorem keys_server_cached_week `{!MsgpackLaws Cacao} url w cacao data w1 w2 :
  let i := (w_tick w + 2)%nat in
  let t := timestamp_millis (env_redis_now i) in
  keys_server_request_cached url true w = (Ok (cacao, Source_Server), w1) →
  rmp_to_vec cacao = Some data →
  env_redis_pool_fault i = false → env_redis_fault i = false →
  w_cache w2 !! cache_key url = w_cache w1 !! cache_key url →
  env_redis_pool_fault (w_tick w2) = false → env_redis_fault (w_tick w2) = false →
  timestamp_millis (env_redis_now (w_tick w2)) <= t + 7 * 86400 * 1000 ↔
  ∃ w3, keys_server_request_cached url true w2 = (Ok (cacao, Source_Cache), w3).
Proof.
  intros i t Hrun Hdata Hp Hf Hsame Hp2 Hf2.
  assert (Hw1 : w_cache w1 !! cache_key url =
    Some (mkCacheEntry data (Some (t + KEYS_SERVER_CACHE_TTL * 1000)))).
  { unfold keys_server_request_cached in Hrun.
    apply bind_Ok_inv in Hrun as (v & w3 & Hv%m_map_err_Ok_inv & Hrun).
    apply redis_get_Ok in Hv as (_ & _ & ->). destruct v as [c|];
      [unfold mret, M_ret in Hrun; simplify_eq|].
    apply bind_Ok_inv in Hrun as (c & w4 & Hr & Hrun).
    apply keys_server_request_Ok in Hr as (-> & _).
    unfold spawn, mbind, M_bind, mret, M_ret in Hrun. injection Hrun as <- <-.
    unfold redis_set, serialize, lift, mbind, M_bind. rewrite Hdata. cbn [ok_or].
    assert (Hi : w_tick (bump (bump w)) = i) by (cbn; unfold i; lia).
    unfold set_internal. rewrite redis_cmd_run by (by rewrite Hi). rewrite Hi. cbn.
    by rewrite lookup_insert_eq. }
  rewrite Hw1 in Hsame. unfold keys_server_request_cached.
  unfold mbind at 1, M_bind, m_map_err. rewrite redis_get_run by done.
  unfold cache_lookup. rewrite Hsame. cbn [mbind option_bind ce_expires ce_data].
  unfold KEYS_SERVER_CACHE_TTL.
  destruct (Z.ltb_spec (t + 7 * 86400 * 1000) (timestamp_millis (env_redis_now (w_tick w2))))
    as [Hl|Hl].
  - split; [lia|]. intros [w3 Hw3]. cbn [map_err fmap outcome_fmap] in Hw3.
    apply bind_Ok_inv in Hw3 as (c & w4 & _ & Hw3).
    apply bind_Ok_inv in Hw3 as (u & w5 & _ & Hw3). unfold mret, M_ret in Hw3. by simplify_eq.
  - split; [intros _|done]. unfold deserialize. rewrite (rmp_from_to _ _ Hdata).
    cbn [ok_or map_err fmap outcome_fmap]. by eexists.
Qed.
End accepts.

(** ** A concrete keys server, for the witnesses *)

Module IdentityInstances.
Import Concrete.Instances EnvInstances RecapInstances.

(** iss, domain, statement, resources, nbf, exp and identity key. *)
Definition cacao_text : Type :=
  string * string * option string * option (list string) * option string * option string * string.

#[export] Instance concrete_cacao : CacaoOps :=
  {| Cacao := cacao_text;
     cacao_iss c := c.1.1.1.1.1.1; cacao_domain c := c.1.1.1.1.1.2;
     cacao_statement c := c.1.1.1.1.2; cacao_resources c := c.1.1.1.2;
     cacao_nbf c := c.1.1.2; cacao_exp c := c.1.2;
     cacao_verify _ _ := Some true;
     cacao_identity_key c := Some c.2;
     parse_from_rfc3339 := dec |}.

#[export] Instance cacao_msgpack : Msgpack Cacao :=
  {| rmp_to_vec c := Some (as_bytes (enc (c : cacao_text)));
     rmp_from_slice b := dec (of_bytes b) : option cacao_text |}.
#[export] Instance cacao_msgpack_laws : MsgpackLaws Cacao.
Proof.
  split. intros c b. cbn. intros [= <-]. rewrite of_bytes_as_bytes. apply dec_enc.
Qed.

#[export] Instance ksr_json : Json KeyServerResponse :=
  {| to_json r := Some (enc (ksr_status r, ksr_error r, ksr_value r : option cacao_text));
     from_json b := (λ p : string * option Value * option cacao_text,
       mkKeyServerResponse concrete_cacao p.1.1 p.1.2 p.2) <$> dec (of_bytes b) |}.

(** A key server that always has the CACAO [c]. *)
Definition keys_env (c : cacao_text) : Env :=
  make_env (λ _ _, None) (λ _ _, Some (mkHttpResponse 200 (as_bytes (default ""
    (to_json (mkKeyServerResponse concrete_cacao "SUCCESS" None (Some c))))))).

Definition cacao_w : cacao_text :=
  ("did:pkh:eip155:1:0x62639418051006514eD5Bb5B20aa7aAD642cC2d0", "app.example.com",
   Some STATEMENT_THIS_DOMAIN, None, None, None, "key").
Definition identity_w : World := world_w empty_db.

Definition fetch_w := keys_server_request_cached (H1 := keys_env cacao_w) "https://keys" true.

Lemma fetch_w_server : fetch_w identity_w = (Ok (cacao_w, Source_Server), (fetch_w identity_w).2).
Proof.
  assert (Hfst : (fetch_w identity_w).1 = Ok (cacao_w, Source_Server)) by (vm_compute; reflexivity).
  rewrite <-Hfst. apply surjective_pairing.
Qed.

Lemma keys_server_cached_week_witness :
  ∃ w3, fetch_w (fetch_w identity_w).2 = (Ok (cacao_w, Source_Cache), w3).
Proof.
  refine (proj1 (keys_server_cached_week (H1 := keys_env cacao_w) "https://keys" identity_w cacao_w
    (as_bytes (enc cacao_w)) (fetch_w identity_w).2 (fetch_w identity_w).2
    fetch_w_server eq_refl eq_refl eq_refl eq_refl eq_refl eq_refl) _).
  vm_compute. discriminate.
Defined.
End IdentityInstances.
