(* ===== verification/RelayError.v ===== *)
(** * Errors of the relay message handlers (relay_webhook/error.rs) and the notify keys

    What a handler of a relay message can fail with, the JSON-RPC error the
    sender is told, and the server's own keys (notify_keys.rs). *)

From S2P Require Import Prelude RustStr Externals AccountId Errors Types.
From S2P Require Import Database Jwt World Identity.
Open Scope Z_scope.

Inductive CheckAppAuthorizationError :=
| AppNotAuthorized (requested : option string) (authorized : string).

#[global] Instance CheckAppAuthorizationError_eq_dec : EqDecision CheckAppAuthorizationError.
Proof. solve_decision. Defined.

Inductive RelayMessageClientError :=
| WrongNotifySubscribeTopic (topic : Topic)
| WrongNotifyWatchSubscriptionsTopic (topic : Topic)
| SubscriptionWatcherLimitReached
| WrongNotifyUpdateTopic (topic : Topic)
| WrongNotifyDeleteTopic (topic : Topic)
| WrongNotifyGetNotificationsTopic (topic : Topic)
| WrongNotifyMarkNotificationsAsReadTopic (topic : Topic)
| NotifyWatchSubscriptionsAppDomainNotFound (app_domain : string)
| AppDoesNotMatch
| DecodeMessage
| EnvelopeParse (e : EnvelopeParseError)
| Decryption
| JsonDeserialization
| RelayRateLimitExceeded (e : RateLimitExceeded)
| AppSubscriptionsUnauthorized
| RelayJwt (e : JwtError)
| RelayIdentityVerification (e : IdentityVerificationClientError)
| RelayAppNotAuthorized (e : CheckAppAuthorizationError)
| AccountNotAuthorized
| TopicDoesNotMatchKey.

Inductive CollectSubscriptionsError :=
| CollectSqlx (e : SqlxError)
| CollectDecodeKey (e : DecodeKeyError).

Inductive PrepareSubscriptionWatchersError :=
| PrepareCollectSubscriptions (e : CollectSubscriptionsError)
| GetSubscriptionWatchersForAccountByAppOrAllApp (e : SqlxError).

Inductive SubscriptionWatcherSendError :=
| Send_DecodeKey (e : DecodeKeyError)
| Send_SignJwt (e : SignJwtError)
| Send_EnvelopeSerialization
| Send_EnvelopeEncryption
| Send_RelayPublish (e : RelayClientError).

Inductive GetAuthenticationClientIdError :=
| ClientId_DecodeKey (e : DecodeKeyError)
| ParseVerifyingKey.

Inductive RelayMessageServerError :=
| Relay_NotifyServer (e : NotifyServerError)
| Relay_IdentityVerification (e : IdentityVerificationInternalError)
| EnvelopeEncryption
| Relay_DecodeKey (e : DecodeKeyError)
| Relay_DeriveKey (e : DeriveKeyError)
| GetAuthenticationClientId (e : GetAuthenticationClientIdError)
| Relay_SignJwt (e : SignJwtError)
| JsonRpcResponseSerialization
| JsonRpcResponseErrorSerialization
| CollectSubscriptions (e : CollectSubscriptionsError)
| PrepareSubscriptionWatchers (e : PrepareSubscriptionWatchersError)
| SubscriptionWatcherSend (e : SubscriptionWatcherSendError).

Inductive RelayMessageError :=
| Relay_Client (e : RelayMessageClientError)
| Relay_Server (e : RelayMessageServerError).

(** [impl From<IdentityVerificationError> for RelayMessageError]. *)
Definition RelayMessageError_from_identity (e : IdentityVerificationError) : RelayMessageError :=
  match e with
  | Identity_Client e => Relay_Client (RelayIdentityVerification e)
  | Identity_Internal e => Relay_Server (Relay_IdentityVerification e)
  end.

(** [impl From<RateLimitError> for RelayMessageError]. *)
Definition RelayMessageError_from_rate_limit (e : RateLimitError) : RelayMessageError :=
  match e with
  | RateLimitError_RateLimitExceeded e => Relay_Client (RelayRateLimitExceeded e)
  | RateLimitError_Internal e => Relay_Server (Relay_NotifyServer (RateLimit e))
  end.

(** The texts of the errors that a client error wraps. *)
Class ErrorTexts := { wrapped_text : RelayMessageClientError → string }.

Definition display_client_error `{ErrorTexts} (e : RelayMessageClientError) : string :=
  match e with
  | WrongNotifySubscribeTopic t => "No project found associated with topic " +:+ t
  | WrongNotifyWatchSubscriptionsTopic t => "Received 4010 on wrong topic: " +:+ t
  | SubscriptionWatcherLimitReached => "Subscription watcher limit reached"
  | WrongNotifyUpdateTopic t => "Received 4008 on unrecognized topic: " +:+ t
  | WrongNotifyDeleteTopic t => "Received 4004 on unrecognized topic: " +:+ t
  | WrongNotifyGetNotificationsTopic t => "Received 4014 on unrecognized topic: " +:+ t
  | WrongNotifyMarkNotificationsAsReadTopic t => "Received 4016 on unrecognized topic: " +:+ t
  | NotifyWatchSubscriptionsAppDomainNotFound d =>
      "No project found associated with app_domain " +:+ d
  | AppDoesNotMatch => "The requested app does not match the project's app domain"
  | DecodeMessage => "Decode message: " +:+ wrapped_text e
  | EnvelopeParse _ => "Could not parse message envelope: " +:+ wrapped_text e
  | Decryption => "Decryption error: " +:+ wrapped_text e
  | JsonDeserialization => "JSON deserialization error: " +:+ wrapped_text e
  | RelayRateLimitExceeded r => display_rate_limit_exceeded r
  | AppSubscriptionsUnauthorized => "Not authorized to control that app's subscriptions"
  | RelayJwt _ => "JWT parse/verification error: " +:+ wrapped_text e
  | RelayIdentityVerification _ => "Identity key verification: " +:+ wrapped_text e
  | RelayAppNotAuthorized _ => wrapped_text e
  | AccountNotAuthorized => "The account authenticated cannot control this subscription"
  | TopicDoesNotMatchKey => "Message received on topic, but the key associated with that topic does not hash to the topic"
  end.

(** [impl From<&RelayMessageError> for JsonRpcError]. *)
Definition JsonRpcError_from `{ErrorTexts} (e : RelayMessageError) : JsonRpcError :=
  match e with
  | Relay_Client e => {| code := -1; message := display_client_error e |}
  | Relay_Server _ => {| code := -32000; message := "Internal server error" |}
  end.

Definition sqlx_server_error (e : SqlxError) : RelayMessageError :=
  Relay_Server (Relay_NotifyServer (Sqlx e)).

(** [match e { RowNotFound => client error, e => server error }]. *)
Definition row_not_found_or (c : RelayMessageClientError) (e : SqlxError) : RelayMessageError :=
  match e with RowNotFound => Relay_Client c | e => sqlx_server_error e end.

(** [Project::get_authentication_client_id]. *)
Definition get_authentication_client_id `{Ext} (p : Project)
    : outcome GetAuthenticationClientIdError bytes :=
  k ← map_err ClientId_DecodeKey (decode_key (pr_authentication_public_key p));
  ok_or (verifying_key_from_bytes k) ParseVerifyingKey.

(** ** Notify keys *)

(** [ChaCha20Rng::from_seed(seed).fill_bytes] of [n] bytes, and
    [SigningKey::generate] on a generator of that seed. *)
Class SeededRng := {
  rng_fill : bytes → nat → bytes;
  signing_key_generate : bytes → bytes;
}.

Record NotifyKeys := mkNotifyKeys {
  nk_domain : string;
  key_agreement_secret : bytes;
  key_agreement_public : bytes;
  key_agreement_topic : Topic;
  authentication_secret : bytes;
  authentication_public : bytes;
  authentication_client_id : bytes;
}.

Definition NotifyKeys_new `{Ext, UrlOps, SeededRng} (notify_url : Url) (keypair_seed : bytes)
    : outcome NotifyServerError NotifyKeys :=
  domain ← ok_or (url_host_str notify_url) UrlMissingHost;
  let key_agreement_secret := rng_fill keypair_seed 32 in
  let key_agreement_public := x25519_public key_agreement_secret in
  let authentication_secret := signing_key_generate keypair_seed in
  let authentication_public := verifying_key authentication_secret in
  Ok (mkNotifyKeys domain key_agreement_secret key_agreement_public
        (topic_from_key key_agreement_public) authentication_secret authentication_public
        authentication_public).

(** [SigningKey::generate] draws the 32 bytes of the key from the generator. *)
Class SeededRngLaws `{SeededRng} : Prop := {
  signing_key_generate_fill seed : signing_key_generate seed = rng_fill seed 32;
}.

(** The key agreement and the signing secrets are the same 32 bytes: the
    generator is created anew from the seed for each. *)
Lemma notify_keys_same_secret `{Ext, UrlOps, SeededRng, !SeededRngLaws} notify_url seed keys :
  NotifyKeys_new notify_url seed = Ok keys → key_agreement_secret keys = authentication_secret keys.
Proof.
  unfold NotifyKeys_new. destruct (url_host_str notify_url); [|done].
  intros [= <-]. cbn. by rewrite signing_key_generate_fill.
Qed.
