(* ===== verification/RelayHandlers.v ===== *)
(** * What the handlers of relay messages share (relay_webhook/handlers/)

    Decrypting a request, authenticating its sender, collecting the sender's
    subscriptions, telling the account's watchers, and answering on the relay. *)

From S2P Require Import Prelude RustStr Externals AccountId Errors Types RateLimit.
From S2P Require Import Database DbInvariant Jwt World RelayPublish NotifyMessage Cache Identity.
From S2P Require Import RelayError.
Open Scope Z_scope.

Record AppState `{UrlOps} := mkAppState {
  st_redis : bool;
  st_notify_keys : NotifyKeys;
  st_notify_url : Url;
  st_webhook_notify_url : string;
  st_relay_identity : string;
}.

Record RelayIncomingMessage := mkRelayIncomingMessage {
  rim_topic : Topic;
  rim_message : string;
  rim_tag : Z;
  rim_message_id : string;
  rim_received_at : Z;
}.

(** The JSON of the requests, of the claims and of the answers. *)
Class RelayWire := {
  wire_header :: Json JwtHeader;
  wire_watch_request :: Json (JsonRpcRequest NotifyWatchSubscriptions);
  wire_subscribe_request :: Json (JsonRpcRequest NotifySubscribe);
  wire_update_request :: Json (JsonRpcRequest NotifyUpdate);
  wire_delete_request :: Json (JsonRpcRequest NotifyDelete);
  wire_auth_request :: Json (JsonRpcRequest AuthMessage);
  wire_changed_request :: Json (JsonRpcRequest NotifySubscriptionsChanged);
  wire_watch :: Json WatchSubscriptionsRequestAuth;
  wire_watch_response :: Json WatchSubscriptionsResponseAuth;
  wire_changed :: Json WatchSubscriptionsChangedRequestAuth;
  wire_subscribe :: Json SubscriptionRequestAuth;
  wire_subscribe_response :: Json SubscriptionResponseAuth;
  wire_update :: Json SubscriptionUpdateRequestAuth;
  wire_update_response :: Json SubscriptionUpdateResponseAuth;
  wire_delete :: Json SubscriptionDeleteRequestAuth;
  wire_delete_response :: Json SubscriptionDeleteResponseAuth;
  wire_get :: Json SubscriptionGetNotificationsRequestAuth;
  wire_get_response :: Json SubscriptionGetNotificationsResponseAuth;
  wire_mark :: Json SubscriptionMarkNotificationsAsReadRequestAuth;
  wire_mark_response :: Json SubscriptionMarkNotificationsAsReadResponseAuth;
  wire_response :: Json (JsonRpcResponse ResponseAuth);
  wire_auth_response :: Json (JsonRpcResponse AuthMessage);
  wire_error :: Json JsonRpcResponseError;
}.

(** What serializes in the answers does. *)
Class RelayWireLaws `{RelayWire} : Prop := {
  laws_response :: JsonLaws (JsonRpcResponse ResponseAuth);
  laws_auth_response :: JsonLaws (JsonRpcResponse AuthMessage);
  laws_error :: JsonLaws JsonRpcResponseError;
}.

(** In which order futures that run concurrently complete: the [j]th of those
    started at interaction [i] has rank [sched_rank i j]. *)
Class Scheduler := { sched_rank : nat → nat → nat }.

Definition earlier {A} : relation (nat * A) := λ x y, (x.1 ≤ y.1)%nat.
#[global] Instance earlier_dec {A} : RelDecision (@earlier A).
Proof. intros x y. unfold earlier. apply _. Defined.
#[global] Instance earlier_total {A} : Total (@earlier A).
Proof. intros x y. unfold earlier. lia. Qed.

(** [x as u64] of an [i64]. *)
Definition as_u64 (x : Z) : Z := x mod 2 ^ 64.

Section handlers.
Context `{!Ext, !UrlOps, !Env, !CacaoOps, !Msgpack Cacao, !Json KeyServerResponse,
  !Json Siwx.RawRecap, !BuildProfile, !JwtConsts, !JsonRpcConsts, !RelayWire, !ErrorTexts,
  !Scheduler}.

(** [mod.rs], [decrypt_message]. *)
Definition decrypt_message {T E} `{!Json (JsonRpcRequest T)} (envelope : Envelope E)
    (encryption_key : bytes) : outcome RelayMessageClientError (JsonRpcRequest T) :=
  msg ← ok_or (aead_decrypt encryption_key (iv envelope) (sealbox envelope)) Decryption;
  ok_or (from_json (JsonRpcRequest T) msg) JsonDeserialization.

Definition client_err {A} (o : outcome RelayMessageClientError A) : App RelayMessageError A :=
  lift (map_err Relay_Client o).
Definition server_err {A} (o : outcome RelayMessageServerError A) : App RelayMessageError A :=
  lift (map_err Relay_Server o).

(** [if let Some(redis) = state.redis { rate_limit::token_bucket(..)? }]. *)
Definition limit_topic (st : AppState) (key : string) (l : Limit) : App RelayMessageError () :=
  if st_redis st then m_map_err RelayMessageError_from_rate_limit (rate_limit key l) else mret ().

(** The envelope of a message: base 64, then its parts. *)
Definition open_envelope {E} (from_bytes : bytes → outcome EnvelopeParseError (Envelope E))
    (message : string) : outcome RelayMessageClientError (Envelope E) :=
  bytes ← ok_or (b64_std_decode message) DecodeMessage;
  map_err EnvelopeParse (from_bytes bytes).

(** ** Authentication *)

Definition jwt_verification_error : RelayMessageError :=
  Relay_Server (Relay_NotifyServer JwtVerification).

(** The claims of a request and the client that issued them. *)
Definition parse_request {T} `{!Json T, !GetSharedClaims T} (jwt : string)
    : App RelayMessageError (T * bytes) :=
  now ← utc_now;
  request_auth ← client_err (map_err RelayJwt (from_jwt now jwt));
  iss_client_id ← lift (ok_or (try_from_did_key (iss (get_shared_claims (request_auth : T))))
                              jwt_verification_error);
  mret (request_auth, iss_client_id).

Definition check_act (claims : SharedClaims) (expected : string) : App RelayMessageError () :=
  guard_err (negb (String.eqb (act claims) expected)) jwt_verification_error.

Definition verify_request_identity (st : AppState) (iss_client_id : bytes) (ksu sub : string)
    : App RelayMessageError Authorization :=
  m_map_err RelayMessageError_from_identity (verify_identity iss_client_id ksu sub (st_redis st)).

(** The requests about one app: it must be the project's, and the identity key
    must be allowed to manage it.  [owner] is the account of the subscriber the
    message came for; a new subscription has none. *)
Definition authenticate (st : AppState) (proj : Project) (claims : SharedClaims)
    (expected_act : string) (iss_client_id : bytes) (ksu sub : string) (app : DidWeb)
    (owner : option AccountId) : App RelayMessageError AccountId :=
  guard_err (negb (String.eqb (domain app) (pr_app_domain proj))) (Relay_Client AppDoesNotMatch) ;;
  check_act claims expected_act ;;
  authorization ← verify_request_identity st iss_client_id ksu sub;
  guard_err (match auth_app authorization with
             | Limited app => negb (String.eqb app (pr_app_domain proj))
             | Unlimited => false
             end) (Relay_Client AppSubscriptionsUnauthorized) ;;
  match owner with
  | None => mret ()
  | Some owner =>
      same ← lift (is_same_address (auth_account authorization) owner);
      guard_err (negb same) (Relay_Client AccountNotAuthorized)
  end ;;
  mret (auth_account authorization).

Definition check_app_authorization (authorized_app : AuthorizedApp) (app_domain : option string)
    : outcome CheckAppAuthorizationError () :=
  match authorized_app, app_domain with
  | Unlimited, _ => Ok ()
  | Limited authorized, None => Err (AppNotAuthorized None authorized)
  | Limited authorized, Some requested =>
      if String.eqb authorized requested then Ok ()
      else Err (AppNotAuthorized (Some requested) authorized)
  end.

(** ** Subscriptions and watchers *)

Definition wrap_subscription (sub : SubscriberWithProject)
    : outcome DecodeKeyError NotifyServerSubscription :=
  k ← decode_key (swp_authentication_public_key sub);
  Ok (mkNotifyServerSubscription (swp_app_domain sub) (to_did_key k) (swp_sym_key sub)
        (swp_account sub) (swp_scope sub) (as_u64 (timestamp (swp_expiry sub)))
        (swp_unread_notification_count sub)).

Fixpoint wrap_all (l : list SubscriberWithProject)
    : outcome DecodeKeyError (list NotifyServerSubscription) :=
  match l with
  | [] => Ok []
  | sub :: l => s ← wrap_subscription sub; l ← wrap_all l; Ok (s :: l)
  end.

Definition collect_subscriptions (account : AccountId) (app_domain : option string)
    : App CollectSubscriptionsError (list NotifyServerSubscription) :=
  subscriptions ← m_map_err CollectSqlx
    (query (λ _, get_subscriptions_by_account_and_maybe_app account app_domain));
  lift (map_err CollectDecodeKey (wrap_all subscriptions)).

(** [NotifyServerSubscription { account, ..sub.clone() }]. *)
Definition with_account (account : AccountId) (s : NotifyServerSubscription)
    : NotifyServerSubscription :=
  mkNotifyServerSubscription (nss_app_domain s) (nss_app_authentication_key s) (nss_sym_key s)
    account (nss_scope s) (nss_expiry s) (nss_unread_notification_count s).

Definition Watched : Type := SubscriptionWatcherQuery * list NotifyServerSubscription.

(** One iteration over the watchers; [None] before the source's own is seen. *)
Definition watcher_step {E} (source_did_key mjv : string) (account : AccountId)
    (all_account_subscriptions app_subscriptions : list NotifyServerSubscription)
    (acc : option (list NotifyServerSubscription) * list Watched)
    (watcher : SubscriptionWatcherQuery)
    : outcome E (option (list NotifyServerSubscription) * list Watched) :=
  let '(source_subscriptions, watchers) := acc in
  let subscriptions := match swq_project watcher with
                       | Some _ => app_subscriptions
                       | None => all_account_subscriptions
                       end in
  let source_is_this_watcher := String.eqb source_did_key (swq_did_key watcher) in
  source_subscriptions ←
    (if source_is_this_watcher then
       match source_subscriptions with
       | Some _ => Panic
       | None => Ok (Some (with_account account <$> subscriptions))
       end
     else Ok source_subscriptions);
  Ok (source_subscriptions,
      if negb source_is_this_watcher || String.eqb mjv "0"
      then watchers ++ [(watcher, with_account (swq_account watcher) <$> subscriptions)]
      else watchers).

Definition prepare_subscription_watchers (source_client_id : bytes) (mjv : string)
    (account : AccountId) (app_domain : string)
    : App PrepareSubscriptionWatchersError (list NotifyServerSubscription * list Watched) :=
  all_account_subscriptions ←
    m_map_err PrepareCollectSubscriptions (collect_subscriptions account None);
  let app_subscriptions :=
    filter (λ sub, nss_app_domain sub = app_domain) all_account_subscriptions in
  subscription_watchers ← m_map_err GetSubscriptionWatchersForAccountByAppOrAllApp
    (query (λ now, get_subscription_watchers_for_account_by_app_or_all_app now account app_domain));
  '(source_subscriptions, watchers_with_subscriptions) ← lift
    (fold_outcome (watcher_step (to_did_key source_client_id) mjv account
                     all_account_subscriptions app_subscriptions)
       (None, []) subscription_watchers);
  mret (default app_subscriptions source_subscriptions, watchers_with_subscriptions).

(** ** Answers *)

(** The claims the server signs. *)
Definition response_claims {E} (iss_client_id aud : string) (act : string) (ttl : Z)
    : App E SharedClaims :=
  now ← utc_now;
  expiry ← lift (add_ttl now ttl);
  mret (mkSharedClaims (as_u64 (timestamp now)) (as_u64 (timestamp expiry)) iss_client_id aud
          act "1").

(** A type 0 envelope in base 64. *)
Definition seal_text (nonce sym_key : bytes) (text : string) : outcome () string :=
  envelope ← envelope0_new nonce sym_key (as_bytes text);
  Ok (b64_std_encode (envelope0_to_bytes envelope)).

(** [send]. *)
Definition send (st : AppState) (watched : Watched) : App SubscriptionWatcherSendError () :=
  let '(watcher, subscriptions) := watched in
  let keys := st_notify_keys st in
  claims ← response_claims (to_did_key (authentication_client_id keys)) (swq_did_key watcher)
             NOTIFY_SUBSCRIPTIONS_CHANGED_ACT NOTIFY_SUBSCRIPTIONS_CHANGED_TTL;
  auth ← lift (map_err Send_SignJwt (sign_jwt
    (mkWatchSubscriptionsChangedRequestAuth claims (to_did_pkh (swq_account watcher)) subscriptions)
    (authentication_secret keys)));
  msg_id ← ask env_message_id;
  let request := JsonRpcRequest_new msg_id NOTIFY_SUBSCRIPTIONS_CHANGED_METHOD
                   {| subscriptions_changed_auth := auth |} in
  sym_key ← lift (map_err Send_DecodeKey (decode_key (swq_sym_key watcher)));
  serialized ← lift (ok_or (to_json request) Send_EnvelopeSerialization);
  nonce ← random_bytes 12;
  base64_notification ← lift (map_err (λ _, Send_EnvelopeEncryption)
                                (seal_text nonce sym_key serialized));
  m_map_err Send_RelayPublish (publish_relay_message
    (mkPublish (topic_from_key sym_key) base64_notification NOTIFY_SUBSCRIPTIONS_CHANGED_TTL
       NOTIFY_SUBSCRIPTIONS_CHANGED_TAG false)).

(** The answer on a topic under a key. *)
Definition publish_response (topic : Topic) (sym_key : bytes) (tag ttl : Z) (response : string)
    : App RelayMessageServerError () :=
  nonce ← random_bytes 12;
  message ← lift (map_err (λ _, EnvelopeEncryption) (seal_text nonce sym_key response));
  m_map_err (λ _, Relay_NotifyServer RelayPublish)
    (publish_relay_message (mkPublish topic message ttl tag false)).

(** [serde_json::to_vec] of the result or of the error. *)
Definition serialize_response {A} `{!Json (JsonRpcResponse A)} (id : Z)
    (result : outcome RelayMessageError A) : App RelayMessageError string :=
  match result with
  | Ok a => server_err (ok_or (to_json (JsonRpcResponse_new id a)) JsonRpcResponseSerialization)
  | Err e => server_err (ok_or (to_json (JsonRpcResponseError_new id (JsonRpcError_from e)))
                           JsonRpcResponseErrorSerialization)
  | Panic => panic
  end.

(** ** Concurrent futures

    [tokio::try_join!] of the answer and of the watchers' futures, the latter
    driven by [buffer_unordered]: the futures complete in the order of the
    scheduler.  A failed answer ends the join, and so does the first failure
    among the watchers, but only when all of them are done; the futures that
    have not completed by then are dropped. *)
Inductive Task :=
| ResponseTask (m : App RelayMessageServerError ())
| WatcherTask (m : App SubscriptionWatcherSendError ()).

Definition schedule {A} (rank : nat → nat) (l : list A) : list A :=
  snd <$> merge_sort earlier (zip (rank <$> seq 0 (length l)) l).

Fixpoint join_tasks (tasks : list Task) (watchers_left : nat)
    (failed : option SubscriptionWatcherSendError) : App RelayMessageServerError () :=
  match tasks with
  | [] => mret ()
  | ResponseTask m :: tasks => m ;; join_tasks tasks watchers_left failed
  | WatcherTask m :: tasks =>
      r ← attempt m;
      failed ← match r with
               | Ok _ => mret failed
               | Err e => mret (Some (default e failed))
               | Panic => panic
               end;
      match pred watchers_left, failed with
      | O, Some e => throw (SubscriptionWatcherSend e)
      | n, _ => join_tasks tasks n failed
      end
  end.

(** [send_to_subscription_watchers] next to the answer. *)
Definition try_join (response : App RelayMessageServerError ()) (st : AppState)
    (watchers : list Watched) : App RelayMessageServerError () :=
  rank ← ask (λ i, sched_rank i);
  join_tasks (schedule rank (ResponseTask response :: ((λ x, WatcherTask (send st x)) <$> watchers)))
    (length watchers) None.

(** The end of a handler that answers and tells the watchers. *)
Definition answer_and_notify (st : AppState) (topic : Topic) (sym_key : bytes) (tag ttl id : Z)
    (result : outcome RelayMessageError (ResponseAuth * list Watched))
    : App RelayMessageError () :=
  response ← serialize_response id (fst <$> result);
  match result with
  | Ok (_, watchers) =>
      m_map_err Relay_Server (try_join (publish_response topic sym_key tag ttl response) st watchers)
  | _ => m_map_err Relay_Server (publish_response topic sym_key tag ttl response)
  end ;;
  lift ((λ _, ()) <$> result).

(** The end of a handler that only answers. *)
Definition answer {A} `{!Json (JsonRpcResponse A)} (topic : Topic) (sym_key : bytes)
    (tag ttl id : Z) (result : outcome RelayMessageError A) : App RelayMessageError () :=
  response ← serialize_response id result;
  m_map_err Relay_Server (publish_response topic sym_key tag ttl response) ;;
  lift ((λ _, ()) <$> result).
End handlers.

(** ** Who is told about a change *)

Section watchers_loop.
Context (source mjv : string) (account : AccountId) (all app : list NotifyServerSubscription).

Definition subscriptions_for (x : SubscriptionWatcherQuery) : list NotifyServerSubscription :=
  match swq_project x with Some _ => app | None => all end.

Definition watched_by (ws : list SubscriptionWatcherQuery) : list Watched :=
  (λ x, (x, with_account (swq_account x) <$> subscriptions_for x)) <$>
    filter (λ x, swq_did_key x ≠ source ∨ mjv = "0") ws.

Definition own_subscriptions (ws : list SubscriptionWatcherQuery)
    : option (list NotifyServerSubscription) :=
  (λ x, with_account account <$> subscriptions_for x) <$>
    head (filter (λ x, swq_did_key x = source) ws).

Lemma watched_by_snoc ws x : watched_by (x :: ws) =
  (if negb (String.eqb source (swq_did_key x)) || String.eqb mjv "0"
   then [(x, with_account (swq_account x) <$> subscriptions_for x)] else []) ++ watched_by ws.
Proof.
  unfold watched_by. destruct (String.eqb_spec source (swq_did_key x)) as [->|Hn];
    destruct (String.eqb_spec mjv "0") as [->|Hm]; cbn [negb orb].
  - by rewrite filter_cons_True by auto.
  - by rewrite filter_cons_False by naive_solver.
  - by rewrite filter_cons_True by auto.
  - rewrite filter_cons_True by auto. done.
Qed.

Lemma watcher_loop {E} ws : NoDup (swq_did_key <$> ws) → ∀ s acc,
  (is_Some s → source ∉ (swq_did_key <$> ws)) →
  fold_outcome (E:=E) (watcher_step source mjv account all app) (s, acc) ws =
  Ok (match s with Some l => Some l | None => own_subscriptions ws end, acc ++ watched_by ws).
Proof.
  induction ws as [|x ws IH]; intros Hnd s acc Hs.
  { cbn. unfold watched_by, own_subscriptions. cbn. rewrite app_nil_r. by destruct s. }
  rewrite fmap_cons in Hnd, Hs. apply list.NoDup_cons in Hnd as [Hx Hnd].
  cbn [fold_outcome]. unfold watcher_step at 2. rewrite watched_by_snoc.
  unfold own_subscriptions. fold (subscriptions_for x).
  destruct (String.eqb_spec source (swq_did_key x)) as [->|Hn]; cbn [negb orb].
  - destruct s as [l|]; [destruct Hs; [by eexists|by left]|]. cbn [mbind outcome_bind].
    rewrite IH by (try done; intros _; done). rewrite filter_cons_True by done. cbn [head fmap option_fmap option_map].
    by destruct (String.eqb mjv "0"); rewrite <-?app_assoc.
  - cbn [mbind outcome_bind]. rewrite IH; [|done|].
    + rewrite filter_cons_False by done. by rewrite <-app_assoc.
    + intros Hl Hin. destruct (Hs Hl). by right.
Qed.
End watchers_loop.

Section prepare.
Context `{!Ext, !HashLaws, !HexLaws, !UrlOps, !Env}.

Lemma decode_account_no_panic s db : no_panic (decode_account s db).1.
Proof.
  unfold decode_account, lift, try_from_account. cbn [fst]. rewrite no_panic_map_err.
  apply no_panic_bind; [apply validate_caip_10_no_panic|done].
Qed.

Lemma decode_account_read_only s : read_only (decode_account s).
Proof. apply read_only_lift. Qed.
#[local] Hint Resolve decode_account_read_only : read_only.

(** Rows that are decoded one by one, each into a value with the row's key. *)
Lemma decode_rows_fmap {A B K} (f : A → Query B) (g : B → K) (h : A → K) l :
  (∀ a, read_only (f a)) → (∀ a db b db', f a db = (Ok b, db') → g b = h a) →
  ∀ db bs db', decode_rows f l db = (Ok bs, db') → g <$> bs = h <$> l.
Proof.
  intros Hr Hk. induction l as [|a l IH]; intros db bs db' Hrun; cbn [decode_rows] in Hrun.
  - inv_ok Hrun. done.
  - inv_ok Hrun. inv_ok Hrun. inv_ok Hrun. cbn. f_equal; [by eapply Hk|by eapply IH].
Qed.

Lemma decode_rows_no_panic {A B} (f : A → Query B) l :
  (∀ a db, no_panic (f a db).1) → ∀ db, no_panic (decode_rows f l db).1.
Proof.
  intros Hf. induction l as [|a l IH]; intros db; cbn [decode_rows]; [done|].
  unfold mbind, M_bind. specialize (Hf a db). destruct (f a db) as [[b| |] db1]; try done.
  specialize (IH db1). by destruct (decode_rows f l db1) as [[]].
Qed.

Lemma watchers_query_keys now account app db ws db' :
  get_subscription_watchers_for_account_by_app_or_all_app now account app db = (Ok ws, db') →
  NoDup (swq_did_key <$> ws).
Proof.
  unfold get_subscription_watchers_for_account_by_app_or_all_app. rewrite bind_gets. intros Hrun.
  erewrite (decode_rows_fmap _ swq_did_key fst); [|..|exact Hrun].
  - eapply sublist_NoDup; [apply (NoDup_fst_map_to_list (subscription_watcher db))|].
    apply fmap_sublist, sublist_filter.
  - intros a. cbv beta. solve_read_only.
  - intros a db1 b db2 Hb. cbv beta in Hb. inv_ok Hb. inv_ok Hb. done.
Qed.

Lemma query_no_panic {A} (q : Z → Query A) w :
  (∀ t db, no_panic (q t db).1) → no_panic (query q w).1.
Proof.
  intros Hq. unfold query. destruct (env_db_fault _); [done|].
  specialize (Hq (env_now (w_tick w)) (w_db w)). by destruct (q _ _) as [[]].
Qed.

Lemma keeps_same_db_query {A} (q : Z → Query A) :
  (∀ t, read_only (q t)) → keeps same_db (query q).
Proof.
  intros Hq. apply keeps_query; [done|]. intros w t. unfold same_db. cbn. by rewrite Hq.
Qed.

Lemma keeps_same_relay_query {A} (q : Z → Query A) : keeps same_relay (query q).
Proof. by apply keeps_query. Qed.

Lemma collect_query_read_only account app :
  read_only (get_subscriptions_by_account_and_maybe_app account app).
Proof. unfold get_subscriptions_by_account_and_maybe_app. solve_read_only. Qed.

Lemma watchers_query_read_only now account app :
  read_only (get_subscription_watchers_for_account_by_app_or_all_app now account app).
Proof. unfold get_subscription_watchers_for_account_by_app_or_all_app. solve_read_only. Qed.

Lemma decode_key_no_panic k : no_panic (decode_key k).
Proof. unfold decode_key. repeat (apply no_panic_bind; [apply no_panic_ok_or|intros]). apply no_panic_ok_or. Qed.

Lemma wrap_all_no_panic l : no_panic (wrap_all l).
Proof.
  induction l as [|x l IH]; cbn [wrap_all]; [done|]. apply no_panic_bind.
  - unfold wrap_subscription. apply no_panic_bind; [apply decode_key_no_panic|done].
  - intros s _. apply no_panic_bind; [exact IH|done].
Qed.

Lemma decoded_query_no_panic {A B} (f : Db → list A) (g : Db → A → Query B) :
  (∀ db a db', no_panic (g db a db').1) →
  ∀ db, no_panic ((db ← gets id; decode_rows (g db) (f db)) db).1.
Proof. intros Hg db. rewrite bind_gets. by apply decode_rows_no_panic. Qed.

Lemma decode_account_then_no_panic {B} s (f : AccountId → B) db :
  no_panic ((a ← decode_account s; mret (M := M Db SqlxError) (f a)) db).1.
Proof.
  unfold mbind, M_bind. pose proof (decode_account_no_panic s db) as Hn.
  by destruct (decode_account s db) as [[]].
Qed.

Lemma collect_subscriptions_no_panic account app w :
  no_panic (collect_subscriptions account app w).1.
Proof.
  unfold collect_subscriptions. unfold mbind, M_bind, m_map_err.
  pose proof (query_no_panic (λ _, get_subscriptions_by_account_and_maybe_app account app) w) as Hq.
  destruct (query _ w) as [[rows| |] w1]; cbn [map_err fst] in *; [|done|].
  - unfold lift. cbn [fst]. rewrite no_panic_map_err. apply wrap_all_no_panic.
  - apply Hq. intros _ db. unfold get_subscriptions_by_account_and_maybe_app.
    rewrite bind_gets. apply decode_rows_no_panic.
    intros [[i r] p] db1. apply decode_account_then_no_panic.
Qed.

Lemma keeps_collect (R : relation World) `{!PreOrder R} account app :
  (∀ q : Z → Query (list SubscriberWithProject), (∀ t, read_only (q t)) → keeps R (query q)) →
  keeps R (collect_subscriptions account app).
Proof.
  intros HR. unfold collect_subscriptions. apply keeps_bind; [done| |intros ?; by apply keeps_lift].
  apply keeps_map_err, HR. intros _. apply collect_query_read_only.
Qed.

Lemma watchers_query_no_panic account app w :
  no_panic (query (λ now,
    get_subscription_watchers_for_account_by_app_or_all_app now account app) w).1.
Proof.
  apply query_no_panic. intros t db.
  unfold get_subscription_watchers_for_account_by_app_or_all_app. rewrite bind_gets.
  apply decode_rows_no_panic. intros [k x] db1. apply decode_account_then_no_panic.
Qed.

Lemma prepare_run source mjv account app w :
  prepare_subscription_watchers source mjv account app w =
  match collect_subscriptions account None w with
  | (Ok all, w1) =>
      match query (λ now, get_subscription_watchers_for_account_by_app_or_all_app now account app)
              w1 with
      | (Ok ws, w2) =>
          let in_app := filter (λ s, nss_app_domain s = app) all in
          (Ok (default in_app (own_subscriptions (to_did_key source) account all in_app ws),
               watched_by (to_did_key source) mjv all in_app ws), w2)
      | (Err e, w2) => (Err (GetSubscriptionWatchersForAccountByAppOrAllApp e), w2)
      | (Panic, w2) => (Panic, w2)
      end
  | (Err e, w1) => (Err (PrepareCollectSubscriptions e), w1)
  | (Panic, w1) => (Panic, w1)
  end.
Proof.
  unfold prepare_subscription_watchers, m_map_err. unfold mbind at 1, M_bind at 1.
  destruct (collect_subscriptions account None w) as [[all| |] w1]; [|done..].
  cbn [map_err]. unfold mbind at 1, M_bind at 1.
  destruct (query _ w1) as [[ws| |] w2] eqn:Hws; [|done..]. cbn [map_err].
  apply query_Ok in Hws as (db' & _ & Hrun%watchers_query_keys & _).
  unfold lift, mbind, M_bind. by rewrite watcher_loop by (done || by intros [? ?]).
Qed.

(** C26. After a change the watchers of the account are told exactly as the
    protocol says: the answer carries the sender's own watched subscriptions
    (those of the app when it watches none), and everyone else who watches the
    app or all apps, plus the sender in the old protocol, is sent what it
    watches.  Nothing is written, and the assertion that a client has one
    watcher never fails. *)
Theorem prepare_subscription_watchers_spec source mjv account app w :
  let r := prepare_subscription_watchers source mjv account app w in
  same_db w r.2 ∧ same_relay w r.2 ∧ no_panic r.1 ∧
  ∀ sbs watched, r.1 = Ok (sbs, watched) →
    ∃ all ws w1,
      collect_subscriptions account None w = (Ok all, w1) ∧
      query (λ now, get_subscription_watchers_for_account_by_app_or_all_app now account app) w1
        = (Ok ws, r.2) ∧
      let in_app := filter (λ s, nss_app_domain s = app) all in
      sbs = default in_app (own_subscriptions (to_did_key source) account all in_app ws) ∧
      watched = watched_by (to_did_key source) mjv all in_app ws.
Proof.
  intros r. assert (Hkeeps : ∀ R, PreOrder R →
    (∀ A (q : Z → Query A), (∀ t, read_only (q t)) → keeps R (query q)) → R w r.2).
  { intros R HR Hq. refine (keeps_bind R _ _ _ _ w); [apply keeps_map_err, keeps_collect; auto|].
    intros all. apply keeps_bind; [done|apply keeps_map_err, Hq; intros t;
      apply watchers_query_read_only|]. intros ws.
    apply keeps_bind; [done|by apply keeps_lift|]. intros [? ?]. by apply keeps_ret. }
  split; [apply Hkeeps; [apply _|]; intros; by apply keeps_same_db_query|].
  split; [apply Hkeeps; [apply _|]; intros; by apply keeps_same_relay_query|]. clear Hkeeps.
  subst r. rewrite prepare_run.
  pose proof (collect_subscriptions_no_panic account None w) as Hc.
  destruct (collect_subscriptions account None w) as [[all| |] w1] eqn:Hall; cbn [fst] in *;
    [|split; [done|intros ? ? [=]]|done].
  pose proof (watchers_query_no_panic account app w1) as Hq.
  destruct (query _ w1) as [[ws| |] w2] eqn:Hws; cbn [fst snd] in *;
    [|split; [done|intros ? ? [=]]|done].
  split; [done|]. intros sbs watched [= <- <-]. by exists all, ws, w1.
Qed.
End prepare.

(** ** Witness *)

Module HandlersInstances.
Import Concrete.Instances EnvInstances.

Definition prepare_w :=
  prepare_subscription_watchers (H1 := make_env (λ _ _, None) (λ _ _, None)) (as_bytes "client")
    "0" (mkAccountId account_mainnet) "app.example.com" (world_w db4_w).

(** The account has one subscription. *)
Lemma prepare_subscription_watchers_spec_witness :
  no_panic prepare_w.1 ∧ w_db prepare_w.2 = db4_w ∧
  match prepare_w.1 with
  | Ok (sbs, watched) => (length sbs =? 1)%nat && (length watched =? 0)%nat
  | _ => false
  end = true.
Proof.
  pose proof (prepare_subscription_watchers_spec (H3 := make_env (λ _ _, None) (λ _ _, None))
    (as_bytes "client") "0" (mkAccountId account_mainnet) "app.example.com" (world_w db4_w))
    as (Hdb & _ & Hp & _).
  split; [exact Hp|split; [exact Hdb|vm_compute; reflexivity]].
Defined.
End HandlersInstances.
