(* ===== verification/RelayRequests.v ===== *)
(** * The handlers of relay messages (relay_webhook/handlers/, relay_webhook/mod.rs)

    One definition per kind of request, in the order of the source: the rate
    limit, finding the project or the subscriber of the topic, decryption, then
    [handle] (authentication, the change, the signed answer), whose result or
    error is answered on the relay.  Analytics, metrics and logging are
    dropped. *)

From S2P Require Import Prelude RustStr Externals AccountId Errors Types RateLimit.
From S2P Require Import Database Jwt World RelayPublish NotifyMessage Cache Identity RelayError.
From S2P Require Import RelayHandlers.
Open Scope Z_scope.

(** ** Rate limits; intervals in milliseconds *)

Definition notify_subscribe_client_rate_limit : Limit := mkLimit 500 86400000 100.
Definition notify_subscribe_project_rate_limit : Limit := mkLimit 50000 1000 1.
Definition notify_watch_subscriptions_rate_limit : Limit := mkLimit 100 1000 1.
Definition notify_update_rate_limit : Limit := mkLimit 100 1000 1.
Definition notify_delete_rate_limit : Limit := mkLimit 10 3600000 1.
Definition notify_get_notifications_rate_limit : Limit := mkLimit 100 500 1.
Definition notify_mark_notifications_as_read_rate_limit : Limit := mkLimit 100 500 1.

Section requests.
Context `{!Ext, !UrlOps, !Env, !CacaoOps, !Msgpack Cacao, !Json KeyServerResponse,
  !Json Siwx.RawRecap, !BuildProfile, !JwtConsts, !JsonRpcConsts, !RelayWire, !ErrorTexts,
  !Scheduler, !ValidatorOps}.
Context (st : AppState).

Definition sqlx {A} (m : App SqlxError A) : App RelayMessageError A :=
  m_map_err sqlx_server_error m.

(** [AppState::notify_webhook]: its body is commented out. *)
Definition notify_webhook : App RelayMessageError () := mret ().

(** ** wc_notifyWatchSubscriptions *)

Definition watch_subscriptions (req : JsonRpcRequest NotifyWatchSubscriptions)
    (response_sym_key : bytes) : App RelayMessageError ResponseAuth :=
  '(request_auth, iss_client_id) ←
    parse_request (T := WatchSubscriptionsRequestAuth) (watch_subscriptions_auth (req_params req));
  let claims := ws_shared_claims request_auth in
  check_act claims NOTIFY_WATCH_SUBSCRIPTIONS_ACT ;;
  authorization ← verify_request_identity st iss_client_id (ws_ksu request_auth)
                    (ws_sub request_auth);
  let account := auth_account authorization in
  let app_domain := domain <$> ws_app request_auth in
  client_err (map_err RelayAppNotAuthorized
    (check_app_authorization (auth_app authorization) app_domain)) ;;
  subscriptions ← m_map_err (λ e, Relay_Server (CollectSubscriptions e))
                    (collect_subscriptions account app_domain);
  let subscriptions := with_account account <$> subscriptions in
  proj ← match app_domain with
         | Some d =>
             p ← m_map_err (row_not_found_or (NotifyWatchSubscriptionsAppDomainNotFound d))
                   (query (λ _, get_project_by_app_domain d));
             mret (Some (pr_id p))
         | None => mret None
         end;
  now ← utc_now;
  m_map_err (λ e, match e with
                  | LimitReached => Relay_Client SubscriptionWatcherLimitReached
                  | WatcherSqlx e => sqlx_server_error e
                  end)
    (query_err (WatcherSqlx SqlxIo) (λ _,
       upsert_subscription_watcher account proj (iss claims) (hex_encode response_sym_key)
         (now + days 1))) ;;
  claims ← response_claims (to_did_key (authentication_client_id (st_notify_keys st)))
             (to_did_key iss_client_id) NOTIFY_WATCH_SUBSCRIPTIONS_RESPONSE_ACT
             NOTIFY_WATCH_SUBSCRIPTIONS_RESPONSE_TTL;
  auth ← server_err (map_err Relay_SignJwt (sign_jwt
    (mkWatchSubscriptionsResponseAuth claims (ws_sub request_auth) subscriptions)
    (authentication_secret (st_notify_keys st))));
  mret {| response_auth := auth |}.

(** The end of the handler, with the tag and the lifetime of its answer. *)
Definition answer_watch (topic : Topic) (sym_key : bytes) (id : Z)
    (result : outcome RelayMessageError ResponseAuth) : App RelayMessageError () :=
  answer topic sym_key NOTIFY_WATCH_SUBSCRIPTIONS_RESPONSE_TAG
    NOTIFY_WATCH_SUBSCRIPTIONS_RESPONSE_TTL id result.

Definition notify_watch_subscriptions (msg : RelayIncomingMessage)
    : App RelayMessageError () :=
  guard_err (negb (String.eqb (rim_topic msg) (key_agreement_topic (st_notify_keys st))))
    (Relay_Client (WrongNotifyWatchSubscriptionsTopic (rim_topic msg))) ;;
  envelope ← client_err (open_envelope envelope1_from_bytes (rim_message msg));
  let client_public_key := pubkey (opts envelope) in
  limit_topic st ("notify-watch-subscriptions-" +:+ hex_encode client_public_key)
    notify_watch_subscriptions_rate_limit ;;
  response_sym_key ← server_err (map_err Relay_DeriveKey
    (derive_key client_public_key (key_agreement_secret (st_notify_keys st))));
  let response_topic := topic_from_key response_sym_key in
  req ← client_err (decrypt_message (T := NotifyWatchSubscriptions) envelope response_sym_key);
  result ← attempt (watch_subscriptions req response_sym_key);
  answer_watch response_topic response_sym_key (req_id req) result.

(** The answer's claims and signature under the project's keys. *)
Definition project_signing_key (proj : Project) : App RelayMessageError bytes :=
  server_err (map_err Relay_DecodeKey (decode_key (pr_authentication_private_key proj))).

Definition sign_response {T} `{!Json T} (message : T) (key : bytes)
    : App RelayMessageError string :=
  server_err (map_err Relay_SignJwt (sign_jwt message key)).

(** ** wc_notifySubscribe *)

(** The welcome notification of a new subscriber. *)
Definition send_welcome_notification (proj subscriber : Uuid) (scope : gset Uuid)
    : App RelayMessageError () :=
  welcome ← sqlx (query (λ _, get_welcome_notification proj));
  match welcome with
  | Some w =>
      if wn_enabled w && bool_decide (wn_type w ∈ scope) then
        notification_id ← new_v4;
        fresh ← new_v4;
        notif ← sqlx (query (λ now, upsert_notification now fresh (uuid_to_string notification_id)
          proj (mkNotification (wn_type w) (wn_title w) (wn_body w) None (wn_url w))));
        fresh ← new_v4;
        sqlx (query (λ now, upsert_subscriber_notifications now (nwi_id notif)
                                [(fresh, subscriber)]))
      else mret ()
  | None => mret ()
  end.

(** Subscribing to the topic of the subscriber, and the answer. *)
Definition conclude_subscribe (notify_topic : Topic) (iss_client_id : bytes) (mjv : string)
    (account : AccountId) (proj : Project) (project_client_id : bytes)
    : App RelayMessageError (ResponseAuth * list Watched) :=
  m_map_err (λ _, Relay_Server (Relay_NotifyServer RelaySubscribe))
    (subscribe_relay_topic notify_topic) ;;
  '(sbs, watchers) ← m_map_err (λ e, Relay_Server (PrepareSubscriptionWatchers e))
    (prepare_subscription_watchers iss_client_id mjv account (pr_app_domain proj));
  claims ← response_claims (to_did_key project_client_id) (to_did_key iss_client_id)
             NOTIFY_SUBSCRIBE_RESPONSE_ACT NOTIFY_SUBSCRIBE_RESPONSE_TTL;
  key ← project_signing_key proj;
  auth ← sign_response (mkSubscriptionResponseAuth claims (to_did_pkh account)
                          (from_domain (pr_app_domain proj)) sbs) key;
  mret ({| response_auth := auth |}, watchers).

Definition subscribe (req : JsonRpcRequest NotifySubscribe) (proj : Project)
    (project_client_id client_public_key : bytes)
    : App RelayMessageError (ResponseAuth * list Watched) :=
  '(request_auth, iss_client_id) ←
    parse_request (T := SubscriptionRequestAuth) (subscription_auth (req_params req));
  let claims := sub_shared_claims request_auth in
  account ← authenticate st proj claims NOTIFY_SUBSCRIBE_ACT iss_client_id
              (sub_ksu request_auth) (sub_sub request_auth) (sub_app request_auth) None;
  scope ← lift (ok_or (parse_scope (sub_scp request_auth))
                      (Relay_Server (Relay_NotifyServer UuidError)));
  secret ← random_bytes 32;
  notify_key ← server_err (map_err Relay_DeriveKey (derive_key client_public_key secret));
  fresh ← new_v4;
  subscriber ← sqlx (query (λ now, upsert_subscriber now fresh (pr_id proj) account scope
                       notify_key (topic_from_key notify_key)));
  (if sr_inserted subscriber
   then send_welcome_notification (pr_id proj) (sr_id subscriber) scope else mret ()) ;;
  notify_webhook ;;
  conclude_subscribe (sr_topic subscriber) iss_client_id (mjv claims) account proj project_client_id.

Definition answer_subscribe (topic : Topic) (sym_key : bytes) (id : Z)
    (result : outcome RelayMessageError (ResponseAuth * list Watched)) : App RelayMessageError () :=
  answer_and_notify st topic sym_key NOTIFY_SUBSCRIBE_RESPONSE_TAG NOTIFY_SUBSCRIBE_RESPONSE_TTL id result.

Definition notify_subscribe (msg : RelayIncomingMessage) : App RelayMessageError () :=
  limit_topic st ("notify-subscribe-project-" +:+ rim_topic msg)
    notify_subscribe_project_rate_limit ;;
  proj ← m_map_err (row_not_found_or (WrongNotifySubscribeTopic (rim_topic msg)))
           (query (λ _, get_project_by_topic (rim_topic msg)));
  project_client_id ← server_err (map_err GetAuthenticationClientId
                        (get_authentication_client_id proj));
  envelope ← client_err (open_envelope envelope1_from_bytes (rim_message msg));
  let client_public_key := pubkey (opts envelope) in
  limit_topic st ("notify-subscribe-client-" +:+ hex_encode client_public_key)
    notify_subscribe_client_rate_limit ;;
  server_key ← server_err (map_err Relay_DecodeKey (decode_key (pr_subscribe_private_key proj)));
  sym_key ← server_err (map_err Relay_DeriveKey (derive_key client_public_key server_key));
  guard_err (negb (String.eqb (rim_topic msg) (topic_from_key (x25519_public server_key))))
    (Relay_Client TopicDoesNotMatchKey) ;;
  req ← client_err (decrypt_message (T := NotifySubscribe) envelope sym_key);
  result ← attempt (subscribe req proj project_client_id client_public_key);
  answer_subscribe (topic_from_key sym_key) sym_key (req_id req) result.

(** ** Requests on a subscription's topic

    The four handlers below begin alike: rate limit, subscriber, project,
    envelope, key and decryption. *)

Definition find_subscriber (msg : RelayIncomingMessage) (prefix : string) (l : Limit)
    (wrong_topic : Topic → RelayMessageClientError)
    : App RelayMessageError (SubscriberWithScope * Project) :=
  limit_topic st (prefix +:+ rim_topic msg) l ;;
  subscriber ← m_map_err (row_not_found_or (wrong_topic (rim_topic msg)))
                 (query (λ _, get_subscriber_by_topic (rim_topic msg)));
  proj ← sqlx (query (λ _, get_project_by_id (sws_project subscriber)));
  mret (subscriber, proj).

Definition open_request {T} `{!Json (JsonRpcRequest T)} (msg : RelayIncomingMessage)
    (subscriber : SubscriberWithScope) : App RelayMessageError (JsonRpcRequest T * bytes) :=
  envelope ← client_err (open_envelope envelope0_from_bytes (rim_message msg));
  sym_key ← server_err (map_err Relay_DecodeKey (decode_key (sws_sym_key subscriber)));
  guard_err (negb (String.eqb (rim_topic msg) (topic_from_key sym_key)))
    (Relay_Client TopicDoesNotMatchKey) ;;
  req ← client_err (decrypt_message envelope sym_key);
  mret (req, sym_key).

(** ** wc_notifyUpdate *)

Definition update (req : JsonRpcRequest NotifyUpdate) (subscriber : SubscriberWithScope)
    (proj : Project) (project_client_id : bytes)
    : App RelayMessageError (ResponseAuth * list Watched) :=
  '(request_auth, iss_client_id) ←
    parse_request (T := SubscriptionUpdateRequestAuth) (update_auth (req_params req));
  let claims := upd_shared_claims request_auth in
  account ← authenticate st proj claims NOTIFY_UPDATE_ACT iss_client_id (upd_ksu request_auth)
              (upd_sub request_auth) (upd_app request_auth) (Some (sws_account subscriber));
  new_scope ← lift (ok_or (parse_scope (upd_scp request_auth))
                          (Relay_Server (Relay_NotifyServer UuidError)));
  sqlx (query (λ now, update_subscriber now (sws_id subscriber) new_scope)) ;;
  '(sbs, watchers) ← m_map_err (λ e, Relay_Server (PrepareSubscriptionWatchers e))
    (prepare_subscription_watchers iss_client_id (mjv claims) account (pr_app_domain proj));
  claims ← response_claims (to_did_key project_client_id) (to_did_key iss_client_id)
             NOTIFY_UPDATE_RESPONSE_ACT NOTIFY_UPDATE_RESPONSE_TTL;
  key ← project_signing_key proj;
  auth ← sign_response (mkSubscriptionUpdateResponseAuth claims (to_did_pkh account)
                          (from_domain (pr_app_domain proj)) sbs) key;
  mret ({| response_auth := auth |}, watchers).

Definition answer_update (topic : Topic) (sym_key : bytes) (id : Z)
    (result : outcome RelayMessageError (ResponseAuth * list Watched)) : App RelayMessageError () :=
  answer_and_notify st topic sym_key NOTIFY_UPDATE_RESPONSE_TAG NOTIFY_UPDATE_RESPONSE_TTL id result.

Definition notify_update (msg : RelayIncomingMessage) : App RelayMessageError () :=
  '(subscriber, proj) ← find_subscriber msg "notify-update-" notify_update_rate_limit
                          WrongNotifyUpdateTopic;
  project_client_id ← server_err (map_err GetAuthenticationClientId
                        (get_authentication_client_id proj));
  '(req, sym_key) ← open_request (T := NotifyUpdate) msg subscriber;
  result ← attempt (update req subscriber proj project_client_id);
  answer_update (rim_topic msg) sym_key (req_id req) result.

(** ** wc_notifyDelete *)

Definition unsubscribe (req : JsonRpcRequest NotifyDelete) (msg : RelayIncomingMessage)
    (subscriber : SubscriberWithScope) (proj : Project) (project_client_id : bytes)
    : App RelayMessageError (ResponseAuth * list Watched) :=
  '(request_auth, iss_client_id) ←
    parse_request (T := SubscriptionDeleteRequestAuth) (delete_auth (req_params req));
  let claims := del_shared_claims request_auth in
  account ← authenticate st proj claims NOTIFY_DELETE_ACT iss_client_id (del_ksu request_auth)
              (del_sub request_auth) (del_app request_auth) (Some (sws_account subscriber));
  sqlx (query (λ _, delete_subscriber (sws_id subscriber))) ;;
  notify_webhook ;;
  spawn (relay_call (RelayUnsubscribeReq (rim_topic msg))) ;;
  '(sbs, watchers) ← m_map_err (λ e, Relay_Server (PrepareSubscriptionWatchers e))
    (prepare_subscription_watchers iss_client_id (mjv claims) account (pr_app_domain proj));
  response ← response_claims (to_did_key project_client_id) (iss claims)
               NOTIFY_DELETE_RESPONSE_ACT NOTIFY_DELETE_RESPONSE_TTL;
  key ← project_signing_key proj;
  auth ← sign_response (mkSubscriptionDeleteResponseAuth response (to_did_pkh account)
                          (from_domain (pr_app_domain proj)) sbs) key;
  mret ({| response_auth := auth |}, watchers).

Definition answer_delete (topic : Topic) (sym_key : bytes) (id : Z)
    (result : outcome RelayMessageError (ResponseAuth * list Watched)) : App RelayMessageError () :=
  answer_and_notify st topic sym_key NOTIFY_DELETE_RESPONSE_TAG NOTIFY_DELETE_RESPONSE_TTL id result.

Definition notify_delete (msg : RelayIncomingMessage) : App RelayMessageError () :=
  '(subscriber, proj) ← find_subscriber msg "notify-delete-" notify_delete_rate_limit
                          WrongNotifyDeleteTopic;
  project_client_id ← server_err (map_err GetAuthenticationClientId
                        (get_authentication_client_id proj));
  '(req, sym_key) ← open_request (T := NotifyDelete) msg subscriber;
  result ← attempt (unsubscribe req msg subscriber proj project_client_id);
  answer_delete (rim_topic msg) sym_key (req_id req) result.

(** ** wc_notifyGetNotifications *)

(** The url of a notification is replaced by the link that follows it. *)
Definition link_url {E} (n : NotificationView) : outcome E NotificationView :=
  let c := nv_content n in
  url ← match n_url c with
        | Some _ => link ← format_follow_link (st_notify_url st) (nv_id n);
                    Ok (Some (url_to_string link))
        | None => Ok None
        end;
  Ok (mkNotificationView (nv_notification_id n) (nv_id n) (nv_sent_at n)
        (mkNotification (n_type c) (n_title c) (n_body c) (n_icon c) url) (nv_is_read n)).

Fixpoint link_urls {E} (l : list NotificationView) : outcome E (list NotificationView) :=
  match l with
  | [] => Ok []
  | n :: l => n ← link_url n; l ← link_urls l; Ok (n :: l)
  end.

Definition project_identity (proj : Project) : App RelayMessageError bytes :=
  server_err (map_err Relay_DecodeKey (decode_key (pr_authentication_public_key proj))).

Definition get_notifications (req : JsonRpcRequest AuthMessage) (subscriber : SubscriberWithScope)
    (proj : Project) : App RelayMessageError AuthMessage :=
  '(request_auth, iss_client_id) ←
    parse_request (T := SubscriptionGetNotificationsRequestAuth) (auth (req_params req));
  let claims := gnr_shared_claims request_auth in
  account ← authenticate st proj claims NOTIFY_GET_NOTIFICATIONS_ACT iss_client_id
              (gnr_ksu request_auth) (gnr_sub request_auth) (gnr_app request_auth)
              (Some (sws_account subscriber));
  server_err (map_err Relay_NotifyServer (get_notifications_request_validate request_auth)) ;;
  data ← sqlx (query (λ now,
    get_notifications_for_subscriber now (sws_id subscriber) (gnr_params request_auth)));
  linked ← lift (link_urls (notifications data));
  let data := mkGetNotificationsResult linked (has_more data)
                (has_more_unread data) in
  identity ← project_identity proj;
  claims ← response_claims (to_did_key identity) (to_did_key iss_client_id)
             NOTIFY_GET_NOTIFICATIONS_RESPONSE_ACT NOTIFY_GET_NOTIFICATIONS_RESPONSE_TTL;
  key ← project_signing_key proj;
  auth ← sign_response (mkSubscriptionGetNotificationsResponseAuth claims (to_did_pkh account)
                          (from_domain (pr_app_domain proj)) data) key;
  mret {| auth := auth |}.

Definition answer_get_notifications (topic : Topic) (sym_key : bytes) (id : Z)
    (result : outcome RelayMessageError AuthMessage) : App RelayMessageError () :=
  answer topic sym_key NOTIFY_GET_NOTIFICATIONS_RESPONSE_TAG NOTIFY_GET_NOTIFICATIONS_RESPONSE_TTL id result.

Definition notify_get_notifications (msg : RelayIncomingMessage) : App RelayMessageError () :=
  '(subscriber, proj) ← find_subscriber msg "notify-get-notifications-"
                          notify_get_notifications_rate_limit WrongNotifyGetNotificationsTopic;
  '(req, sym_key) ← open_request (T := AuthMessage) msg subscriber;
  result ← attempt (get_notifications req subscriber proj);
  answer_get_notifications (rim_topic msg) sym_key (req_id req) result.

(** ** wc_notifyMarkNotificationsAsRead *)

Definition mark_as_read (req : JsonRpcRequest AuthMessage) (subscriber : SubscriberWithScope)
    (proj : Project) : App RelayMessageError AuthMessage :=
  '(request_auth, iss_client_id) ←
    parse_request (T := SubscriptionMarkNotificationsAsReadRequestAuth) (auth (req_params req));
  let claims := mnr_shared_claims request_auth in
  account ← authenticate st proj claims NOTIFY_MARK_NOTIFICATIONS_AS_READ_ACT iss_client_id
              (mnr_ksu request_auth) (mnr_sub request_auth) (mnr_app request_auth)
              (Some (sws_account subscriber));
  server_err (map_err Relay_NotifyServer
                (mark_notifications_as_read_request_validate request_auth)) ;;
  sqlx (query (λ _, mark_notifications_as_read (sws_id subscriber)
                      (mr_ids (mnr_params request_auth)))) ;;
  identity ← project_identity proj;
  claims ← response_claims (to_did_key identity) (to_did_key iss_client_id)
             NOTIFY_MARK_NOTIFICATIONS_AS_READ_RESPONSE_ACT
             NOTIFY_MARK_NOTIFICATIONS_AS_READ_RESPONSE_TTL;
  key ← project_signing_key proj;
  auth ← sign_response (mkSubscriptionMarkNotificationsAsReadResponseAuth claims
                          (to_did_pkh account) (from_domain (pr_app_domain proj))) key;
  mret {| auth := auth |}.

Definition answer_mark_as_read (topic : Topic) (sym_key : bytes) (id : Z)
    (result : outcome RelayMessageError AuthMessage) : App RelayMessageError () :=
  answer topic sym_key NOTIFY_MARK_NOTIFICATIONS_AS_READ_RESPONSE_TAG NOTIFY_MARK_NOTIFICATIONS_AS_READ_RESPONSE_TTL id result.

Definition notify_mark_notifications_as_read (msg : RelayIncomingMessage)
    : App RelayMessageError () :=
  '(subscriber, proj) ← find_subscriber msg "notify-mark-notifications-as-read-"
    notify_mark_notifications_as_read_rate_limit WrongNotifyMarkNotificationsAsReadTopic;
  '(req, sym_key) ← open_request (T := AuthMessage) msg subscriber;
  result ← attempt (mark_as_read req subscriber proj);
  answer_mark_as_read (rim_topic msg) sym_key (req_id req) result.
End requests.
