(* ===== verification/Webhook.v ===== *)
(** * The relay's webhook (relay_webhook/mod.rs)

    The relay calls the server with one signed watch event.  A message that was
    queued in the server's mailbox is only removed from it; an accepted one is
    dispatched by its tag. *)

From S2P Require Import Prelude RustStr Externals AccountId Errors Types RateLimit.
From S2P Require Import Database Jwt World RelayPublish Cache Identity RelayError.
From S2P Require Import RelayHandlers RelayRequests.
Open Scope Z_scope.

Record WatchEventPayload := mkWatchEventPayload {
  evt_status : WatchStatus;
  evt_topic : Topic;
  evt_message : string;
  evt_message_id : string;
  evt_tag : Z;
}.

Record WatchEventClaims := mkWatchEventClaims {
  wec_iss : string;
  wec_act : WatchAction;
  wec_typ : WatchType;
  wec_evt : WatchEventPayload;
}.

(** [WatchEventClaims::try_from_str], which checks the signature,
    [verify_basic], which checks the audience and the time, and
    [get_message_id]. *)
Class RelayRpcOps := {
  watch_event_from_str : string → option WatchEventClaims;
  verify_basic : nat → string → list string → bool;
  get_message_id : string → string;
}.

Inductive WebhookClientError :=
| NotSingleWatchEvent (n : nat)
| ParseWatchEvent | VerifyWatchEvent | WrongIssuer
| WrongWatchAction (a : WatchAction)
| WrongWatchType (t : WatchType)
| WrongWatchStatus (s : WatchStatus).

Inductive WebhookError :=
| Webhook_Client (e : WebhookClientError)
| Webhook_Server (e : RelayMessageServerError).

(** [thiserror] text of a client error, in the body of the response. *)
Class WebhookTexts := { webhook_client_text : WebhookClientError → string }.

(** [impl IntoResponse for Error]. *)
Definition webhook_into_response `{WebhookTexts} (e : WebhookError) : Response :=
  match e with
  | Webhook_Client e =>
      respond 422 (JsonBody (VObject [("error", VString (webhook_client_text e))]))
  | Webhook_Server _ =>
      respond 500 (JsonBody (VObject [("error", VString "Internal server error")]))
  end.

Section webhook.
Context `{!Ext, !UrlOps, !Env, !CacaoOps, !Msgpack Cacao, !Json KeyServerResponse,
  !Json Siwx.RawRecap, !BuildProfile, !JwtConsts, !JsonRpcConsts, !RelayWire, !ErrorTexts,
  !Scheduler, !ValidatorOps, !RelayRpcOps}.
Context (st : AppState).

Definition dispatch (msg : RelayIncomingMessage) : App RelayMessageError () :=
  let tag := rim_tag msg in
  if tag =? NOTIFY_SUBSCRIBE_TAG then notify_subscribe st msg
  else if tag =? NOTIFY_DELETE_TAG then notify_delete st msg
  else if tag =? NOTIFY_UPDATE_TAG then notify_update st msg
  else if tag =? NOTIFY_WATCH_SUBSCRIPTIONS_TAG then notify_watch_subscriptions st msg
  else if tag =? NOTIFY_GET_NOTIFICATIONS_TAG then notify_get_notifications st msg
  else if tag =? NOTIFY_MARK_NOTIFICATIONS_AS_READ_TAG
  then notify_mark_notifications_as_read st msg
  else mret ().

(** Client errors are logged and dropped. *)
Definition handle_msg (msg : RelayIncomingMessage) : App RelayMessageServerError () :=
  result ← attempt (dispatch msg);
  match result with
  | Ok _ => mret ()
  | Err (Relay_Client _) => mret ()
  | Err (Relay_Server e) => throw e
  | Panic => panic
  end.

Definition client_error {A} (e : WebhookClientError) : App WebhookError A :=
  throw (Webhook_Client e).

(** [relay_mailbox_clearer_tx.send(receipt).await.expect(..)]: it panics when the
    receiver is gone.  That it waits while the channel is full is in the
    mailbox clearing service, which takes a receipt only when there is room. *)
Definition clear_mailbox {E} (r : Receipt) : App E () :=
  open ← gets w_receiver;
  if (open : bool) then modify (set_w_mailbox (λ l, l ++ [r])) else panic.

Definition handle_event (claims : WatchEventClaims) : App WebhookError () :=
  let event := wec_evt claims in
  if bool_decide (evt_status event = WatchStatus_Queued) then
    clear_mailbox (mkReceipt (evt_topic event) (evt_message_id event))
  else
    received_at ← utc_now;
    let msg := mkRelayIncomingMessage (evt_topic event) (evt_message event) (evt_tag event)
                 (get_message_id (evt_message event)) received_at in
    guard_err (bool_decide (wec_act claims ≠ WatchEvent))
      (Webhook_Client (WrongWatchAction (wec_act claims))) ;;
    guard_err (bool_decide (wec_typ claims ≠ WatchType_Subscriber))
      (Webhook_Client (WrongWatchType (wec_typ claims))) ;;
    guard_err (bool_decide (evt_status event ≠ WatchStatus_Accepted))
      (Webhook_Client (WrongWatchStatus (evt_status event))) ;;
    m_map_err Webhook_Server (handle_msg msg).

(** [handler] on the [event_auth] of the payload. *)
Definition webhook (event_auth : list string) : App WebhookError Response :=
  event ← match event_auth with
          | [event] => mret event
          | l => client_error (NotSingleWatchEvent (length l))
          end;
  claims ← lift (ok_or (watch_event_from_str event) (Webhook_Client ParseWatchEvent));
  verified ← ask (λ i, verify_basic i event [st_webhook_notify_url st]);
  guard_err (negb verified) (Webhook_Client VerifyWatchEvent) ;;
  guard_err (negb (String.eqb (wec_iss claims) (st_relay_identity st)))
    (Webhook_Client WrongIssuer) ;;
  handle_event claims ;;
  mret (respond 204 NoBody).
End webhook.

(** ** What a webhook call does, on every outcome *)

Section outcomes.
Context `{!Ext, !UrlOps, !Env, !CacaoOps, !Msgpack Cacao, !Json KeyServerResponse,
  !Json Siwx.RawRecap, !BuildProfile, !JwtConsts, !JsonRpcConsts, !RelayWire, !ErrorTexts,
  !Scheduler, !ValidatorOps, !RelayRpcOps, !WebhookTexts}.
Context (st : AppState).

(** The call carries one event, which the relay signed for this server. *)
Definition Authentic (event_auth : list string) (i : nat) (claims : WatchEventClaims) : Prop :=
  ∃ event, event_auth = [event] ∧ watch_event_from_str event = Some claims ∧
    verify_basic i event [st_webhook_notify_url st] = true ∧
    wec_iss claims = st_relay_identity st.

(** The event is a message for the server. *)
Definition Accepted (claims : WatchEventClaims) : Prop :=
  wec_act claims = WatchEvent ∧ wec_typ claims = WatchType_Subscriber ∧
  evt_status (wec_evt claims) = WatchStatus_Accepted.

Definition incoming_message (claims : WatchEventClaims) (received_at : Z) : RelayIncomingMessage :=
  let event := wec_evt claims in
  mkRelayIncomingMessage (evt_topic event) (evt_message event) (evt_tag event)
    (get_message_id (evt_message event)) received_at.

(** Only time has passed. *)
Definition idle : relation World := λ w w', ∃ n, w' = Nat.iter n bump w.

Lemma webhook_run event_auth w :
  (∃ claims, Authentic event_auth (w_tick w) claims ∧
     webhook st event_auth w = (handle_event st claims ;; mret (respond 204 NoBody)) (bump w)) ∨
  ((∀ claims, ¬ Authentic event_auth (w_tick w) claims) ∧
   ∃ e n, webhook st event_auth w = (Err (Webhook_Client e), Nat.iter n bump w)).
Proof.
  destruct event_auth as [|event [|x l]];
    [right; split; [by intros ? (? & ? & _)|by eexists _, O]|
    |right; split; [by intros ? (? & ? & _)|by eexists _, O]].
  unfold webhook. rewrite bind_ret.
  destruct (watch_event_from_str event) as [claims|] eqn:Hparse.
  2: { right. split; [|by exists ParseWatchEvent, O]. intros ? (? & [= <-] & Hs & _). congruence. }
  cbn [ok_or]. change (lift (Ok claims)) with (mret (M := App WebhookError) claims).
  rewrite bind_ret, bind_ask.
  destruct (verify_basic (w_tick w) event [st_webhook_notify_url st]) eqn:Hv.
  2: { right. split; [|by exists VerifyWatchEvent, 1%nat].
       intros ? (? & [= <-] & _ & Hs & _). congruence. }
  destruct (String.eqb_spec (wec_iss claims) (st_relay_identity st)) as [Hiss|Hiss].
  - left. exists claims. split; [by exists event|done].
  - right. split; [|by exists WrongIssuer, 1%nat].
    intros c (? & [= <-] & Hs & _ & Hi). congruence.
Qed.

Lemma authentic_unique event_auth i c c' :
  Authentic event_auth i c → Authentic event_auth i c' → c = c'.
Proof. intros (? & -> & Hc & _) (? & [= <-] & Hc' & _). congruence. Qed.

(** C8. The webhook answers 204, 422 or 500 and nothing else.  A call that is not
    one event, or not signed by the relay for this server, or about another
    kind of event, is refused with 422 and changes nothing.  An authentic event
    of a queued message only hands its receipt to the mailbox clearing service
    (it panics if that service has ended).
    An authentic event of an accepted message is handled with its topic, text
    and tag; client errors of the handling are answered with 204 like
    successes, and only server errors are answered with 500. *)
Theorem webhook_outcomes event_auth w :
  let '(r, w') := webhook st event_auth w in
  let handled r' w' := ∃ claims now, Authentic event_auth (w_tick w) claims ∧ Accepted claims ∧
    handle_msg st (incoming_message claims now) (Nat.iter 2 bump w) = (r', w') in
  match r with
  | Ok response => response = respond 204 NoBody ∧
      (handled (Ok ()) w' ∨
       ∃ claims, Authentic event_auth (w_tick w) claims ∧
         evt_status (wec_evt claims) = WatchStatus_Queued ∧ w_receiver w = true ∧
         w' = set_w_mailbox (λ l, l ++ [mkReceipt (evt_topic (wec_evt claims))
                                          (evt_message_id (wec_evt claims))]) (bump w))
  | Err (Webhook_Client e) => idle w w' ∧ res_status (webhook_into_response (Webhook_Client e)) = 422 ∧
      ∀ claims, Authentic event_auth (w_tick w) claims → ¬ Accepted claims ∧
        evt_status (wec_evt claims) ≠ WatchStatus_Queued
  | Err (Webhook_Server e) => handled (Err e) w' ∧
      res_status (webhook_into_response (Webhook_Server e)) = 500
  | Panic => handled Panic w' ∨
      w_receiver w = false ∧ w' = bump w ∧ ∃ claims, Authentic event_auth (w_tick w) claims ∧
        evt_status (wec_evt claims) = WatchStatus_Queued
  end.
Proof.
  destruct (webhook_run event_auth w) as [(claims & Ha & ->)|(Hn & e & n & ->)].
  2: { split_and!; [by exists n|done|]. intros claims Ha. by destruct (Hn claims). }
  unfold handle_event. case_bool_decide as Hq.
  { unfold clear_mailbox, gets, mbind, M_bind. cbn [w_receiver bump].
    destruct (w_receiver w) eqn:Hopen.
    - split; [done|]. right. by exists claims.
    - right. split_and!; [done|done|]. by exists claims. }
  unfold utc_now, ask, guard_err, m_map_err, mbind, M_bind.
  assert (∀ e, ¬ Accepted claims →
    idle w (Nat.iter 2 bump w) ∧ res_status (webhook_into_response (Webhook_Client e)) = 422 ∧
    ∀ c, Authentic event_auth (w_tick w) c → ¬ Accepted c ∧
      evt_status (wec_evt c) ≠ WatchStatus_Queued) as Hrefused.
  { intros e Hn. split_and!; [by exists 2%nat|done|]. intros c Hc.
    by rewrite <-(authentic_unique _ _ _ _ Ha Hc). }
  unfold Accepted in Hrefused.
  case_bool_decide as Hact; [apply Hrefused; intros (? & ? & ?); by apply Hact|].
  case_bool_decide as Htyp; [apply Hrefused; intros (? & ? & ?); by apply Htyp|].
  case_bool_decide as Hst; [apply Hrefused; intros (? & ? & ?); by apply Hst|]. clear Hrefused.
  unfold throw, mret, M_ret. change (bump (bump w)) with (Nat.iter 2 bump w).
  assert (Accepted claims) as Hacc by done.
  destruct (handle_msg st _ (Nat.iter 2 bump w)) as [[[]|e|] w'] eqn:Hrun.
  - split; [done|]. left. by eexists _, _.
  - split; [by eexists _, _|done].
  - left. by eexists _, _.
Qed.
End outcomes.
