(* ===== verification/RelaySafety.v ===== *)
(** * What a relay message can change

    The database after a message is handled is the one before, or the result of
    the one statement its authenticated sender asked for.  The rules for
    [changes] follow the handlers step by step. *)

From S2P Require Import Prelude RustStr Externals AccountId Errors Types RateLimit.
From S2P Require Import Database DbInvariant Notifications Jwt World RelayPublish NotifyMessage.
From S2P Require Import Cache Identity RelayError RelayHandlers RelayRequests Webhook.
Open Scope Z_scope.

(** ** Computations that leave the database alone *)

Lemma keeps_weaken {W E A} (R R' : relation W) (m : M W E A) :
  (∀ w w', R w w' → R' w w') → keeps R m → keeps R' m.
Proof. intros HR Hm w. apply HR, Hm. Qed.

(** Splits a computation into steps that are known to leave the database alone. *)
Ltac same_db := repeat first
  [ solve [auto with keeps] | apply keeps_bind; [apply _| |intros ?]
  | apply keeps_attempt | apply keeps_map_err | apply keeps_lift | apply keeps_guard
  | case_match ].

Section same_db.
Context `{!Ext, !HashLaws, !HexLaws, !UrlOps, !Env, !CacaoOps, !Msgpack Cacao,
  !Json KeyServerResponse, !Json Siwx.RawRecap, !BuildProfile, !JwtConsts, !JsonRpcConsts,
  !RelayWire, !ErrorTexts, !Scheduler, !ValidatorOps}.

Lemma same_db_ask {E A} (f : nat → A) : keeps same_db (ask (E:=E) f).
Proof. by apply keeps_ask. Qed.

Lemma same_db_relay_call r : keeps same_db (relay_call r).
Proof. by apply keeps_relay_call. Qed.

Lemma same_db_rate_limit key l : keeps same_db (rate_limit key l).
Proof. by apply keeps_rate_limit. Qed.

Lemma same_db_only_cache {E A} (m : App E A) : keeps only_cache m → keeps same_db m.
Proof. apply keeps_weaken. by intros w w' (? & _). Qed.

Lemma same_db_publish p : keeps same_db (publish_relay_message p).
Proof. by apply keeps_publish. Qed.

Lemma same_db_subscribe t : keeps same_db (subscribe_relay_topic t).
Proof.
  unfold subscribe_relay_topic. apply keeps_bind; [apply _| |intros _; by apply keeps_sleep].
  by apply keeps_retry; [apply _| |apply same_db_relay_call].
Qed.
Hint Resolve same_db_ask same_db_relay_call same_db_rate_limit same_db_publish
  same_db_subscribe : keeps.
Hint Extern 1 (keeps same_db (query _)) =>
  apply keeps_same_db_query; intros ?; solve_read_only : keeps.

Lemma same_db_limit st key l : keeps same_db (limit_topic st key l).
Proof. unfold limit_topic. same_db. Qed.

Lemma same_db_parse {T} `{!Json T, !GetSharedClaims T} jwt :
  keeps same_db (parse_request (T := T) jwt).
Proof. unfold parse_request, client_err, utc_now. same_db. Qed.

Lemma same_db_identity st cid ksu sub : keeps same_db (verify_request_identity st cid ksu sub).
Proof.
  unfold verify_request_identity. apply keeps_map_err, same_db_only_cache, keeps_verify_identity.
Qed.
Hint Resolve same_db_limit same_db_parse same_db_identity : keeps.

Lemma same_db_authenticate st proj claims act cid ksu sub app owner :
  keeps same_db (authenticate st proj claims act cid ksu sub app owner).
Proof.
  unfold authenticate, check_act. same_db.
Qed.

Lemma same_db_prepare source mjv account app :
  keeps same_db (prepare_subscription_watchers source mjv account app).
Proof.
  intros w. rewrite prepare_run.
  assert (Hc : keeps same_db (collect_subscriptions account None))
    by (apply keeps_collect; [apply _|]; intros; by apply keeps_same_db_query).
  specialize (Hc w). destruct (collect_subscriptions account None w) as [[all| |] w1]; try done.
  assert (Hq : keeps same_db (query (λ now,
    get_subscription_watchers_for_account_by_app_or_all_app now account app)))
    by (apply keeps_same_db_query; intros; apply watchers_query_read_only).
  specialize (Hq w1). destruct (query _ w1) as [[ws| |] w2]; cbn in *; by etrans.
Qed.

Lemma same_db_claims {E} i a act ttl : keeps same_db (response_claims (E:=E) i a act ttl).
Proof. unfold response_claims, utc_now. same_db. Qed.
Hint Resolve same_db_authenticate same_db_prepare same_db_claims : keeps.

Lemma same_db_send st x : keeps same_db (send st x).
Proof. destruct x. unfold send, random_bytes. same_db. Qed.

Lemma same_db_respond topic key tag ttl text : keeps same_db (publish_response topic key tag ttl text).
Proof. unfold publish_response, random_bytes. same_db. Qed.
Hint Resolve same_db_send same_db_respond : keeps.

Definition task_same_db (t : Task) : Prop :=
  match t with
  | ResponseTask m => keeps same_db m
  | WatcherTask m => keeps same_db m
  end.

Lemma same_db_join tasks : Forall task_same_db tasks → ∀ n e, keeps same_db (join_tasks tasks n e).
Proof.
  induction 1 as [|[m|m] tasks Hm _ IH]; intros n e; cbn [join_tasks]; [apply keeps_ret; apply _|..].
  - apply keeps_bind; [apply _|exact Hm|auto].
  - apply keeps_bind; [apply _|by apply keeps_attempt|]. intros r.
    apply keeps_bind; [apply _|destruct r; auto with keeps|]. intros failed.
    destruct (pred n), failed; auto with keeps.
Qed.

Lemma Forall_schedule {A} (P : A → Prop) rank l : Forall P l → Forall P (schedule rank l).
Proof.
  intros Hl. unfold schedule. apply Forall_fmap, list.Forall_forall. intros [n x] Hx.
  rewrite merge_sort_Permutation in Hx. apply elem_of_zip_r in Hx.
  by eapply list.Forall_forall in Hl.
Qed.

Lemma same_db_try_join response st watchers :
  keeps same_db response → keeps same_db (try_join response st watchers).
Proof.
  intros Hr. unfold try_join. apply keeps_bind; [apply _|apply same_db_ask|]. intros rank.
  apply same_db_join, Forall_schedule. constructor; [done|].
  apply Forall_fmap, Forall_true. intros x. apply same_db_send.
Qed.
Hint Resolve same_db_try_join : keeps.

Lemma same_db_answer {A} `{!Json (JsonRpcResponse A)} topic key tag ttl id
    (r : outcome RelayMessageError A) : keeps same_db (answer topic key tag ttl id r).
Proof. unfold answer, serialize_response, server_err. same_db. Qed.

Lemma same_db_answer_and_notify st topic key tag ttl id r :
  keeps same_db (answer_and_notify st topic key tag ttl id r).
Proof. unfold answer_and_notify, serialize_response, server_err. same_db. Qed.
End same_db.

#[export] Hint Resolve same_db_ask same_db_relay_call same_db_rate_limit same_db_publish same_db_subscribe
  same_db_limit same_db_parse same_db_identity same_db_authenticate same_db_prepare same_db_claims
  same_db_send same_db_respond same_db_try_join same_db_answer same_db_answer_and_notify : keeps.
#[export] Hint Extern 1 (keeps same_db (query _)) =>
  apply keeps_same_db_query; intros ?; solve_read_only : keeps.


(** ** Changes of the database

    Run from a world with database [db], the computation leaves it as it was or
    makes a change in [Q]. *)

Definition changes {E A} (db : Db) (Q : Db → Prop) (m : App E A) (w : World) : Prop :=
  w_db w = db → w_db (m w).2 = db ∨ Q (w_db (m w).2).

Section changes.
Context `{!UrlOps, !Env}.
Context (db : Db) (Q : Db → Prop).

Lemma changes_keep {E A} (m : App E A) w : keeps same_db m → changes db Q m w.
Proof. intros Hm Hw. left. rewrite <-Hw. apply Hm. Qed.

Lemma changes_bind {E A B} (m : App E A) (k : A → App E B) w :
  keeps same_db m → (∀ a w1, w_db w = db → m w = (Ok a, w1) → changes db Q (k a) w1) →
  changes db Q (m ≫= k) w.
Proof.
  intros Hm Hk Hw. specialize (Hm w). unfold same_db in Hm. unfold mbind, M_bind.
  destruct (m w) as [[a|e|] w1]; cbn in *; [|left; congruence..].
  apply (Hk a w1); [done|done|congruence].
Qed.

Lemma changes_last {E A B} (m : App E A) (k : A → App E B) w :
  changes db Q m w → (∀ a, keeps same_db (k a)) → changes db Q (m ≫= k) w.
Proof.
  intros Hm Hk Hw. specialize (Hm Hw). unfold mbind, M_bind.
  destruct (m w) as [[a|e|] w1]; cbn in *; [|done..].
  specialize (Hk a w1). unfold same_db in Hk. by rewrite Hk.
Qed.

Lemma changes_attempt {E E' A} (m : App E A) w :
  changes db Q m w → changes db Q (attempt (E' := E') m) w.
Proof. intros Hm Hw. specialize (Hm Hw). unfold attempt. by destruct (m w) as [[]]. Qed.

Lemma changes_map_err {E E' A} (f : E → E') (m : App E A) w :
  changes db Q m w → changes db Q (m_map_err f m) w.
Proof. intros Hm Hw. specialize (Hm Hw). unfold m_map_err. by destruct (m w). Qed.

Lemma changes_weaken {E A} (Q' : Db → Prop) (m : App E A) w :
  (∀ db', Q' db' → Q db') → changes db Q' m w → changes db Q m w.
Proof. intros HQ Hm Hw. destruct (Hm Hw); auto. Qed.

Lemma changes_query {A} (q : Z → Query A) w :
  (∀ t, Q (q t db).2) → changes db Q (query q) w.
Proof.
  intros Hq <-. unfold query. destruct (env_db_fault _); [by left|].
  specialize (Hq (env_now (w_tick w))). right. by destruct (q _ _).
Qed.

Lemma changes_query_err {E A} (fault : E) (q : Z → M Db E A) w :
  (∀ t, Q (q t db).2) → changes db Q (query_err fault q) w.
Proof.
  intros Hq <-. unfold query_err. destruct (env_db_fault _); [by left|].
  specialize (Hq (env_now (w_tick w))). right. by destruct (q _ _).
Qed.

(** A statement that changes the database, followed by others. *)
Lemma changes_query_bind {E A B} (f : SqlxError → E) (q : Z → Query A) (k : A → App E B) w :
  (∀ t a db1, q t db = (Ok a, db1) → Q db1 ∧ ∀ w1, changes db1 Q (k a) w1) →
  (∀ t, is_ok (q t db).1 = false → (q t db).2 = db ∨ Q (q t db).2) →
  changes db Q (m_map_err f (query q) ≫= k) w.
Proof.
  intros Hok Herr <-. unfold m_map_err, query, mbind, M_bind.
  destruct (env_db_fault _); [by left|].
  specialize (Hok (env_now (w_tick w))). specialize (Herr (env_now (w_tick w))).
  destruct (q _ _) as [[a|e|] db1]; cbn [map_err snd fst bump set_w_db w_db] in *.
  - destruct (Hok a db1 eq_refl) as [HQ Hk].
    destruct (Hk (bump (set_w_db (λ _, db1) w)) eq_refl) as [-> |]; by right.
  - by apply Herr.
  - by apply Herr.
Qed.
End changes.

(** ** The evidence behind a change *)

Section requested.
Context `{!Ext, !HashLaws, !HexLaws, !UrlOps, !Env, !CacaoOps, !Msgpack Cacao,
  !Json KeyServerResponse, !Json Siwx.RawRecap, !BuildProfile, !JwtConsts, !JsonRpcConsts,
  !RelayWire, !ErrorTexts, !Scheduler, !ValidatorOps}.
Context (st : AppState) (msg : RelayIncomingMessage) (db : Db).

(** The subscriber of the topic, and its project. *)
Definition OnTopic (subscriber : SubscriberWithScope) (proj : Project) : Prop :=
  (get_subscriber_by_topic (rim_topic msg) db).1 = Ok subscriber ∧
  (get_project_by_id (sws_project subscriber) db).1 = Ok proj.

(** The message opens as [req] under the subscription's key. *)
Definition Opened {T} `{!Json (JsonRpcRequest T)} (subscriber : SubscriberWithScope)
    (req : JsonRpcRequest T) : Prop :=
  ∃ envelope key, open_envelope envelope0_from_bytes (rim_message msg) = Ok envelope ∧
    decode_key (sws_sym_key subscriber) = Ok key ∧ rim_topic msg = topic_from_key key ∧
    decrypt_message envelope key = Ok req.

(** The JWT verifies, and its issuer is the client [cid]. *)
Definition Issued {T} `{!Json T, !GetSharedClaims T} (jwt : string) (claims : T) (cid : bytes)
    : Prop :=
  ∃ now, from_jwt now jwt = Ok claims ∧
    try_from_did_key (iss (get_shared_claims claims)) = Some cid.

(** The identity key of the client was verified, at some moment, for an account. *)
Definition Identified (cid : bytes) (ksu sub : string) (a : Authorization) : Prop :=
  ∃ w w', verify_identity cid ksu sub (st_redis st) w = (Ok a, w').

(** It may manage the project's app, and the account owns the subscription. *)
Definition Authenticated (proj : Project) (claims : SharedClaims) (expected_act : string)
    (cid : bytes) (ksu sub : string) (app : DidWeb) (owner : option AccountId)
    (account : AccountId) : Prop :=
  domain app = pr_app_domain proj ∧ act claims = expected_act ∧
  ∃ a, Identified cid ksu sub a ∧ auth_account a = account ∧
    (auth_app a = Unlimited ∨ auth_app a = Limited (pr_app_domain proj)) ∧
    ∀ o, owner = Some o → is_same_address (E := ()) account o = Ok true.

(** The welcome notification of a new subscriber: nothing, the notification, or
    the notification and its row for the subscriber. *)
Definition WelcomeChange (proj sub : Uuid) (scope : gset Uuid) (db1 db' : Db) : Prop :=
  db' = db1 ∨
  ∃ w t1 fresh nid, welcome_notification db1 !! proj = Some w ∧ wn_enabled w = true ∧
    wn_type w ∈ scope ∧
    let r := upsert_notification t1 fresh nid proj
               (mkNotification (wn_type w) (wn_title w) (wn_body w) None (wn_url w)) db1 in
    db' = r.2 ∨
    ∃ n t2 row, r.1 = Ok n ∧
      db' = (upsert_subscriber_notifications t2 (nwi_id n) [(row, sub)] r.2).2.

Inductive RequestedChange : Db → Prop :=
| change_update subscriber proj req claims cid account scope now :
    rim_tag msg = NOTIFY_UPDATE_TAG →
    OnTopic subscriber proj → Opened (T := NotifyUpdate) subscriber req →
    Issued (T := SubscriptionUpdateRequestAuth) (update_auth (req_params req)) claims cid →
    Authenticated proj (upd_shared_claims claims) NOTIFY_UPDATE_ACT cid (upd_ksu claims)
      (upd_sub claims) (upd_app claims) (Some (sws_account subscriber)) account →
    parse_scope (upd_scp claims) = Some scope →
    RequestedChange (update_subscriber now (sws_id subscriber) scope db).2
| change_delete subscriber proj req claims cid account :
    rim_tag msg = NOTIFY_DELETE_TAG →
    OnTopic subscriber proj → Opened (T := NotifyDelete) subscriber req →
    Issued (T := SubscriptionDeleteRequestAuth) (delete_auth (req_params req)) claims cid →
    Authenticated proj (del_shared_claims claims) NOTIFY_DELETE_ACT cid (del_ksu claims)
      (del_sub claims) (del_app claims) (Some (sws_account subscriber)) account →
    RequestedChange (delete_subscriber (sws_id subscriber) db).2
| change_mark subscriber proj req claims cid account :
    rim_tag msg = NOTIFY_MARK_NOTIFICATIONS_AS_READ_TAG →
    OnTopic subscriber proj → Opened (T := AuthMessage) subscriber req →
    Issued (T := SubscriptionMarkNotificationsAsReadRequestAuth) (auth (req_params req)) claims
      cid →
    Authenticated proj (mnr_shared_claims claims) NOTIFY_MARK_NOTIFICATIONS_AS_READ_ACT cid
      (mnr_ksu claims) (mnr_sub claims) (mnr_app claims) (Some (sws_account subscriber)) account →
    mark_notifications_as_read_request_validate claims = Ok () →
    RequestedChange (mark_notifications_as_read (sws_id subscriber) (mr_ids (mnr_params claims)) db).2
| change_watch envelope key req claims cid a proj expiry :
    rim_tag msg = NOTIFY_WATCH_SUBSCRIPTIONS_TAG →
    rim_topic msg = key_agreement_topic (st_notify_keys st) →
    open_envelope envelope1_from_bytes (rim_message msg) = Ok envelope →
    derive_key (pubkey (opts envelope)) (key_agreement_secret (st_notify_keys st)) = Ok key →
    decrypt_message (T := NotifyWatchSubscriptions) envelope key = Ok req →
    Issued (T := WatchSubscriptionsRequestAuth) (watch_subscriptions_auth (req_params req)) claims
      cid →
    act (ws_shared_claims claims) = NOTIFY_WATCH_SUBSCRIPTIONS_ACT →
    Identified cid (ws_ksu claims) (ws_sub claims) a →
    check_app_authorization (auth_app a) (domain <$> ws_app claims) = Ok () →
    match ws_app claims with
    | Some app => ∃ p, (get_project_by_app_domain (domain app) db).1 = Ok p ∧ proj = Some (pr_id p)
    | None => proj = None
    end →
    RequestedChange (upsert_subscription_watcher (auth_account a) proj
      (iss (ws_shared_claims claims)) (hex_encode key) expiry db).2
| change_subscribe proj envelope key server_key req claims cid account scope secret notify_key
    now fresh r db1 db' :
    rim_tag msg = NOTIFY_SUBSCRIBE_TAG →
    (get_project_by_topic (rim_topic msg) db).1 = Ok proj →
    open_envelope envelope1_from_bytes (rim_message msg) = Ok envelope →
    decode_key (pr_subscribe_private_key proj) = Ok server_key →
    derive_key (pubkey (opts envelope)) server_key = Ok key →
    decrypt_message (T := NotifySubscribe) envelope key = Ok req →
    Issued (T := SubscriptionRequestAuth) (subscription_auth (req_params req)) claims cid →
    Authenticated proj (sub_shared_claims claims) NOTIFY_SUBSCRIBE_ACT cid (sub_ksu claims)
      (sub_sub claims) (sub_app claims) None account →
    parse_scope (sub_scp claims) = Some scope →
    derive_key (pubkey (opts envelope)) secret = Ok notify_key →
    upsert_subscriber now fresh (pr_id proj) account scope notify_key
      (topic_from_key notify_key) db = (Ok r, db1) →
    (if sr_inserted r then WelcomeChange (pr_id proj) (sr_id r) scope db1 db' else db' = db1) →
    RequestedChange db'.
End requested.

(** ** Successful runs of the shared steps *)

Section steps.
Context `{!Ext, !HashLaws, !HexLaws, !UrlOps, !Env, !CacaoOps, !Msgpack Cacao,
  !Json KeyServerResponse, !Json Siwx.RawRecap, !BuildProfile, !JwtConsts, !JsonRpcConsts,
  !RelayWire, !ErrorTexts, !Scheduler, !ValidatorOps}.

Lemma bind_map_err_iff {E E' A B} (f : E → E') (m : App E A) (k : A → App E' B) w b w' :
  (m_map_err f m ≫= k) w = (Ok b, w') ↔ ∃ a w1, m w = (Ok a, w1) ∧ k a w1 = (Ok b, w').
Proof. unfold mbind, M_bind, m_map_err. destruct (m w) as [[]]; naive_solver. Qed.

Lemma parse_request_Ok {T} `{!Json T, !GetSharedClaims T} jwt w claims cid w' :
  parse_request (T := T) jwt w = (Ok (claims, cid), w') → Issued jwt claims cid.
Proof.
  unfold parse_request, utc_now, client_err. rewrite bind_ask, bind_lift_iff.
  setoid_rewrite bind_lift_iff. setoid_rewrite map_err_Ok. setoid_rewrite map_err_Ok.
  setoid_rewrite ok_or_Ok. setoid_rewrite ret_iff.
  intros (c & Hj & k & Hk & [= <- <-] & _). by exists (env_now (w_tick w)).
Qed.

Lemma is_same_address_any {E E'} a b r :
  is_same_address (E := E) a b = Ok r → is_same_address (E := E') a b = Ok r.
Proof.
  unfold is_same_address.
  destruct (get_address_from_account a), (get_address_from_account b); cbn; naive_solver.
Qed.

Lemma authenticate_Ok st proj claims expected cid ksu sub app owner w account w' :
  authenticate st proj claims expected cid ksu sub app owner w = (Ok account, w') →
  Authenticated st proj claims expected cid ksu sub app owner account.
Proof.
  unfold authenticate, check_act. rewrite bind_guard_iff, negb_false_iff, String.eqb_eq.
  intros [Happ Hrun]. rewrite bind_guard_iff, negb_false_iff, String.eqb_eq in Hrun.
  destruct Hrun as [Hact Hrun]. apply bind_Ok_inv in Hrun as (a & w1 & Hid & Hrun).
  unfold verify_request_identity in Hid. apply m_map_err_Ok_inv in Hid.
  rewrite bind_guard_iff in Hrun. destruct Hrun as [Hlim Hrun].
  apply bind_Ok_inv in Hrun as (u & w2 & Hown & Hrun). apply ret_iff in Hrun as [Hacc _].
  split; [done|]. split; [done|]. exists a. split; [by eexists _, _|]. split; [done|]. split.
  - destruct (auth_app a) as [d|]; [right|by left]. apply negb_false_iff, String.eqb_eq in Hlim.
    by subst.
  - intros o ->. apply bind_lift_iff in Hown as (same & Hsame & Hg).
    apply guard_err_Ok_inv in Hg as [Hs _]. apply negb_false_iff in Hs as ->. subst.
    by eapply is_same_address_any.
Qed.

Lemma find_subscriber_Ok st msg prefix l wrong w subscriber proj w' db :
  w_db w = db → find_subscriber st msg prefix l wrong w = (Ok (subscriber, proj), w') →
  OnTopic msg db subscriber proj.
Proof.
  intros <- Hrun. unfold find_subscriber in Hrun.
  apply bind_Ok_inv in Hrun as (u & w1 & Hl & Hrun).
  pose proof (same_db_limit st (prefix +:+ rim_topic msg) l w) as Hdb1. rewrite Hl in Hdb1.
  apply bind_map_err_iff in Hrun as (s & w2 & Hs & Hrun).
  apply query_Ok in Hs as (db2 & _ & Hs & ->).
  assert (db2 = w_db w1) as -> by (eapply Subscriptions.read_only_Ok; [|exact Hs]; unfold get_subscriber_by_topic; solve_read_only).
  unfold sqlx in Hrun. apply bind_map_err_iff in Hrun as (p & w3 & Hp & Hrun).
  apply query_Ok in Hp as (db3 & _ & Hp & ->). apply ret_iff in Hrun as [[= <- <-] _].
  unfold same_db in Hdb1. cbn in Hdb1, Hp. rewrite Hdb1 in *. unfold OnTopic. by rewrite Hs, Hp.
Qed.

Lemma open_request_Ok {T} `{!Json (JsonRpcRequest T)} msg subscriber w (req : JsonRpcRequest T) key w' :
  open_request msg subscriber w = (Ok (req, key), w') → Opened msg subscriber req.
Proof.
  unfold open_request, client_err, server_err. rewrite bind_lift_iff.
  setoid_rewrite bind_lift_iff. setoid_rewrite bind_guard_iff. setoid_rewrite bind_lift_iff.
  setoid_rewrite ret_iff. setoid_rewrite negb_false_iff. setoid_rewrite String.eqb_eq.
  repeat setoid_rewrite map_err_Ok.
  intros (e & He & k & Hk & Ht & r & Hr & [= <- <-] & _). by exists e, k.
Qed.
End steps.

(** ** The handlers *)

Section handlers_change.
Context `{!Ext, !HashLaws, !HexLaws, !UrlOps, !Env, !CacaoOps, !Msgpack Cacao,
  !Json KeyServerResponse, !Json Siwx.RawRecap, !BuildProfile, !JwtConsts, !JsonRpcConsts,
  !RelayWire, !ErrorTexts, !Scheduler, !ValidatorOps}.
Context (st : AppState) (msg : RelayIncomingMessage) (db : Db).

Lemma get_subscriber_by_topic_read_only topic : read_only (get_subscriber_by_topic topic).
Proof. unfold get_subscriber_by_topic. solve_read_only. Qed.

Lemma get_project_by_id_read_only id : read_only (get_project_by_id id).
Proof. unfold get_project_by_id, select_project. solve_read_only. Qed.

Lemma same_db_find prefix l wrong : keeps same_db (find_subscriber st msg prefix l wrong).
Proof.
  unfold find_subscriber, sqlx. same_db; apply keeps_same_db_query; intros _;
    [apply get_subscriber_by_topic_read_only|apply get_project_by_id_read_only].
Qed.

Lemma same_db_open {T} `{!Json (JsonRpcRequest T)} subscriber :
  keeps same_db (open_request (T := T) msg subscriber).
Proof. unfold open_request, client_err, server_err. same_db. Qed.
Hint Resolve same_db_find same_db_open : keeps.

(** One step that leaves the database alone, keeping what its success shows. *)
Ltac skip := apply changes_bind;
  [solve [auto with keeps | unfold server_err, client_err, check_act; same_db]|];
  intros ? ? ? ?.
Ltac learn H lem := apply changes_bind; [solve [auto with keeps]|]; intros ? ? ? H;
  apply lem in H.
Ltac find_step := apply changes_bind; [solve [auto with keeps]|];
  intros [subscriber proj] ? ? Hf; eapply find_subscriber_Ok in Hf; [|eassumption].
Ltac open_step := apply changes_bind; [solve [auto with keeps]|];
  intros [req key] ? ? Ho%open_request_Ok; apply changes_last; [apply changes_attempt|auto with keeps].
Ltac parse_step := apply changes_bind; [solve [auto with keeps]|];
  intros [claims cid] ? ? Hp%parse_request_Ok.
Ltac authenticate_step := apply changes_bind; [solve [auto with keeps]|];
  intros account ? ? Ha%authenticate_Ok.
Ltac lift_as x H := apply changes_bind; [solve [unfold server_err, client_err; auto with keeps]|];
  intros x ? ? H; unfold server_err, client_err in H; apply lift_Ok_inv in H as [H _].
Ltac lift_step H := let x := fresh "a" in lift_as x H.
Ltac answered := intros ?; unfold conclude_subscribe, project_signing_key, sign_response, server_err, notify_webhook,
  project_identity; same_db.

Lemma notify_update_changes w : rim_tag msg = NOTIFY_UPDATE_TAG →
  changes db (RequestedChange st msg db) (notify_update st msg) w.
Proof.
  intros Htag. unfold notify_update, answer_update. find_step. skip. open_step. unfold update.
  parse_step. authenticate_step. lift_step Hs. apply ok_or_Ok in Hs.
  apply changes_last; [|answered].
  apply changes_map_err, changes_query. intros t. by eapply change_update.
Qed.

Lemma notify_delete_changes w : rim_tag msg = NOTIFY_DELETE_TAG →
  changes db (RequestedChange st msg db) (notify_delete st msg) w.
Proof.
  intros Htag. unfold notify_delete, answer_delete. find_step. skip. open_step. unfold unsubscribe.
  parse_step. authenticate_step. apply changes_last.
  - apply changes_map_err, changes_query. intros t. by eapply change_delete.
  - answered.
Qed.

Lemma notify_mark_changes w : rim_tag msg = NOTIFY_MARK_NOTIFICATIONS_AS_READ_TAG →
  changes db (RequestedChange st msg db) (notify_mark_notifications_as_read st msg) w.
Proof.
  intros Htag. unfold notify_mark_notifications_as_read, answer_mark_as_read. find_step. open_step.
  unfold mark_as_read. parse_step. authenticate_step. lift_step Hv.
  apply map_err_Ok, map_err_Ok in Hv. apply changes_last; [|answered].
  apply changes_map_err, changes_query. intros t. destruct a. by eapply change_mark.
Qed.

Lemma notify_get_same_db : keeps same_db (notify_get_notifications st msg).
Proof.
  unfold notify_get_notifications, answer_get_notifications, get_notifications, sqlx, server_err, project_identity,
    project_signing_key, sign_response. same_db.
  apply keeps_same_db_query. intros t. unfold get_notifications_for_subscriber. solve_read_only.
Qed.

Lemma select_project_read_only P : read_only (select_project P).
Proof. unfold select_project. solve_read_only. Qed.

(** A read-only query from a world with database [db]. *)
Lemma read_query_Ok {A} (q : Query A) w a w' :
  w_db w = db → read_only q → query (λ _, q) w = (Ok a, w') → (q db).1 = Ok a.
Proof. intros <- Hq (db' & _ & Hrun & _)%query_Ok. by rewrite Hrun. Qed.

Lemma notify_watch_changes w : rim_tag msg = NOTIFY_WATCH_SUBSCRIPTIONS_TAG →
  changes db (RequestedChange st msg db) (notify_watch_subscriptions st msg) w.
Proof.
  intros Htag. unfold notify_watch_subscriptions, answer_watch.
  apply changes_bind; [auto with keeps|]. intros [] ? _ Ht.
  apply guard_err_Ok_inv in Ht as [Ht%negb_false_iff%String.eqb_eq _].
  lift_step He. apply map_err_Ok in He. skip. lift_step Hk. do 2 apply map_err_Ok in Hk.
  lift_step Hr. apply map_err_Ok in Hr.
  apply changes_last; [apply changes_attempt|auto with keeps]. unfold watch_subscriptions.
  parse_step.
  apply changes_bind; [unfold check_act; auto with keeps|]. intros [] ? _ Hact.
  apply guard_err_Ok_inv in Hact as [Hact%negb_false_iff%String.eqb_eq _].
  apply changes_bind; [auto with keeps|]. intros auth ? _ Hid%m_map_err_Ok_inv.
  lift_step Happ. do 2 apply map_err_Ok in Happ.
  match type of Happ with _ = Ok ?u => destruct u end.
  apply changes_bind; [apply keeps_map_err, keeps_collect; [apply _|]; intros;
    by apply keeps_same_db_query|]. intros subs ? _ _.
  apply changes_bind.
  { destruct (domain <$> ws_app claims); same_db. apply keeps_same_db_query.
    intros _. apply select_project_read_only. }
  intros proj ? Hw Hproj.
  apply changes_bind; [unfold utc_now; auto with keeps|]. intros now ? _ _.
  apply changes_last; [|answered].
  apply changes_map_err, changes_query_err. intros t.
  eapply change_watch; try done; [by eexists _, _|].
  destruct (ws_app claims) as [app|]; cbn [fmap option_fmap option_map] in Hproj.
  - apply bind_map_err_iff in Hproj as (p & ? & Hq & Hr2).
    apply ret_iff in Hr2 as [<- _]. exists p. split; [|done].
    eapply read_query_Ok; [done|apply select_project_read_only|done].
  - by apply ret_iff in Hproj as [<- _].
Qed.

Lemma welcome_changes db1 proj sub scope w :
  changes db1 (WelcomeChange proj sub scope db1) (send_welcome_notification proj sub scope) w.
Proof.
  unfold send_welcome_notification, sqlx.
  apply changes_bind.
  { apply keeps_map_err, keeps_same_db_query. intros _. unfold get_welcome_notification.
    solve_read_only. }
  intros [wn|] w1 Hw Hwn; [|apply changes_keep; auto with keeps].
  apply m_map_err_Ok_inv, (query_Ok) in Hwn as (? & _ & Hwn & _).
  unfold get_welcome_notification, gets in Hwn. rewrite Hw in Hwn.
  destruct (wn_enabled wn && bool_decide (wn_type wn ∈ scope)) eqn:Hen;
    [|apply changes_keep; auto with keeps].
  apply andb_prop in Hen as [Hen Hin%bool_decide_eq_true].
  unfold new_v4. apply changes_bind; [auto with keeps|]. intros nid ? _ _.
  apply changes_bind; [auto with keeps|]. intros fresh ? _ _.
  apply changes_query_bind.
  - intros t n db2 Hn. split.
    + right. exists wn, t, fresh, (uuid_to_string nid). split_and!; [congruence|done|done|].
      left. by rewrite Hn.
    + intros ?. apply changes_bind; [auto with keeps|]. intros row ? _ _.
      apply changes_map_err, changes_query. intros t2. right.
      exists wn, t, fresh, (uuid_to_string nid). split_and!; [congruence|done|done|].
      right. exists n, t2, row. by rewrite Hn.
  - intros t _. right. right. exists wn, t, fresh, (uuid_to_string nid).
    split_and!; [congruence|done|done|by left].
Qed.

Lemma transaction_rolls_back {A} (q : Query A) db0 :
  is_ok (transaction q db0).1 = false → (transaction q db0).2 = db0.
Proof. unfold transaction. by destruct (q db0) as [[]]. Qed.

Lemma notify_subscribe_changes w : rim_tag msg = NOTIFY_SUBSCRIBE_TAG →
  changes db (RequestedChange st msg db) (notify_subscribe st msg) w.
Proof.
  intros Htag. unfold notify_subscribe, answer_subscribe. skip.
  apply changes_bind.
  { apply keeps_map_err, keeps_same_db_query. intros _. apply select_project_read_only. }
  intros proj ? Hw Hproj%m_map_err_Ok_inv.
  apply read_query_Ok in Hproj; [|done|apply select_project_read_only].
  skip. lift_step He. apply map_err_Ok in He. skip. lift_step Hsk. do 2 apply map_err_Ok in Hsk.
  lift_step Hk. do 2 apply map_err_Ok in Hk. skip. lift_step Hr. apply map_err_Ok in Hr.
  apply changes_last; [apply changes_attempt|auto with keeps]. unfold subscribe.
  parse_step. authenticate_step. lift_as scope Hs. apply ok_or_Ok in Hs.
  unfold random_bytes, new_v4. skip. lift_step Hnk. do 2 apply map_err_Ok in Hnk. skip. unfold sqlx. apply changes_query_bind.
  - intros t r db1 Hup.
    assert (HQ : ∀ db', (if sr_inserted r
        then WelcomeChange (pr_id proj) (sr_id r) scope db1 db' else db' = db1) →
        RequestedChange st msg db db') by (intros db' Hdb'; by eapply change_subscribe).
    split; [apply HQ; destruct (sr_inserted r); [by left|done]|]. intros ?.
    apply changes_last; [|answered]. destruct (sr_inserted r); [|apply changes_keep; auto with keeps].
    eapply changes_weaken; [exact HQ|]. apply welcome_changes.
  - intros t Hok. left. by apply transaction_rolls_back.
Qed.

Lemma handle_msg_changes_from w : changes db (RequestedChange st msg db) (handle_msg st msg) w.
Proof.
  unfold handle_msg. apply changes_last.
  - apply changes_attempt. unfold dispatch.
    repeat match goal with |- context [rim_tag msg =? ?t] => destruct (Z.eqb_spec (rim_tag msg) t) end;
      [apply notify_subscribe_changes|apply notify_delete_changes|apply notify_update_changes
      |apply notify_watch_changes|apply changes_keep, notify_get_same_db
      |apply notify_mark_changes|apply changes_keep; auto with keeps]; done.
  - intros [[]|[]|]; auto with keeps.
Qed.
End handlers_change.

Section safety.
Context `{!Ext, !HashLaws, !HexLaws, !CipherLaws, !UrlOps, !Env, !CacaoOps, !Msgpack Cacao,
  !Json KeyServerResponse, !Json Siwx.RawRecap, !BuildProfile, !JwtConsts, !JsonRpcConsts,
  !RelayWire, !ErrorTexts, !Scheduler, !ValidatorOps}.

(** C2. Handling a relay message changes the database only as its authenticated
    sender asked: it stays as it was, or becomes the result of the one
    statement the request stands for, where the message opened under the key
    of its topic, its JWT verified, the identity key of the issuer was verified
    for an account that owns the subscription, and that key may manage the
    app.  Reading notifications never changes it. *)
Theorem handle_msg_changes st msg w :
  let w' := (handle_msg st msg w).2 in
  (w_db w' = w_db w ∨ RequestedChange st msg (w_db w) (w_db w')) ∧
  same_db w (notify_get_notifications st msg w).2.
Proof. split; [by apply handle_msg_changes_from|apply notify_get_same_db]. Qed.

Lemma identified_valid st cid ksu sub a : Identified st cid ksu sub a → valid_account (auth_account a).
Proof.
  intros (w & w' & Hv). unfold verify_identity in Hv.
  apply bind_lift_iff in Hv as (url & _ & Hv). apply bind_Ok_inv in Hv as ([c src] & w1 & _ & Hv).
  apply verify_cacao_run in Hv as [(_ & _ & _ & Hd & _) _]. by eapply from_did_pkh_valid.
Qed.

Lemma derive_key_length pk sk k : derive_key pk sk = Ok k → length k = 32%nat.
Proof.
  unfold derive_key. destruct (hkdf_expand32_total (diffie_hellman sk pk)) as (k' & -> & Hk).
  by intros [= <-].
Qed.

Lemma welcome_steps proj sub scope db1 db' :
  WelcomeChange proj sub scope db1 db' → rtc db_step db1 db'.
Proof.
  intros [->|(w & t & fresh & nid & _ & _ & _ & [->|(n & t2 & row & _ & ->)])]; [done|..].
  - apply rtc_once, step_upsert_notification.
  - eapply rtc_l; [apply step_upsert_notification|].
    apply rtc_once, step_upsert_subscriber_notifications.
Qed.

(** The webhook is a client of the database machine: handling a message is a
    sequence of its statements on validated accounts and 32-byte keys. *)
Lemma handle_msg_steps st msg w : rtc db_step (w_db w) (w_db (handle_msg st msg w).2).
Proof.
  destruct (handle_msg_changes_from st msg (w_db w) w eq_refl) as [->|[]]; [done|..].
  - apply rtc_once, step_update_subscriber.
  - apply rtc_once, step_delete_subscriber.
  - apply rtc_once, step_mark_read.
  - apply rtc_once, step_upsert_watcher. by eapply identified_valid.
  - match goal with Hd : derive_key _ _ = Ok notify_key, Hu : upsert_subscriber _ _ _ _ _ _ _ _ = _,
      Ha : Authenticated _ _ _ _ _ _ _ _ _ _ |- _ =>
      destruct Ha as (_ & _ & a & Ha & <- & _); apply identified_valid in Ha;
      apply derive_key_length in Hd;
      pose proof (step_upsert_subscriber (w_db w) now fresh (pr_id proj) (auth_account a) scope
                    notify_key Ha Hd) as Hstep; rewrite Hu in Hstep end.
    eapply rtc_l; [exact Hstep|]. cbn. destruct (sr_inserted r); [by eapply welcome_steps|by subst].
Qed.
End safety.
