(* ===== verification/Registry.v ===== *)
(** * The project registry and the authentication of HTTP requests (registry/)

    A project authenticates with its id and its secret.  The registry answers
    whether they are valid; the answer is kept in Redis for half an hour. *)

From Stdlib Require Import Ascii.
From S2P Require Import Prelude RustStr Externals Errors Database Jwt World Cache.
Open Scope Z_scope.

Record RegistryAuthResponse := mkRegistryAuthResponse { is_valid : bool }.

Record RegistryHttpClient `{UrlOps} := mkRegistryHttpClient { authentication_endpoint : Url }.

(** [reqwest]: whether a text can be a header, and whether a client can be
    built. *)
Class HttpClientOps := { header_value_ok : string → bool; client_builds : bool }.

Definition RegistryHttpClient_new `{UrlOps, HttpClientOps} (registry_url : Url)
    (auth_token : string) : outcome NotifyServerError RegistryHttpClient :=
  endpoint ← ok_or (url_join registry_url "/internal/project/validate-notify-keys") UrlError;
  if negb (header_value_ok ("Bearer " +:+ auth_token)) then Err InvalidHeaderValue
  else if negb client_builds then Err Reqwest
  else Ok (mkRegistryHttpClient _ endpoint).

Record Registry `{UrlOps} := mkRegistry { registry_client : RegistryHttpClient; registry_cache : bool }.

Definition Registry_new `{UrlOps, HttpClientOps} (registry_url : Url) (auth_token : string)
    (cache : bool) : outcome NotifyServerError Registry :=
  client ← RegistryHttpClient_new registry_url auth_token; Ok (mkRegistry _ client cache).

(** Seconds. *)
Definition CACHE_TTL : Z := 60 * 30.

Section registry.
Context `{!HashOps, !HexOps, !UrlOps, !Env, !Json RegistryAuthResponse, !Msgpack bool}.

Definition authenticate_url (client : RegistryHttpClient) (project_id secret : string) : Url :=
  url_append_pair (url_append_pair (authentication_endpoint client) "projectId" project_id)
    "secret" secret.

(** [RegistryHttpClient::authenticate]: an HTTP status. *)
Definition registry_authenticate (client : RegistryHttpClient) (project_id secret : string)
    : App NotifyServerError Z :=
  res ← http_get (authenticate_url client project_id secret);
  res ← lift (ok_or res Reqwest);
  if negb (is_success (http_status res)) then mret 401
  else
    res ← lift (ok_or (from_json RegistryAuthResponse (http_body res)) Reqwest);
    mret (if is_valid res then 200 else 401).

Definition auth_hash (project_id secret : string) : string :=
  hex_encode (sha256 (as_bytes project_id ++ as_bytes secret)).

Definition is_authenticated (registry : Registry) (project_id secret : string)
    : App NotifyServerError bool :=
  let hash := auth_hash project_id secret in
  cached ← (if registry_cache registry then m_map_err RegistryStorage (redis_get (A:=bool) hash)
            else mret None);
  match cached with
  | Some validity => mret validity
  | None =>
      status ← registry_authenticate (registry_client registry) project_id secret;
      let validity := is_success status in
      (if registry_cache registry
       then m_map_err RegistryStorage (redis_set hash validity (Some CACHE_TTL)) else mret ()) ;;
      mret validity
  end.
End registry.

(** ** The extractor *)

(** What the handler's extractors find in a request: the arguments of the path
    and the bearer token. *)
Record Parts := mkParts {
  path_args : option (gmap string string);
  bearer : option string;
}.

Record AuthedProjectId := mkAuthedProjectId { authed_project_id : string; authed_secret : string }.

(** A status and the text of the body. *)
Definition Rejection : Type := Z * string.

Definition quoted (s : string) : string := String "034" (s +:+ String "034" EmptyString).

(** [json!({"reason": s}).to_string()], for texts with nothing to escape. *)
Definition json_reason (s : string) : string := "{" +:+ quoted "reason" +:+ ":" +:+ quoted s +:+ "}".

Section extractor.
Context `{!HashOps, !HexOps, !UrlOps, !Env, !Json RegistryAuthResponse, !Msgpack bool}.

Definition from_request_parts (registry : Registry) (parts : Parts)
    : App Rejection AuthedProjectId :=
  path_args ← lift (ok_or (path_args parts) (400, json_reason
    "Invalid project_id. Please make sure to include project_id in uri. "));
  project_secret ← lift (ok_or (bearer parts) (401, json_reason
    "Unauthorized. Please make sure to include project secret in Authorization header. "));
  project_id ← lift (ok_or (path_args !! "project_id")
                           (400, json_reason "Missing project_id parameter"));
  authenticated ← m_map_err (λ _, (400, "Invalid data for authentication"))
                    (is_authenticated registry project_id project_secret);
  guard_err (negb authenticated) (401, json_reason
    "Invalid project_secret. Please make sure to include proper project secret in Authorization header.") ;;
  mret (mkAuthedProjectId project_id project_secret).
End extractor.

(** ** Who is admitted *)

Lemma as_bytes_app s t : as_bytes (s +:+ t) = as_bytes s ++ as_bytes t.
Proof.
  unfold as_bytes, String.list_byte_of_string. rewrite <-map_app. f_equal.
  induction s as [|c s IH]; [done|]. exact (f_equal (cons c) IH).
Qed.

Section registry_proofs.
Context `{!HashOps, !HexOps, !UrlOps, !Env, !Json RegistryAuthResponse, !Msgpack bool}.

(** The registry answered that the secret is the project's. *)
Definition RegistryVouches (client : RegistryHttpClient) (project_id secret : string) (i : nat)
    : Prop :=
  ∃ res body, env_http_get i (authenticate_url client project_id secret) = Some res ∧
    is_success (http_status res) = true ∧
    from_json RegistryAuthResponse (http_body res) = Some body ∧ is_valid body = true.

(** It said so earlier, as the cache remembers. *)
Definition CacheVouches (project_id secret : string) (w : World) : Prop :=
  ∃ data, cache_lookup (env_redis_now (w_tick w)) (w_cache w) (auth_hash project_id secret)
          = Some data ∧ rmp_from_slice data = Some true.

Lemma registry_authenticate_Ok client project_id secret w status w' :
  registry_authenticate client project_id secret w = (Ok status, w') →
  w' = bump w ∧ (is_success status = true → RegistryVouches client project_id secret (w_tick w)).
Proof.
  unfold registry_authenticate, http_get. rewrite bind_ask. intros Hr.
  apply bind_Ok_inv in Hr as (res & w1 & Hres & Hr).
  apply lift_Ok_inv in Hres as [Hres%ok_or_Ok ->].
  destruct (is_success (http_status res)) eqn:Hs; cbn [negb] in Hr;
    [|unfold mret, M_ret in Hr; by simplify_eq].
  apply bind_Ok_inv in Hr as (body & w1 & Hb & Hr).
  apply lift_Ok_inv in Hb as [Hb%ok_or_Ok ->].
  unfold mret, M_ret in Hr. simplify_eq. split; [done|]. intros Hv.
  exists res, body. split_and!; try done. by destruct (is_valid body).
Qed.

Lemma redis_get_value {A} `{!Msgpack A} key w (r : option A) w' :
  redis_get key w = (Ok r, w') →
  w' = bump w ∧
  match r with
  | Some a => ∃ data, cache_lookup (env_redis_now (w_tick w)) (w_cache w) key = Some data ∧
                rmp_from_slice data = Some a
  | None => cache_lookup (env_redis_now (w_tick w)) (w_cache w) key = None
  end.
Proof.
  intros Hr. destruct (redis_get_Ok _ _ _ _ Hr) as (Hp & Hf & ->). split; [done|].
  rewrite redis_get_run in Hr by done.
  destruct (cache_lookup _ _ _) as [data|]; [|naive_solver].
  unfold deserialize in Hr. destruct (rmp_from_slice data) eqn:Hd; cbn in Hr; [|done].
  injection Hr as <-. by exists data.
Qed.

Lemma keeps_is_authenticated r project_id secret :
  keeps only_cache (is_authenticated r project_id secret).
Proof.
  unfold is_authenticated, registry_authenticate, http_get.
  repeat first [apply keeps_bind; [apply _| |intros ?]|progress auto with keeps|case_match].
Qed.

Lemma is_authenticated_Ok r project_id secret w v w' :
  is_authenticated r project_id secret w = (Ok v, w') → v = true →
  (registry_cache r = true ∧ CacheVouches project_id secret w) ∨
  ∃ i, RegistryVouches (registry_client r) project_id secret i.
Proof.
  unfold is_authenticated. intros Hr ->. apply bind_Ok_inv in Hr as (cached & w1 & Hc & Hr).
  destruct cached as [b|].
  - unfold mret, M_ret in Hr. simplify_eq. left.
    destruct (registry_cache r); [|unfold mret, M_ret in Hc; by simplify_eq].
    split; [done|]. apply m_map_err_Ok_inv in Hc. by apply redis_get_value in Hc as [_ ?].
  - right. apply bind_Ok_inv in Hr as (status & w2 & Hs & Hr).
    apply registry_authenticate_Ok in Hs as [-> Hs]. exists (w_tick w1). apply Hs.
    apply bind_Ok_inv in Hr as (u & w3 & _ & Hr). unfold mret, M_ret in Hr. by simplify_eq.
Qed.

Lemma errs_redis_cmd {A} (f : Z → gmap string CacheEntry → A * gmap string CacheEntry) :
  errs_in (λ _, True) (redis_cmd f).
Proof. intros w. unfold redis_cmd. by repeat case_match. Qed.

Lemma errs_is_authenticated r project_id secret :
  errs_in (λ _, True) (is_authenticated r project_id secret).
Proof.
  unfold is_authenticated, registry_authenticate, http_get, redis_get, redis_set, set_internal.
  repeat first [progress auto using errs_redis_cmd with errs|apply errs_bind; [|intros ?]
    |apply errs_map_err with (λ _, True); [|done]|apply errs_ok_or; done|case_match].
Qed.

(** The registry, or its cache, vouches for the secret. *)
Definition Vouched (r : Registry) (project_id secret : string) (w : World) : Prop :=
  registry_cache r = true ∧ CacheVouches project_id secret w ∨
  ∃ i, RegistryVouches (registry_client r) project_id secret i.

Lemma from_request_parts_Ok r parts w a w' :
  from_request_parts r parts w = (Ok a, w') →
  (path_args parts ≫= lookup "project_id") = Some (authed_project_id a) ∧
  bearer parts = Some (authed_secret a) ∧ Vouched r (authed_project_id a) (authed_secret a) w.
Proof.
  intros Hr. unfold from_request_parts in Hr.
  inv_ok Hr. inv_ok Hrun. apply ok_or_Ok in Hrun as ->.
  inv_ok Hr. inv_ok Hrun. apply ok_or_Ok in Hrun as ->.
  inv_ok Hr. inv_ok Hrun. apply ok_or_Ok in Hrun.
  inv_ok Hr. apply m_map_err_Ok_inv in Hrun0.
  inv_ok Hr. inv_ok Hrun1. inv_ok Hr. apply negb_false_iff in Hrun1 as ->.
  split_and!; [done|done|]. by eapply is_authenticated_Ok.
Qed.

(** C29. The extractor admits a project id and secret exactly as the request
    carries them, and only if the registry answered that the secret is valid
    or the cache remembers that it did; it refuses with 400 or 401, never
    panics, and touches nothing but the cache. *)
Theorem from_request_parts_admits r parts w :
  let '(o, w') := from_request_parts r parts w in
  only_cache w w' ∧
  match o with
  | Ok a =>
      (path_args parts ≫= lookup "project_id") = Some (authed_project_id a) ∧
      bearer parts = Some (authed_secret a) ∧
      Vouched r (authed_project_id a) (authed_secret a) w
  | Err (status, _) => status = 400 ∨ status = 401
  | Panic => False
  end.
Proof.
  destruct (from_request_parts r parts w) as [o w'] eqn:Hr. split.
  - change w' with (o, w').2. rewrite <-Hr. unfold from_request_parts.
    revert w Hr. clear. intros w _. revert w.
    change (keeps only_cache (from_request_parts r parts)). unfold from_request_parts.
    repeat first [apply keeps_bind; [apply _| |intros ?]|progress auto using keeps_is_authenticated with keeps].
  - assert (errs_in (λ e, e.1 = 400 ∨ e.1 = 401) (from_request_parts r parts)) as He.
    { unfold from_request_parts.
      repeat first [apply errs_bind; [|intros ?]|apply errs_ok_or; cbn; lia
        |apply errs_map_err with (λ _, True); [apply errs_is_authenticated|cbn; lia]
        |apply errs_guard; cbn; lia|apply errs_ret]. }
    specialize (He w). rewrite Hr in He.
    destruct o as [a|[status text]|]; [|exact He|exact He].
    by apply from_request_parts_Ok in Hr.
Qed.

(** C30. Once the registry has answered about a project and a secret and the
    answer was cached, it stands for half an hour, and for every other pair of
    an id and a secret with the same concatenation: the key of the cache is the
    hash of the two texts without a separator. *)
Theorem registry_cached_half_hour {HML : MsgpackLaws bool} r id1 s1 id2 s2 w v w1 w2
    (Hcache : registry_cache r = true)
    (Hmiss : cache_lookup (env_redis_now (w_tick w)) (w_cache w) (auth_hash id1 s1) = None)
    (Hasked : is_authenticated r id1 s1 w = (Ok v, w1))
    (Hsame : w_cache w2 !! auth_hash id1 s1 = w_cache w1 !! auth_hash id1 s1)
    (Hp : env_redis_pool_fault (w_tick w2) = false) (Hf : env_redis_fault (w_tick w2) = false)
    (Ht : env_redis_now (w_tick w2) <= env_redis_now (w_tick w + 2) + 1800 * usec)
    (Hcat : id1 +:+ s1 = id2 +:+ s2) :
  is_authenticated r id2 s2 w2 = (Ok v, bump w2).
Proof.
  assert (Hhash : auth_hash id2 s2 = auth_hash id1 s1).
  { unfold auth_hash. by rewrite <-!as_bytes_app, Hcat. }
  assert (∃ data, rmp_from_slice data = Some v ∧ w_cache w1 !! auth_hash id1 s1 =
    Some (mkCacheEntry data (Some (timestamp_millis (env_redis_now (w_tick w + 2)) + 1800 * 1000))))
    as (data & Hd & Hw1).
  { clear -Hcache Hmiss Hasked HML. unfold is_authenticated in Hasked. rewrite Hcache in Hasked.
    inv_ok Hasked. apply m_map_err_Ok_inv, redis_get_value in Hrun as [-> Hg].
    destruct a as [b|]; [destruct Hg as (data & Hg & _); congruence|].
    inv_ok Hasked. apply registry_authenticate_Ok in Hrun as [-> _].
    inv_ok Hasked. inv_ok Hasked. apply m_map_err_Ok_inv in Hrun. unfold redis_set in Hrun.
    inv_ok Hrun. inv_ok Hrun0. unfold serialize in Hrun0. apply ok_or_Ok in Hrun0.
    exists a1. split; [by apply rmp_from_to|]. unfold set_internal in Hrun.
    replace (w_tick w + 2)%nat with (w_tick (bump (bump w))) by (cbn; lia).
    destruct (env_redis_pool_fault (w_tick (bump (bump w)))) eqn:Hp;
      [unfold redis_cmd in Hrun; by rewrite Hp in Hrun|].
    destruct (env_redis_fault (w_tick (bump (bump w)))) eqn:Hf;
      [unfold redis_cmd in Hrun; by rewrite Hp, Hf in Hrun|].
    rewrite redis_cmd_run in Hrun by done. injection Hrun as _ <-.
    unfold bump at 1, set_w_cache. cbn [w_cache snd]. by rewrite lookup_insert_eq. }
  unfold is_authenticated. rewrite Hcache, Hhash. unfold mbind at 1, M_bind, m_map_err.
  rewrite redis_get_run by done. unfold cache_lookup. rewrite Hsame, Hw1.
  cbn [mbind option_bind ce_expires ce_data].
  assert (timestamp_millis (env_redis_now (w_tick w2))
    <= timestamp_millis (env_redis_now (w_tick w + 2)) + 1800 * 1000).
  { unfold timestamp_millis, usec in *.
    rewrite <-Z.div_add by lia. apply Z.div_le_mono; lia. }
  rewrite (proj2 (Z.ltb_ge _ _)) by done.
  unfold deserialize. by rewrite Hd.
Qed.
End registry_proofs.

(** ** A concrete registry *)

Module RegistryInstances.
Import Concrete.Instances EnvInstances.

#[export] Instance bool_msgpack : Msgpack bool :=
  {| rmp_to_vec (b : bool) := Some (as_bytes (if b then "t" else "f"));
     rmp_from_slice (b : bytes) := if bool_decide (b = as_bytes "t") then Some true else Some false |}.
#[export] Instance bool_msgpack_laws : MsgpackLaws bool.
Proof. split. intros [] b; cbn; by intros [= <-]. Qed.

#[export] Instance auth_response_json : Json RegistryAuthResponse :=
  {| to_json r := Some (if is_valid r then "t" else "f");
     from_json b := Some (mkRegistryAuthResponse (bool_decide (b = as_bytes "t"))) |}.

(** A registry that knows one project and its secret. *)
Definition registry_env : Env :=
  make_env (λ _ _, None)
    (λ _ url, Some (mkHttpResponse 200 (as_bytes
       (if String.eqb url "https://registry?projectId=project1?secret=2s" then "t" else "f")))).

Definition registry_w : Registry := mkRegistry concrete_url (mkRegistryHttpClient _ "https://registry") true.

Definition ask_w (w : World) := is_authenticated (H2 := registry_env) registry_w "project1" "2s" w.

Lemma registry_cached_half_hour_witness :
  is_authenticated (H2 := registry_env) registry_w "project12" "s" (ask_w (world_w empty_db)).2
  = (Ok true, bump (ask_w (world_w empty_db)).2).
Proof.
  assert (Hv : (ask_w (world_w empty_db)).1 = Ok true) by (vm_compute; reflexivity).
  apply (registry_cached_half_hour (H2 := registry_env) registry_w "project1" "2s" "project12" "s"
    (world_w empty_db) true (ask_w (world_w empty_db)).2
    (ask_w (world_w empty_db)).2).
  - reflexivity.
  - reflexivity.
  - rewrite <-Hv. apply surjective_pairing.
  - reflexivity.
  - reflexivity.
  - reflexivity.
  - vm_compute. discriminate.
  - reflexivity.
Defined.
End RegistryInstances.
