(* ===== verification/Mailbox.v ===== *)
(** * The mailbox clearing service (relay_mailbox_clearing_service.rs)

    Receipts of queued messages are collected in batches, which the relay is
    told to drop from the server's mailbox.  The batcher and the future that
    calls the relay run concurrently over a bounded queue; their interleavings
    are the actions of a machine. *)

From S2P Require Import Prelude World.
Open Scope Z_scope.

Definition BATCH_SIZE : nat := 500.
Definition BATCHES_QUEUE_SIZE : nat := 10.
(** The capacity of the channel of receipts ([bootstrap] in lib.rs). *)
Definition RECEIPTS_QUEUE_SIZE : nat := 1000.

Section service.
Context {T : Type}.

(** Where the batcher is: waiting for an item, or for room in the queue. *)
Inductive BatcherAt :=
| Receiving (batch_buffer : list T)
| Sending (batch : list T)
| Returned.

(** [items_to_batch] with its senders, the batcher, [output_batches], and the
    batches passed to [batch_receive]. *)
Record Service := mkService {
  sv_items : list T;
  sv_senders : bool;
  sv_batcher : BatcherAt;
  sv_output : list (list T);
  sv_relay : list (list T);
}.

Inductive Action :=
| Offer (item : T)
| DropSenders
| Recv
| RecvNone
| TimeoutElapsed
| SendDone
| BatchReceive.

(** [send_batch]: the assertions before the batch is sent. *)
Definition send_batch (max : nat) (batch : list T) : outcome () BatcherAt :=
  if bool_decide (batch = []) then Panic
  else if negb (length batch <=? max)%nat then Panic
  else Ok (Sending batch).

Definition set_batcher (s : Service) (items : list T) (b : BatcherAt) : Service :=
  mkService items (sv_senders s) b (sv_output s) (sv_relay s).

(** One turn of the batcher's loop when an item arrives. *)
Definition push_item (max : nat) (batch_buffer : list T) (item : T) : outcome () BatcherAt :=
  if bool_decide (batch_buffer = []) then Ok (Receiving [item])
  else
    let batch_buffer := batch_buffer ++ [item] in
    if (max <=? length batch_buffer)%nat then send_batch max batch_buffer
    else Ok (Receiving batch_buffer).

(** [Err ()]: the action is not possible. *)
Definition svc_step (max : nat) (a : Action) (s : Service) : outcome () Service :=
  match a, sv_batcher s with
  | Offer x, _ =>
      if sv_senders s && (length (sv_items s) <? RECEIPTS_QUEUE_SIZE)%nat then
        Ok (mkService (sv_items s ++ [x]) true (sv_batcher s) (sv_output s) (sv_relay s))
      else Err ()
  | DropSenders, _ =>
      Ok (mkService (sv_items s) false (sv_batcher s) (sv_output s) (sv_relay s))
  | Recv, Receiving buffer =>
      match sv_items s with
      | x :: items => b ← push_item max buffer x; Ok (set_batcher s items b)
      | [] => Err ()
      end
  | RecvNone, Receiving _ =>
      match sv_items s with
      | [] => if sv_senders s then Err () else Ok (set_batcher s [] Returned)
      | _ => Err ()
      end
  | TimeoutElapsed, Receiving buffer =>
      if bool_decide (buffer = []) then Err ()
      else b ← send_batch max buffer; Ok (set_batcher s (sv_items s) b)
  | SendDone, Sending batch =>
      if (length (sv_output s) <? BATCHES_QUEUE_SIZE)%nat then
        Ok (mkService (sv_items s) (sv_senders s) (Receiving []) (sv_output s ++ [batch])
              (sv_relay s))
      else Err ()
  | BatchReceive, (Receiving _ | Sending _) =>
      match sv_output s with
      | batch :: output =>
          Ok (mkService (sv_items s) (sv_senders s) (sv_batcher s) output (sv_relay s ++ [batch]))
      | [] => Err ()
      end
  | _, _ => Err ()
  end.

Definition service_start : Service := mkService [] true (Receiving []) [] [].

(** Running a sequence of actions; the receipts offered by it. *)
Fixpoint svc_run (max : nat) (l : list Action) (s : Service) : outcome () Service :=
  match l with
  | [] => Ok s
  | a :: l => s' ← svc_step max a s; svc_run max l s'
  end.

Definition offered (l : list Action) : list T :=
  omap (λ a, match a with Offer x => Some x | _ => None end) l.
End service.

Arguments BatcherAt : clear implicits.
Arguments Service : clear implicits.
Arguments Action : clear implicits.
Arguments service_start : clear implicits.

(** [start]: the service on receipts. *)
Definition mailbox_run := svc_run (T := Receipt) BATCH_SIZE.

(** ** The reference chunking *)

(** The full chunks of [n] items from the start, as [slice::chunks_exact]. *)
Definition chunks_exact {A} (n : nat) (l : list A) : list (list A) :=
  (λ i, take n (drop (i * n) l)) <$> seq 0 (length l / n).

Lemma chunks_exact_unique {A} n (bs : list (list A)) r l : (0 < n)%nat →
  Forall (λ x, length x = n) bs → (length r < n)%nat → l = concat bs ++ r →
  bs = chunks_exact n l ∧ r = drop (n * length bs) l.
Proof.
  intros Hn Hbs Hr ->.
  assert (length (concat bs) = n * length bs)%nat as Hc.
  { induction Hbs as [|b bs Hb _ IH]; cbn; [lia|]. rewrite length_app. lia. }
  split; [|by rewrite drop_app_length' by lia].
  unfold chunks_exact. rewrite length_app, Hc.
  replace ((n * length bs + length r) / n)%nat with (length bs).
  2: { rewrite Nat.mul_comm, Nat.div_add_l, Nat.div_small; lia. }
  apply list_eq. intros i. rewrite list_lookup_fmap.
  destruct (decide (i < length bs)%nat) as [Hi|Hi].
  - rewrite lookup_seq_lt by done. cbn. clear Hr Hc. revert i Hi.
    induction Hbs as [|b bs Hb Hbs IH]; intros i Hi; [cbn in Hi; lia|].
    destruct i as [|i]; cbn.
    + by rewrite <-app_assoc, drop_0, take_app_length'.
    + rewrite IH by (cbn in Hi; lia). f_equal. f_equal.
      symmetry. rewrite <-app_assoc, drop_app_ge by (rewrite Hb; apply Nat.le_add_r).
      by rewrite Hb, Nat.add_comm, Nat.add_sub.
  - rewrite lookup_seq_ge, lookup_ge_None_2 by lia. done.
Qed.

(** ** What the service guarantees *)

Section service_proofs.
Context {T : Type} (max : nat).
Implicit Types (s : Service T) (b : list T).

(** The items the batcher holds. *)
Definition held (p : BatcherAt T) : list T :=
  match p with Receiving b | Sending b => b | Returned => [] end.

(** Every receipt that has not been lost at the end, in order. *)
Definition in_service s : list T :=
  concat (sv_relay s) ++ concat (sv_output s) ++ held (sv_batcher s) ++ sv_items s.

Definition good_batch b : Prop := (1 ≤ length b ≤ max)%nat.

Definition batcher_ok (p : BatcherAt T) : Prop :=
  match p with
  | Receiving b => (length b < max)%nat
  | Sending b => good_batch b
  | Returned => True
  end.

Record svc_inv s : Prop := {
  inv_batcher : batcher_ok (sv_batcher s);
  inv_output : Forall good_batch (sv_output s);
  inv_queue : (length (sv_output s) ≤ BATCHES_QUEUE_SIZE)%nat;
  inv_relay : Forall good_batch (sv_relay s);
  inv_returned : sv_batcher s = Returned → sv_senders s = false;
}.

Lemma send_batch_good b : good_batch b → send_batch max b = Ok (Sending b).
Proof.
  intros [H1 H2]. unfold send_batch. case_bool_decide; [subst; cbn in *; lia|].
  destruct (Nat.leb_spec (length b) max); [done|lia].
Qed.

Context (Hmax : (2 ≤ max)%nat).

Lemma push_item_ok b x : (length b < max)%nat →
  ∃ p, push_item max b x = Ok p ∧ held p = b ++ [x] ∧ batcher_ok p ∧ p ≠ Returned.
Proof.
  intros Hb. unfold push_item. case_bool_decide as He.
  - subst. exists (Receiving [x]). split_and!; [done|done|cbn; lia|done].
  - destruct (Nat.leb_spec max (length (b ++ [x]))) as [Hf|Hf].
    + assert (good_batch (b ++ [x])) as Hg.
      { split; rewrite length_app in *; cbn in *; lia. }
      exists (Sending (b ++ [x])). by rewrite send_batch_good.
    + by exists (Receiving (b ++ [x])).
Qed.

Lemma snoc_good l b : Forall good_batch l → good_batch b → Forall good_batch (l ++ [b]).
Proof. intros Hl Hb. apply list.Forall_app_2; [done|]. by apply list.Forall_singleton. Qed.

(** What an action does to the receipts in the service: it appends the one
    offered, and only the end of the batcher loses any. *)
Definition carried s a s' : Prop :=
  match a with
  | RecvNone => in_service s' `prefix_of` in_service s
  | _ => in_service s' = in_service s ++ offered [a]
  end.

(** One action: no assertion fails and the invariant is kept. *)
Lemma svc_step_inv a s : svc_inv s →
  svc_step max a s ≠ Panic ∧ ∀ s', svc_step max a s = Ok s' → svc_inv s' ∧ carried s a s'.
Proof.
  intros [Hb Ho Hq Hr Hd]. destruct s as [items senders p output relay]; cbn in *.
  unfold carried, in_service. destruct a as [x| | | | | |]; cbn -[Nat.ltb].
  - destruct senders; [|done]. cbn -[Nat.ltb]. destruct (_ <? _)%nat; [|done]. split; [done|].
    intros ? [= <-]. split; [done|]. cbn. by rewrite !app_assoc.
  - split; [done|]. intros ? [= <-]. split; [done|]. cbn. by rewrite app_nil_r.
  - destruct p as [b|b|]; try done. destruct items as [|x items]; [done|].
    destruct (push_item_ok b x Hb) as (p & -> & Hh & Hp & Hn). split; [done|].
    intros ? [= <-]. split; [split; done|].
    cbn. by rewrite Hh, app_nil_r, <-!app_assoc.
  - destruct p as [b|b|]; try done. destruct items; [|done]. destruct senders; [done|].
    split; [done|]. intros ? [= <-]. split; [done|]. cbn. rewrite !app_nil_r.
    exists b. by rewrite <-!app_assoc.
  - destruct p as [b|b|]; try done. case_bool_decide as He; [done|].
    assert (good_batch b) as Hg.
    { split; [|cbn in Hb; lia]. destruct b; [done|]. cbn. lia. }
    rewrite send_batch_good by done. split; [done|]. intros ? [= <-]. split; [done|].
    cbn. by rewrite app_nil_r.
  - destruct p as [b|b|]; try done. destruct (Nat.ltb_spec (length output) BATCHES_QUEUE_SIZE);
      [|done].
    split; [done|]. intros ? [= <-]. split.
    + split; cbn; [lia|by apply snoc_good|rewrite length_app; cbn; lia|done|done].
    + cbn. rewrite concat_app, app_nil_r. cbn. by rewrite app_nil_r, <-!app_assoc.
  - destruct p as [b|b|]; try done; (destruct output as [|o output]; [done|]);
      (split; [done|]); intros ? [= <-]; apply list.Forall_cons in Ho as [Ho1 Ho2];
      (split; [split; cbn in *; [done|done|lia|by apply snoc_good|done]|]);
      cbn; rewrite concat_app, app_nil_r; cbn; by rewrite app_nil_r, <-!app_assoc.
Qed.

(** Nothing but dropping a sender is possible once the batcher has returned. *)
Lemma returned_step a s s' :
  svc_inv s → sv_batcher s = Returned → svc_step max a s = Ok s' →
  in_service s' = in_service s ∧ sv_batcher s' = Returned ∧ offered [a] = [].
Proof.
  intros [_ _ _ _ Hd] Hs. specialize (Hd Hs).
  destruct s as [items senders p output relay]; cbn in *. subst.
  destruct a; cbn; naive_solver.
Qed.

Lemma svc_run_inv l : ∀ s, svc_inv s →
  svc_run max l s ≠ Panic ∧
  ∀ s', svc_run max l s = Ok s' → svc_inv s' ∧
    (sv_batcher s' ≠ Returned → in_service s' = in_service s ++ offered l) ∧
    (sv_batcher s = Returned → in_service s' = in_service s ∧ sv_batcher s' = Returned ∧ offered l = []) ∧
    in_service s' `prefix_of` in_service s ++ offered l.
Proof.
  induction l as [|a l IH]; intros s Hs; cbn [svc_run].
  - split; [done|]. intros ? [= <-]. rewrite app_nil_r. done.
  - destruct (svc_step_inv a s Hs) as [Hp Hok].
    destruct (svc_step max a s) as [s1|e|] eqn:He; [|done|done].
    destruct (Hok s1 eq_refl) as [H1 Hc]. destruct (IH s1 H1) as [Hp2 Hok2].
    split; [exact Hp2|]. intros s' Hr. destruct (Hok2 s' Hr) as (Hi & Hrun & Hret & Hpre).
    assert (offered (a :: l) = offered [a] ++ offered l) as Ho by (by destruct a).
    rewrite Ho, app_assoc. split_and!; [done| | |].
    + intros Hn. rewrite Hrun by done. f_equal.
      unfold carried in Hc. destruct a; try exact Hc. exfalso. apply Hn, Hret.
      destruct s as [[|] [] [] ? ?]; cbn in He; by simplify_eq.
    + intros Hs1. destruct (returned_step a s s1 Hs Hs1 He) as (<- & Hb & ->). cbn.
      by apply Hret.
    + unfold carried in Hc. destruct a; try (rewrite <-Hc; exact Hpre).
      assert (sv_batcher s1 = Returned) as Hb
        by (destruct s as [[|] [] [] ? ?]; cbn in He; by simplify_eq).
      destruct (Hret Hb) as (-> & _ & ->). cbn. by rewrite !app_nil_r.
Qed.

Lemma svc_inv_start : svc_inv (service_start T).
Proof. split; cbn; [lia|constructor|lia|constructor|done]. Qed.

(** ** The relay gets everything *)

Definition internal (a : Action T) : bool :=
  match a with Recv | TimeoutElapsed | SendDone | BatchReceive => true | _ => false end.

(** [s'] is reached from [s] by the service alone. *)
Definition settles s s' : Prop :=
  ∃ l, Forall internal l ∧ svc_run max l s = Ok s'.

#[local] Instance settles_preorder : PreOrder settles.
Proof.
  split.
  - intros s. by exists [].
  - intros s1 s2 s3 (l1 & Hl1 & H1) (l2 & Hl2 & H2). exists (l1 ++ l2). split; [by apply list.Forall_app_2|].
    revert s1 H1. clear -H2. induction l1 as [|a l IH]; intros s1; cbn [svc_run app]; [by intros [= ->]|].
    destruct (svc_step max a s1) as [s'| |]; try done. apply IH.
Qed.

Lemma settles_one a s s' : internal a → svc_step max a s = Ok s' → settles s s'.
Proof. intros Ha Hs. exists [a]. split; [by repeat constructor|]. cbn. by rewrite Hs. Qed.

Lemma settle_output items senders p output : ∀ relay, p ≠ Returned →
  settles (mkService items senders p output relay)
    (mkService items senders p [] (relay ++ output)).
Proof.
  induction output as [|b output IH]; intros relay Hp; [by rewrite app_nil_r|].
  etrans; [apply (settles_one BatchReceive); [done|]|].
  - by destruct p.
  - rewrite (cons_middle b relay output), (app_assoc relay [b] output). by apply IH.
Qed.

Lemma settle_sending items senders b relay :
  settles (mkService items senders (Sending b) [] relay)
    (mkService items senders (Receiving []) [] (relay ++ [b])).
Proof.
  etrans; [by apply (settles_one SendDone)|]. cbn. by apply settle_output.
Qed.

Lemma settle_items items senders : ∀ b relay, (length b < max)%nat →
  ∃ b' relay', settles (mkService items senders (Receiving b) [] relay)
    (mkService [] senders (Receiving b') [] relay') ∧ (length b' < max)%nat.
Proof.
  induction items as [|x items IH]; intros b relay Hb; [by exists b, relay|].
  destruct (push_item_ok b x Hb) as ([c|c|] & Hp & Hh & Hg & Hn).
  - destruct (IH c relay Hg) as (b' & relay' & Hs & Hb'). exists b', relay'. split; [|done].
    etrans; [|exact Hs]. apply (settles_one Recv); [done|]. cbn. by rewrite Hp.
  - destruct (IH [] (relay ++ [c])) as (b' & relay' & Hs & Hb'); [cbn; lia|].
    exists b', relay'. split; [|done].
    etrans; [apply (settles_one Recv); [done|]; cbn; by rewrite Hp|].
    etrans; [apply settle_sending|exact Hs].
  - done.
Qed.

(** From every state before the end, the service reaches one where all its
    receipts have been passed to the relay. *)
Lemma service_settles s : svc_inv s → sv_batcher s ≠ Returned →
  ∃ s', settles s s' ∧ sv_output s' = [] ∧ sv_items s' = [] ∧ sv_batcher s' = Receiving [].
Proof.
  intros [Hb _ _ _ _] Hn. destruct s as [items senders p output relay]; cbn in *.
  assert (∃ b relay1, settles (mkService items senders p output relay)
    (mkService items senders (Receiving b) [] relay1) ∧ (length b < max)%nat) as (b & r1 & H1 & Hlt).
  { destruct p as [b|b|]; [| |done].
    - exists b, (relay ++ output). split; [by apply settle_output|done].
    - exists [], ((relay ++ output) ++ [b]). split; [|cbn; lia].
      etrans; [by apply settle_output|apply settle_sending]. }
  destruct (settle_items items senders b r1 Hlt) as (b' & r2 & H2 & Hb').
  destruct (decide (b' = [])) as [->|Hne].
  - eexists. split; [by etrans|done].
  - exists (mkService [] senders (Receiving []) [] (r2 ++ [b'])). split; [|done].
    etrans; [exact H1|]. etrans; [exact H2|]. etrans; [|apply settle_sending].
    apply (settles_one TimeoutElapsed); [done|]. cbn. rewrite bool_decide_eq_false_2 by done.
    rewrite send_batch_good; [done|]. split; [destruct b'; [done|cbn; lia]|lia].
Qed.

(** ** Without pauses the batches are full *)

(** The batches sent so far, in order, and what the batcher still collects. *)
Definition batches s : list (list T) :=
  sv_relay s ++ sv_output s ++ match sv_batcher s with Sending b => [b] | _ => [] end.
Definition collecting s : list T :=
  match sv_batcher s with Receiving b => b | _ => [] end.

Lemma svc_step_full a s s' : svc_inv s → a ≠ TimeoutElapsed → svc_step max a s = Ok s' →
  Forall (λ b, length b = max) (batches s) → Forall (λ b, length b = max) (batches s').
Proof.
  intros [Hb _ _ _ _] Ha Hs HF. destruct s as [items senders p output relay]; cbn in *.
  unfold batches in *. cbn in *. rewrite !list.Forall_app in *. destruct HF as (Hr & Ho & Hp).
  destruct a; cbn -[Nat.ltb] in Hs; try done.
  - destruct (senders && _); [|done]. by simplify_eq.
  - by simplify_eq.
  - destruct p as [b| |], items as [|x items]; try done. unfold push_item in Hs.
    case_bool_decide; [by injection Hs as <-|].
    destruct (Nat.leb_spec max (length (b ++ [x]))) as [Hle|]; [|by injection Hs as <-].
    rewrite send_batch_good in Hs.
    + injection Hs as <-. cbn. split_and!; try done. constructor; [|done].
      rewrite length_app in *. cbn in *. lia.
    + split; rewrite length_app in *; cbn in *; lia.
  - destruct p, items, senders; by simplify_eq.
  - destruct p as [|b|]; try done. destruct (_ <? _)%nat; [|done]. simplify_eq. cbn.
    split_and!; [done| |done]. by apply list.Forall_app_2.
  - assert (∃ o out, output = o :: out ∧ s' = mkService items senders p out (relay ++ [o]))
      as (o & out & -> & ->) by (destruct p, output; naive_solver).
    cbn. apply list.Forall_cons in Ho as [Ho1 Ho2]. split_and!; [|done|done].
    apply list.Forall_app_2; [done|by repeat constructor].
Qed.

Lemma svc_run_full l : ∀ s s', svc_inv s → TimeoutElapsed ∉ l → svc_run max l s = Ok s' →
  Forall (λ b, length b = max) (batches s) → Forall (λ b, length b = max) (batches s').
Proof.
  induction l as [|a l IH]; intros s s' Hs Ht; cbn [svc_run]; [by intros [= ->]|].
  apply not_elem_of_cons in Ht as [Ha Ht].
  destruct (svc_step max a s) as [s1| |] eqn:He; try done. intros Hr HF.
  eapply IH; [|done|exact Hr|].
  - by eapply svc_step_inv.
  - eapply svc_step_full; [exact Hs| |exact He|done]. by intros ->.
Qed.

Lemma in_service_batches s : in_service s = concat (batches s) ++ collecting s ++ sv_items s.
Proof.
  unfold in_service, batches, collecting. rewrite !concat_app.
  destruct (sv_batcher s); cbn; by rewrite ?app_nil_r, <-?app_assoc.
Qed.
End service_proofs.

Lemma batch_size_ok : (2 ≤ BATCH_SIZE)%nat.
Proof. apply Nat.leb_le. vm_compute. reflexivity. Qed.

(** C27. In every interleaving of the batcher, its timer, the queue and the
    calls to the relay, no assertion fails, every batch has between one and 500
    receipts, at most ten batches wait, and what the relay has been given is an
    initial part of the receipts offered, each exactly once and in order; until
    the batcher returns none is lost, and the service alone can always reach a
    state in which the relay has been given all of them. *)
Theorem mailbox_delivers l :
  let r := mailbox_run l (service_start Receipt) in
  r ≠ Panic ∧
  ∀ s, r = Ok s →
    Forall (λ b, 1 ≤ length b ≤ BATCH_SIZE)%nat (sv_relay s ++ sv_output s) ∧
    (length (sv_output s) ≤ BATCHES_QUEUE_SIZE)%nat ∧
    concat (sv_relay s) `prefix_of` offered l ∧
    (sv_batcher s ≠ Returned →
       concat (sv_relay s) ++ concat (sv_output s) ++ held (sv_batcher s) ++ sv_items s = offered l ∧
       ∃ l' s', Forall internal l' ∧ mailbox_run l' s = Ok s' ∧ concat (sv_relay s') = offered l).
Proof.
  destruct (svc_run_inv BATCH_SIZE batch_size_ok l _ (svc_inv_start BATCH_SIZE batch_size_ok))
    as [Hp Hok].
  split; [exact Hp|]. intros s Hr. destruct (Hok s Hr) as (Hi & Hc & _ & Hpre). split_and!.
  - apply list.Forall_app_2; apply Hi.
  - apply Hi.
  - etrans; [|exact Hpre]. cbn. by eexists.
  - intros Hn. specialize (Hc Hn). cbn in Hc. split; [exact Hc|].
    destruct (service_settles BATCH_SIZE batch_size_ok s Hi Hn) as (s' & (l' & Hl' & Hs') & Ho & Hit & Hb).
    exists l', s'. split_and!; [done|exact Hs'|].
    destruct (svc_run_inv BATCH_SIZE batch_size_ok l' s Hi) as [_ Hok'].
    destruct (Hok' s' Hs') as (_ & Hc' & _). rewrite Hb in Hc'.
    specialize (Hc' ltac:(done)). unfold in_service in Hc'. rewrite Ho, Hit, Hb in Hc'.
    cbn in Hc'. rewrite app_nil_r in Hc'. rewrite Hc'. fold (in_service s). rewrite Hc.
    assert (offered l' = []) as ->; [|by rewrite app_nil_r].
    clear -Hl'. induction Hl' as [|a l Ha _ IH]; [done|]. by destruct a.
Qed.

(** C28. While the timer never elapses the batcher is the reference chunking:
    in every interleaving, the batches sent are exactly the full chunks of 500
    of the receipts received, in order, and the buffer is the remainder. *)
Theorem batcher_chunks l s (Hl : TimeoutElapsed ∉ l)
    (Hr : mailbox_run l (service_start Receipt) = Ok s) (Hs : sv_batcher s ≠ Returned) :
  let received := concat (batches s) ++ collecting s in
  received ++ sv_items s = offered l ∧
  batches s = chunks_exact BATCH_SIZE received ∧
  collecting s = drop (BATCH_SIZE * length (batches s)) received.
Proof.
  pose proof (svc_inv_start (T:=Receipt) BATCH_SIZE batch_size_ok) as Hstart.
  destruct (svc_run_inv BATCH_SIZE batch_size_ok l _ Hstart) as [_ Hok].
  destruct (Hok s Hr) as (Hi & Hc & _ & _). cbv zeta. split.
  - specialize (Hc Hs). rewrite in_service_batches in Hc. cbn in Hc. by rewrite <-app_assoc.
  - pose proof batch_size_ok. apply chunks_exact_unique; [lia| | |done].
    + eapply (svc_run_full BATCH_SIZE); [apply batch_size_ok|exact Hstart|exact Hl|exact Hr|constructor].
    + unfold collecting. destruct Hi as [Hb _ _ _ _]. destruct (sv_batcher s); cbn in *; lia.
Qed.

(** The note on [batcher]: a batch size of one fails the assertion at the
    second item. *)
Example batcher_needs_two (x y : Receipt) :
  svc_run 1 [Offer x; Offer y; Recv; Recv] (service_start Receipt) = Panic.
Proof. reflexivity. Qed.

Example batcher_chunks_witness :
  let r i := mkReceipt "topic" i in
  let l := [Offer (r "1"); Recv; Offer (r "2"); Offer (r "3"); Recv] in
  ∃ s, mailbox_run l (service_start Receipt) = Ok s ∧
    batches s = chunks_exact BATCH_SIZE (concat (batches s) ++ collecting s) ∧
    concat (batches s) ++ collecting s ++ sv_items s = [r "1"; r "2"; r "3"].
Proof.
  eexists. split; [by vm_compute|].
  destruct (batcher_chunks [Offer (mkReceipt "topic" "1"); Recv; Offer (mkReceipt "topic" "2");
    Offer (mkReceipt "topic" "3"); Recv] (mkService [mkReceipt "topic" "3"] true
    (Receiving [mkReceipt "topic" "1"; mkReceipt "topic" "2"]) [] [])) as (H1 & H2 & _).
  - set_solver.
  - by vm_compute.
  - done.
  - split; [exact H2|by vm_compute].
Defined.
