(* ===== verification/Router.v ===== *)
(** * The routes of the public server (services/public_http_server/mod.rs)

    Which handler a method and a path reach, and with which arguments. *)

From Stdlib Require Import Ascii.
From stdpp Require Import gmap.
From S2P Require Import Prelude RustStr.
Open Scope Z_scope.

(** ** The table *)

Inductive HttpMethod := GET | HEAD | POST | OtherMethod (name : string).

#[global] Instance HttpMethod_eq_dec : EqDecision HttpMethod.
Proof. solve_decision. Defined.

(** The modules of [handlers]. *)
Inductive Endpoint :=
| Health | DidJson | RelayWebhook | NotificationLink | NotifyV0 | NotifyV1 | GetSubscribersV0
| GetSubscribersV1 | SubscribeTopic | GetWelcomeNotification | PostWelcomeNotification
| MarkAllAsRead.

#[global] Instance Endpoint_eq_dec : EqDecision Endpoint.
Proof. solve_decision. Defined.

Definition DID_JSON_ENDPOINT : string := "/.well-known/did.json".
Definition RELAY_WEBHOOK_ENDPOINT : string := "/v1/relay-webhook".

Record Route := mkRoute { rt_path : string; rt_method : HttpMethod; rt_endpoint : Endpoint }.

(** [Router::new().route(..)..]. *)
Definition routes : list Route :=
  [mkRoute "/health" GET Health;
   mkRoute DID_JSON_ENDPOINT GET DidJson;
   mkRoute RELAY_WEBHOOK_ENDPOINT POST RelayWebhook;
   mkRoute "/v1/notification/:subscriber_notification_id" GET NotificationLink;
   mkRoute "/:project_id/notify" POST NotifyV0;
   mkRoute "/v1/:project_id/notify" POST NotifyV1;
   mkRoute "/:project_id/subscribers" GET GetSubscribersV0;
   mkRoute "/v1/:project_id/subscribers" POST GetSubscribersV1;
   mkRoute "/:project_id/subscribe-topic" POST SubscribeTopic;
   mkRoute "/v0/:project_id/welcome-notification" GET GetWelcomeNotification;
   mkRoute "/v0/:project_id/welcome-notification" POST PostWelcomeNotification;
   mkRoute "/v1/:project_id/mark-all-as-read" GET MarkAllAsRead].

(** ** Matching a path

    A pattern is matched segment by segment: [:name] takes any segment, an empty
    one too unless it is the last of the path, another segment only itself. *)

Definition segments (path : string) : list string := split_char "/" path.

Definition param (segment : string) : option string := strip_prefix ":" segment.

Fixpoint capture (pattern path : list string) : option (gmap string string) :=
  match pattern, path with
  | [], [] => Some ∅
  | p :: pattern, s :: path =>
      match param p with
      | Some name =>
          if bool_decide (s = "" ∧ path = []) then None
          else <[name := s]> <$> capture pattern path
      | None => if bool_decide (p = s) then capture pattern path else None
      end
  | _, _ => None
  end.

Definition captures (pattern path : string) : option (gmap string string) :=
  capture (segments pattern) (segments path).

(** Where two patterns first differ, the first one has a fixed segment and the
    second one a parameter. *)
Fixpoint preferred (l1 l2 : list string) : bool :=
  match l1, l2 with
  | s1 :: l1, s2 :: l2 =>
      match param s1, param s2 with
      | None, Some _ => true
      | Some _, None => false
      | _, _ => preferred l1 l2
      end
  | _, _ => false
  end.

(** The path router of axum. *)
Class PathRouter := { at_path : list string → string → option (string * gmap string string) }.

(** It finds a pattern that matches when there is one, and fixed segments have
    priority over parameters. *)
Class PathRouterLaws `{PathRouter} : Prop := {
  at_path_sound patterns path p args :
    at_path patterns path = Some (p, args) → p ∈ patterns ∧ captures p path = Some args;
  at_path_complete patterns path p :
    p ∈ patterns → is_Some (captures p path) → is_Some (at_path patterns path);
  at_path_preferred patterns path p args p' :
    at_path patterns path = Some (p, args) → p' ∈ patterns → is_Some (captures p' path) →
    preferred (segments p') (segments p) = false;
}.

Inductive Routed :=
| RoutedTo (e : Endpoint) (args : gmap string string)
| MethodNotAllowed
| PathNotFound.

Section router.
Context `{!PathRouter}.

(** The methods of the route that matched; [HEAD] is served by [GET]. *)
Definition route (method : HttpMethod) (path : string) : Routed :=
  match at_path (rt_path <$> routes) path with
  | None => PathNotFound
  | Some (pattern, args) =>
      let serves m r := bool_decide (rt_path r = pattern) && bool_decide (rt_method r = m) in
      match List.find (serves method) routes, method with
      | Some r, _ => RoutedTo (rt_endpoint r) args
      | None, HEAD => match List.find (serves GET) routes with
                      | Some r => RoutedTo (rt_endpoint r) args
                      | None => MethodNotAllowed
                      end
      | None, _ => MethodNotAllowed
      end
  end.
End router.

(** ** Where each endpoint is *)

Definition endpoint_method (e : Endpoint) : HttpMethod :=
  match e with
  | Health | DidJson | NotificationLink | GetSubscribersV0 | GetWelcomeNotification
  | MarkAllAsRead => GET
  | RelayWebhook | NotifyV0 | NotifyV1 | GetSubscribersV1 | SubscribeTopic
  | PostWelcomeNotification => POST
  end.

(** The path of an endpoint for the project (or the notification) [i]. *)
Definition endpoint_segments (e : Endpoint) (i : string) : list string :=
  match e with
  | Health => [""; "health"]
  | DidJson => [""; ".well-known"; "did.json"]
  | RelayWebhook => [""; "v1"; "relay-webhook"]
  | NotificationLink => [""; "v1"; "notification"; i]
  | NotifyV0 => [""; i; "notify"]
  | NotifyV1 => [""; "v1"; i; "notify"]
  | GetSubscribersV0 => [""; i; "subscribers"]
  | GetSubscribersV1 => [""; "v1"; i; "subscribers"]
  | SubscribeTopic => [""; i; "subscribe-topic"]
  | GetWelcomeNotification | PostWelcomeNotification => [""; "v0"; i; "welcome-notification"]
  | MarkAllAsRead => [""; "v1"; i; "mark-all-as-read"]
  end.

Definition endpoint_path (e : Endpoint) (i : string) : string := join "/" (endpoint_segments e i).

(** The name of its argument, if it has one. *)
Definition endpoint_args (e : Endpoint) (i : string) : gmap string string :=
  match e with
  | Health | DidJson | RelayWebhook => ∅
  | NotificationLink => {["subscriber_notification_id" := i]}
  | _ => {["project_id" := i]}
  end.

(** The endpoints of the project [i] in version 1 that the path of notification
    links hides. *)
Definition shadowed (e : Endpoint) (i : string) : bool :=
  match e with
  | NotifyV1 | GetSubscribersV1 | MarkAllAsRead => bool_decide (i = "notification")
  | _ => false
  end.

(** The arguments an endpoint can have: one segment, which may be empty for the
    endpoints of a project but not for a notification, at the end of its path. *)
Definition is_argument (e : Endpoint) (i : string) : Prop :=
  (e = NotificationLink → i ≠ "") ∧ no_char "/" i = true.

(** ** Lemmas *)

Lemma split_char_pieces c s : Forall (λ p, no_char c p = true) (split_char c s).
Proof.
  induction s as [|d s IH]; [by repeat constructor|]. cbn [split_char].
  destruct (ascii_dec c d) as [->|Hd]; [by constructor|].
  assert (Ascii.eqb c d = false) as Hcd by (by apply Ascii.eqb_neq).
  destruct (split_char c s) as [|p ps].
  - constructor; [|done]. unfold no_char. cbn. by rewrite Hcd.
  - apply list.Forall_cons in IH as [Hp Hps]. constructor; [|done].
    unfold no_char in *. cbn. by rewrite Hcd.
Qed.

Lemma segments_endpoint e i : no_char "/" i = true → segments (endpoint_path e i) = endpoint_segments e i.
Proof.
  intros Hi. apply split_char_join; [by destruct e|].
  destruct e; repeat constructor; done.
Qed.

Section router_lemmas.
Context `{!PathRouter, !PathRouterLaws}.

(** The pattern of an endpoint: its path with the name of its argument. *)
Definition argument_name (e : Endpoint) : string :=
  match e with NotificationLink => ":subscriber_notification_id" | _ => ":project_id" end.
Definition endpoint_pattern (e : Endpoint) : string := endpoint_path e (argument_name e).

Lemma endpoint_pattern_elem e : endpoint_pattern e ∈ rt_path <$> routes.
Proof. destruct e; vm_compute; repeat (apply list_elem_of_here || apply list_elem_of_further). Qed.

Lemma segments_pattern e : segments (endpoint_pattern e) = endpoint_segments e (argument_name e).
Proof. apply segments_endpoint. by destruct e. Qed.

(** The patterns are those of the endpoints. *)
Lemma pattern_endpoint p : p ∈ rt_path <$> routes → ∃ e, p = endpoint_pattern e.
Proof.
  assert (Hall : rt_path <$> routes = (λ r, endpoint_pattern (rt_endpoint r)) <$> routes)
    by (by vm_compute).
  rewrite Hall. intros (r & -> & _)%list_elem_of_fmap. by eexists.
Qed.

Lemma endpoint_captures e i : is_argument e i →
  captures (endpoint_pattern e) (endpoint_path e i) = Some (endpoint_args e i).
Proof.
  intros [Hi Hc]. unfold captures. rewrite segments_endpoint, segments_pattern by done.
  destruct e; cbn; repeat rewrite bool_decide_eq_true_2 by done;
    by repeat rewrite bool_decide_eq_false_2 by naive_solver.
Qed.

(** One segment of a pattern at a time. *)
Lemma capture_nil path args : capture [] path = Some args → path = [] ∧ args = ∅.
Proof. destruct path; [|done]. by intros [= <-]. Qed.

Lemma capture_fixed p pattern path args :
  capture (p :: pattern) path = Some args → param p = None →
  ∃ l, path = p :: l ∧ capture pattern l = Some args.
Proof.
  destruct path as [|s l]; [done|]. cbn [capture]. intros Hc Hp. rewrite Hp in Hc.
  case_bool_decide; [subst s|done]. by exists l.
Qed.

Lemma capture_param p pattern path args name :
  capture (p :: pattern) path = Some args → param p = Some name →
  ∃ s l rest, path = s :: l ∧ ¬ (s = "" ∧ l = []) ∧ capture pattern l = Some rest ∧ args = <[name := s]> rest.
Proof.
  destruct path as [|s l]; [done|]. cbn [capture]. intros Hc Hp. rewrite Hp in Hc.
  case_bool_decide; [done|]. apply fmap_Some in Hc as (rest & Hc & ->). by exists s, l, rest.
Qed.

(** What a pattern captures is an endpoint's path. *)
Lemma captures_inv e path args : captures (endpoint_pattern e) path = Some args →
  ∃ i, is_argument e i ∧ path = endpoint_path e i ∧ args = endpoint_args e i.
Proof.
  unfold captures. rewrite segments_pattern. intros Hc.
  pose proof (split_char_pieces "/" path) as Hp.
  assert (∃ i, is_argument e i ∧ segments path = endpoint_segments e i ∧ args = endpoint_args e i)
    as (i & Hi & Hs & ->).
  { unfold segments in *. revert Hp Hc. generalize (split_char "/" path). intros l Hp Hc.
    destruct e; cbn [endpoint_segments argument_name] in Hc |- *;
      repeat first
      [ apply capture_fixed in Hc as (? & -> & Hc); [|reflexivity]
      | eapply capture_param in Hc as (? & ? & ? & -> & ? & Hc & ->); [|reflexivity]
      | apply capture_nil in Hc as [-> ->] ];
      repeat (apply list.Forall_cons in Hp as [? Hp]);
      first [exists "health"; by repeat split
            |eexists; split; cycle 1; [by split|split; [naive_solver|eassumption]]]. }
  exists i. split; [done|]. split; [|done].
  unfold endpoint_path. rewrite <-Hs. unfold segments. by rewrite join_split_char.
Qed.
(** The pattern found is the endpoint's own. *)
Lemma same_path e e' i i' : is_argument e i → is_argument e' i' → endpoint_path e i = endpoint_path e' i' →
  endpoint_pattern e = endpoint_pattern e' ∨
  preferred (segments (endpoint_pattern e)) (segments (endpoint_pattern e')) = true ∨
  shadowed e i = true.
Proof.
  intros [_ Hi] [_ Hi'] Hp. apply (f_equal segments) in Hp. rewrite !segments_endpoint in Hp by done.
  rewrite !segments_pattern. destruct e, e'; cbn in Hp; simplify_eq;
    first [by left | by right; left | by right; right; apply bool_decide_eq_true_2 | done].
Qed.

Lemma at_path_endpoint e i : is_argument e i → shadowed e i = false →
  at_path (rt_path <$> routes) (endpoint_path e i) = Some (endpoint_pattern e, endpoint_args e i).
Proof.
  intros Hi Hsh. pose proof (endpoint_pattern_elem e) as He.
  pose proof (endpoint_captures e i Hi) as Hc.
  destruct (at_path_complete _ (endpoint_path e i) _ He (mk_is_Some _ _ Hc)) as [[p args] Hat].
  destruct (at_path_sound _ _ _ _ Hat) as [Hp Hargs].
  pose proof (at_path_preferred _ _ _ _ _ Hat He (mk_is_Some _ _ Hc)) as Hpref.
  destruct (pattern_endpoint p Hp) as [e' ->].
  destruct (captures_inv _ _ _ Hargs) as (i' & Hi' & Hpath & _).
  destruct (same_path e e' i i' Hi Hi' Hpath) as [Heq|[Hpr|Hs]]; [|congruence|congruence].
  rewrite Hat, Heq. rewrite <-Heq, Hc in Hargs. by injection Hargs as ->.
Qed.

(** The routes of a pattern. *)
Definition serving (method : HttpMethod) (pattern : string) : option Endpoint :=
  rt_endpoint <$> List.find (λ r, bool_decide (rt_path r = pattern) && bool_decide (rt_method r = method))
    routes.

Lemma serving_endpoint e : serving (endpoint_method e) (endpoint_pattern e) = Some e.
Proof. destruct e; by vm_compute. Qed.

Lemma serving_inv m e e' : serving m (endpoint_pattern e) = Some e' →
  m = endpoint_method e' ∧ endpoint_pattern e = endpoint_pattern e'.
Proof. destruct m, e; vm_compute; intros Hs; by simplify_eq. Qed.

Lemma route_eq method path :
  route method path =
    match at_path (rt_path <$> routes) path with
    | None => PathNotFound
    | Some (pattern, args) =>
        match serving method pattern, method with
        | Some e, _ => RoutedTo e args
        | None, HEAD => match serving GET pattern with Some e => RoutedTo e args
                                                     | None => MethodNotAllowed end
        | None, _ => MethodNotAllowed
        end
    end.
Proof.
  unfold route, serving. destruct (at_path _ _) as [[p args]|]; [|done].
  destruct (List.find _ routes); [done|]. cbn [fmap option_fmap option_map].
  destruct method; try done. by destruct (List.find _ routes).
Qed.

(** Every endpoint is reached at its URL and nowhere else.  A request with
    the method of an endpoint (or [HEAD] for [GET]) and its path, for any
    project or notification, is routed to its handler with that argument; and
    a request is routed to a handler only so.  One project is out of reach in
    version 1: the one written [notification], whose paths are those of
    notification links.  The project may be empty: [//notify] is a path of the
    empty project.  (Arguments are as the path has them, percent-encoded.) *)
Theorem route_exact method path e args :
  route method path = RoutedTo e args ↔
  ∃ i, is_argument e i ∧ path = endpoint_path e i ∧ args = endpoint_args e i ∧
    (method = endpoint_method e ∨ method = HEAD ∧ endpoint_method e = GET) ∧ shadowed e i = false.
Proof.
  rewrite route_eq. split.
  - destruct (at_path _ path) as [[p a]|] eqn:Hat; [|done]. intros Hr.
    destruct (at_path_sound _ _ _ _ Hat) as [Hp Hc]. destruct (pattern_endpoint p Hp) as [e' ->].
    assert (∃ m, serving m (endpoint_pattern e') = Some e ∧ a = args ∧
      (method = m ∨ method = HEAD ∧ m = GET)) as (m & Hs & <- & Hm).
    { destruct (serving method _) eqn:Hs; [injection Hr as -> ->; exists method; by auto|].
      destruct method; try done. destruct (serving GET _) eqn:Hg; [|done].
      injection Hr as -> ->. exists GET. by auto. }
    destruct (serving_inv _ _ _ Hs) as [-> Hpat]. rewrite Hpat in Hc, Hat.
    destruct (captures_inv _ _ _ Hc) as (i & Hi & -> & ->). exists i. split_and!; [done..|].
    destruct (shadowed e i) eqn:Hsh; [|done]. exfalso.
    assert (i = "notification") as -> by (destruct e; try done; by apply bool_decide_eq_true in Hsh).
    pose proof (at_path_preferred _ _ _ _ (endpoint_pattern NotificationLink) Hat
      (endpoint_pattern_elem _)) as Hpref.
    assert (is_Some (captures (endpoint_pattern NotificationLink) (endpoint_path e "notification"))
      ∧ preferred (segments (endpoint_pattern NotificationLink)) (segments (endpoint_pattern e)) = true)
      as [Hcap Hpr] by (destruct e; try done; by split; [eexists; vm_compute|vm_compute]).
    by rewrite Hpref in Hpr.
  - intros (i & Hi & -> & -> & Hm & Hsh). rewrite at_path_endpoint by done.
    destruct Hm as [->|[-> Hm]]; [by rewrite serving_endpoint|].
    pose proof (serving_endpoint e) as Hs. rewrite Hm in Hs. rewrite Hs.
    destruct (serving HEAD _) as [e'|] eqn:Hh; [|done].
    apply serving_inv in Hh as [Hh _]. by destruct e'.
Qed.
End router_lemmas.

(** ** Witness *)

Module RouterInstances.

(** The pattern with the most fixed segments first. *)
Fixpoint best (a : string) (l : list string) : string :=
  match l with
  | [] => a
  | p :: l => best (if preferred (segments p) (segments a) then p else a) l
  end.

Definition matching (path : string) (patterns : list string) : list string :=
  filter (λ p, bool_decide (is_Some (captures p path))) patterns.

#[export] Instance path_router_w : PathRouter :=
  {| at_path patterns path :=
       match matching path patterns with
       | [] => None
       | a :: l => pair (best a l) <$> captures (best a l) path
       end |}.

Lemma preferred_irrefl l : preferred l l = false.
Proof. induction l as [|s l IH]; [done|]. cbn [preferred]. by destruct (param s). Qed.

Lemma preferred_trans r a p : preferred r a = true → preferred p a = false → preferred p r = false.
Proof.
  revert a p. induction r as [|s r IH]; intros [|t a] [|u p]; try done.
  cbn [preferred].
  destruct (param s), (param t), (param u); try done; apply IH.
Qed.

Lemma best_keeps q l : ∀ a, preferred q (segments a) = false → preferred q (segments (best a l)) = false.
Proof.
  induction l as [|p l IH]; intros a Ha; [done|].
  cbn [best]. apply IH.
  destruct (preferred (segments p) (segments a)) eqn:Hp; [|done]. exact (preferred_trans _ _ _ Hp Ha).
Qed.

Lemma best_first q l : ∀ a, q ∈ a :: l → preferred (segments q) (segments (best a l)) = false.
Proof.
  induction l as [|p l IH]; intros a Hq; apply elem_of_cons in Hq as [->|Hq].
  - apply preferred_irrefl.
  - by apply elem_of_nil in Hq.
  - apply best_keeps, preferred_irrefl.
  - cbn [best]. apply elem_of_cons in Hq as [->|Hq].
    + apply best_keeps. destruct (preferred (segments p) (segments a)) eqn:Hp; [|done].
      apply preferred_irrefl.
    + apply IH. by right.
Qed.

Lemma best_elem l : ∀ a, best a l ∈ a :: l.
Proof.
  induction l as [|p l IH]; intros a; [by left|].
  cbn [best].
  specialize (IH (if preferred (segments p) (segments a) then p else a)).
  apply elem_of_cons in IH as [->|Hl]; [case_match|]; [right; left|left|right; by right].
Qed.

Lemma elem_of_matching p path patterns :
  p ∈ matching path patterns ↔ p ∈ patterns ∧ is_Some (captures p path).
Proof. unfold matching. rewrite list_elem_of_filter, bool_decide_spec. tauto. Qed.

#[export] Instance path_router_laws_w : PathRouterLaws.
Proof.
  split; intros patterns path; cbn [at_path path_router_w];
    pose proof (λ p, elem_of_matching p path patterns) as Hm;
    destruct (matching path patterns) as [|a l]; try done.
  - intros p args Hat. apply fmap_Some in Hat as (args' & Hc & [= -> ->]).
    split; [|done]. by apply Hm, best_elem.
  - intros p Hp Hc. pose proof (proj2 (Hm p) (conj Hp Hc)) as Hn. by apply elem_of_nil in Hn.
  - intros p Hp Hc. destruct (proj1 (Hm (best a l)) (best_elem l a)) as [_ [args Hargs]].
    rewrite Hargs. by eexists.
  - intros p args p' Hat Hp Hc. apply fmap_Some in Hat as (args' & _ & [= -> ->]).
    by apply best_first, Hm.
Qed.

(** A project notifies, and one that cannot. *)
Lemma route_exact_witness :
  route POST "/v1/project1/notify" = RoutedTo NotifyV1 {["project_id" := "project1"]} ∧
  route POST "/v1/notification/notify" = MethodNotAllowed.
Proof.
  split; [|by vm_compute]. apply (route_exact POST "/v1/project1/notify" NotifyV1).
  exists "project1". split; [by split|]. split; [reflexivity|]. split; [reflexivity|].
  split; [by left|reflexivity].
Defined.

(** The empty project, and an empty notification id. *)
Example route_empty :
  route POST "//notify" = RoutedTo NotifyV0 {["project_id" := ""]} ∧
  route POST "/v1//notify" = RoutedTo NotifyV1 {["project_id" := ""]} ∧
  route GET "/v1/notification/" = PathNotFound.
Proof. by vm_compute. Qed.
End RouterInstances.
