(* ===== verification/Jobs.v ===== *)
(** * Periodic jobs (relay_renewal_job/, watcher_expiration_job.rs)

    The renewal job registers the webhook and subscribes to every topic again,
    one subscription task at a time; the expiration job deletes the expired
    watchers. *)

From S2P Require Import Prelude RustStr Router Externals AccountId Errors Types RateLimit.
From S2P Require Import Database DbInvariant Jwt World RelayPublish NotifyMessage Cache.
From S2P Require Import Identity RelayError RelayHandlers.
Open Scope Z_scope.

(** ** Expired watchers *)

Definition watcher_expiration_job `{UrlOps, !Env} : App SqlxError () :=
  count ← query delete_expired_subscription_watchers; mret ().

(** ** Registering the webhook *)

Section renewal.
Context `{!UrlOps, !Env, !Scheduler}.

Definition watch_register_request (webhook_notify_url : Url)
    : outcome NotifyServerError WatchRegisterRequest :=
  webhook_url ← unwrap (url_join webhook_notify_url RELAY_WEBHOOK_ENDPOINT);
  Ok (mkWatchRegisterRequest (url_to_string webhook_notify_url) (url_to_string webhook_url)
        WatchType_Subscriber INCOMING_TAGS [WatchStatus_Accepted; WatchStatus_Queued]
        (60 * 60 * 24 * 30)).

Definition register_webhook (webhook_notify_url : Url) : App NotifyServerError () :=
  r ← lift (watch_register_request webhook_notify_url);
  m_map_err (λ _, RelayWatch) (relay_call (RelayWatchRegisterReq r)).

(** ** Renewing the subscriptions

    [operation_running] is the value behind the mutex; [renewing] the batches
    of the spawned task, until it ends. *)

Record Renewal := mkRenewal {
  operation_running : bool;
  renewing : option (list (list Topic));
}.

Definition renewal_start : Renewal := mkRenewal false None.

Definition topic_batches (topics : list Topic) : list (list Topic) := (λ t, [t]) <$> topics.

Definition refresh_topics (key_agreement_topic : Topic) : App NotifyServerError (list Topic) :=
  subscriber_topics ← m_map_err Sqlx (query (λ _, get_subscriber_topics));
  project_topics ← m_map_err Sqlx (query (λ _, get_project_topics));
  mret ([key_agreement_topic] ++ subscriber_topics ++ project_topics).

(** [run]: a second task is not started while one is running. *)
Definition refresh_topic_subscriptions (key_agreement_topic : Topic) (s : Renewal)
    : App NotifyServerError Renewal :=
  topics ← refresh_topics key_agreement_topic;
  mret (if operation_running s then s else mkRenewal true (Some (topic_batches topics))).

(** The spawned task: errors are only logged.  The calls, of which 25 run at a
    time, complete in the order of the scheduler. *)
Definition renew_batches {E} (batches : list (list Topic)) : App E () :=
  rank ← ask sched_rank;
  for_each (λ topics, r ← attempt (batch_subscribe_relay_topics topics); mret ())
    (schedule rank batches).

Definition renewal_task {E} (s : Renewal) : App E Renewal :=
  match renewing s with
  | Some batches => renew_batches batches ;; mret (mkRenewal false None)
  | None => mret s
  end.

(** [job]. *)
Definition relay_renewal_job (key_agreement_topic : Topic) (webhook_notify_url : Url)
    (s : Renewal) : App NotifyServerError Renewal :=
  register_webhook webhook_notify_url ;;
  refresh_topic_subscriptions key_agreement_topic s.

(** What happens over time: the job is started by the interval, and the task
    it spawned ends some time later. *)
Inductive RenewalEvent := JobTick | TaskEnds.

Definition renewal_event (key_agreement_topic : Topic) (webhook_notify_url : Url)
    (e : RenewalEvent) (s : Renewal) : App NotifyServerError Renewal :=
  match e with
  | JobTick =>
      r ← attempt (relay_renewal_job key_agreement_topic webhook_notify_url s);
      match r with Ok s => mret s | Err _ => mret s | Panic => panic end
  | TaskEnds => renewal_task s
  end.
End renewal.

(** ** What a renewal does *)

Section renewal_proofs.
Context `{!UrlOps, !Env, !Scheduler}.

Lemma schedule_perm {A} (rank : nat → nat) (l : list A) : schedule rank l ≡ₚ l.
Proof.
  unfold schedule. rewrite merge_sort_Permutation, snd_zip; [done|].
  rewrite length_fmap, length_seq. lia.
Qed.

Lemma batch_subscribe_run topics w : ∃ o n w',
  batch_subscribe_relay_topics topics w = (o, w') ∧
  no_panic o ∧ (S n ≤ 10)%nat ∧
  w_relay w' = w_relay w ++ replicate (S n) (RelayBatchSubscribeReq topics) ∧
  w_db w' = w_db w ∧ w_mailbox w' = w_mailbox w ∧ w_cache w' = w_cache w.
Proof.
  unfold batch_subscribe_relay_topics, mbind, M_bind.
  destruct (retry_run _ _ _ w (relay_call_single (RelayBatchSubscribeReq topics)))
    as [(k & Hk & _ & _ & ->)|(_ & e & ->)].
  - eexists _, k, _. unfold MAX_TRIES in *. split_and!; (lia || done).
  - by eexists _, 9%nat, _.
Qed.

(** Each batch is asked for at least once and at most ten times; nothing else
    is asked of the relay and nothing else changes. *)
Lemma renew_list_run {E} batches : ∀ w, ∃ counts w',
  for_each (E:=E) (λ topics, r ← attempt (batch_subscribe_relay_topics topics); mret ()) batches w
    = (Ok (), w') ∧
  Forall2 (λ _ n, 1 ≤ n ≤ 10)%nat batches counts ∧
  w_relay w' = w_relay w ++ concat (zip_with (λ b n, replicate n (RelayBatchSubscribeReq b)) batches counts) ∧
  w_db w' = w_db w ∧ w_mailbox w' = w_mailbox w ∧ w_cache w' = w_cache w.
Proof.
  induction batches as [|b batches IH]; intros w; cbn [for_each].
  - exists [], w. split_and!; try done. cbn. by rewrite app_nil_r.
  - destruct (batch_subscribe_run b w) as (o & n & w1 & Hb & Hp & Hn & Hr1 & Hd1 & Hm1 & Hc1).
    destruct (IH w1) as (counts & w' & Hrun & Hc & Hrelay & Hdb & Hm & Hca).
    exists (S n :: counts), w'. split_and!; [|constructor; [lia|done]| |congruence..].
    + unfold attempt, mbind, M_bind. rewrite Hb. unfold mret, M_ret. destruct o; try done;
        exact Hrun.
    + rewrite Hrelay, Hr1. cbn [zip_with concat]. by rewrite <-app_assoc.
Qed.

Lemma refresh_topics_Ok k w topics w' :
  refresh_topics k w = (Ok topics, w') →
  w_db w' = w_db w ∧ w_relay w' = w_relay w ∧
  ∀ t, t ∈ topics ↔ t = k ∨ (∃ i s, subscriber (w_db w) !! i = Some s ∧ s_topic s = t) ∨
    (∃ i p, project (w_db w) !! i = Some p ∧ p_topic p = t).
Proof.
  unfold refresh_topics. intros Hr. inv_ok Hr. inv_ok Hr. inv_ok Hr.
  apply m_map_err_Ok_inv, query_Ok in Hrun as (db1 & _ & Hq1 & ->).
  apply m_map_err_Ok_inv, query_Ok in Hrun0 as (db2 & _ & Hq2 & ->).
  unfold get_subscriber_topics, gets in Hq1. injection Hq1 as <- <-.
  unfold get_project_topics, gets in Hq2. injection Hq2 as <- <-. split_and!; [done|done|].
  intros t. cbn [w_db bump set_w_db]. rewrite elem_of_cons, elem_of_app, !list_elem_of_fmap.
  split.
  - intros [->|[([i s] & -> & Hi)|([i p] & -> & Hi)]]; [by left|right; left|right; right];
      apply elem_of_map_to_list in Hi; by eexists _, _.
  - intros [->|[(i & s & Hi & <-)|(i & p & Hi & <-)]]; [by left|right; left|right; right];
      eexists (i, _); (split; [|by apply elem_of_map_to_list]); done.
Qed.

(** The requests of the calls for some batches. *)
Lemma elem_of_calls (batches : list (list Topic)) counts r :
  Forall2 (λ _ n, 1 ≤ n ≤ 10)%nat batches counts →
  r ∈ concat (zip_with (λ b n, replicate n (RelayBatchSubscribeReq b)) batches counts) ↔
  ∃ b, b ∈ batches ∧ r = RelayBatchSubscribeReq b.
Proof.
  induction 1 as [|b n batches counts Hn _ IH]; cbn.
  - split; [by intros ?%elem_of_nil|]. intros (b & Hb & _). by apply elem_of_nil in Hb.
  - rewrite elem_of_app, IH. setoid_rewrite elem_of_cons. split.
    + intros [[-> _]%elem_of_replicate|(c & Hc & ->)]; [|by exists c; split; [right|]].
      exists b. split; [by left|done].
    + intros (c & [->|Hc] & ->); [left|right; by exists c].
      apply elem_of_replicate. split; [done|lia].
Qed.

(** C31. A renewal registers the webhook for every tag and for accepted and
    queued messages, and then asks the relay to subscribe to the server's own
    topic and to the topic of every subscriber and project, each alone in its
    request, at least once and with no other request; whatever the relay
    answers, the task ends and the next renewal can start.  While a task runs
    no second one is started. *)
Theorem renewal_covers k url s w :
  match relay_renewal_job k url s w with
  | (Ok s', w1) =>
      (∃ r, watch_register_request url = Ok r ∧ w_relay w1 = w_relay w ++ [RelayWatchRegisterReq r] ∧
         wr_tags r = INCOMING_TAGS ∧ wr_statuses r = [WatchStatus_Accepted; WatchStatus_Queued]) ∧
      w_db w1 = w_db w ∧
      if operation_running s then s' = s
      else ∃ w2 calls, renewal_task (E:=NotifyServerError) s' w1 = (Ok renewal_start, w2) ∧
        w_db w2 = w_db w ∧ w_relay w2 = w_relay w1 ++ calls ∧
        ∀ r, r ∈ calls ↔ ∃ t, r = RelayBatchSubscribeReq [t] ∧
          (t = k ∨ (∃ i s, subscriber (w_db w) !! i = Some s ∧ s_topic s = t) ∨
             (∃ i p, project (w_db w) !! i = Some p ∧ p_topic p = t))
  | (Err _, w1) => w_db w1 = w_db w
  | (Panic, _) => url_join url RELAY_WEBHOOK_ENDPOINT = None
  end.
Proof.
  unfold relay_renewal_job, register_webhook.
  unfold watch_register_request. destruct (url_join url RELAY_WEBHOOK_ENDPOINT) as [u|] eqn:Hj; [|done].
  cbn [unwrap mbind outcome_bind]. set (r := mkWatchRegisterRequest _ _ _ _ _ _).
  unfold mbind at 1 2, M_bind, lift, m_map_err, relay_call.
  destruct (env_relay (w_tick w) (RelayWatchRegisterReq r)) as [e|]; [done|]. cbn [map_err].
  set (w0 := bump _). unfold refresh_topic_subscriptions, mbind, M_bind.
  destruct (refresh_topics k w0) as [[topics|e|] w1] eqn:Hrun.
  - unfold mret, M_ret.
    apply refresh_topics_Ok in Hrun as (Hdb & Hrelay & Ht). rewrite Hdb, Hrelay.
    split_and!; [by exists r|done|]. destruct (operation_running s); [done|].
    unfold renewal_task. cbn [renewing]. unfold renew_batches.
    destruct (renew_list_run (E:=NotifyServerError)
      (schedule (sched_rank (w_tick w1)) (topic_batches topics)) (bump w1))
      as (counts & w2 & Hl & Hc & Hcalls & Hdb2 & _).
    exists w2, (concat (zip_with (λ b n, replicate n (RelayBatchSubscribeReq b))
      (schedule (sched_rank (w_tick w1)) (topic_batches topics)) counts)).
    split_and!.
    + rewrite (bind_Ok _ _ _ () w2); [done|]. rewrite bind_ask. exact Hl.
    + rewrite Hdb2. exact Hdb.
    + rewrite Hcalls. cbn [w_relay bump]. by rewrite Hrelay.
    + intros q. rewrite elem_of_calls by exact Hc. setoid_rewrite schedule_perm.
      unfold topic_batches. setoid_rewrite list_elem_of_fmap. split.
      * intros (b & (t & -> & Hin) & ->). exists t. split; [done|]. by apply Ht.
      * intros (t & -> & Hin). exists [t]. split; [|done]. exists t. split; [done|]. by apply Ht.
  - assert (keeps same_db (refresh_topics k)) as Hk.
    { unfold refresh_topics. repeat first [apply keeps_bind; [apply _| |intros ?]
        |apply keeps_map_err, keeps_same_db_query; intros t db; done|apply keeps_ret; apply _]. }
    specialize (Hk w0). rewrite Hrun in Hk. exact Hk.
  - exfalso. revert Hrun. unfold refresh_topics, query, m_map_err, mbind, M_bind.
    destruct (env_db_fault (w_tick w0)); [done|]. cbn. by destruct (env_db_fault _).
Qed.

(** The flag is set exactly while a task runs, so at most one does. *)
Theorem renewal_single k url l : ∀ s w, operation_running s = bool_decide (is_Some (renewing s)) →
  ∀ s' w', fold_m (λ s e, renewal_event k url e s) s l w = (Ok s', w') →
  operation_running s' = bool_decide (is_Some (renewing s')).
Proof.
  induction l as [|e l IH]; intros s w Hs s' w'; cbn [fold_m]; [by intros [= <- <-]|].
  intros Hr. inv_ok Hr. eapply IH; [|exact Hr]. clear IH Hr. destruct e; cbn [renewal_event] in Hrun.
  - inv_ok Hrun. unfold attempt in Hrun0.
    destruct (relay_renewal_job k url s w) as [[s1|e|] w2] eqn:Hj; cbn in Hrun0; simplify_eq;
      unfold mret, M_ret in Hrun; simplify_eq; [|done].
    unfold relay_renewal_job in Hj. inv_ok Hj. unfold refresh_topic_subscriptions in Hj. inv_ok Hj.
    unfold mret, M_ret in Hj. simplify_eq.
    destruct (operation_running s) eqn:E; [by rewrite E|reflexivity].
  - unfold renewal_task in Hrun. destruct (renewing s) eqn:E.
    + inv_ok Hrun. unfold mret, M_ret in Hrun. by simplify_eq.
    + unfold mret, M_ret in Hrun. simplify_eq. by rewrite Hs, E.
Qed.
End renewal_proofs.
