(* ===== verification/NotifyV1.v ===== *)
(** * Sending notifications (public_http_server/handlers/notify_v1.rs, notify_v0.rs)

    A project sends a list of notifications, each to a list of accounts.  The
    response says of every account whether its subscriber was sent to, failed,
    or was not found. *)

From stdpp Require Import pretty.
From S2P Require Import Prelude RustStr Externals AccountId Errors Types RateLimit.
From S2P Require Import Database DbInvariant Jwt World Cache Registry Identity RelayError.
From S2P Require Import RelayHandlers Queue.
Open Scope Z_scope.

Record NotifyBodyNotification := mkNotifyBodyNotification {
  nb_notification_id : option string;
  nb_notification : Notification;
  nb_accounts : list AccountId;
}.

Record SendFailure := mkSendFailure { sf_account : AccountId; sf_reason : string }.

#[global] Instance SendFailure_eq_dec : EqDecision SendFailure.
Proof. solve_decision. Defined.
#[global] Program Instance SendFailure_countable : Countable SendFailure :=
  inj_countable' (λ f, (sf_account f, sf_reason f)) (λ p, mkSendFailure p.1 p.2) _.
Next Obligation. by intros []. Qed.

Record ResponseBody := mkResponseBody {
  sent : gset AccountId;
  failed : gset SendFailure;
  not_found : gset AccountId;
}.

Definition NOT_SUBSCRIBED_REASON : string := "Client is not subscribed to this notification type".
Definition RATE_LIMITED_REASON : string := "Rate limit exceeded".

Definition SUBSCRIBER_NOTIFICATION_COUNT_LIMIT : nat := 500.

Definition notify_rate_limit : Limit := mkLimit 20 1000 2.
Definition subscriber_limit : Limit := mkLimit 50 3600000 2.

(** [if let Some(redis) { token_bucket(..)? }] of the HTTP handlers. *)
Definition limit_http `{UrlOps, !Env} (st : AppState) (key : string) (l : Limit)
    : App NotifyServerError () :=
  if st_redis st then m_map_err NotifyServerError_from_rate_limit (rate_limit key l) else mret ().

Definition sqlx_http `{UrlOps} {A} (m : App SqlxError A) : App NotifyServerError A :=
  m_map_err Sqlx m.

(** [get_project_by_project_id] with its error in the handlers. *)
Definition project_or_unprocessable (e : SqlxError) : NotifyServerError :=
  match e with RowNotFound => UnprocessableEntity "Project not found" | e => Sqlx e end.

Section notify_v1.
Context `{!Ext, !UrlOps, !Env, !ValidatorOps}.
Context (st : AppState).

Definition subscriber_rate_limit_key (project_id : string) (sub : Uuid) : string :=
  "notify-v1-subscriber-" +:+ project_id +:+ ":" +:+ uuid_to_string sub.

(** The accounts of the request by their address; a later one replaces an
    earlier one with the same address. *)
Definition lookup_step {E} (table : gmap string AccountId) (account : AccountId)
    : outcome E (gmap string AccountId) :=
  address ← unwrap (get_address_from_account account);
  Ok (<[address := account]> table).

Definition chain_agnostic_lookup_table {E} (accounts : list AccountId)
    : outcome E (gmap string AccountId) := fold_outcome lookup_step ∅ accounts.

(** The subscriber under the account of the request. *)
Definition with_requested_account {E} (table : gmap string AccountId) (s : NotifySubscriberInfo)
    : outcome E NotifySubscriberInfo :=
  address ← unwrap (get_address_from_account (nsi_account s));
  account ← unwrap (table !! address);
  Ok (mkNotifySubscriberInfo (nsi_id s) account (nsi_scope s)).

Definition add_failure (r : ResponseBody) (account : AccountId) (reason : string) : ResponseBody :=
  mkResponseBody (sent r) ({[mkSendFailure account reason]} ∪ failed r) (not_found r).

(** The subscribers found, of which those with the type in their scope go on. *)
Definition check_scope (type : Uuid) (acc : ResponseBody * list (Uuid * AccountId))
    (s : NotifySubscriberInfo) : ResponseBody * list (Uuid * AccountId) :=
  let '(r, valid_subscribers) := acc in
  let account := nsi_account s in
  let r := mkResponseBody (sent r) (failed r) (not_found r ∖ {[account]}) in
  if bool_decide (type ∈ nsi_scope s)
  then (r, valid_subscribers ++ [(nsi_id s, account)])
  else (add_failure r account NOT_SUBSCRIBED_REASON, valid_subscribers).

Definition check_remaining {E} (project_id : string) (result : gmap string (Z * Z))
    (acc : ResponseBody * list (Uuid * AccountId)) (x : Uuid * AccountId)
    : outcome E (ResponseBody * list (Uuid * AccountId)) :=
  let '(r, valid_subscribers) := acc in
  '(remaining, _) ← unwrap (result !! subscriber_rate_limit_key project_id x.1);
  Ok (if remaining <? 0 then (add_failure r x.2 RATE_LIMITED_REASON, valid_subscribers)
      else (r, valid_subscribers ++ [x])).

(** The subscribers whose bucket still has a token. *)
Definition rate_limit_subscribers (project_id : string) (r : ResponseBody)
    (valid_subscribers : list (Uuid * AccountId))
    : App NotifyServerError (ResponseBody * list (Uuid * AccountId)) :=
  if st_redis st then
    result ← m_map_err RateLimit (rate_limit_many
      ((λ x, subscriber_rate_limit_key project_id x.1) <$> valid_subscribers) subscriber_limit);
    lift (fold_outcome (check_remaining project_id result) (r, []) valid_subscribers)
  else mret (r, valid_subscribers).

(** One notification of the request. *)
Definition notify_one (project_id : string) (proj : Uuid) (r : ResponseBody)
    (n : NotifyBodyNotification) : App NotifyServerError ResponseBody :=
  notification_id ← match nb_notification_id n with
                    | Some i => mret i
                    | None => u ← new_v4; mret (uuid_to_string u)
                    end;
  fresh ← new_v4;
  notif ← sqlx_http (query (λ now,
    upsert_notification now fresh notification_id proj (nb_notification n)));
  let r := mkResponseBody (sent r) (failed r) (not_found r ∪ list_to_set (nb_accounts n)) in
  table ← lift (chain_agnostic_lookup_table (nb_accounts n));
  subscribers ← sqlx_http (query (λ _, get_subscribers_for_project_in proj (nb_accounts n)));
  subscribers ← lift (map_outcome (with_requested_account table) subscribers);
  let '(r, valid_subscribers) :=
    foldl (check_scope (n_type (nwi_notification notif))) (r, []) subscribers in
  '(r, valid_subscribers) ← rate_limit_subscribers project_id r valid_subscribers;
  let r := mkResponseBody (sent r ∪ list_to_set (snd <$> valid_subscribers)) (failed r)
             (not_found r) in
  fresh ← fresh_uuids (length valid_subscribers);
  sqlx_http (query (λ now, upsert_subscriber_notifications now (nwi_id notif)
                             (zip fresh (fst <$> valid_subscribers)))) ;;
  mret r.

Definition subscriber_notification_count (body : list NotifyBodyNotification) : nat :=
  length (n ← body; nb_accounts n).

Definition handler_impl (project_id : string) (body : list NotifyBodyNotification)
    : App NotifyServerError ResponseBody :=
  limit_http st ("notify-v1-" +:+ project_id) notify_rate_limit ;;
  for_each (λ n, lift (notification_validate (nb_notification n))) body ;;
  let count := subscriber_notification_count body in
  guard_err (SUBSCRIBER_NOTIFICATION_COUNT_LIMIT <? count)%nat
    (UnprocessableEntity ("Too many notifications: " +:+ pretty count +:+ " > "
       +:+ pretty SUBSCRIBER_NOTIFICATION_COUNT_LIMIT)) ;;
  proj ← m_map_err project_or_unprocessable
           (query (λ _, get_project_by_project_id project_id));
  fold_m (notify_one project_id (pr_id proj)) (mkResponseBody ∅ ∅ ∅) body.

(** [notify_v0]: one notification. *)
Definition notify_v0 (project_id : string) (body : NotifyBodyNotification)
    : App NotifyServerError ResponseBody :=
  handler_impl project_id [body].
End notify_v1.

(** ** Weakest preconditions

    [runs R m w Q]: from [w], [m] does not panic, ends in [R] when it fails,
    and in [Q] when it succeeds. *)

Definition runs {W E A} (R : W → Prop) (m : M W E A) (w : W) (Q : A → W → Prop) : Prop :=
  match m w with (Ok a, w') => Q a w' | (Err _, w') => R w' | (Panic, _) => False end.

Section runs.
Context {W : Type} (R : W → Prop).

Lemma runs_bind {E A B} (m : M W E A) (f : A → M W E B) w Q :
  runs R m w (λ a w', runs R (f a) w' Q) → runs R (m ≫= f) w Q.
Proof. unfold runs, mbind, M_bind. by destruct (m w) as [[a|e|] w']. Qed.

Lemma runs_mono {E A} (m : M W E A) w (Q Q' : A → W → Prop) :
  runs R m w Q → (∀ a w', Q a w' → Q' a w') → runs R m w Q'.
Proof. unfold runs. destruct (m w) as [[a|e|] w']; auto. Qed.

Lemma runs_weaken {E A} (R' : W → Prop) (m : M W E A) w (Q Q' : A → W → Prop) :
  runs R' m w Q → (∀ w', R' w' → R w') → (∀ a w', Q a w' → Q' a w') → runs R m w Q'.
Proof. unfold runs. destruct (m w) as [[a|e|] w']; auto. Qed.

Lemma runs_map_err {E E' A} (g : E → E') (m : M W E A) w Q :
  runs R m w Q → runs R (m_map_err g m) w Q.
Proof. unfold runs, m_map_err. by destruct (m w) as [[a|e|] w']. Qed.

Lemma runs_lift_Ok {E A} (o : outcome E A) a w (Q : A → W → Prop) :
  o = Ok a → Q a w → runs R (lift o) w Q.
Proof. by intros ->. Qed.

Lemma runs_errs {E A} (m : M W E A) w (Q : A → W → Prop) :
  no_panic (m w).1 → R (m w).2 → (∀ a w', m w = (Ok a, w') → Q a w') → runs R m w Q.
Proof. unfold runs. destruct (m w) as [[a|e|] w']; cbn; auto. Qed.
End runs.

Lemma runs_query `{UrlOps, !Env} {A} (R : World → Prop) (q : Z → Query A) w
    (Q : A → World → Prop) :
  R (bump w) →
  (∀ t, runs (λ db, R (bump (set_w_db (λ _, db) w))) (q t) (w_db w)
          (λ a db, Q a (bump (set_w_db (λ _, db) w)))) →
  runs R (query q) w Q.
Proof.
  intros HR Hq. unfold runs, query. destruct (env_db_fault _); [exact HR|].
  specialize (Hq (env_now (w_tick w))). unfold runs in Hq.
  by destruct (q _ _) as [[a|e|] db].
Qed.

(** ** The pieces of one notification *)

Lemma script_results l now rn keys : ∀ acc k,
  k ∈ keys ∨ is_Some (acc.1 !! k) →
  is_Some ((foldl (script_step l now rn) acc keys).1 !! k).
Proof.
  induction keys as [|k0 keys IH]; intros acc k; cbn [foldl].
  - intros [Hk|?]; [by apply elem_of_nil in Hk|done].
  - intros Hk. apply IH. unfold script_step. destruct acc as [results s].
    destruct (take_token _ _ _ _) as [rs b]. cbn in *. rewrite lookup_insert.
    case_decide; [by right|]. rewrite elem_of_cons in Hk. naive_solver.
Qed.

Section notify_lemmas.
Context `{!Ext, !HashLaws, !HexLaws}.

(** The table maps each address of the request to an account with it. *)
Lemma lookup_table_run {E} accounts : Forall valid_account accounts → ∀ m,
  ∃ m', fold_outcome (lookup_step (E:=E)) m accounts = Ok m' ∧
    (∀ t a, m' !! t = Some a →
       m !! t = Some a ∨ (a ∈ accounts ∧ get_address_from_account a = Some t)) ∧
    (∀ t, is_Some (m !! t) ∨ (∃ a, a ∈ accounts ∧ get_address_from_account a = Some t) →
       is_Some (m' !! t)).
Proof.
  intros Hv. induction Hv as [|a accounts Ha Hv IH]; intros m; cbn [fold_outcome].
  - exists m. split_and!; [done|by left|]. intros t [?|(b & Hb & _)]; [done|].
    by apply elem_of_nil in Hb.
  - destruct (valid_account_lower a Ha) as (ta & Hta & _).
    assert (lookup_step (E:=E) m a = Ok (<[ta := a]> m)) as ->
      by (unfold lookup_step; by rewrite Hta).
    cbn [mbind outcome_bind].
    destruct (IH (<[ta := a]> m)) as (m' & Hm' & Hfrom & Hto). exists m'. split_and!; [exact Hm'| |].
    + intros t b Hb. destruct (Hfrom t b Hb) as [Hl|[? ?]]; [|right; split; [by right|done]].
      rewrite lookup_insert in Hl. case_decide; simplify_eq; [|by left].
      right. split; [by left|done].
    + intros t Ht. apply Hto. rewrite lookup_insert. case_decide; [by left; eexists|].
      destruct Ht as [?|(b & [->|Hb]%elem_of_cons & Hg)]; [by left|simplify_eq|right; by exists b].
Qed.

Definition info_of (db : Db) (kv : Uuid * SubscriberRow) : NotifySubscriberInfo :=
  mkNotifySubscriberInfo kv.1 (mkAccountId (s_account kv.2))
    (parse_scopes_and_ignore_invalid (scope_names kv.1 (subscriber_scope db))).

Lemma decode_rows_pure {A B} (f : A → Query B) (g : A → B) l db :
  (∀ a, a ∈ l → f a db = (Ok (g a), db)) → decode_rows f l db = (Ok (g <$> l), db).
Proof.
  induction l as [|a l IH]; intros Hf; [done|]. cbn [decode_rows]. unfold mbind, M_bind.
  rewrite Hf by left. rewrite IH by (intros b Hb; apply Hf; by right). done.
Qed.

Lemma lower_addresses_run accounts db : Forall valid_account accounts →
  lower_addresses accounts db = (Ok ((λ a, get_address_lower (account_str a)) <$> accounts), db).
Proof.
  intros Hv. apply decode_rows_pure. intros a Ha. rewrite list.Forall_forall in Hv.
  destruct (valid_account_lower a (Hv a Ha)) as (t & Ht & ->). unfold mbind, M_bind, lift.
  by rewrite Ht.
Qed.

(** The subscribers of a project with an address of the request. *)
Definition wanted (db : Db) (proj : Uuid) (accounts : list AccountId)
    : list (Uuid * SubscriberRow) :=
  select (λ _ s, bool_decide (s_project s = proj) &&
    address_in (s_account s) ((λ a, get_address_lower (account_str a)) <$> accounts))
    (subscriber db).

Lemma subscribers_run proj accounts db :
  typed_db db → Forall valid_account accounts →
  get_subscribers_for_project_in proj accounts db =
    (Ok (info_of db <$> wanted db proj accounts), db).
Proof.
  intros Ht Hv. unfold get_subscribers_for_project_in.
  erewrite bind_Ok by (by apply lower_addresses_run). rewrite bind_gets. unfold id, wanted.
  apply decode_rows_pure. intros [i s] [Hi _]%elem_of_select.
  unfold decode_account, mbind, M_bind, lift. cbn [fst snd].
  destruct (ty_subscriber _ Ht i s Hi) as [Hs _].
  assert (try_from_account (s_account s) = Ok (mkAccountId (s_account s))) as ->
    by (by apply try_from_account_Ok).
  done.
Qed.

Lemma elem_of_wanted db proj accounts i s :
  typed_db db → Forall valid_account accounts →
  (i, s) ∈ wanted db proj accounts ↔
  subscriber db !! i = Some s ∧ s_project s = proj ∧
  ∃ a, a ∈ accounts ∧
    get_address_from_account (mkAccountId (s_account s)) = get_address_from_account a.
Proof.
  intros Ht Hv. unfold wanted. rewrite elem_of_select, andb_true_iff. unfold address_in.
  rewrite !bool_decide_eq_true, list_elem_of_fmap. rewrite list.Forall_forall in Hv.
  assert (∀ a, subscriber db !! i = Some s → a ∈ accounts →
    get_address_lower (s_account s) = get_address_lower (account_str a) ↔
    get_address_from_account (mkAccountId (s_account s)) = get_address_from_account a) as Hsame.
  { intros a Hi Ha. destruct (ty_subscriber _ Ht i s Hi) as [Hs _].
    apply (valid_same_address (mkAccountId (s_account s))); [done|by apply Hv]. }
  naive_solver.
Qed.

(** The account of the request a subscriber is reported under. *)
Definition requested_account (table : gmap string AccountId) (s : NotifySubscriberInfo)
    : AccountId :=
  default (nsi_account s) (t ← get_address_from_account (nsi_account s); table !! t).

Definition rename (table : gmap string AccountId) (s : NotifySubscriberInfo)
    : NotifySubscriberInfo :=
  mkNotifySubscriberInfo (nsi_id s) (requested_account table s) (nsi_scope s).

Lemma map_outcome_pure {E A B} (f : A → outcome E B) (g : A → B) l :
  (∀ a, a ∈ l → f a = Ok (g a)) → map_outcome f l = Ok (g <$> l).
Proof.
  induction l as [|a l IH]; intros Hf; [done|]. cbn [map_outcome].
  rewrite Hf by left. rewrite IH by (intros b Hb; apply Hf; by right). done.
Qed.

(** What the loop over the subscribers does. *)
Definition accounts_of (l : list NotifySubscriberInfo) : gset AccountId :=
  list_to_set (nsi_account <$> l).
Definition failures (reason : string) (l : list AccountId) : gset SendFailure :=
  list_to_set ((λ a, mkSendFailure a reason) <$> l).

Lemma check_scope_all type subs : ∀ r valid,
  foldl (check_scope type) (r, valid) subs =
    (mkResponseBody (sent r)
       (failures NOT_SUBSCRIBED_REASON (nsi_account <$> filter (λ s, type ∉ nsi_scope s) subs)
          ∪ failed r)
       (not_found r ∖ accounts_of subs),
     valid ++ ((λ s, (nsi_id s, nsi_account s)) <$> filter (λ s, type ∈ nsi_scope s) subs)).
Proof.
  induction subs as [|s subs IH]; intros r valid; cbn [foldl].
  - cbn. rewrite app_nil_r. destruct r as [se fa nf]. cbn. f_equal. f_equal; set_solver.
  - unfold check_scope at 2. destruct (decide (type ∈ nsi_scope s)) as [Hs|Hs].
    + rewrite bool_decide_true, IH by done. rewrite !filter_cons. rewrite decide_False by tauto.
      rewrite (decide_True _ _ Hs). cbn. rewrite <-app_assoc. f_equal. f_equal. set_solver.
    + rewrite bool_decide_false, IH by done. rewrite !filter_cons. rewrite decide_True by done.
      rewrite (decide_False _ _ Hs). cbn. f_equal. f_equal; set_solver.
Qed.

Definition limited (project_id : string) (result : gmap string (Z * Z)) (x : Uuid * AccountId)
    : Prop :=
  ∃ remaining reset, result !! subscriber_rate_limit_key project_id x.1 = Some (remaining, reset) ∧
    remaining < 0.
#[local] Instance limited_dec project_id result x : Decision (limited project_id result x).
Proof.
  destruct (result !! subscriber_rate_limit_key project_id x.1) as [[rem rst]|] eqn:E.
  - destruct (decide (rem < 0)) as [Hl|Hl]; [left; by exists rem, rst|right].
    intros (?&?&?&?). simplify_eq. lia.
  - right. intros (?&?&?&?). congruence.
Defined.

Lemma check_remaining_all {E} project_id result l : ∀ r acc,
  (∀ x, x ∈ l → is_Some (result !! subscriber_rate_limit_key project_id x.1)) →
  fold_outcome (check_remaining (E:=E) project_id result) (r, acc) l =
    Ok (mkResponseBody (sent r)
          (failures RATE_LIMITED_REASON (snd <$> filter (limited project_id result) l) ∪ failed r)
          (not_found r),
        acc ++ filter (λ x, ¬ limited project_id result x) l).
Proof.
  induction l as [|x l IH]; intros r acc Hk; cbn [fold_outcome].
  - cbn. rewrite app_nil_r. destruct r as [se fa nf]. cbn. f_equal. f_equal. f_equal. set_solver.
  - assert (is_Some (result !! subscriber_rate_limit_key project_id x.1)) as [[rem rst] Hx]
      by (apply Hk; left).
    assert (check_remaining (E:=E) project_id result (r, acc) x =
      Ok (if rem <? 0 then (add_failure r x.2 RATE_LIMITED_REASON, acc) else (r, acc ++ [x])))
      as -> by (unfold check_remaining; by rewrite Hx).
    cbn [mbind outcome_bind]. rewrite !filter_cons. destruct (Z.ltb_spec rem 0) as [Hl|Hl].
    + assert (limited project_id result x) as Hlim by (by exists rem, rst).
      rewrite IH by (intros y Hy; apply Hk; by right).
      rewrite (decide_True _ _ Hlim), decide_False by tauto. cbn. f_equal. f_equal. f_equal.
      unfold failures. cbn. set_solver.
    + assert (¬ limited project_id result x) as Hlim
        by (intros (?&?&?&?); simplify_eq; lia).
      rewrite IH by (intros y Hy; apply Hk; by right).
      rewrite (decide_False _ _ Hlim), decide_True by done. by rewrite <-app_assoc.
Qed.
End notify_lemmas.

(** ** The rows of a notification *)

Section rows.
Context `{!Ext}.

Definition queued_row (now : Z) (notif sub : Uuid) : SubscriberNotificationRow :=
  mkSubscriberNotificationRow notif sub Queued now now false.

(** The queue after the rows of some subscribers were upserted. *)
Record rows_added (now : Z) (notif : Uuid) (subs : list Uuid) (db db' : Db) : Prop := {
  ra_same : same_tables db db';
  ra_old i r : rows db !! i = Some r → rows db' !! i = Some r;
  ra_new i r : rows db' !! i = Some r →
    rows db !! i = Some r ∨ ∃ s, s ∈ subs ∧ r = queued_row now notif s;
  ra_all s : s ∈ subs → ∃ i r, rows db' !! i = Some r ∧ sn_notification r = notif ∧ sn_subscriber r = s;
}.

Lemma insert_row_runs now notif fresh sub db :
  runs (λ _, True) (insert_subscriber_notification now notif (fresh, sub)) db
    (λ _ db', rows_added now notif [sub] db db').
Proof.
  unfold insert_subscriber_notification. apply runs_bind. unfold runs at 1, gets, id.
  destruct (find_by _ _ _) as [[i r]|] eqn:Hf.
  - apply find_by_Some in Hf as [Hi Hf]. simplify_eq. cbn. split; [done|done|by left|].
    intros s ->%list_elem_of_singleton. by exists i, r.
  - apply runs_bind. destruct (rows db !! fresh) as [r|] eqn:Hr; cbn; [done|].
    apply runs_bind. unfold check_fk. destruct (notification db !! notif); cbn; [|done].
    apply runs_bind. destruct (subscriber db !! sub); cbn; [|done].
    split; [done| | |].
    + intros i r Hi. cbn. rewrite lookup_insert_ne; [done|]. intros <-. congruence.
    + intros i r. cbn. rewrite lookup_insert. case_decide; [|by left].
      intros [= <-]. right. exists sub. split; [by left|done].
    + intros sub' ->%list_elem_of_singleton. cbn. eexists fresh, _. rewrite lookup_insert_eq.
      split; [done|]. done.
Qed.

Lemma insert_rows_runs now notif l : ∀ db,
  runs (λ _, True) (for_each (insert_subscriber_notification now notif) l) db
    (λ _ db', rows_added now notif l.*2 db db').
Proof.
  induction l as [|[fresh sub] l IH]; intros db; cbn [for_each].
  - split; [done|done|by left|]. intros s Hs. by apply elem_of_nil in Hs.
  - apply runs_bind. eapply runs_mono; [apply insert_row_runs|]. intros [] db1 Hone.
    eapply runs_mono; [apply IH|]. intros [] db2 Htwo. split.
    + etrans; [apply Hone|apply Htwo].
    + intros i r Hi. by apply Htwo, Hone.
    + intros i r [Hi|(s & Hs & ->)]%(ra_new _ _ _ _ _ Htwo).
      * apply Hone in Hi as [Hi|(s & ->%list_elem_of_singleton & ->)]; [by left|right].
        exists sub. split; [by left|done].
      * right. exists s. split; [by right|done].
    + intros s [->|Hs]%elem_of_cons; [|by apply Htwo].
      destruct (ra_all _ _ _ _ _ Hone sub) as (i & r & Hi & Hr); [by left|].
      exists i, r. split; [by apply Htwo|done].
Qed.

Lemma upsert_rows_runs now notif l db :
  runs (λ db', db' = db) (upsert_subscriber_notifications now notif l) db
    (λ _ db', rows_added now notif l.*2 db db').
Proof.
  pose proof (insert_rows_runs now notif l db) as Hr.
  unfold upsert_subscriber_notifications, transaction, runs in *.
  by destruct (for_each _ _ _) as [[[]|e|] db'].
Qed.

(** The notification of the request: an earlier one with the same id stays. *)
Lemma upsert_notification_runs now fresh nid proj n db :
  runs (λ db', db' = db) (upsert_notification now fresh nid proj n) db
    (λ notif db', same_typed db db' ∧ rows db' = rows db ∧
       ∃ nt, notification db' !! nwi_id notif = Some nt ∧ nt_project nt = proj ∧
         nt_notification_id nt = nid ∧ nt_content nt = nwi_notification notif).
Proof.
  unfold upsert_notification. apply runs_bind. unfold check_lengths, guard_err.
  destruct (negb _); [done|]. cbn [runs mret M_ret]. apply runs_bind. unfold runs at 1, gets, id.
  destruct (find_by _ _ _) as [[i r]|] eqn:Hf.
  - apply find_by_Some in Hf as [Hi Hf]. simplify_eq. cbn. split_and!; [done|done|]. by exists r.
  - apply runs_bind. destruct (notification db !! fresh) as [r|]; cbn; [done|].
    apply runs_bind. unfold check_fk. destruct (project db !! proj); cbn; [|done].
    split_and!; [done|done|]. eexists. split; [apply lookup_insert_eq|done].
Qed.
End rows.

(** ** What the response says *)

Section response.
Context `{!Ext, !HashLaws, !HexLaws, !UrlOps, !Env, !ValidatorOps}.
Context (st : AppState).

Lemma runs_rate_limit_many (R : World → Prop) keys l w Q :
  (∀ w', w_db w' = w_db w → R w') →
  (∀ results w', w_db w' = w_db w → (∀ k, k ∈ keys → is_Some (results !! k)) → Q results w') →
  runs R (rate_limit_many keys l) w Q.
Proof.
  intros HR HQ. unfold runs, rate_limit_many, token_bucket_many.
  destruct (rc_fault _); [by apply HR|]. unfold token_bucket_script.
  rewrite (surjective_pairing (foldl _ _ _)). apply HQ; [done|]. intros k Hin.
  apply script_results. by left.
Qed.

(** Some of the subscribers are refused, if there is a rate limiter. *)
Lemma runs_rate_limit_subscribers (R : World → Prop) project_id r valid w Q :
  (∀ w', w_db w' = w_db w → R w') →
  (∀ P (HP : ∀ x : Uuid * AccountId, Decision (P x)) w', w_db w' = w_db w →
     Q (mkResponseBody (sent r) (failures RATE_LIMITED_REASON (snd <$> filter P valid) ∪ failed r)
          (not_found r), filter (λ x, ¬ P x) valid) w') →
  runs R (rate_limit_subscribers st project_id r valid) w Q.
Proof.
  intros HR HQ. unfold rate_limit_subscribers. destruct (st_redis st).
  - apply runs_bind, runs_map_err, runs_rate_limit_many; [exact HR|]. intros results w1 Hw1 Hk.
    eapply runs_lift_Ok; [apply (check_remaining_all project_id results)|].
    + intros x Hx. apply Hk, list_elem_of_fmap. by exists x.
    + by apply HQ.
  - unfold runs, mret, M_ret.
    specialize (HQ (λ _, False) (λ _, right (λ f, f)) w eq_refl).
    rewrite (filter_all_false (λ _ : Uuid * AccountId, False)),
      (filter_all_true (λ _ : Uuid * AccountId, ¬ False)) in HQ.
    + destruct r as [se fa nf]. cbn in HQ. unfold failures in HQ. cbn in HQ.
      by rewrite (left_id_L ∅ (∪)) in HQ.
    + apply list.Forall_forall. tauto.
    + apply list.Forall_forall. tauto.
Qed.

(** The subscriber [i] of a project has the address of [a]. *)
Definition subscribed_as (db : Db) (proj i : Uuid) (a : AccountId) : Prop :=
  ∃ s, subscriber db !! i = Some s ∧ s_project s = proj ∧
    get_address_from_account (mkAccountId (s_account s)) = get_address_from_account a.

Definition scope_of (db : Db) (i : Uuid) : gset Uuid :=
  parse_scopes_and_ignore_invalid (scope_names i (subscriber_scope db)).

(** The subscribers found, under the accounts of the request. *)
Definition infos (table : gmap string AccountId) (db : Db) (proj : Uuid)
    (accounts : list AccountId) : list NotifySubscriberInfo :=
  rename table <$> (info_of db <$> wanted db proj accounts).

Section infos.
Context (db : Db) (proj : Uuid) (accounts : list AccountId) (table : gmap string AccountId).
Context (Hwf : unique_by (λ s, (s_project s, get_address_lower (s_account s))) (subscriber db)).
Context (Ht : typed_db db) (Hv : Forall valid_account accounts).
Context (Htable : chain_agnostic_lookup_table (E:=NotifyServerError) accounts = Ok table).

Lemma table_spec :
  (∀ t a, table !! t = Some a → a ∈ accounts ∧ get_address_from_account a = Some t) ∧
  (∀ t a, a ∈ accounts → get_address_from_account a = Some t → is_Some (table !! t)).
Proof using Hv Htable.
  destruct (lookup_table_run (E:=NotifyServerError) accounts Hv ∅) as (m & Hm & Hfrom & Hto).
  unfold chain_agnostic_lookup_table in Htable. rewrite Hm in Htable. injection Htable as ->.
  split.
  - intros t a Hta. destruct (Hfrom t a Hta) as [He|?]; [|done]. by rewrite lookup_empty in He.
  - intros t a Ha Hta. apply Hto. right. by exists a.
Qed.

(** The account a found subscriber is reported under. *)
Lemma wanted_account i s : (i, s) ∈ wanted db proj accounts →
  ∃ a t, a ∈ accounts ∧ get_address_from_account a = Some t ∧ table !! t = Some a ∧
    get_address_from_account (mkAccountId (s_account s)) = Some t ∧
    requested_account table (info_of db (i, s)) = a.
Proof using Ht Hv Htable.
  destruct table_spec as [Hfrom Hto].
  intros (Hi & _ & b & Hb & Hsame)%elem_of_wanted; [|done..].
  rewrite list.Forall_forall in Hv. destruct (valid_account_lower b (Hv b Hb)) as (t & Hbt & _).
  destruct (Hto t b Hb Hbt) as [a Ha]. destruct (Hfrom t a Ha) as [Hain Hat].
  exists a, t. split_and!; [done..|congruence|].
  unfold requested_account, info_of. cbn [nsi_account snd]. rewrite Hsame, Hbt. cbn.
  by rewrite Ha.
Qed.

Lemma infos_run :
  map_outcome (with_requested_account (E:=NotifyServerError) table)
    (info_of db <$> wanted db proj accounts) = Ok (infos table db proj accounts).
Proof using Ht Hv Htable.
  apply map_outcome_pure. intros x ([i s] & -> & Hin)%list_elem_of_fmap.
  destruct (wanted_account i s Hin) as (a & t & _ & _ & Ha & Hs & Hr).
  unfold with_requested_account, rename. rewrite Hr. cbn [nsi_account info_of snd].
  by rewrite Hs; cbn; rewrite Ha.
Qed.

Lemma elem_of_infos x : x ∈ infos table db proj accounts →
  nsi_account x ∈ accounts ∧ subscribed_as db proj (nsi_id x) (nsi_account x) ∧
  nsi_scope x = scope_of db (nsi_id x).
Proof using Ht Hv Htable.
  unfold infos. rewrite <-list_fmap_compose. intros ([i s] & -> & Hin)%list_elem_of_fmap.
  destruct (wanted_account i s Hin) as (a & t & Ha & Hat & _ & Hs & Hr).
  apply elem_of_wanted in Hin as (Hi & Hp & _); [|done..].
  cbn [compose]. unfold rename. rewrite Hr. cbn [nsi_account nsi_id nsi_scope].
  split_and!; [done| |done].
  exists s. split_and!; [done|done|congruence].
Qed.

Lemma infos_complete i a : a ∈ accounts → subscribed_as db proj i a →
  ∃ x, x ∈ infos table db proj accounts ∧ nsi_id x = i ∧
    get_address_from_account (nsi_account x) = get_address_from_account a.
Proof using Ht Hv Htable.
  intros Ha (s & Hi & Hp & Hsame).
  assert ((i, s) ∈ wanted db proj accounts) as Hin by (apply elem_of_wanted; [done..|]; naive_solver).
  destruct (wanted_account i s Hin) as (b & t & Hb & Hbt & _ & Hs & Hr).
  exists (rename table (info_of db (i, s))). split_and!; [|done|].
  - unfold infos. rewrite <-list_fmap_compose. apply list_elem_of_fmap. by exists (i, s).
  - unfold rename. rewrite Hr. cbn [nsi_account]. congruence.
Qed.

Lemma infos_inj x y : x ∈ infos table db proj accounts → y ∈ infos table db proj accounts →
  nsi_account x = nsi_account y → x = y.
Proof using Hwf Ht Hv Htable.
  unfold infos. rewrite <-!list_fmap_compose.
  intros ([i s] & -> & Hin)%list_elem_of_fmap ([j r] & -> & Hjn)%list_elem_of_fmap.
  destruct (wanted_account i s Hin) as (a & t & Ha & Hat & _ & Hs & Hr).
  destruct (wanted_account j r Hjn) as (b & u & Hb & Hbu & _ & Hs' & Hr').
  cbn [compose]. unfold rename. rewrite Hr, Hr'. cbn [nsi_account]. intros ->.
  apply elem_of_wanted in Hin as (Hi & Hp & _); [|done..].
  apply elem_of_wanted in Hjn as (Hj & Hq & _); [|done..].
  destruct (ty_subscriber _ Ht i s Hi) as [Hvs _]. destruct (ty_subscriber _ Ht j r Hj) as [Hvr _].
  assert (i = j) as <-; [|by simplify_eq].
  apply (Hwf i j s r Hi Hj). f_equal; [congruence|].
  apply (valid_same_address (mkAccountId (s_account s)) (mkAccountId (s_account r))); [done..|].
  congruence.
Qed.
End infos.

(** The response of a request with one notification, from the subscribers found. *)
Definition failed_account (r : ResponseBody) (a : AccountId) : Prop :=
  ∃ reason, mkSendFailure a reason ∈ failed r.

Lemma elem_of_failures a reason reason' l :
  mkSendFailure a reason ∈ failures reason' l ↔ reason = reason' ∧ a ∈ l.
Proof.
  unfold failures. rewrite elem_of_list_to_set, list_elem_of_fmap. split.
  - intros (b & [= -> ->] & ?). done.
  - intros [-> ?]. by exists a.
Qed.

Section outcome.
Context (accounts : list AccountId) (l : list NotifySubscriberInfo) (type : Uuid).
Context (P : Uuid * AccountId → Prop) `{HP : ∀ x, Decision (P x)}.
Context (Hin : ∀ x, x ∈ l → nsi_account x ∈ accounts).
Context (Hinj : ∀ x y, x ∈ l → y ∈ l → nsi_account x = nsi_account y → x = y).

Definition in_scope : list (Uuid * AccountId) :=
  (λ s, (nsi_id s, nsi_account s)) <$> filter (λ s, type ∈ nsi_scope s) l.

(** What [notify_one] returns when it starts from the empty response. *)
Definition result_body : ResponseBody :=
  mkResponseBody (list_to_set (snd <$> filter (λ x, ¬ P x) in_scope))
    (failures RATE_LIMITED_REASON (snd <$> filter P in_scope) ∪
     failures NOT_SUBSCRIBED_REASON (nsi_account <$> filter (λ s, type ∉ nsi_scope s) l))
    (list_to_set accounts ∖ accounts_of l).

Lemma result_sent a : a ∈ sent result_body ↔
  ∃ x, x ∈ l ∧ nsi_account x = a ∧ type ∈ nsi_scope x ∧ ¬ P (nsi_id x, a).
Proof.
  cbn. rewrite elem_of_list_to_set. unfold in_scope. split.
  - intros ([i b] & -> & [Hp Hx]%list_elem_of_filter)%list_elem_of_fmap.
    apply list_elem_of_fmap in Hx as (x & [= -> ->] & [Hx Hl]%list_elem_of_filter). by exists x.
  - intros (x & Hl & <- & Hx & Hp). apply list_elem_of_fmap. exists (nsi_id x, nsi_account x).
    split; [done|]. apply list_elem_of_filter. split; [done|].
    apply list_elem_of_fmap. exists x. split; [done|]. by apply list_elem_of_filter.
Qed.

Lemma result_failed a : failed_account result_body a ↔
  ∃ x, x ∈ l ∧ nsi_account x = a ∧ (type ∉ nsi_scope x ∨ P (nsi_id x, a)).
Proof.
  unfold failed_account. cbn. setoid_rewrite elem_of_union. setoid_rewrite elem_of_failures.
  unfold in_scope. split.
  - intros (reason & [[_ Ha]|[_ Ha]]).
    + apply list_elem_of_fmap in Ha as ([i b] & -> & [Hp Hx]%list_elem_of_filter).
      apply list_elem_of_fmap in Hx as (x & [= -> ->] & [Hx Hl]%list_elem_of_filter).
      exists x. split_and!; [done|done|by right].
    + apply list_elem_of_fmap in Ha as (x & -> & [Hx Hl]%list_elem_of_filter).
      exists x. split_and!; [done|done|by left].
  - intros (x & Hl & <- & Hx). destruct (decide (type ∈ nsi_scope x)) as [Hs|Hs].
    + destruct Hx as [Hx|Hx]; [done|]. exists RATE_LIMITED_REASON. left. split; [done|].
      apply list_elem_of_fmap. exists (nsi_id x, nsi_account x). split; [done|].
      apply list_elem_of_filter. split; [done|]. apply list_elem_of_fmap. exists x.
      split; [done|]. by apply list_elem_of_filter.
    + exists NOT_SUBSCRIBED_REASON. right. split; [done|]. apply list_elem_of_fmap. exists x.
      split; [done|]. by apply list_elem_of_filter.
Qed.

Lemma result_not_found a : a ∈ not_found result_body ↔
  a ∈ accounts ∧ ¬ ∃ x, x ∈ l ∧ nsi_account x = a.
Proof.
  cbn. unfold accounts_of. rewrite elem_of_difference, !elem_of_list_to_set, list_elem_of_fmap.
  naive_solver.
Qed.

(** Every account of the request is in exactly one of the three. *)
Lemma result_partition a :
  (a ∈ accounts ↔ a ∈ sent result_body ∨ failed_account result_body a ∨ a ∈ not_found result_body) ∧
  (a ∈ sent result_body → ¬ failed_account result_body a ∧ (a ∉ not_found result_body)) ∧
  (failed_account result_body a → (a ∉ not_found result_body)).
Proof using Hin Hinj.
  rewrite result_sent, result_failed, result_not_found. split_and!.
  - split; [|naive_solver]. intros Ha.
    destruct (decide (a ∈ nsi_account <$> l)) as [Hl|Hl].
    + apply list_elem_of_fmap in Hl as (x & -> & Hl).
      destruct (decide (type ∈ nsi_scope x)); [|right; left; naive_solver].
      destruct (decide (P (nsi_id x, nsi_account x))); naive_solver.
    + right; right. split; [done|]. intros (x & Hx & <-). apply Hl, list_elem_of_fmap. by exists x.
  - intros (x & Hx & <- & Hs & Hp). split; [|naive_solver]. intros (y & Hy & Heq & Hd).
    assert (y = x) as -> by auto. naive_solver.
  - naive_solver.
Qed.
End outcome.

Lemma runs_limit_http (R : World → Prop) key lim w Q :
  (∀ w', w_db w' = w_db w → R w') → (∀ w', w_db w' = w_db w → Q () w') →
  runs R (limit_http st key lim) w Q.
Proof.
  intros HR HQ. unfold limit_http. destruct (st_redis st); [|by apply HQ].
  apply runs_map_err. unfold runs, rate_limit. rewrite token_bucket_run.
  destruct (rc_fault _); [by apply HR|]. destruct (take_token _ _ _ _) as [[rem rst] b].
  cbn [fst snd]. destruct (rem <? 0); [by apply HR|by apply HQ].
Qed.

Lemma project_runs project_id db :
  runs (λ db', db' = db) (get_project_by_project_id project_id) db
    (λ pr db', db' = db ∧ ∃ p, project db !! pr_id pr = Some p ∧ p_project_id p = project_id).
Proof.
  unfold get_project_by_project_id, select_project. apply runs_bind. unfold runs at 1, gets.
  apply runs_bind. unfold fetch_one.
  destruct (select _ _) as [|[proj p] ps] eqn:Hsel; [done|]. cbn. split; [done|]. exists p.
  assert ((proj, p) ∈ select (λ _ p, bool_decide (p_project_id p = project_id)) (project db))
    as [Hp Hid%bool_decide_eq_true]%elem_of_select by (rewrite Hsel; left).
  done.
Qed.

(** The response once a notification to [l] with result [r] is added to [r0]. *)
Definition response_after (r0 : ResponseBody) (accounts : list AccountId)
    (l : list NotifySubscriberInfo) (r : ResponseBody) : ResponseBody :=
  mkResponseBody (sent r0 ∪ sent r) (failed r ∪ failed r0)
    ((not_found r0 ∪ list_to_set accounts) ∖ accounts_of l).

Lemma response_after_empty accounts l type P `{!∀ x, Decision (P x)} :
  response_after (mkResponseBody ∅ ∅ ∅) accounts l (result_body accounts l type P) =
  result_body accounts l type P.
Proof. unfold response_after, result_body. cbn [sent failed not_found]. f_equal; set_solver. Qed.

(** How one notification ends: with the queue as it was, or with rows for
    exactly the subscribers it reports as sent to. *)
Definition notified_from (r0 : ResponseBody) (db : Db) (proj : Uuid) (accounts : list AccountId)
    (r : ResponseBody) (w' : World) : Prop :=
  ∃ table notif nt l P (HP : ∀ x : Uuid * AccountId, Decision (P x)) now db1,
    chain_agnostic_lookup_table (E:=NotifyServerError) accounts = Ok table ∧
    l = infos table db proj accounts ∧
    notification db1 !! notif = Some nt ∧ nt_project nt = proj ∧ rows db1 = rows db ∧
    r = response_after r0 accounts l (result_body accounts l (n_type (nt_content nt)) P) ∧
    rows_added now notif (fst <$> filter (λ x, ¬ P x) (in_scope l (n_type (nt_content nt))))
      db1 (w_db w').

Definition notified : Db → Uuid → list AccountId → ResponseBody → World → Prop :=
  notified_from (mkResponseBody ∅ ∅ ∅).

Lemma infos_same db db' table proj accounts :
  same_typed db db' → infos table db' proj accounts = infos table db proj accounts.
Proof.
  intros (_ & Hs & _ & Hsc). unfold infos, wanted. rewrite Hs. f_equal.
  apply list_fmap_ext. intros i x _. unfold info_of. by rewrite Hsc.
Qed.

Lemma notify_one_runs project_id proj r0 n w (R : World → Prop) :
  typed_db (w_db w) → Forall valid_account (nb_accounts n) →
  (∀ w', rows (w_db w') = rows (w_db w) → R w') →
  runs R (notify_one st project_id proj r0 n) w
    (notified_from r0 (w_db w) proj (nb_accounts n)).
Proof.
  intros Ht Hv HR. unfold notify_one. apply runs_bind.
  assert (∀ Q : string → World → Prop, (∀ s w', w_db w' = w_db w → Q s w') →
    runs R (match nb_notification_id n with Some i => mret i
            | None => (u ← new_v4 (E:=NotifyServerError); mret (uuid_to_string u)) end) w Q) as Hid.
  { intros Q HQ. destruct (nb_notification_id n); by apply HQ. }
  apply Hid. clear Hid. intros nid w1 Hw1. apply runs_bind. unfold runs at 1, new_v4, ask.
  apply runs_bind, runs_map_err, runs_query; [apply HR; cbn; congruence|]. intros now.
  eapply runs_mono; [|intros a db' Ha; exact Ha]. cbn [w_db bump]. rewrite Hw1.
  pose proof (upsert_notification_runs now (env_uuid (w_tick w1) 0) nid proj (nb_notification n)
    (w_db w)) as Hu.
  unfold runs in Hu |- *. destruct (upsert_notification _ _ _ _ _ _) as [[notif|e|] db1];
    [|apply HR; cbn; congruence|done].
  destruct Hu as (Hst & Hrows & nt & Hnt & Hproj & _ & Hc). rewrite <-Hc.
  assert (typed_db db1) as Ht1 by (by eapply same_typed_typed).
  destruct (lookup_table_run (E:=NotifyServerError) (nb_accounts n) Hv ∅) as (table & Htab & _ & _).
  apply runs_bind. eapply runs_lift_Ok; [exact Htab|].
  apply runs_bind, runs_map_err, runs_query; [by apply HR|]. intros now2. unfold runs at 1.
  cbn [w_db bump set_w_db]. rewrite subscribers_run by done.
  apply runs_bind. eapply runs_lift_Ok; [by apply infos_run|].
  rewrite check_scope_all. apply runs_bind, runs_rate_limit_subscribers.
  { intros w' Hw'. apply HR. by rewrite Hw'. }
  intros P HP w2 Hw2. cbn [w_db bump set_w_db] in Hw2. apply runs_bind. unfold runs at 1, fresh_uuids, ask.
  apply runs_bind, runs_map_err, runs_query.
  { apply HR. cbn. by rewrite Hw2. }
  intros now3. cbn [w_db bump]. rewrite Hw2.
  match goal with |- context [upsert_subscriber_notifications _ _ ?rs] => set (rws := rs) end.
  pose proof (upsert_rows_runs now3 (nwi_id notif) rws db1) as Hadd.
  unfold runs in Hadd |- *. destruct (upsert_subscriber_notifications _ _ _ _) as [[[]|e|] db2];
    [|apply HR; cbn; by subst|done].
  exists table, (nwi_id notif), nt, (infos table (w_db w) proj (nb_accounts n)), P, HP, now3, db1.
  rewrite (infos_same _ _ _ _ _ Hst). split_and!; try done.
  - unfold response_after, result_body. cbn [sent failed not_found]. f_equal; set_solver.
  - revert Hadd. cbn [w_db bump set_w_db]. subst rws.
    rewrite (infos_same _ _ _ _ _ Hst), snd_zip; [done|].
    rewrite !length_fmap, length_seq. lia.
Qed.

(** What a successful response means for the database before and after. *)
Definition truthful (db db' : Db) (project_id : string) (accounts : list AccountId)
    (r : ResponseBody) : Prop :=
  ∃ proj p notif nt, let receives i a :=
      subscribed_as db proj i a ∧ n_type (nt_content nt) ∈ scope_of db i in
    project db !! proj = Some p ∧ p_project_id p = project_id ∧ nt_project nt = proj ∧
    notification db' !! notif = Some nt ∧
    (∀ a, a ∈ sent r → ∃ k row, rows db' !! k = Some row ∧ sn_notification row = notif ∧
       receives (sn_subscriber row) a) ∧
    (∀ k row, rows db' !! k = Some row → rows db !! k = Some row ∨
       sn_notification row = notif ∧ sn_status row = Queued ∧
       ∃ a, a ∈ sent r ∧ receives (sn_subscriber row) a) ∧
    (∀ i a, a ∈ accounts → subscribed_as db proj i a → a ∈ not_found r →
       ∃ b, b ∈ accounts ∧ (b ∉ not_found r) ∧
         get_address_from_account b = get_address_from_account a).

Lemma notified_truthful db p proj accounts r w' :
  wf_db db → typed_db db → Forall valid_account accounts →
  project db !! proj = Some p →
  notified db proj accounts r w' →
  (∀ a, (a ∈ accounts ↔ a ∈ sent r ∨ failed_account r a ∨ a ∈ not_found r) ∧
     (a ∈ sent r → ¬ failed_account r a ∧ (a ∉ not_found r)) ∧
     (failed_account r a → (a ∉ not_found r))) ∧
  truthful db (w_db w') (p_project_id p) accounts r.
Proof.
  intros Hwf Ht Hv Hp (table & notif & nt & l & P & HP & now & db1 & Htab & -> & Hnt & Hproj & Hrows & Hr & Hadd).
  rewrite response_after_empty in Hr. subst r.
  assert (∀ x, x ∈ infos table db proj accounts → nsi_account x ∈ accounts ∧
    subscribed_as db proj (nsi_id x) (nsi_account x) ∧ nsi_scope x = scope_of db (nsi_id x)) as Hx
    by (intros x; by apply elem_of_infos).
  split; [intros a; apply result_partition|].
  - intros x Hin. by apply Hx.
  - intros x y. apply infos_inj; [apply Hwf|done..].
  - assert (∀ i, i ∈ (filter (λ x, ¬ P x) (in_scope (infos table db proj accounts)
        (n_type (nt_content nt)))).*1 ↔
      ∃ x, x ∈ infos table db proj accounts ∧ nsi_id x = i ∧
        n_type (nt_content nt) ∈ nsi_scope x ∧ ¬ P (i, nsi_account x)) as Hrec.
    { intros i. unfold in_scope. rewrite list_elem_of_fmap. split.
      - intros ([j b] & -> & [HPx Hin]%list_elem_of_filter).
        apply list_elem_of_fmap in Hin as (x & [= -> ->] & [Hs Hin]%list_elem_of_filter). by exists x.
      - intros (x & Hin & <- & Hs & HPx). exists (nsi_id x, nsi_account x). split; [done|].
        apply list_elem_of_filter. split; [done|]. apply list_elem_of_fmap. exists x.
        split; [done|]. by apply list_elem_of_filter. }
    assert (∀ x, x ∈ infos table db proj accounts → n_type (nt_content nt) ∈ nsi_scope x →
      subscribed_as db proj (nsi_id x) (nsi_account x) ∧
      n_type (nt_content nt) ∈ scope_of db (nsi_id x)) as Hreceives.
    { intros x Hin Hs. destruct (Hx x Hin) as (_ & Hsub & Hsc). by rewrite <-Hsc. }
    exists proj, p, notif, nt. split_and!; [done..| | | |].
    + destruct (ra_same _ _ _ _ _ Hadd) as (_ & -> & _). done.
    + intros a (x & Hin & <- & Hs & HPx)%result_sent.
      destruct (ra_all _ _ _ _ _ Hadd (nsi_id x)) as (k & row & Hk & Hn & Hsub).
      { apply Hrec. by exists x. }
      exists k, row. rewrite Hsub. split_and!; [done|done|by apply Hreceives..].
    + intros k row [Hk|(i & Hi & ->)]%(ra_new _ _ _ _ _ Hadd); [left; congruence|right].
      split_and!; [done|done|]. apply Hrec in Hi as (x & Hin & <- & Hs & HPx).
      exists (nsi_account x). split; [apply result_sent; by exists x|by apply Hreceives].
    + intros i a Ha Hsub Hnf.
      destruct (infos_complete db proj accounts table Ht Hv Htab i a Ha Hsub) as (x & Hin & _ & Hsame).
      exists (nsi_account x). split_and!; [by apply Hx| |done].
      intros [_ Hn]%result_not_found. apply Hn. by exists x.
Qed.

(** C9. The response of a request with one notification is the truth: without
    a panic, every account of the request is reported in exactly one way;
    each account sent to has a queued row of the notification for a subscriber
    of the project with that address and the notification's type in its scope,
    and no other row is added; an account is only reported as not found if no
    subscriber has its address, or it is reported under another account of the
    request with that address.  A failed request leaves the queue as it was. *)
Theorem notify_v0_truthful project_id n w
    (Hdb : rtc db_step empty_db (w_db w)) (Hv : Forall valid_account (nb_accounts n)) :
  match notify_v0 st project_id n w with
  | (Ok r, w') =>
      (∀ a, (a ∈ nb_accounts n ↔ a ∈ sent r ∨ failed_account r a ∨ a ∈ not_found r) ∧
         (a ∈ sent r → ¬ failed_account r a ∧ (a ∉ not_found r)) ∧
         (failed_account r a → (a ∉ not_found r))) ∧
      truthful (w_db w) (w_db w') project_id (nb_accounts n) r
  | (Err _, w') => rows (w_db w') = rows (w_db w)
  | (Panic, _) => False
  end.
Proof.
  destruct (rtc_db_step_inv _ _ Hdb) as [Hwf Ht]; [split; [apply wf_empty|apply typed_empty]|].
  set (R := λ w' : World, rows (w_db w') = rows (w_db w)).
  assert (Hrun : runs R (notify_v0 st project_id n) w (λ r w', ∃ p proj,
    project (w_db w) !! proj = Some p ∧ p_project_id p = project_id ∧
    notified (w_db w) proj (nb_accounts n) r w')).
  { assert (∀ w', w_db w' = w_db w → R w') as HR by (intros w' Hw'; unfold R; by rewrite Hw').
    unfold notify_v0, handler_impl. apply runs_bind, runs_limit_http; [exact HR|].
    intros w1 Hw1. apply runs_bind. cbn [for_each]. apply runs_bind. unfold runs at 1, lift.
    unfold notification_validate, run_validation. destruct (failed_fields _); [|by apply HR].
    unfold runs at 1, mret, M_ret. apply runs_bind. unfold guard_err.
    destruct (_ <? _)%nat; [by apply HR|]. unfold runs at 1, mret, M_ret.
    apply runs_bind, runs_map_err, runs_query; [by apply HR|]. intros _.
    eapply runs_weaken; [apply project_runs|intros db ->; by apply HR|].
    intros pr db (-> & p & Hp & Hid). cbn [fold_m]. rewrite Hw1 in Hp. apply runs_bind.
    eapply runs_mono; [apply notify_one_runs; cbn; rewrite ?Hw1; [done|done|]|].
    - intros w' Hw'. exact Hw'.
    - cbn [w_db bump set_w_db]. rewrite Hw1. intros r w' Hn. unfold runs, mret, M_ret.
      by exists p, (pr_id pr). }
  unfold runs in Hrun. destruct (notify_v0 st project_id n w) as [[r|e|] w']; [|done|done].
  destruct Hrun as (p & proj & Hp & <- & Hn). by eapply notified_truthful.
Qed.
End response.

(** ** Witness *)

Module NotifyInstances.
Import Concrete.Instances EnvInstances.

Definition state_w : AppState :=
  mkAppState _ true (mkNotifyKeys "notify.example.com" [] [] "" [] [] []) "https://notify" "https://hook" "".

Definition body_w : NotifyBodyNotification :=
  mkNotifyBodyNotification None (mkNotification 7%N "title" "body" None None)
    [mkAccountId account_mainnet; mkAccountId account_polygon].

Definition notify_w :=
  notify_v0 (H1 := make_env (λ _ _, None) (λ _ _, None)) state_w "project" body_w (world_w db4_w).

Lemma notify_v0_truthful_witness :
  match notify_w with
  | (Ok r, w') => bool_decide (sent r = {[mkAccountId account_mainnet]}) = true ∧
      truthful db4_w (w_db w') "project" (nb_accounts body_w) r
  | _ => False
  end.
Proof.
  pose proof (notify_v0_truthful (H3 := make_env (λ _ _, None) (λ _ _, None)) state_w "project"
    body_w (world_w db4_w) db4_w_reachable) as Ht.
  assert (Hv : Forall valid_account (nb_accounts body_w))
    by (repeat constructor; vm_compute; reflexivity).
  specialize (Ht Hv).
  assert (Hok : match notify_w.1 with
    | Ok r => bool_decide (sent r = {[mkAccountId account_mainnet]}) | _ => false end = true)
    by (vm_compute; reflexivity).
  fold notify_w in Ht. destruct notify_w as [[r|e|] w']; [|discriminate Hok|discriminate Hok].
  split; [exact Hok|apply Ht].
Defined.
End NotifyInstances.
