(* ===== verification/HttpHandlers.v ===== *)
(** * The HTTP endpoints (public_http_server/)

    One definition per handler, the rate limits they apply, and [serve], which
    routes a request: a project's requests pass the extractor first, the body
    is read after it. *)

From Stdlib Require Import Ascii.
From S2P Require Import Prelude RustStr Regex Externals AccountId Errors Types RateLimit.
From S2P Require Import Database Jwt World RelayPublish Cache Registry Identity RelayError.
From S2P Require Import RelayHandlers RelayRequests Webhook NotifyV1.
Open Scope Z_scope.

(** ** Rate limits; intervals in milliseconds *)

Definition get_subscribers_v0_rate_limit : Limit := mkLimit 5 1000 1.
Definition get_subscribers_v1_rate_limit : Limit := mkLimit 100 1000 100.
Definition subscribe_topic_rate_limit : Limit := mkLimit 100 60000 1.
Definition get_welcome_notification_rate_limit : Limit := mkLimit 100 60000 1.
Definition post_welcome_notification_rate_limit : Limit := mkLimit 100 60000 1.
Definition mark_all_as_read_rate_limit : Limit := mkLimit 100 60000 1.
Definition follow_link_rate_limit : Limit := mkLimit 20 1000 2.

(** ** Libraries the handlers use *)

(** [axum]: the text of a rejected body; [data_encoding::BASE64URL]; the name
    and version the build reports. *)
Class HttpOps := {
  json_rejection : string;
  base64url_encode : bytes → string;
  build_name : string;
  build_version : string;
}.

(** [Redirect::temporary], which panics on a text that cannot be a header. *)
Definition redirect_temporary `{HttpClientOps} {E} (url : string) : outcome E Response :=
  if header_value_ok url then Ok (mkResponse 307 (Some url) NoBody) else Panic.

Definition DOMAIN_REGEX : re :=
  RPlus (λ c, ascii_is_lower c || ascii_is_digit c || Ascii.eqb c "-" || Ascii.eqb c "_"
              || Ascii.eqb c ".").
Definition is_domain (domain : string) : bool := is_match DOMAIN_REGEX domain.

Definition json_error (text : string) : Body := JsonBody (VObject [("error", VString text)]).

(** ** did.json *)

Definition WC_NOTIFY_SUBSCRIBE_KEY_ID : string := "#wc-notify-subscribe-key".
Definition WC_NOTIFY_AUTHENTICATION_KEY_ID : string := "#wc-notify-authentication-key".
Definition CONTEXT_DID_V1 : string := "https://www.w3.org/ns/did/v1".
Definition CONTEXT_JWS_V1 : string := "https://w3id.org/security/suites/jws-2020/v1".
Definition JSON_WEB_KEY_2020 : string := "JsonWebKey2020".
Definition OKP : string := "OKP".
Definition X25519 : string := "X25519".
Definition ED25519 : string := "Ed25519".

Record PublicKeyJwk := mkPublicKeyJwk { jwk_kty : string; jwk_crv : string; jwk_x : string }.

Record VerificationMethod := mkVerificationMethod {
  vm_id : string;
  vm_type : string;
  vm_controller : DidWeb;
  vm_public_key_jwk : PublicKeyJwk;
}.

Record DidJson := mkDidJson {
  dj_context : list string;
  dj_id : DidWeb;
  dj_verification_method : list VerificationMethod;
  dj_key_agreement : list string;
  dj_authentication : list string;
}.

Definition generate_json `{DidOps, HttpOps} (notify_keys : NotifyKeys) : DidJson :=
  let did_id := from_domain (nk_domain notify_keys) in
  let key_agreement_key_id := did_web_to_string did_id +:+ WC_NOTIFY_SUBSCRIBE_KEY_ID in
  let authentication_key_id := did_web_to_string did_id +:+ WC_NOTIFY_AUTHENTICATION_KEY_ID in
  let key_agreement := base64url_encode (key_agreement_public notify_keys) in
  let authentication := base64url_encode (authentication_public notify_keys) in
  mkDidJson [CONTEXT_DID_V1; CONTEXT_JWS_V1] did_id
    [mkVerificationMethod key_agreement_key_id JSON_WEB_KEY_2020 did_id
       (mkPublicKeyJwk OKP X25519 key_agreement);
     mkVerificationMethod authentication_key_id JSON_WEB_KEY_2020 did_id
       (mkPublicKeyJwk OKP ED25519 authentication)]
    [key_agreement_key_id] [authentication_key_id].

Definition method_value `{DidOps} (m : VerificationMethod) : Value :=
  let k := vm_public_key_jwk m in
  VObject [("id", VString (vm_id m)); ("type", VString (vm_type m));
    ("controller", VString (did_web_to_string (vm_controller m)));
    ("publicKeyJwk", VObject [("kty", VString (jwk_kty k)); ("crv", VString (jwk_crv k));
                              ("x", VString (jwk_x k))])].

Definition did_json_value `{DidOps} (d : DidJson) : Value :=
  VObject [("@context", VArray (VString <$> dj_context d));
    ("id", VString (did_web_to_string (dj_id d)));
    ("verificationMethod", VArray (method_value <$> dj_verification_method d));
    ("keyAgreement", VArray (VString <$> dj_key_agreement d));
    ("authentication", VArray (VString <$> dj_authentication d))].

(** ** The handlers *)

Section handlers.
Context `{!Ext, !UrlOps, !Env, !ValidatorOps, !HttpClientOps, !HttpOps}.
Context (st : AppState).

Definition health : Response :=
  respond 200 (Text ("OK, " +:+ build_name +:+ " v" +:+ build_version)).

Definition did_json : Response :=
  respond 200 (JsonBody (did_json_value (generate_json (st_notify_keys st)))).

Definition account_value (a : AccountId) : Value := VString (account_str a).

Definition get_subscribers_v0 (project_id : string) : App NotifyServerError Response :=
  limit_http st ("subscribers-v0-" +:+ project_id) get_subscribers_v0_rate_limit ;;
  accounts ← m_map_err project_or_unprocessable
               (query (λ _, get_subscriber_accounts_by_project_id project_id));
  mret (respond 200 (JsonBody (VArray (account_value <$> accounts)))).

(** [GetSubscribersBody::validate]. *)
Definition get_subscribers_body_validate (accounts : list AccountId)
    : outcome NotifyServerError () :=
  run_validation [("accounts", (1 <=? length accounts)%nat && (length accounts <=? 100)%nat)].

Definition types_value (scope : gset Uuid) : Value :=
  VObject [("notification_types", VArray ((λ u, VString (uuid_to_string u)) <$> elements scope))].

Definition get_subscribers_v1 (project_id : string) (accounts : list AccountId)
    : App NotifyServerError Response :=
  limit_http st ("subscribers-v1-" +:+ project_id) get_subscribers_v1_rate_limit ;;
  lift (get_subscribers_body_validate accounts) ;;
  accounts ← m_map_err project_or_unprocessable
               (query (λ _, get_subscribers_by_project_id_and_accounts project_id accounts));
  let response : gmap AccountId (gset Uuid) :=
    foldl (λ m s, <[sas_account s := sas_scope s]> m) ∅ accounts in
  mret (respond 200 (JsonBody (VObject
    ((λ kv, (account_str kv.1, types_value kv.2)) <$> map_to_list response)))).

Definition app_domain_error (e : SqlxError) : NotifyServerError :=
  match e with
  | UniqueViolation index =>
      if String.eqb index "project_app_domain_key" then AppDomainInUseByAnotherProject else Sqlx e
  | e => Sqlx e
  end.

(** What [subscribe_topic] does with a domain it accepts. *)
Definition create_project (project_id app_domain : string) : App NotifyServerError Response :=
  subscribe_key ← random_bytes 32;
  let topic := topic_from_key (x25519_public subscribe_key) in
  authentication_key ← random_bytes 32;
  fresh ← new_v4;
  proj ← m_map_err app_domain_error (query (λ _,
    upsert_project fresh project_id app_domain topic authentication_key subscribe_key));
  m_map_err (λ _, RelaySubscribe) (subscribe_relay_topic (pk_topic proj)) ;;
  mret (respond 200 (JsonBody (VObject
    [("authenticationKey", VString (pk_authentication_public_key proj));
     ("subscribeKey", VString (pk_subscribe_public_key proj))]))).

Definition subscribe_topic (project_id app_domain : string) : App NotifyServerError Response :=
  limit_http st ("subscribe_topic-" +:+ project_id) subscribe_topic_rate_limit ;;
  if (253 <? String.length app_domain)%nat
  then mret (respond 400 (json_error "app_domain exceeds 253 characters"))
  else if negb (is_domain app_domain)
  then mret (respond 400 (json_error "app_domain is not a valid domain"))
  else create_project project_id app_domain.

Definition find_project (project_id : string) : App NotifyServerError Project :=
  m_map_err project_or_unprocessable (query (λ _, get_project_by_project_id project_id)).

Definition welcome_value (w : option WelcomeNotification) : Value :=
  match w with
  | None => VNull
  | Some w => VObject [("enabled", VBool (wn_enabled w));
      ("type", VString (uuid_to_string (wn_type w))); ("title", VString (wn_title w));
      ("body", VString (wn_body w));
      ("url", match wn_url w with Some u => VString u | None => VNull end)]
  end.

Definition get_welcome (project_id : string) : App NotifyServerError Response :=
  limit_http st ("get_welcome_notification-" +:+ project_id) get_welcome_notification_rate_limit ;;
  proj ← find_project project_id;
  welcome ← sqlx_http (query (λ _, get_welcome_notification (pr_id proj)));
  mret (respond 200 (JsonBody (welcome_value welcome))).

Definition post_welcome (project_id : string) (welcome : WelcomeNotification)
    : App NotifyServerError Response :=
  limit_http st ("post_welcome_notification-" +:+ project_id)
    post_welcome_notification_rate_limit ;;
  proj ← find_project project_id;
  sqlx_http (query (λ _, set_welcome_notification (pr_id proj) welcome)) ;;
  mret (respond 204 NoBody).

Definition mark_all_as_read (project_id : string) : App NotifyServerError Response :=
  limit_http st ("mark_all_as_read-" +:+ project_id) mark_all_as_read_rate_limit ;;
  proj ← find_project project_id;
  sqlx_http (query (λ _, mark_all_notifications_as_read_for_project (pr_id proj))) ;;
  mret (respond 204 NoBody).

(** The geographic data and the user agent only go to analytics. *)
Definition follow_notification_link (subscriber_notification_id : Uuid)
    : App NotifyServerError Response :=
  limit_http st ("follow-notification-link-" +:+ uuid_to_string subscriber_notification_id)
    follow_link_rate_limit ;;
  notif ← sqlx_http (query (λ _, get_notification_link subscriber_notification_id));
  match notif ≫= fl_notification_url with
  | Some url => lift (redirect_temporary url)
  | None => mret (respond 404 (Text "That link was not found."))
  end.

Definition failure_value (f : SendFailure) : Value :=
  VObject [("account", account_value (sf_account f)); ("reason", VString (sf_reason f))].
Definition response_value (r : ResponseBody) : Value :=
  VObject [("sent", VArray (account_value <$> elements (sent r)));
    ("failed", VArray (failure_value <$> elements (failed r)));
    ("not_found", VArray (account_value <$> elements (not_found r)))].

Definition post_notify_v1 (project_id : string) (body : list NotifyBodyNotification)
    : App NotifyServerError Response :=
  r ← handler_impl st project_id body; mret (respond 200 (JsonBody (response_value r))).

Definition post_notify_v0 (project_id : string) (body : NotifyBodyNotification)
    : App NotifyServerError Response :=
  r ← notify_v0 st project_id body; mret (respond 200 (JsonBody (response_value r))).
End handlers.

(** ** Routing *)

(** A notification as the JSON body has it: the accounts are still text. *)
Record NotifyJson := mkNotifyJson {
  nj_notification_id : option string;
  nj_notification : Notification;
  nj_accounts : list string;
}.

Inductive HttpRequest :=
| GetHealth
| GetDidJson
| PostRelayWebhook (event_auth : list string)
| GetNotificationLink (subscriber_notification_id : Uuid)
| PostNotifyV0 (p : Parts) (body : NotifyJson)
| PostNotifyV1 (p : Parts) (body : list NotifyJson)
| GetSubscribersV0 (p : Parts)
| PostSubscribersV1 (p : Parts) (accounts : list string)
| PostSubscribeTopic (p : Parts) (app_domain : string)
| GetWelcomeNotification (p : Parts)
| PostWelcomeNotification (p : Parts) (welcome : WelcomeNotification)
| GetMarkAllAsRead (p : Parts).

Section routes.
Context `{!Ext, !UrlOps, !Env, !CacaoOps, !Msgpack Cacao, !Json KeyServerResponse,
  !Json Siwx.RawRecap, !BuildProfile, !JwtConsts, !JsonRpcConsts, !RelayWire, !ErrorTexts,
  !Scheduler, !ValidatorOps, !RelayRpcOps, !WebhookTexts, !HttpClientOps, !HttpOps}.
Context `{!Json RegistryAuthResponse, !Msgpack bool}.
Context (st : AppState) (registry : Registry).

(** [impl Deserialize for AccountId], by [try_from]. *)
Definition read_accounts (l : list string) : outcome Caip10Error (list AccountId) :=
  map_outcome try_from_account l.

Definition read_notification (n : NotifyJson) : outcome Caip10Error NotifyBodyNotification :=
  accounts ← read_accounts (nj_accounts n);
  Ok (mkNotifyBodyNotification (nj_notification_id n) (nj_notification n) accounts).

(** The responses of a handler, whichever way it ends. *)
Definition into {E} (f : E → Response) (m : App E Response) : App () Response :=
  r ← attempt m;
  match r with Ok r => mret r | Err e => mret (f e) | Panic => panic end.

Definition rejection_response (e : Rejection) : Response := respond e.1 (Text e.2).

(** [AuthedProjectId], then [Json<..>], then the handler. *)
Definition authed {A} (p : Parts) (body : outcome Caip10Error A)
    (handler : string → A → App NotifyServerError Response) : App () Response :=
  into rejection_response (
    a ← from_request_parts registry p;
    match body with
    | Err _ => mret (respond 422 (Text json_rejection))
    | Ok body => m_map_err (λ _, (500, EmptyString))
                   (into into_response (handler (authed_project_id a) body))
    | Panic => panic
    end).

Definition serve (r : HttpRequest) : App () Response :=
  match r with
  | GetHealth => mret health
  | GetDidJson => mret (did_json st)
  | PostRelayWebhook event_auth => into webhook_into_response (webhook st event_auth)
  | GetNotificationLink i => into into_response (follow_notification_link st i)
  | PostNotifyV0 p body => authed p (read_notification body) (post_notify_v0 st)
  | PostNotifyV1 p body => authed p (map_outcome read_notification body) (post_notify_v1 st)
  | GetSubscribersV0 p => authed p (Ok ()) (λ i _, get_subscribers_v0 st i)
  | PostSubscribersV1 p accounts => authed p (read_accounts accounts) (get_subscribers_v1 st)
  | PostSubscribeTopic p app_domain => authed p (Ok app_domain) (subscribe_topic st)
  | GetWelcomeNotification p => authed p (Ok ()) (λ i _, get_welcome st i)
  | PostWelcomeNotification p welcome => authed p (Ok welcome) (post_welcome st)
  | GetMarkAllAsRead p => authed p (Ok ()) (λ i _, mark_all_as_read st i)
  end.
End routes.
