(* ===== verification/SignedCacao.v ===== *)
(** * A CACAO from its signature to its use (auth.rs, [test_utils::sign_cacao])

    The helper of auth.rs that signs a CACAO as a wallet does, and what the
    server then makes of it: from the choice of the user (this app, all apps,
    or a plain statement) to the authorization [verify_identity] returns. *)

From Stdlib Require Import Ascii.
From S2P Require Import Prelude RustStr Regex Externals AccountId Errors Types Database.
From S2P Require Import Concrete Jwt World Siwx Cache Identity RelayHandlers HttpHandlers.
Open Scope Z_scope.

(** ** Signing *)

Inductive CacaoAuth := Statement (statement : string) | AllApps | ThisApp.

#[global] Instance CacaoAuth_eq_dec : EqDecision CacaoAuth.
Proof. solve_decision. Defined.

(** [cacao::payload::Payload], without the version, which is always 1. *)
Record CacaoPayload := mkCacaoPayload {
  pl_domain : string;
  pl_iss : string;
  pl_statement : option string;
  pl_aud : string;
  pl_nonce : string;
  pl_iat : string;
  pl_exp : option string;
  pl_nbf : option string;
  pl_request_id : option string;
  pl_resources : option (list string);
}.

(** The library's part: the header EIP-4361, the message to sign and its
    EIP-191 signature ([None]: it fails); the verification of a CACAO without a
    blockchain provider ([MockGetRpcUrl]). *)
Class CacaoSigner `{CacaoOps} := {
  WALLETCONNECT_IDENTITY_KEY : string;
  to_rfc3339 : Z → string;
  signed : bytes → CacaoPayload → option Cacao;
  verify_offline : Cacao → option bool;
}.

(** A signed CACAO has the payload's fields; the identity key is read from its
    audience, a did:key or a URL with the key as a parameter; an EIP-191
    signature is verified without a provider, and verification is an error or
    true. *)
Class CacaoSignerLaws `{CacaoSigner, SigOps, UrlOps} : Prop := {
  signed_fields k p c : signed k p = Some c →
    cacao_iss c = pl_iss p ∧ cacao_domain c = pl_domain p ∧
    cacao_statement c = pl_statement p ∧ cacao_resources c = pl_resources p ∧
    cacao_nbf c = pl_nbf p ∧ cacao_exp c = pl_exp p;
  signed_identity_key k p c key : signed k p = Some c →
    pl_aud p = to_did_key key ∨
    (∃ s url, url_parse s = Some url ∧
       pl_aud p = url_to_string
         (url_append_pair url WALLETCONNECT_IDENTITY_KEY (to_did_key key))) →
    cacao_identity_key c = Some (client_id_to_string key);
  signed_verify k p c i : signed k p = Some c → cacao_verify i c = verify_offline c;
  verify_always_true c b : verify_offline c = Some b → b = true;
}.

(** [impl Serialize for ReCapDetailsObject]. *)
Definition ability_entry (e : Ability * list Value) : string * list Value :=
  (ability_to_string e.1, e.2).
Definition recap_entries (recap : ReCapDetailsObject) : RawRecap :=
  (λ e : string * Abilities, (e.1, ability_entry <$> map_to_list e.2)) <$> map_to_list (att recap).

Section sign_cacao.
Context `{!Ext, !UrlOps, env : !Env, !CacaoOps, !CacaoSigner, !Json RawRecap}.

(** [None] is an [unwrap] or [expect] that panics. *)
Definition recap_terms (d : option string) (app_domain did_key keys_server_url : string)
    : option (string * string * list string) :=
  let recap := build_recap_details_object d in
  uri ← encode_recaip_uri (recap_entries recap);
  url ← url_parse ("https://" +:+ app_domain);
  Some (build_statement recap,
        url_to_string (url_append_pair url WALLETCONNECT_IDENTITY_KEY did_key),
        [keys_server_url; uri]).

(** The statement, the audience and the resources. *)
Definition cacao_terms (app_domain : string) (auth : CacaoAuth) (did_key keys_server_url : string)
    : option (string * string * list string) :=
  match auth with
  | Statement statement => Some (statement, did_key, [keys_server_url])
  | AllApps => recap_terms None app_domain did_key keys_server_url
  | ThisApp => recap_terms (Some app_domain) app_domain did_key keys_server_url
  end.

Definition sign_cacao {E} (app_domain : DidWeb) (account : AccountId) (auth : CacaoAuth)
    (identity_public_key : bytes) (keys_server_url : string) (account_signing_key : bytes)
    : App E Cacao :=
  let did_key := to_did_key identity_public_key in
  '(statement, aud, resources) ←
    lift (unwrap (cacao_terms (domain app_domain) auth did_key keys_server_url));
  nonce ← random_bytes 10;
  now ← utc_now;
  cacao ← lift (unwrap (signed account_signing_key
    (mkCacaoPayload (domain app_domain) (to_did_pkh account) (Some statement) aud
       (hex_encode nonce) (to_rfc3339 now) None None None (Some resources))));
  lift (unwrap (verify_offline cacao)) ;;
  mret cacao.
End sign_cacao.

(** ** What it grants *)

(** What the server reads from a CACAO signed for the app at [d]. *)
Definition granted (auth : CacaoAuth) (d : string)
    : outcome IdentityVerificationClientError AuthorizedApp :=
  match auth with
  | Statement s => ok_or (parse_cacao_statement s d) CacaoStatementInvalid
  | AllApps => Ok Unlimited
  | ThisApp =>
      if String.eqb d ABILITY_ABILITY_ALL_APPS_MAGIC then Ok Unlimited
      else if no_char "_" d then Ok (Limited d)
      else Err CacaoRecapAbilityNameNotValidDomain
  end.

(** ** Lemmas *)

Definition dns_char (c : ascii) : bool :=
  ascii_is_lower c || ascii_is_digit c || Ascii.eqb c "-" || Ascii.eqb c "_" || Ascii.eqb c ".".

Lemma dns_char_name c : dns_char c = true → name_char c = true.
Proof. by destruct c as [[] [] [] [] [] [] [] []]. Qed.

Lemma dns_char_domain c : dns_char c = true → domain_char c = negb (Ascii.eqb "_" c).
Proof. by destruct c as [[] [] [] [] [] [] [] []]. Qed.

Lemma is_domain_spec d :
  is_domain d = true ↔ d ≠ EmptyString ∧ str_forallb dns_char d = true.
Proof.
  unfold is_domain. rewrite is_match_spec. split.
  - intros [c Hc]. unfold HttpHandlers.DOMAIN_REGEX, RPlus in Hc. inv_matches.
    split; [|done]. intros ->. simpl in *; lia.
  - intros [Hn Hd]. exists []. constructor; [done| |done]. destruct d; [done|]. simpl. lia.
Qed.

(** A domain [subscribe_topic] accepts can be the app of a recap unless it has
    an underscore. *)
Lemma recap_domain d :
  is_domain d = true → is_match Identity.DOMAIN_REGEX d = no_char "_" d.
Proof.
  intros [Hn Hd]%is_domain_spec.
  assert (str_forallb domain_char d = no_char "_" d) as <-.
  { clear Hn. unfold no_char. induction d as [|c d IH]; [done|]. cbn in *.
    apply andb_prop in Hd as [Hc Hd]. by rewrite (dns_char_domain c Hc), IH. }
  destruct (str_forallb domain_char d) eqn:E.
  - by apply domain_regex_spec.
  - apply not_true_iff_false. rewrite domain_regex_spec. intros [_ H]. congruence.
Qed.

(** What the one ability of a recap of this server stands for. *)
Lemma app_of_one_ability d :
  app_of_abilities {[mkAbility ABILITY_NAMESPACE_MANAGE (d +:+ ABILITY_ABILITY_SUFFIX)
                       := [VObject []]]} =
  (if String.eqb d ABILITY_ABILITY_ALL_APPS_MAGIC then Ok Unlimited
   else if is_match Identity.DOMAIN_REGEX d then Ok (Limited d)
   else Err CacaoRecapAbilityNameNotValidDomain).
Proof.
  unfold app_of_abilities. rewrite map_to_list_singleton. cbn [head length Nat.ltb Nat.leb].
  cbn -[strip_suffix String.eqb is_match]. rewrite strip_suffix_app. done.
Qed.

Section recap.
Context `{!Ext, !Base64Laws, !UrlOps, env : !Env, !CacaoOps, !CacaoSigner, !Json RawRecap,
  !JsonLaws RawRecap}.

(** The app named in the recap, or the word for all apps. *)
Abbreviation named o := (default ABILITY_ABILITY_ALL_APPS_MAGIC o).

Lemma parse_own_recap o uri :
  str_forallb dns_char (named o) = true →
  encode_recaip_uri (recap_entries (build_recap_details_object o)) = Some uri →
  parse_recap (Some uri) = Ok (Some (build_recap_details_object o)).
Proof.
  intros Hd Huri.
  destruct (recap_uri_roundtrip (recap_entries (build_recap_details_object o))
              (att (build_recap_details_object o))) as ((uri' & Huri' & Hp) & _).
  - unfold recap_entries, build_recap_details_object. cbn [att].
    rewrite map_to_list_singleton. cbn [fmap list_fmap fst snd].
    unfold id. rewrite map_to_list_singleton. cbn [fmap list_fmap att_of_entries].
    set (ab := mkAbility _ _).
    assert (ability_from_str (ability_to_string ab) = Some ab) as Hab.
    { apply ability_from_str_iff. split; [done|]. unfold ab. cbn [namespace name].
      split_and!; [done|by vm_compute| |].
      - intros He%(f_equal String.length). rewrite str_length_app in He.
        unfold ABILITY_ABILITY_SUFFIX in He. cbn in He. lia.
      - rewrite str_forallb_app. apply andb_true_iff. split; [|by vm_compute].
        eapply str_forallb_impl; [|exact Hd]. apply dns_char_name. }
    unfold ability_entry, id. cbn [fst snd abilities_of_entries]. rewrite Hab.
    cbn [mbind option_bind]. by rewrite !insert_empty.
  - intros u [m Hm]. unfold build_recap_details_object in Hm. cbn [att] in Hm.
    apply lookup_singleton_Some in Hm as [<- _]. by vm_compute.
  - assert (uri' = uri) as <- by congruence. exact Hp.
Qed.

Lemma own_recap_prefix raw uri :
  encode_recaip_uri raw = Some uri → starts_with RECAP_URI_PREFIX uri = true.
Proof.
  unfold encode_recaip_uri, starts_with. intros (p & _ & [= <-])%bind_Some.
  by rewrite strip_prefix_app.
Qed.

Lemma cacao_app_own_recap o ksu uri d :
  str_forallb dns_char (named o) = true → starts_with RECAP_URI_PREFIX ksu = false →
  encode_recaip_uri (recap_entries (build_recap_details_object o)) = Some uri →
  cacao_app (Some (build_statement (build_recap_details_object o))) (Some [ksu; uri]) d =
  (if String.eqb (named o) ABILITY_ABILITY_ALL_APPS_MAGIC then Ok Unlimited
   else if is_match Identity.DOMAIN_REGEX (named o) then Ok (Limited (named o))
   else Err CacaoRecapAbilityNameNotValidDomain).
Proof.
  intros Hd Hk Huri. unfold cacao_app. cbn [ok_or mbind outcome_bind default].
  unfold id. rewrite !filter_cons, Hk, (own_recap_prefix _ _ Huri), filter_nil.
  cbn [decide length Nat.ltb Nat.leb]. cbn -[parse_recap build_statement].
  rewrite (parse_own_recap _ _ Hd Huri). cbn [map_err mbind outcome_bind].
  rewrite (proj2 (ends_with_spec _ _)) by (by exists EmptyString). cbn [negb mbind outcome_bind].
  unfold build_recap_details_object. cbn [att]. rewrite lookup_singleton_eq.
  cbn [ok_or mbind outcome_bind]. apply app_of_one_ability.
Qed.

Lemma recap_terms_inv o d key ksu statement aud resources :
  recap_terms o d key ksu = Some (statement, aud, resources) →
  ∃ uri url, encode_recaip_uri (recap_entries (build_recap_details_object o)) = Some uri ∧
    url_parse ("https://" +:+ d) = Some url ∧
    statement = build_statement (build_recap_details_object o) ∧
    aud = url_to_string (url_append_pair url WALLETCONNECT_IDENTITY_KEY key) ∧
    resources = [ksu; uri].
Proof.
  unfold recap_terms. generalize (build_recap_details_object o). intros recap.
  intros (uri & Huri & (url & Hurl & [= <- <- <-])%bind_Some)%bind_Some. by exists uri, url.
Qed.

Lemma cacao_app_granted d auth key ksu statement aud resources :
  starts_with RECAP_URI_PREFIX ksu = false → (auth = ThisApp → is_domain d = true) →
  cacao_terms d auth key ksu = Some (statement, aud, resources) →
  cacao_app (Some statement) (Some resources) d = granted auth d.
Proof.
  intros Hk Hd. destruct auth; cbn [cacao_terms granted].
  - intros [= <- <- <-]. unfold cacao_app. cbn [ok_or mbind outcome_bind default].
    unfold id. rewrite !filter_cons, Hk, filter_nil. cbn -[parse_recap].
    by rewrite (proj2 (parse_recap_None (Some ksu))) by (by intros ? [= <-]).
  - intros (uri & u & Huri & _ & -> & _ & ->)%recap_terms_inv.
    etransitivity; [apply (cacao_app_own_recap None); done || exact Huri|].
    cbn [default]. by rewrite String.eqb_refl.
  - intros (uri & u & Huri & _ & -> & _ & ->)%recap_terms_inv.
    specialize (Hd eq_refl). pose proof (proj1 (is_domain_spec d) Hd) as [_ Hc].
    etransitivity; [apply (cacao_app_own_recap (Some d)); done || exact Huri|].
    cbn [default]. unfold id. by rewrite recap_domain.
Qed.

(** The audience of what is signed names the identity key. *)
Lemma cacao_terms_aud d auth key ksu statement aud resources :
  cacao_terms d auth key ksu = Some (statement, aud, resources) →
  aud = key ∨ ∃ s url, url_parse s = Some url ∧
    aud = url_to_string (url_append_pair url WALLETCONNECT_IDENTITY_KEY key).
Proof.
  destruct auth; cbn [cacao_terms].
  - intros [= _ <- _]. by left.
  - intros (uri & u & _ & Hu & _ & -> & _)%recap_terms_inv. right. eauto.
  - intros (uri & u & _ & Hu & _ & -> & _)%recap_terms_inv. right. eauto.
Qed.
End recap.

(** ** What a wallet signs is what the server reads *)

Section signed.
Context `{!Ext, !Base64Laws, !DidLaws, !UrlOps, env : !Env, !CacaoOps, !CacaoSigner,
  !CacaoSignerLaws, !Msgpack Cacao, !Json KeyServerResponse, !Json RawRecap, !JsonLaws RawRecap}.

Lemma sign_cacao_Ok {E} d account auth key ksu sk w0 cacao w1 :
  sign_cacao (E:=E) (from_domain d) account auth key ksu sk w0 = (Ok cacao, w1) →
  ∃ statement aud resources,
    cacao_terms d auth (to_did_key key) ksu = Some (statement, aud, resources) ∧
    cacao_iss cacao = to_did_pkh account ∧ cacao_domain cacao = d ∧
    cacao_statement cacao = Some statement ∧ cacao_resources cacao = Some resources ∧
    cacao_nbf cacao = None ∧ cacao_exp cacao = None ∧
    cacao_identity_key cacao = Some (client_id_to_string key) ∧
    (∀ i, cacao_verify i cacao = Some true).
Proof.
  unfold sign_cacao. intros Hrun.
  apply bind_lift_iff in Hrun as ([[statement aud] resources] & Ht%unwrap_Ok & Hrun).
  apply bind_Ok_inv in Hrun as (nonce & w2 & _ & Hrun).
  apply bind_Ok_inv in Hrun as (now & w3 & _ & Hrun).
  apply bind_lift_iff in Hrun as (c & Hs%unwrap_Ok & Hrun).
  apply bind_lift_iff in Hrun as (b & Hv%unwrap_Ok & [-> _]%ret_iff).
  destruct (signed_fields _ _ _ Hs) as (Hi & Hd & Hst & Hr & Hn & He).
  exists statement, aud, resources. cbn in Hi, Hd, Hst, Hr, Hn, He. split_and!; try done.
  - apply (signed_identity_key _ _ _ _ Hs). by eapply cacao_terms_aud.
  - intros i. rewrite (signed_verify _ _ _ i Hs), Hv. by rewrite (verify_always_true _ _ Hv).
Qed.

Lemma verify_signed d account key cacao app statement resources w :
  valid_account account → cacao_app (Some statement) (Some resources) d = app →
  cacao_iss cacao = to_did_pkh account → cacao_domain cacao = d →
  cacao_statement cacao = Some statement → cacao_resources cacao = Some resources →
  cacao_nbf cacao = None → cacao_exp cacao = None →
  cacao_identity_key cacao = Some key → (∀ i, cacao_verify i cacao = Some true) →
  (verify_cacao key (to_did_pkh account) cacao w).1 =
    map_err Identity_Client ((λ app, mkAuthorization account app d) <$> app).
Proof.
  intros Ha Happ Hi Hd Hst Hr Hn He Hk Hv. unfold verify_cacao.
  rewrite Hi, (from_to_did_pkh account Ha), Hst, Hr, Hn, He, Hk, Hd, Happ.
  unfold ask, lift, guard_err, mbind, M_bind, map_err, ok_or, mret, M_ret, throw.
  rewrite Hv, !String.eqb_refl. cbn [negb]. by destruct app.
Qed.

(** C20. A CACAO signed as a wallet signs it, once it is at the keys server, is
    read by the server as the user meant it.  For all apps it authorises the
    identity key for all apps, a plain statement what it says, and for one app
    exactly that app, with two exceptions among the domains an app can be
    registered with: a domain with an underscore is refused, and the app whose
    domain is the word for all apps stands for all apps. *)
Theorem signed_cacao_verified {E} d account auth key ksu sk url cacao w0 w1 w :
  valid_account account →
  starts_with RECAP_URI_PREFIX ksu = false →
  (auth = ThisApp → is_domain d = true) →
  sign_cacao (E:=E) (from_domain d) account auth key ksu sk w0 = (Ok cacao, w1) →
  keys_server_url key ksu = Ok url →
  keys_server_request url w = (Ok cacao, bump w) →
  (verify_identity key ksu (to_did_pkh account) false w).1 =
    map_err Identity_Client ((λ app, mkAuthorization account app d) <$> granted auth d).
Proof.
  intros Ha Hk Hd (statement & aud & resources & Ht & Hf)%sign_cacao_Ok Hurl Hreq.
  unfold verify_identity, keys_server_request_cached.
  rewrite (bind_Ok (lift _) _ w url w) by (unfold lift; by rewrite Hurl).
  erewrite bind_Ok by (rewrite (bind_Ok (mret None) _ w None w eq_refl);
    rewrite (bind_Ok _ _ w cacao (bump w) Hreq); reflexivity).
  pose proof (cacao_app_granted _ _ _ _ _ _ _ Hk Hd Ht) as Happ.
  destruct Hf as (Hi & Hdo & Hst & Hr & Hn & He & Hid & Hv).
  rewrite <-Happ. by eapply verify_signed.
Qed.
End signed.

(** ** A wallet that registers its key, for the witness *)

Module SignedInstances.
Import Concrete.Instances EnvInstances RecapInstances IdentityInstances.

(** The identity key is what follows the last colon of the audience. *)
#[export] Instance concrete_signer : CacaoSigner :=
  {| WALLETCONNECT_IDENTITY_KEY := "walletconnect_identity_key";
     to_rfc3339 t := enc t;
     signed _ p := Some (pl_iss p, pl_domain p, pl_statement p, pl_resources p, pl_nbf p, pl_exp p,
                         (rsplitn2 ":" (pl_aud p)).1);
     verify_offline _ := Some true |}.

Lemma after_colon s key :
  (rsplitn2 ":" (s +:+ to_did_key key)).1 = client_id_to_string key.
Proof.
  change (to_did_key key) with ("did:key" +:+ String ":" (hex_encode_impl key)).
  rewrite <-str_app_assoc, rsplitn2_app; [done|].
  apply (str_forallb_impl is_lower_hex); [|exact (hex_encode_chars key)].
  by intros [[] [] [] [] [] [] [] []].
Qed.

#[export] Instance concrete_signer_laws : CacaoSignerLaws.
Proof.
  split.
  - by intros k p c [= <-].
  - intros k p c key [= <-] [Ha|(s & url & _ & Ha)]; cbn [cacao_identity_key concrete_cacao];
      rewrite Ha; f_equal; [exact (after_colon "" key)|].
    cbn [url_to_string url_append_pair concrete_url]. rewrite <-!str_app_assoc. apply after_colon.
  - done.
  - by intros c b [= <-].
Qed.

Definition account_w : AccountId := mkAccountId "eip155:1:0x62639418051006514eD5Bb5B20aa7aAD642cC2d0".
Definition key_w : bytes := replicate 32 Byte.x07.
Definition quiet_env : Env := make_env (λ _ _, None) (λ _ _, None).

Definition sign_w (d : string) (auth : CacaoAuth) : outcome () Cacao * World :=
  sign_cacao (env := quiet_env) (from_domain d) account_w auth key_w "https://keys" [] (world_w empty_db).
Definition signed_w (d : string) (auth : CacaoAuth) : cacao_text :=
  match (sign_w d auth).1 with Ok c => c | _ => cacao_w end.

Definition this_app_w : cacao_text := Eval vm_compute in signed_w "app.example.com" ThisApp.
Definition all_apps_w : cacao_text := Eval vm_compute in signed_w "all-apps" ThisApp.

Definition verified_w (c : cacao_text) :=
  (verify_identity (H1 := keys_env c) key_w "https://keys" (to_did_pkh account_w) false
     (world_w empty_db)).1.

Definition url_w : Url := "https://keys" +:+ KEYS_SERVER_IDENTITY_ENDPOINT +:+ "?publicKey="
  +:+ client_id_to_string key_w.

(** The keys server of [keys_env] answers every request with its CACAO. *)
Lemma keys_env_answers c url w :
  keys_server_request (H1 := keys_env c) url w = (Ok c, bump w).
Proof.
  unfold keys_server_request, http_get, ask, lift, mbind, M_bind.
  change (env_http_get _ _) with (Some (mkHttpResponse 200 (as_bytes
    (enc ("SUCCESS", None : option Value, Some c : option cacao_text))))).
  cbn [m_map_err map_err ok_or http_status http_body].
  change (from_json KeyServerResponse ?b) with
    ((λ p : string * option Value * option cacao_text,
      mkKeyServerResponse concrete_cacao p.1.1 p.1.2 p.2) <$> dec (of_bytes b)).
  by rewrite of_bytes_as_bytes, dec_enc.
Qed.

Ltac by_signing d c :=
  refine (eq_trans (signed_cacao_verified (env := keys_env c) (E := ())
    d account_w ThisApp key_w "https://keys" [] url_w c
    (world_w empty_db) (sign_w d ThisApp).2 (world_w empty_db) _ _ _ _ _ _) _);
  [vm_compute; reflexivity|reflexivity|by intros _|vm_compute; reflexivity
  |vm_compute; reflexivity|apply keys_env_answers|vm_compute; reflexivity].

(** For this app the key gets this app; for the app called [all-apps] it gets
    all of them. *)
Lemma signed_cacao_verified_witness :
  verified_w this_app_w =
    Ok (mkAuthorization account_w (Limited "app.example.com") "app.example.com") ∧
  verified_w all_apps_w = Ok (mkAuthorization account_w Unlimited "all-apps").
Proof.
  split.
  - by_signing "app.example.com" this_app_w.
  - by_signing "all-apps" all_apps_w.
Defined.
End SignedInstances.
