(* ===== verification/Net.v ===== *)
(** * Host addresses and the address of the machine

    [std::net::IpAddr], parsed and printed as the standard library does, and
    [config/deployed/networking.rs], which looks for the public address of the
    machine among the addresses of its interfaces. *)

From Stdlib Require Import Ascii Btauto.
From stdpp Require Import pretty.
From S2P Require Import Prelude RustStr.
Open Scope Z_scope.

(** ** [std::net::IpAddr] *)

(** An IPv4 address is a 32-bit number, an IPv6 address eight 16-bit segments. *)
Inductive IpAddr := V4 (address : Z) | V6 (segments : list Z).

#[global] Instance IpAddr_eq_dec : EqDecision IpAddr.
Proof. solve_decision. Defined.

Definition is_ipv4 (a : IpAddr) : bool := match a with V4 _ => true | V6 _ => false end.

Definition of_octets (a b c d : Z) : Z := a * 2 ^ 24 + b * 2 ^ 16 + c * 2 ^ 8 + d.
Definition octet (i x : Z) : Z := x / 2 ^ (8 * i) mod 256.

(** [char::to_digit]. *)
Definition to_digit (radix : Z) (c : ascii) : option Z :=
  let n := Z.of_N (N_of_ascii c) in
  let d := if (48 <=? n) && (n <=? 57) then n - 48
           else if (97 <=? n) && (n <=? 122) then n - 87
           else if (65 <=? n) && (n <=? 90) then n - 55 else radix in
  if d <? radix then Some d else None.

(** The parser of [std::net]: it reads a prefix of the text. *)
Definition Parser (A : Type) : Type := string → option (A * string).

Fixpoint read_digits (radix : Z) (max : nat) (result : Z) (count : nat) (s : string)
    {struct s} : option (Z * nat * string) :=
  match s with
  | EmptyString => Some (result, count, s)
  | String c s' =>
      match to_digit radix c with
      | None => Some (result, count, s)
      | Some d => match max with
                  | O => None
                  | S max => read_digits radix max (result * radix + d) (S count) s'
                  end
      end
  end.

(** [read_number]: at most [max] digits of a number below [bound]. *)
Definition read_number (radix : Z) (max : nat) (allow_zero_prefix : bool) (bound : Z) : Parser Z :=
  λ s, '(n, count, rest) ← read_digits radix max 0 0 s;
    if (count =? 0)%nat || (bound <=? n) then None
    else if negb allow_zero_prefix && starts_with "0" s && (1 <? count)%nat then None
    else Some (n, rest).

Definition read_given_char (c : ascii) : Parser () := λ s,
  match s with
  | String d rest => if Ascii.eqb c d then Some ((), rest) else None
  | EmptyString => None
  end.

Definition read_octet : Parser Z := read_number 10 3 false 256.

Definition read_ipv4_addr : Parser Z := λ s,
  '(a, s) ← read_octet s;
  '(_, s) ← read_given_char "." s; '(b, s) ← read_octet s;
  '(_, s) ← read_given_char "." s; '(c, s) ← read_octet s;
  '(_, s) ← read_given_char "." s; '(d, s) ← read_octet s;
  Some (of_octets a b c d, s).

(** [read_separator(':', i, _)]: no separator before the first. *)
Definition read_separator {A} (first : bool) (p : Parser A) : Parser A := λ s,
  if first then p s else '(_, s) ← read_given_char ":" s; p s.

(** [read_groups] into [limit] slots: the groups, and whether an IPv4 address
    ended them. *)
Fixpoint read_groups (limit : nat) (first : bool) (s : string) : list Z * bool * string :=
  match limit with
  | O => ([], false, s)
  | S n =>
      match (if (n =? 0)%nat then None else read_separator first read_ipv4_addr s) with
      | Some (v4, s) => ([v4 / 65536; v4 mod 65536], true, s)
      | None =>
          match read_separator first (read_number 16 4 true 65536) s with
          | Some (g, s) => let '(gs, v4, s) := read_groups n false s in (g :: gs, v4, s)
          | None => ([], false, s)
          end
      end
  end.

Definition read_ipv6_addr : Parser (list Z) := λ s,
  let '(head, head_ipv4, s) := read_groups 8 true s in
  if (length head =? 8)%nat then Some (head, s)
  else if head_ipv4 then None
  else
    '(_, s) ← read_given_char ":" s; '(_, s) ← read_given_char ":" s;
    let '(tail, _, s) := read_groups (8 - (length head + 1)) true s in
    Some (head ++ replicate (8 - length head - length tail) 0 ++ tail, s).

(** [read_ip_addr]: what starts as an IPv4 address is one. *)
Definition read_ip_addr : Parser IpAddr := λ s,
  match read_ipv4_addr s with
  | Some (a, s) => Some (V4 a, s)
  | None => '(a, s) ← read_ipv6_addr s; Some (V6 a, s)
  end.

(** [IpAddr::from_str]: the whole text is read. *)
Definition ip_from_str (s : string) : option IpAddr :=
  '(a, rest) ← read_ip_addr s;
  match rest with EmptyString => Some a | _ => None end.

(** [Display]. *)
Definition ipv4_to_string (x : Z) : string :=
  pretty (octet 3 x) +:+ "." +:+ pretty (octet 2 x) +:+ "." +:+ pretty (octet 1 x) +:+ "."
  +:+ pretty (octet 0 x).

Definition hex_digit (d : Z) : string :=
  String (ascii_of_N (Z.to_N (if d <? 10 then d + 48 else d + 87))) EmptyString.
(** [{:x}] of a [u16]. *)
Definition hex_u16 (x : Z) : string :=
  (if x <? 4096 then "" else hex_digit (x / 4096)) +:+
  (if x <? 256 then "" else hex_digit (x / 256 mod 16)) +:+
  (if x <? 16 then "" else hex_digit (x / 16 mod 16)) +:+ hex_digit (x mod 16).

(** The longest run of zero segments, the first one of that length: where it
    starts and how long it is. *)
Fixpoint longest_zeroes (i : nat) (current longest : nat * nat) (segments : list Z) : nat * nat :=
  match segments with
  | [] => longest
  | x :: l =>
      if x =? 0 then
        let current := ((if (current.2 =? 0)%nat then i else current.1), S current.2) in
        longest_zeroes (S i) current (if (longest.2 <? current.2)%nat then current else longest) l
      else longest_zeroes (S i) (0, 0)%nat longest l
  end.

Definition ipv6_to_string (segments : list Z) : string :=
  match segments with
  | [0; 0; 0; 0; 0; 65535; x; y] => "::ffff:" +:+ ipv4_to_string (x * 65536 + y)
  | _ =>
      let fmt l := join ":" (hex_u16 <$> l) in
      let '(start, len) := longest_zeroes 0 (0, 0)%nat (0, 0)%nat segments in
      if (1 <? len)%nat then
        fmt (take start segments) +:+ "::" +:+ fmt (drop (start + len) segments)
      else fmt segments
  end.

Definition ip_to_string (a : IpAddr) : string :=
  match a with V4 x => ipv4_to_string x | V6 l => ipv6_to_string l end.

(** [SocketAddr]'s [Display]. *)
Definition socket_addr_to_string (a : IpAddr) (port : Z) : string :=
  match a with
  | V4 x => ipv4_to_string x +:+ ":" +:+ pretty port
  | V6 l => "[" +:+ ipv6_to_string l +:+ "]:" +:+ pretty port
  end.

Definition valid_ip (a : IpAddr) : Prop :=
  match a with
  | V4 x => 0 <= x < 2 ^ 32
  | V6 l => length l = 8%nat ∧ Forall (λ x, 0 <= x < 2 ^ 16) l
  end.

Example ipv6_texts :
  (ip_to_string <$> ip_from_str "2001:DB8:0:0:1:0:0:1", ip_to_string <$> ip_from_str "::",
   ip_to_string <$> ip_from_str "::ffff:10.0.0.1", ip_from_str "1:2:3:4:5:6:7:8:9",
   ip_from_str "01.2.3.4", ip_to_string <$> ip_from_str "64:ff9b::1.2.3.4") =
  (Some "2001:db8::1:0:0:1", Some "::", Some "::ffff:10.0.0.1", None, None,
   Some "64:ff9b::102:304").
Proof. vm_compute. reflexivity. Qed.

(** ** [config/deployed/networking.rs] *)

(** [pnet_datalink::interfaces()]: the addresses of each interface. *)
Record IpNetwork := mkIpNetwork { network_ip : IpAddr; network_prefix : Z }.
Definition NetworkInterface : Type := list IpNetwork.

Inductive NetworkInterfaceError := PublicAddressNotFound | MultiplePublicAddresses.

(** The networks of the [ipnet] crate. *)
Class IpNetOps := {
  IpNet : Type;
  ipnet_parse : string → option IpNet;
  ipnet_contains : IpNet → IpAddr → bool;
}.

(** A network in CIDR notation. *)
Definition cidr (a b c d len : Z) : string :=
  ipv4_to_string (of_octets a b c d) +:+ "/" +:+ pretty len.

(** An IPv4 network contains the IPv4 addresses that share its prefix. *)
Class IpNetLaws `{IpNetOps} : Prop := {
  ipnet_v4 a b c d len :
    0 <= a < 256 → 0 <= b < 256 → 0 <= c < 256 → 0 <= d < 256 → 0 <= len <= 32 →
    ∃ n, ipnet_parse (cidr a b c d len) = Some n ∧
      (∀ x, ipnet_contains n (V4 x) =
              (Z.shiftr x (32 - len) =? Z.shiftr (of_octets a b c d) (32 - len))) ∧
      ∀ l, ipnet_contains n (V6 l) = false;
}.

Definition RESERVED_NETWORKS : list string :=
  ["0.0.0.0/8"; "0.0.0.0/32"; "100.64.0.0/10"; "127.0.0.0/8"; "169.254.0.0/16"; "172.16.0.0/12";
   "192.0.0.0/24"; "192.0.0.0/29"; "192.0.0.8/32"; "192.0.0.9/32"; "192.0.0.10/32";
   "192.0.0.170/32"; "192.0.0.171/32"; "192.0.2.0/24"; "192.31.196.0/24"; "192.52.193.0/24";
   "192.88.99.0/24"; "192.168.0.0/16"; "192.175.48.0/24"; "198.18.0.0/15"; "198.51.100.0/24";
   "203.0.113.0/24"; "240.0.0.0/4"; "255.255.255.255/32"].

Section networking.
Context `{!IpNetOps}.

(** The networks are parsed at the first use, each [unwrap]ped. *)
Definition is_public_ip_addr {E} (addr : IpAddr) : outcome E bool :=
  ranges ← mapM (M := outcome E) (λ net, unwrap (ipnet_parse net)) RESERVED_NETWORKS;
  Ok (forallb (λ range, negb (ipnet_contains range addr)) ranges).

Definition cons_if {A} (keep : bool) (a : A) (l : list A) : list A := if keep then a :: l else l.

(** The filter of the interfaces' addresses. *)
Fixpoint public_ips {E} (ips : list IpNetwork) : outcome E (list IpAddr) :=
  match ips with
  | [] => Ok []
  | ip :: ips =>
      keep ← (if is_ipv4 (network_ip ip) then is_public_ip_addr (E := E) (network_ip ip)
              else Ok false);
      rest ← public_ips ips;
      Ok (cons_if keep (network_ip ip) rest)
  end.

Definition find_public_ip_addr (interfaces : list NetworkInterface)
    : outcome NetworkInterfaceError IpAddr :=
  addrs ← public_ips (concat interfaces);
  match addrs with
  | [] => Err PublicAddressNotFound
  | [addr] => Ok addr
  | _ => Err MultiplePublicAddresses
  end.
End networking.

(** ** Lemmas *)

Lemma of_octets_range a b c d :
  0 <= a < 256 → 0 <= b < 256 → 0 <= c < 256 → 0 <= d < 256 → 0 <= of_octets a b c d < 2 ^ 32.
Proof. unfold of_octets. lia. Qed.

Lemma octet_range i x : 0 <= octet i x < 256.
Proof. unfold octet. apply Z.mod_pos_bound. lia. Qed.

Lemma of_octets_octet x :
  0 <= x < 2 ^ 32 → of_octets (octet 3 x) (octet 2 x) (octet 1 x) (octet 0 x) = x.
Proof.
  intros Hx. unfold of_octets, octet.
  change (2 ^ (8 * 3)) with 16777216; change (2 ^ (8 * 2)) with 65536; change (2 ^ (8 * 1)) with 256;
  change (2 ^ (8 * 0)) with 1; change (2 ^ 24) with 16777216; change (2 ^ 16) with 65536;
  change (2 ^ 8) with 256; change (2 ^ 32) with 4294967296 in Hx.
  Z.to_euclidean_division_equations. lia.
Qed.

Lemma octet_of_octets a b c d :
  0 <= a < 256 → 0 <= b < 256 → 0 <= c < 256 → 0 <= d < 256 →
  octet 3 (of_octets a b c d) = a ∧ octet 2 (of_octets a b c d) = b ∧
  octet 1 (of_octets a b c d) = c ∧ octet 0 (of_octets a b c d) = d.
Proof.
  intros Ha Hb Hc Hd. unfold of_octets, octet.
  change (2 ^ (8 * 3)) with 16777216; change (2 ^ (8 * 2)) with 65536; change (2 ^ (8 * 1)) with 256;
  change (2 ^ (8 * 0)) with 1; change (2 ^ 24) with 16777216; change (2 ^ 16) with 65536;
  change (2 ^ 8) with 256.
  Z.to_euclidean_division_equations. lia.
Qed.

(** A digit does not continue what was read. *)
Definition stops (radix : Z) (s : string) : bool :=
  match s with EmptyString => true | String c _ => bool_decide (to_digit radix c = None) end.

Lemma read_digits_app radix max r k s rest n m :
  read_digits radix max r k s = Some (n, m, "") → stops radix rest = true →
  read_digits radix max r k (s +:+ rest) = Some (n, m, rest).
Proof.
  revert max r k. induction s as [|c s IH]; intros max r k.
  - rewrite str_app_nil_l. cbn. intros [= <- <-]. destruct rest as [|c rest]; [done|]. cbn.
    intros Hd%bool_decide_eq_true. by rewrite Hd.
  - rewrite str_app_cons. cbn. destruct (to_digit radix c); [|done].
    destruct max; [done|]. apply IH.
Qed.

Lemma read_number_app radix max zero bound s rest n :
  s ≠ "" → read_number radix max zero bound s = Some (n, "") → stops radix rest = true →
  read_number radix max zero bound (s +:+ rest) = Some (n, rest).
Proof.
  unfold read_number. intros Hs Hn Hrest.
  destruct (read_digits radix max 0 0 s) as [[[v k] r]|] eqn:E; [|done]. cbn in Hn.
  assert (r = "") as -> by (by repeat case_match; simplify_eq).
  rewrite (read_digits_app _ _ _ _ _ rest _ _ E Hrest). cbn.
  assert (starts_with "0" (s +:+ rest) = starts_with "0" s) as ->.
  { destruct s as [|c s]; [done|]. rewrite str_app_cons. unfold starts_with. cbn [strip_prefix]. by destruct (ascii_dec _ _). }
  repeat case_match; by simplify_eq.
Qed.

(** Every [u8] is printed in a way it is read back. *)
Lemma read_octet_pretty_all :
  forallb (λ n, bool_decide (read_octet (pretty n) = Some (n, "")) && bool_decide (pretty n ≠ ""))
    (seqZ 0 256) = true.
Proof. by vm_compute. Qed.

Lemma read_octet_pretty n rest : 0 <= n < 256 → stops 10 rest = true →
  read_octet (pretty n +:+ rest) = Some (n, rest).
Proof.
  intros Hn Hrest. pose proof read_octet_pretty_all as Hall. rewrite forallb_forall in Hall.
  specialize (Hall n). rewrite <-list_elem_of_In, elem_of_seqZ in Hall.
  apply andb_true_iff in Hall as [Hr%bool_decide_eq_true Hne%bool_decide_eq_true]; [|lia].
  by apply read_number_app.
Qed.

Lemma read_ipv4_to_string x rest : 0 <= x < 2 ^ 32 → stops 10 rest = true →
  read_ipv4_addr (ipv4_to_string x +:+ rest) = Some (x, rest).
Proof.
  intros Hx Hrest. unfold ipv4_to_string, read_ipv4_addr. rewrite !str_app_assoc.
  do 3 (rewrite read_octet_pretty by first [apply octet_range|done];
    cbn [mbind option_bind]; rewrite str_app_cons, str_app_nil_l;
    cbn [read_given_char Ascii.eqb Bool.eqb mbind option_bind]).
  rewrite read_octet_pretty by first [apply octet_range|done]. cbn [mbind option_bind].
  by rewrite of_octets_octet.
Qed.

(** What is printed as an IPv4 address is read back. *)
Lemma ipv4_roundtrip x : 0 <= x < 2 ^ 32 → ip_from_str (ip_to_string (V4 x)) = Some (V4 x).
Proof.
  intros Hx. unfold ip_from_str, read_ip_addr, ip_to_string. rewrite <-(str_app_nil_r (ipv4_to_string x)).
  by rewrite read_ipv4_to_string.
Qed.

(** *** The reserved networks *)

(** The blocks that are not public for the server, by their octets. *)
Definition reserved_octets (a b c d : Z) : bool :=
  (a =? 0) || (a =? 127) || (240 <=? a)
  || ((a =? 100) && (64 <=? b) && (b <? 128))
  || ((a =? 169) && (b =? 254))
  || ((a =? 172) && (16 <=? b) && (b <? 32))
  || ((a =? 192) && (((b =? 0) && ((c =? 0) || (c =? 2))) || ((b =? 31) && (c =? 196))
        || ((b =? 52) && (c =? 193)) || ((b =? 88) && (c =? 99)) || (b =? 168)
        || ((b =? 175) && (c =? 48))))
  || ((a =? 198) && (((18 <=? b) && (b <? 20)) || ((b =? 51) && (c =? 100))))
  || ((a =? 203) && (b =? 0) && (c =? 113)).

Definition public_address (a : IpAddr) : bool :=
  match a with
  | V4 x => negb (reserved_octets (octet 3 x) (octet 2 x) (octet 1 x) (octet 0 x))
  | V6 _ => false
  end.

(** The networks of the source, taken apart. *)
Definition reserved_cidrs : list (Z * Z * Z * Z * Z) :=
  [(0, 0, 0, 0, 8); (0, 0, 0, 0, 32); (100, 64, 0, 0, 10); (127, 0, 0, 0, 8); (169, 254, 0, 0, 16);
   (172, 16, 0, 0, 12); (192, 0, 0, 0, 24); (192, 0, 0, 0, 29); (192, 0, 0, 8, 32);
   (192, 0, 0, 9, 32); (192, 0, 0, 10, 32); (192, 0, 0, 170, 32); (192, 0, 0, 171, 32);
   (192, 0, 2, 0, 24); (192, 31, 196, 0, 24); (192, 52, 193, 0, 24); (192, 88, 99, 0, 24);
   (192, 168, 0, 0, 16); (192, 175, 48, 0, 24); (198, 18, 0, 0, 15); (198, 51, 100, 0, 24);
   (203, 0, 113, 0, 24); (240, 0, 0, 0, 4); (255, 255, 255, 255, 32)].

Definition in_cidr (x : Z) (net : Z * Z * Z * Z * Z) : bool :=
  let '(a, b, c, d, len) := net in
  Z.shiftr x (32 - len) =? Z.shiftr (of_octets a b c d) (32 - len).

Lemma reserved_cidrs_texts :
  RESERVED_NETWORKS = (λ '(a, b, c, d, len), cidr a b c d len) <$> reserved_cidrs.
Proof. by vm_compute. Qed.

Lemma div_eqb x m q : 0 < m → (x / m =? q) = (q * m <=? x) && (x <? q * m + m).
Proof. intros Hm. apply eq_true_iff_eq. rewrite andb_true_iff. Z.to_euclidean_division_equations. nia. Qed.

(** The addresses of a network are an interval. *)
Definition bounds (net : Z * Z * Z * Z * Z) : Z * Z :=
  let '(a, b, c, d, len) := net in
  let size := 2 ^ (32 - len) in
  let first := of_octets a b c d / size * size in (first, first + size).

Definition in_interval (x : Z) (i : Z * Z) : bool := (i.1 <=? x) && (x <? i.2).

Lemma in_cidr_bounds x a b c d len :
  0 <= len <= 32 → in_cidr x (a, b, c, d, len) = in_interval x (bounds (a, b, c, d, len)).
Proof.
  intros Hl. unfold in_cidr, in_interval, bounds. cbn [fst snd].
  rewrite !Z.shiftr_div_pow2 by lia. apply div_eqb, Z.pow_pos_nonneg; lia.
Qed.

Lemma reserved_intervals : bounds <$> reserved_cidrs =
  [(0, 16777216); (0, 1); (1681915904, 1686110208); (2130706432, 2147483648); (2851995648,
   2852061184); (2886729728, 2887778304); (3221225472, 3221225728); (3221225472, 3221225480);
   (3221225480, 3221225481); (3221225481, 3221225482); (3221225482, 3221225483); (3221225642,
   3221225643); (3221225643, 3221225644); (3221225984, 3221226240); (3223307264, 3223307520);
   (3224682752, 3224683008); (3227017984, 3227018240); (3232235520, 3232301056); (3232706560,
   3232706816); (3323068416, 3323199488); (3325256704, 3325256960); (3405803776, 3405804032);
   (4026531840, 4294967296); (4294967295, 4294967296)].
Proof. by vm_compute. Qed.

Lemma reserved_lengths : Forall (λ net : Z * Z * Z * Z * Z, 0 <= net.2 <= 32) reserved_cidrs.
Proof. unfold reserved_cidrs. repeat constructor; cbn; lia. Qed.

(** An interval of addresses by the octets of the addresses, in the order of
    the list. *)
Definition reserved_blocks (a b c d : Z) : list bool :=
  [(a =? 0); (a =? 0) && (b =? 0) && (c =? 0) && (d =? 0); (a =? 100) && (64 <=? b) && (b <?
   128); (a =? 127); (a =? 169) && (b =? 254); (a =? 172) && (16 <=? b) && (b <? 32); (a =?
   192) && (b =? 0) && (c =? 0); (a =? 192) && (b =? 0) && (c =? 0) && (d <? 8); (a =? 192) &&
   (b =? 0) && (c =? 0) && (d =? 8); (a =? 192) && (b =? 0) && (c =? 0) && (d =? 9); (a =?
   192) && (b =? 0) && (c =? 0) && (d =? 10); (a =? 192) && (b =? 0) && (c =? 0) && (d =?
   170); (a =? 192) && (b =? 0) && (c =? 0) && (d =? 171); (a =? 192) && (b =? 0) && (c =? 2);
   (a =? 192) && (b =? 31) && (c =? 196); (a =? 192) && (b =? 52) && (c =? 193); (a =? 192) &&
   (b =? 88) && (c =? 99); (a =? 192) && (b =? 168); (a =? 192) && (b =? 175) && (c =? 48); (a
   =? 198) && (18 <=? b) && (b <? 20); (a =? 198) && (b =? 51) && (c =? 100); (a =? 203) && (b
   =? 0) && (c =? 113); (240 <=? a); (a =? 255) && (b =? 255) && (c =? 255) && (d =? 255)].

Lemma reserved_blocks_octets a b c d : 0 <= a < 256 →
  existsb id (reserved_blocks a b c d) = reserved_octets a b c d.
Proof.
  intros Ha. unfold reserved_blocks, reserved_octets, id. cbn [existsb].
  destruct (Z.eqb_spec a 192) as [->|H192]; [cbn; btauto|].
  destruct (Z.eqb_spec a 255) as [->|H255]; [cbn; btauto|].
  destruct (Z.eqb_spec a 0) as [->|H0]; [done|]. cbn [andb orb]. btauto.
Qed.

Lemma in_reserved_octets a b c d :
  0 <= a < 256 → 0 <= b < 256 → 0 <= c < 256 → 0 <= d < 256 →
  existsb (in_cidr (of_octets a b c d)) reserved_cidrs = reserved_octets a b c d.
Proof.
  intros Ha Hb Hc Hd. rewrite <-(reserved_blocks_octets a b c d Ha).
  trans (existsb (in_interval (of_octets a b c d)) (bounds <$> reserved_cidrs)).
  - pose proof reserved_lengths as Hl. induction Hl as [|[[[[??]?]?]?] l Hn Hl IH]; [done|].
    cbn [existsb fmap list_fmap]. by rewrite IH, in_cidr_bounds.
  - rewrite reserved_intervals. unfold in_interval, reserved_blocks, of_octets, id.
    cbn [existsb fst snd].
    change (2 ^ 24) with 16777216; change (2 ^ 16) with 65536; change (2 ^ 8) with 256.
    by repeat (apply f_equal2; [lia|]).
Qed.

Section networking_lemmas.
Context `{!IpNetOps, !IpNetLaws}.

(** The networks parse, and contain what their prefixes say. *)
Lemma reserved_parse (nets : list (Z * Z * Z * Z * Z)) {E} :
  Forall (λ '(a, b, c, d, len), 0 <= a < 256 ∧ 0 <= b < 256 ∧ 0 <= c < 256 ∧ 0 <= d < 256 ∧
                                0 <= len <= 32) nets →
  ∃ ranges, mapM (M := outcome E) (λ net, unwrap (ipnet_parse net))
      ((λ '(a, b, c, d, len), cidr a b c d len) <$> nets) = Ok ranges ∧
    (∀ x, existsb (λ range, ipnet_contains range (V4 x)) ranges = existsb (in_cidr x) nets).
Proof.
  induction 1 as [|[[[[a b] c] d] len] nets (Ha & Hb & Hc & Hd & Hl) _ (ranges & Hr & Hin)];
    [by exists []|].
  destruct (ipnet_v4 a b c d len Ha Hb Hc Hd Hl) as (n & Hn & H4 & H6).
  exists (n :: ranges). cbn [fmap list_fmap mapM]. rewrite Hn. cbn [unwrap mbind outcome_bind].
  change (list_fmap _ _ ?f ?l) with (f <$> l). rewrite Hr. split; [done|].
  intros x. cbn [existsb]. by rewrite H4, Hin.
Qed.

Lemma is_public_ip_addr_exact {E} x : 0 <= x < 2 ^ 32 →
  is_public_ip_addr (E := E) (V4 x) = Ok (public_address (V4 x)).
Proof.
  intros Hx. unfold is_public_ip_addr. rewrite reserved_cidrs_texts.
  destruct (reserved_parse (E := E) reserved_cidrs) as (ranges & -> & Hin).
  { unfold reserved_cidrs. repeat constructor; lia. }
  cbn [mbind outcome_bind public_address]. f_equal.
  rewrite <-in_reserved_octets by apply octet_range. rewrite of_octets_octet, <-Hin by done.
  clear Hin.
  induction ranges as [|r l IH]; [done|]. cbn [forallb existsb]. by rewrite IH, negb_orb.
Qed.

Lemma public_ips_filter {E} ips : Forall valid_ip (network_ip <$> ips) →
  public_ips (E := E) ips = Ok (filter public_address (network_ip <$> ips)).
Proof.
  induction ips as [|ip ips IH]; [done|]. cbn [fmap list_fmap]. intros [Hip Hips]%list.Forall_cons.
  cbn [public_ips]. destruct (network_ip ip) as [x|l]; cbn [is_ipv4].
  - rewrite is_public_ip_addr_exact by done. cbn [mbind outcome_bind]. rewrite IH by done.
    cbn [mbind outcome_bind]. rewrite filter_cons. unfold cons_if.
    by destruct (public_address (V4 x)).
  - cbn [mbind outcome_bind]. rewrite IH by done. cbn [mbind outcome_bind cons_if].
    by rewrite filter_cons.
Qed.

(** The public address of the machine is found exactly.  The twenty-four
    reserved networks of the source parse, so the search never panics, and they
    are the blocks that [reserved_octets] lists (eight of them lie in others):
    an address is kept when it is an IPv4 address outside those blocks.  Over
    all interfaces, no address kept is an error, more than one is an error, and
    the only one kept is the answer. *)
Theorem find_public_ip_addr_spec interfaces :
  Forall valid_ip (network_ip <$> concat interfaces) →
  find_public_ip_addr interfaces =
    match filter public_address (network_ip <$> concat interfaces) with
    | [] => Err PublicAddressNotFound
    | [a] => Ok a
    | _ => Err MultiplePublicAddresses
    end.
Proof. intros Hips. unfold find_public_ip_addr. by rewrite public_ips_filter. Qed.

(** The private network 10.0.0.0/8 and the multicast addresses are not among
    the reserved networks: such an address of the machine is taken as public. *)
Lemma private_ten_is_public {E} a b c d :
  a = 10 ∨ 224 <= a < 240 → 0 <= b < 256 → 0 <= c < 256 → 0 <= d < 256 →
  is_public_ip_addr (E := E) (V4 (of_octets a b c d)) = Ok true.
Proof.
  intros Ha Hb Hc Hd. assert (0 <= a < 256) by lia.
  rewrite is_public_ip_addr_exact by (apply of_octets_range; lia). unfold public_address.
  destruct (octet_of_octets a b c d) as (-> & -> & -> & ->); [done..|].
  unfold reserved_octets. replace (240 <=? a) with false by lia.
  repeat match goal with |- context [a =? ?k] => replace (a =? k) with false by lia end. done.
Qed.
End networking_lemmas.

(** ** Witness *)

Module NetInstances.

(** A parser of networks. *)
Definition cidr_parse (s : string) : option (Z * Z) :=
  '(x, rest) ← read_ipv4_addr s;
  '(_, rest) ← read_given_char "/" rest;
  '(len, rest) ← read_number 10 2 false 33 rest;
  match rest with EmptyString => Some (x, len) | _ => None end.

#[export] Instance ipnet_w : IpNetOps := {|
  IpNet := Z * Z;
  ipnet_parse := cidr_parse;
  ipnet_contains n a := match a with
    | V4 x => Z.shiftr x (32 - n.2) =? Z.shiftr n.1 (32 - n.2)
    | V6 _ => false
    end |}.

Lemma read_length_all :
  forallb (λ n, bool_decide (read_number 10 2 false 33 (pretty n) = Some (n, ""))) (seqZ 0 33) = true.
Proof. by vm_compute. Qed.

#[export] Instance ipnet_laws_w : IpNetLaws.
Proof.
  split. intros a b c d len Ha Hb Hc Hd Hl. exists (of_octets a b c d, len).
  split; [|split; intros ?; reflexivity].
  cbn [ipnet_parse ipnet_w]. unfold cidr_parse, cidr.
  rewrite str_app_cons, str_app_nil_l, read_ipv4_to_string by (done || by apply of_octets_range).
  cbn [mbind option_bind read_given_char Ascii.eqb Bool.eqb].
  pose proof read_length_all as Hall. rewrite forallb_forall in Hall.
  specialize (Hall len). rewrite <-list_elem_of_In, elem_of_seqZ in Hall.
  apply bool_decide_eq_true in Hall; [|lia]. by rewrite Hall.
Qed.

Definition interfaces_w : list NetworkInterface :=
  [[mkIpNetwork (V4 (of_octets 127 0 0 1)) 8; mkIpNetwork (V6 [0; 0; 0; 0; 0; 0; 0; 1]) 128];
   [mkIpNetwork (V4 (of_octets 192 168 0 7)) 24; mkIpNetwork (V4 (of_octets 52 1 2 3)) 24]].

Lemma find_public_ip_addr_spec_witness :
  find_public_ip_addr interfaces_w = Ok (V4 (of_octets 52 1 2 3)) ∧
  find_public_ip_addr [[mkIpNetwork (V4 (of_octets 10 0 0 1)) 8]] = Ok (V4 (of_octets 10 0 0 1)).
Proof.
  split.
  - rewrite find_public_ip_addr_spec; [vm_compute; reflexivity|].
    unfold interfaces_w, of_octets. cbn [concat app fmap list_fmap network_ip].
    repeat (apply list.Forall_cons; split); try apply list.Forall_nil_2; cbn [valid_ip length]; try lia.
    split; [reflexivity|]. repeat (apply list.Forall_cons; split); try apply list.Forall_nil_2; lia.
  - rewrite find_public_ip_addr_spec; [vm_compute; reflexivity|].
    unfold of_octets. cbn [concat app fmap list_fmap network_ip].
    apply list.Forall_cons; split; [cbn [valid_ip]; lia|apply list.Forall_nil_2].
Defined.
End NetInstances.
