(* ===== verification/Analytics.v ===== *)
(** * Analytics (analytics/, and where the handlers record events)

    The records exported about what the server does, the events they are made
    from, and the geographic data of who follows a link.  The collectors and
    their export are a library: a record that is not taken is logged. *)

From Stdlib Require Import Ascii.
From stdpp Require Import pretty.
From S2P Require Import Prelude RustStr Externals AccountId Errors Types Database World Net.
From S2P Require Import RelayHandlers Config.
Open Scope Z_scope.

(** ** The kinds of records *)

Inductive DataKind :=
| SubscriberNotifications | SubscriberUpdates | GetNotificationsKind | MarkNotificationsAsReadKind
| NotificationLinks | RelayRequests.

Definition data_kind_as_str (k : DataKind) : string :=
  match k with
  | SubscriberNotifications => "subscriber_notifications"
  | SubscriberUpdates => "subscriber_updates"
  | GetNotificationsKind => "get_notifications"
  | MarkNotificationsAsReadKind => "mark_notifications_as_read"
  | NotificationLinks => "notification_links"
  | RelayRequests => "relay_requests"
  end.

Inductive NotifyClientMethod := MethodSubscribe | MethodUpdate | MethodUnsubscribe.

Definition client_method_to_string (m : NotifyClientMethod) : string :=
  match m with
  | MethodSubscribe => "subscribe" | MethodUpdate => "update" | MethodUnsubscribe => "unsubscribe"
  end.

(** [wc::geoip::Data]. *)
Record GeoData := mkGeoData {
  geo_continent : option string;
  geo_country : option string;
  geo_region : option (list string);
}.

(** ** Records from events *)

Section records.
Context `{!Ext}.

Definition account_hash (a : AccountId) : string := hex_encode (sha256 (as_bytes (account_str a))).

(** subscriber_update.rs. *)
Record SubscriberUpdateParams := mkSubscriberUpdateParams {
  su_project_pk : Uuid;
  su_project_id : string;
  su_pk : Uuid;
  su_account : AccountId;
  su_updated_by_iss : string;
  su_updated_by_domain : string;
  su_method : NotifyClientMethod;
  su_old_scope : gset Uuid;
  su_new_scope : gset Uuid;
  su_notification_topic : Topic;
  su_topic : Topic;
}.

Record SubscriberUpdate := mkSubscriberUpdate {
  sur_event_at : Z;
  sur_project_pk : string;
  sur_project_id : string;
  sur_pk : string;
  sur_account : string;
  sur_account_hash : string;
  sur_updated_by_iss : string;
  sur_updated_by_domain : string;
  sur_method : string;
  sur_old_scope : string;
  sur_new_scope : string;
  sur_notification_topic : string;
  sur_topic : string;
}.

Definition join_scope (scope : gset Uuid) : string := join "," (uuid_to_string <$> elements scope).

Definition SubscriberUpdate_from (now : Z) (p : SubscriberUpdateParams) : SubscriberUpdate :=
  mkSubscriberUpdate now (uuid_to_string (su_project_pk p)) (su_project_id p)
    (uuid_to_string (su_pk p)) (account_str (su_account p)) (account_hash (su_account p))
    (su_updated_by_iss p) (su_updated_by_domain p) (client_method_to_string (su_method p))
    (join_scope (su_old_scope p)) (join_scope (su_new_scope p)) (su_notification_topic p)
    (su_topic p).

(** subscriber_notification.rs. *)
Record SubscriberNotificationParams := mkSubscriberNotificationParams {
  snp_project_pk : Uuid;
  snp_project_id : string;
  snp_subscriber_pk : Uuid;
  snp_account : AccountId;
  snp_subscriber_notification_pk : Uuid;
  snp_notification_pk : Uuid;
  snp_notification_type : Uuid;
  snp_notify_topic : Topic;
  snp_message_id : string;
}.

Record SubscriberNotification := mkSubscriberNotification {
  snr_event_at : Z;
  snr_project_pk : string;
  snr_project_id : string;
  snr_subscriber_pk : string;
  snr_account : string;
  snr_account_hash : string;
  snr_subscriber_notification_pk : string;
  snr_notification_pk : string;
  snr_notification_type : string;
  snr_notification_topic : string;
  snr_message_id : string;
}.

Definition SubscriberNotification_from (now : Z) (p : SubscriberNotificationParams)
    : SubscriberNotification :=
  mkSubscriberNotification now (uuid_to_string (snp_project_pk p)) (snp_project_id p)
    (uuid_to_string (snp_subscriber_pk p)) (account_str (snp_account p))
    (account_hash (snp_account p)) (uuid_to_string (snp_subscriber_notification_pk p))
    (uuid_to_string (snp_notification_pk p)) (uuid_to_string (snp_notification_type p))
    (snp_notify_topic p) (snp_message_id p).

(** get_notifications.rs. *)
Record GetNotificationsEvent := mkGetNotificationsEvent {
  gne_topic : Topic;
  gne_message_id : string;
  gne_get_by_iss : string;
  gne_get_by_domain : string;
  gne_project_pk : Uuid;
  gne_project_id : string;
  gne_subscriber_pk : Uuid;
  gne_subscriber_account : AccountId;
  gne_notification_topic : Topic;
  gne_subscriber_notification_pk : Uuid;
  gne_notification_pk : Uuid;
  gne_notification_type : Uuid;
  gne_returned_count : nat;
}.

Record GetNotificationsRecord := mkGetNotificationsRecord {
  gnr_event_at : Z;
  gnr_topic : string;
  gnr_message_id : string;
  gnr_get_by_iss : string;
  gnr_get_by_domain : string;
  gnr_project_pk : string;
  gnr_project_id : string;
  gnr_subscriber_pk : string;
  gnr_subscriber_account : string;
  gnr_subscriber_account_hash : string;
  gnr_notification_topic : string;
  gnr_subscriber_notification_id : string;
  gnr_notification_id : string;
  gnr_notification_type : string;
  gnr_returned_count : nat;
}.

Definition GetNotifications_from (now : Z) (p : GetNotificationsEvent) : GetNotificationsRecord :=
  mkGetNotificationsRecord now (gne_topic p) (gne_message_id p) (gne_get_by_iss p)
    (gne_get_by_domain p) (uuid_to_string (gne_project_pk p)) (gne_project_id p)
    (uuid_to_string (gne_subscriber_pk p)) (account_str (gne_subscriber_account p))
    (account_hash (gne_subscriber_account p)) (gne_notification_topic p)
    (uuid_to_string (gne_subscriber_notification_pk p)) (uuid_to_string (gne_notification_pk p))
    (uuid_to_string (gne_notification_type p)) (gne_returned_count p).

(** mark_notifications_as_read.rs. *)
Record MarkAsReadEvent := mkMarkAsReadEvent {
  mre_topic : Topic;
  mre_message_id : string;
  mre_by_iss : string;
  mre_by_domain : string;
  mre_project_pk : Uuid;
  mre_project_id : string;
  mre_subscriber_pk : Uuid;
  mre_subscriber_account : AccountId;
  mre_notification_topic : Topic;
  mre_subscriber_notification_pk : Uuid;
  mre_notification_pk : Uuid;
  mre_marked_count : nat;
}.

Record MarkAsReadRecord := mkMarkAsReadRecord {
  mrr_event_at : Z;
  mrr_topic : string;
  mrr_message_id : string;
  mrr_get_by_iss : string;
  mrr_get_by_domain : string;
  mrr_project_pk : string;
  mrr_project_id : string;
  mrr_subscriber_pk : string;
  mrr_subscriber_account : string;
  mrr_subscriber_account_hash : string;
  mrr_notification_topic : string;
  mrr_subscriber_notification_pk : string;
  mrr_notification_pk : string;
  mrr_marked_count : nat;
}.

Definition MarkNotificationsAsRead_from (now : Z) (p : MarkAsReadEvent) : MarkAsReadRecord :=
  mkMarkAsReadRecord now (mre_topic p) (mre_message_id p) (mre_by_iss p) (mre_by_domain p)
    (uuid_to_string (mre_project_pk p)) (mre_project_id p) (uuid_to_string (mre_subscriber_pk p))
    (account_str (mre_subscriber_account p)) (account_hash (mre_subscriber_account p))
    (mre_notification_topic p) (uuid_to_string (mre_subscriber_notification_pk p))
    (uuid_to_string (mre_notification_pk p)) (mre_marked_count p).

(** notification_link.rs. *)
Record NotificationLinkParams := mkNotificationLinkParams {
  nl_project_pk : Uuid;
  nl_project_id : string;
  nl_subscriber_pk : Uuid;
  nl_subscriber_account : AccountId;
  nl_notification_topic : Topic;
  nl_subscriber_notification_pk : Uuid;
  nl_notification_pk : Uuid;
  nl_notification_type : Uuid;
  nl_geo : option GeoData;
  nl_user_agent : option string;
}.

Record NotificationLinkRecord := mkNotificationLinkRecord {
  nlr_project_pk : string;
  nlr_project_id : string;
  nlr_subscriber_pk : string;
  nlr_subscriber_account : string;
  nlr_subscriber_account_hash : string;
  nlr_notification_topic : string;
  nlr_subscriber_notification_id : string;
  nlr_notification_id : string;
  nlr_notification_type : string;
  nlr_region : option string;
  nlr_country : option string;
  nlr_continent : option string;
  nlr_user_agent : option string;
}.

Definition NotificationLink_from (p : NotificationLinkParams) : NotificationLinkRecord :=
  let '(region, country, continent) :=
    match nl_geo p with
    | Some geo => (join ", " <$> geo_region geo, geo_country geo, geo_continent geo)
    | None => (None, None, None)
    end in
  mkNotificationLinkRecord (uuid_to_string (nl_project_pk p)) (nl_project_id p)
    (uuid_to_string (nl_subscriber_pk p)) (account_str (nl_subscriber_account p))
    (account_hash (nl_subscriber_account p)) (nl_notification_topic p)
    (uuid_to_string (nl_subscriber_notification_pk p)) (uuid_to_string (nl_notification_pk p))
    (uuid_to_string (nl_notification_type p)) region country continent (nl_user_agent p).

(** relay_request.rs. *)
Record RelayResponseParams := mkRelayResponseParams {
  rr_request : RelayIncomingMessage;
  rr_response_message_id : string;
  rr_response_topic : Topic;
  rr_response_tag : Z;
  rr_response_initiated_at : Z;
  rr_response_finished_at : Z;
  rr_response_success : bool;
}.

Record RelayRequestRecord := mkRelayRequestRecord {
  rrr_event_at : Z;
  rrr_request_message_id : string;
  rrr_request_topic : string;
  rrr_request_tag : Z;
  rrr_request_received_at : Z;
  rrr_response_message_id : string;
  rrr_response_topic : string;
  rrr_response_tag : Z;
  rrr_response_initiated_at : Z;
  rrr_response_finished_at : Z;
  rrr_response_success : bool;
}.

Definition RelayRequest_from (now : Z) (p : RelayResponseParams) : RelayRequestRecord :=
  mkRelayRequestRecord now (rim_message_id (rr_request p)) (rim_topic (rr_request p))
    (rim_tag (rr_request p)) (rim_received_at (rr_request p)) (rr_response_message_id p)
    (rr_response_topic p) (rr_response_tag p) (rr_response_initiated_at p)
    (rr_response_finished_at p) (rr_response_success p).
End records.

(** ** What the handlers record *)

(** notify_subscribe.rs: the subscriber and the account [upsert_subscriber]
    returns; nothing was subscribed to before. *)
Definition subscribe_event (proj : Project) (pk : Uuid) (account : AccountId)
    (iss siwe_domain : string) (scope : gset Uuid) (notify_topic topic : Topic)
    : SubscriberUpdateParams :=
  mkSubscriberUpdateParams (pr_id proj) (pr_project_id proj) pk account iss siwe_domain
    MethodSubscribe ∅ scope notify_topic topic.

Section events.
Context (proj : Project) (subscriber : SubscriberWithScope) (iss siwe_domain : string).

(** notify_update.rs and notify_delete.rs: the account of the subscription,
    its scope before and after. *)
Definition update_event (new_scope : gset Uuid) (topic : Topic) : SubscriberUpdateParams :=
  mkSubscriberUpdateParams (pr_id proj) (pr_project_id proj) (sws_id subscriber)
    (sws_account subscriber) iss siwe_domain MethodUpdate (sws_scope subscriber) new_scope
    (sws_topic subscriber) topic.

Definition delete_event (topic : Topic) : SubscriberUpdateParams :=
  mkSubscriberUpdateParams (pr_id proj) (pr_project_id proj) (sws_id subscriber)
    (sws_account subscriber) iss siwe_domain MethodUnsubscribe (sws_scope subscriber) ∅
    (sws_topic subscriber) topic.

(** notify_get_notifications.rs: one for each notification returned. *)
Definition get_events (topic : Topic) (relay_message_id : string) (data : GetNotificationsResult)
    : list GetNotificationsEvent :=
  (λ n, mkGetNotificationsEvent topic relay_message_id iss siwe_domain (pr_id proj)
          (pr_project_id proj) (sws_id subscriber) (sws_account subscriber) (sws_topic subscriber)
          (nv_id n) (nv_notification_id n) (n_type (nv_content n)) (length (notifications data)))
    <$> notifications data.

(** notify_mark_notifications_as_read.rs: one for each notification marked. *)
Definition mark_events (topic : Topic) (relay_message_id : string) (data : list (Uuid * Uuid))
    : list MarkAsReadEvent :=
  (λ n, mkMarkAsReadEvent topic relay_message_id iss siwe_domain (pr_id proj) (pr_project_id proj)
          (sws_id subscriber) (sws_account subscriber) (sws_topic subscriber) n.2 n.1 (length data))
    <$> data.
End events.

(** publisher_service/mod.rs: a notification published as [message_id]. *)
Definition notification_event (n : NotificationToProcess) (message_id : string)
    : SubscriberNotificationParams :=
  mkSubscriberNotificationParams (np_project n) (np_project_project_id n) (np_subscriber n)
    (np_subscriber_account n) (np_subscriber_notification n) (np_notification n)
    (n_type (np_content n)) (np_subscriber_topic n) message_id.

(** publish_relay_message.rs: only the answer to a relay message is recorded,
    at its end, whether it was accepted or given up. *)
Definition relay_event (relay_request : option RelayIncomingMessage) (p : Publish)
    (response_message_id : string) (initiated finished : Z) (success : bool)
    : option RelayResponseParams :=
  request ← relay_request;
  Some (mkRelayResponseParams request response_message_id (pub_topic p) (pub_tag p) initiated
          finished success).

(** ** Who follows a link (handlers/notification_link.rs) *)

(** [HeaderMap::get], and [to_str] of the value: [None] when it is no text. *)
Definition HeaderMap : Type := string → option (option string).

(** [Resolver::lookup_geo_data] of the MaxMind database. *)
Class GeoResolver := { lookup_geo_data : IpAddr → option GeoData }.

(** [str::split(',').next()]. *)
Definition first_item (value : string) : option string := head (split_char "," value).

Definition get_geo_from_x_forwarded_for `{GeoResolver} (headers : HeaderMap)
    : outcome GetGeoError GeoData :=
  header ← ok_or (headers "X-Forwarded-For") MissingXForwardedFor;
  value ← ok_or header XForwardedForNotString;
  ip ← ok_or (first_item value) NoItemsInXForwardedFor;
  ip ← ok_or (ip_from_str (str_trim ip)) FirstItemNotIpAddr;
  ok_or (lookup_geo_data ip) MaxMindResolver.

Definition get_user_agent (headers : HeaderMap) : option string := headers "User-Agent" ≫= id.

(** The event of a followed link: an error about the address is logged only. *)
Definition link_event `{GeoResolver} (resolver : bool) (headers : HeaderMap)
    (n : FollowNotificationLink) : NotificationLinkParams :=
  let geo := if resolver then
               match get_geo_from_x_forwarded_for headers with Ok geo => Some geo | _ => None end
             else None in
  mkNotificationLinkParams (fl_project_pk n) (fl_project_id n) (fl_subscriber_pk n)
    (fl_subscriber_account n) (fl_notification_topic n) (fl_subscriber_notification_id n)
    (fl_notification_id n) (fl_notification_type n) geo (get_user_agent headers).

(** ** The collectors *)

Definition ANALYTICS_EXPORT_TIMEOUT : Z := 30.
Definition DATA_QUEUE_CAPACITY : Z := 8192.

(** How the records of a kind are exported. *)
Record Export := mkExport {
  export_prefix : string;
  export_name : string;
  node_addr : IpAddr;
  file_extension : string;
  bucket_name : string;
  upload_timeout : Z;
  data_queue_capacity : Z;
}.

Definition make_export (data_kind : DataKind) (export_bucket : string) (addr : IpAddr) : Export :=
  mkExport ("notify/" +:+ data_kind_as_str data_kind) (data_kind_as_str data_kind) addr "parquet"
    export_bucket ANALYTICS_EXPORT_TIMEOUT DATA_QUEUE_CAPACITY.

(** What an observer does: it adds one to a counter with the kind and the success
    as attributes, and logs. *)
Record Observation := mkObservation {
  ob_counter : string;
  ob_data_kind : string;
  ob_success : bool;
  ob_log : option string;
}.

(** [Observer] for the batches, the records and the exports of a collector. *)
Definition observe_batch_serialization (data_kind : DataKind) (success : bool) : Observation :=
  mkObservation "analytics_batches_finished" (data_kind_as_str data_kind) success
    (Some (if success then "analytics data batch serialized"
           else "failed to serialize analytics batch")).

Definition observe_collection (data_kind : DataKind) (success : bool) : Observation :=
  mkObservation "analytics_records_collected" (data_kind_as_str data_kind) success
    (if success then None else Some "failed to collect analytics data").

Definition observe_export (data_kind : DataKind) (success : bool) : Observation :=
  mkObservation "analytics_batches_exported" (data_kind_as_str data_kind) success
    (Some (if success then "analytics export failed" else "analytics export failed")).

(** [NotifyAnalytics]: without exports its collectors drop what they are given. *)
Record NotifyAnalytics := mkNotifyAnalytics {
  an_exports : option (DataKind → Export);
  an_geoip_resolver : bool;
}.

Definition with_noop_export : NotifyAnalytics := mkNotifyAnalytics None false.

Definition with_aws_export (export_bucket : string) (addr : IpAddr) (geoip_resolver : bool)
    : NotifyAnalytics :=
  mkNotifyAnalytics (Some (λ k, make_export k export_bucket addr)) geoip_resolver.

(** [analytics::initialize]. *)
Definition initialize `{UrlOps} (c : Configuration) (geoip_resolver : bool) : NotifyAnalytics :=
  match cfg_analytics_export_bucket c with
  | Some export_bucket => with_aws_export export_bucket (cfg_public_ip c) geoip_resolver
  | None => with_noop_export
  end.

(** [NotifyAnalytics::lookup_geo_data]. *)
Definition analytics_lookup_geo_data `{GeoResolver} (a : NotifyAnalytics) (addr : IpAddr)
    : option GeoData :=
  if an_geoip_resolver a then lookup_geo_data addr else None.

(** ** Lemmas *)

Definition ip_char (c : ascii) : bool := ascii_is_digit c || Ascii.eqb c ".".

Lemma octet_chars_all :
  forallb (λ n, str_forallb ip_char (pretty n) && bool_decide (pretty n ≠ "")) (seqZ 0 256) = true.
Proof. by vm_compute. Qed.

Lemma octet_chars i x : str_forallb ip_char (pretty (octet i x)) = true.
Proof.
  pose proof octet_chars_all as Hall. rewrite forallb_forall in Hall.
  specialize (Hall (octet i x)). rewrite <-list_elem_of_In, elem_of_seqZ in Hall.
  apply andb_true_iff in Hall as [Hr _]; [done|]. pose proof (octet_range i x). lia.
Qed.

Lemma ipv4_chars x : str_forallb ip_char (ipv4_to_string x) = true.
Proof.
  unfold ipv4_to_string. by rewrite !str_forallb_app, !octet_chars.
Qed.

Lemma trim_end_id s : str_forallb (λ c, negb (ascii_is_whitespace c)) s = true → trim_end s = s.
Proof.
  induction s as [|c s IH]; [done|]. cbn. intros [Hc%negb_true_iff Hs]%andb_prop.
  rewrite IH by done. destruct s; [|done]. by rewrite Hc.
Qed.

Lemma str_trim_id s : str_forallb (λ c, negb (ascii_is_whitespace c)) s = true → str_trim s = s.
Proof.
  intros Hs. unfold str_trim. rewrite trim_end_id; destruct s as [|c s]; try done; cbn in *;
    apply andb_prop in Hs as [Hc%negb_true_iff Hs]; rewrite Hc; [done|].
  cbn. by rewrite Hc.
Qed.

(** The geographic data recorded is that of the first address the header
    lists, which its sender chose; the proxies after it do not matter. *)
Lemma geo_of_first_address `{!GeoResolver} headers x proxies :
  0 <= x < 2 ^ 32 →
  headers "X-Forwarded-For" = Some (Some (ipv4_to_string x +:+ proxies)) →
  match proxies with EmptyString => True | String c _ => c = ","%char end →
  get_geo_from_x_forwarded_for headers = ok_or (lookup_geo_data (V4 x)) MaxMindResolver.
Proof.
  intros Hx Hh Hp. unfold get_geo_from_x_forwarded_for. rewrite Hh. cbn [ok_or mbind outcome_bind].
  assert (first_item (ipv4_to_string x +:+ proxies) = Some (ipv4_to_string x)) as ->.
  { unfold first_item. assert (Hc : no_char "," (ipv4_to_string x) = true).
    { eapply str_forallb_impl; [|apply ipv4_chars]. intros c Hc. apply negb_true_iff, Ascii.eqb_neq.
      by intros <-. }
    destruct proxies as [|c proxies]; [rewrite str_app_nil_r; by rewrite split_char_no_sep|].
    subst c. by rewrite split_char_app. }
  cbn [ok_or mbind outcome_bind]. rewrite str_trim_id.
  - pose proof (ipv4_roundtrip x Hx) as Hr. cbn [ip_to_string] in Hr. by rewrite Hr.
  - eapply str_forallb_impl; [|apply ipv4_chars]. intros c Hc. apply negb_true_iff.
    destruct (ascii_is_whitespace c) eqn:Hw; [|done]. exfalso. revert Hc Hw.
    revert c. by intros [[] [] [] [] [] [] [] []].
Qed.

(** The counters tell the kinds, the three events and their success apart; the
    log of exports does not. *)
Lemma observers_distinct (k1 k2 : DataKind) (b1 b2 : bool) :
  (observe_export k1 b1 = observe_export k2 b2 ↔ k1 = k2 ∧ b1 = b2) ∧
  ob_log (observe_export k1 b1) = ob_log (observe_export k2 b2) ∧
  ob_counter (observe_export k1 b1) ≠ ob_counter (observe_batch_serialization k2 b2) ∧
  ob_counter (observe_export k1 b1) ≠ ob_counter (observe_collection k2 b2).
Proof. split; [|by destruct b1, b2]. destruct k1, k2, b1, b2; split; try done; naive_solver. Qed.

(** As many records as notifications, each with their number. *)
Lemma get_events_count proj subscriber iss domain topic mid data :
  length (get_events proj subscriber iss domain topic mid data) = length (notifications data) ∧
  Forall (λ e, gne_returned_count e = length (notifications data) ∧
               gne_subscriber_account e = sws_account subscriber)
    (get_events proj subscriber iss domain topic mid data).
Proof. unfold get_events. split; [by rewrite length_fmap|]. by apply Forall_fmap, Forall_true. Qed.

Lemma mark_events_count proj subscriber iss domain topic mid data :
  length (mark_events proj subscriber iss domain topic mid data) = length data ∧
  Forall (λ e, mre_marked_count e = length data ∧ mre_subscriber_account e = sws_account subscriber)
    (mark_events proj subscriber iss domain topic mid data).
Proof. unfold mark_events. split; [by rewrite length_fmap|]. by apply Forall_fmap, Forall_true. Qed.

(** Two kinds of records never share a place in the bucket. *)
Lemma export_prefix_inj k k' bucket addr :
  export_prefix (make_export k bucket addr) = export_prefix (make_export k' bucket addr) → k = k'.
Proof. by destruct k, k'. Qed.
