(* ===== verification/Metrics.v ===== *)
(** * Metrics (metrics.rs)

    The instruments, their views, what each recording method adds to them, and
    what the operations of the server record.  A measurement is an event; what
    the library makes of the events (sums, distributions, exports) is its own. *)

From Stdlib Require Import Ascii.
From stdpp Require Import pretty.
From S2P Require Import Prelude RustStr Externals Concrete AccountId Errors Types Database World.
From S2P Require Import RelayPublish Identity RelayError RelayHandlers Webhook Router NotifyV1.
Open Scope Z_scope.

(** ** Instruments *)

Inductive InstrumentKind := Counter | Histogram | ObservableGauge.

#[global] Instance InstrumentKind_eq_dec : EqDecision InstrumentKind.
Proof. solve_decision. Defined.

Record Instrument := mkInstrument {
  in_kind : InstrumentKind;
  in_name : string;
  in_description : string;
}.

#[global] Instance Instrument_eq_dec : EqDecision Instrument.
Proof. solve_decision. Defined.

Definition RELAY_OUTGOING_MESSAGE_LATENCY : string := "relay_outgoing_message_latency".
Definition RELAY_SUBSCRIBE_LATENCY : string := "relay_subscribe_latency".
Definition KEYS_SERVER_REQUEST_LATENCY : string := "keys_server_request_latency".
Definition REGISTRY_REQUEST_LATENCY : string := "registry_request_latency".

Definition subscribed_project_topics : Instrument :=
  mkInstrument ObservableGauge "subscribed_project_topics" "The number of subscribed project topics".
Definition subscribed_subscriber_topics : Instrument :=
  mkInstrument ObservableGauge "subscribed_subscriber_topics" "The number of subscribed subscriber topics".
Definition subscribe_latency : Instrument :=
  mkInstrument Histogram "subscribe_latency" "The amount of time it took to subscribe to all topics".
Definition http_requests : Instrument :=
  mkInstrument Counter "http_requests" "The number of HTTP requests handled".
Definition http_request_latency : Instrument :=
  mkInstrument Histogram "http_request_latency" "The latency handling HTTP requests".
Definition relay_incoming_messages : Instrument :=
  mkInstrument Counter "relay_incoming_messages" "The number of relay messages handled".
Definition relay_incoming_message_latency : Instrument :=
  mkInstrument Histogram "relay_incoming_message_latency" "The latency handling relay messages".
Definition relay_outgoing_messages : Instrument :=
  mkInstrument Counter "relay_outgoing_messages" "The number of outgoing relay messages being published (not including retries)".
Definition relay_outgoing_message_failures : Instrument :=
  mkInstrument Counter "relay_outgoing_message_failures" "The number of publish fails".
Definition relay_outgoing_message_latency : Instrument :=
  mkInstrument Histogram RELAY_OUTGOING_MESSAGE_LATENCY "The latency publishing relay messages w/ built-in retry".
Definition relay_outgoing_message_publish_latency : Instrument :=
  mkInstrument Histogram "relay_outgoing_message_publish_latency" "The latency publishing relay messages".
Definition relay_subscribes : Instrument :=
  mkInstrument Counter "relay_subscribes" "The number of subscribes to relay topics (not including retries)".
Definition relay_subscribe_failures : Instrument :=
  mkInstrument Counter "relay_subscribe_failures" "The number of failures to subscribe to relay topics".
Definition relay_subscribe_latency : Instrument :=
  mkInstrument Histogram RELAY_SUBSCRIBE_LATENCY "The latency subscribing to relay topics w/ built-in retry".
Definition relay_subscribe_request_latency : Instrument :=
  mkInstrument Histogram "relay_subscribe_request_latency" "The latency subscribing to relay topics".
Definition relay_batch_subscribes : Instrument :=
  mkInstrument Counter "relay_batch_subscribes" "The number of batch subscribes to relay topics (not including retries)".
Definition relay_batch_subscribe_failures : Instrument :=
  mkInstrument Counter "relay_batch_subscribe_failures" "The number of failures to batch subscribe to relay topics".
Definition relay_batch_subscribe_latency : Instrument :=
  mkInstrument Histogram "relay_batch_subscribe_latency" "The latency batch subscribing to relay topics w/ built-in retry".
Definition relay_batch_subscribe_request_latency : Instrument :=
  mkInstrument Histogram "relay_batch_subscribe_request_latency" "The latency batch subscribing to relay topics".
Definition postgres_queries : Instrument :=
  mkInstrument Counter "postgres_queries" "The number of Postgres queries executed".
Definition postgres_query_latency : Instrument :=
  mkInstrument Histogram "postgres_query_latency" "The latency Postgres queries".
Definition keys_server_requests : Instrument :=
  mkInstrument Counter "keys_server_requests" "The number of Keys Server requests".
Definition keys_server_request_latency : Instrument :=
  mkInstrument Histogram KEYS_SERVER_REQUEST_LATENCY "The latency Keys Server requests".
Definition registry_requests : Instrument :=
  mkInstrument Counter "registry_requests" "The number of Registry requests".
Definition registry_request_latency : Instrument :=
  mkInstrument Histogram REGISTRY_REQUEST_LATENCY "The latency Registry requests".
Definition processed_notifications : Instrument :=
  mkInstrument Counter "processed_notifications" "The number of processed notifications".
Definition dispatched_notifications : Instrument :=
  mkInstrument Counter "dispatched_notifications" "The number of notification dispatched in one request".
Definition notify_latency : Instrument :=
  mkInstrument Histogram "notify_latency" "The amount of time it took to dispatch all notifications".
Definition publishing_workers_count : Instrument :=
  mkInstrument ObservableGauge "publishing_workers_count" "The number of spawned publishing workers tasks".
Definition publishing_workers_errors : Instrument :=
  mkInstrument Counter "publishing_workers_errors" "The number of publishing worker that ended with an error".
Definition publishing_queue_queued_size : Instrument :=
  mkInstrument ObservableGauge "publishing_queue_queued_size" "The messages publishing queue size in queued state".
Definition publishing_queue_processing_size : Instrument :=
  mkInstrument ObservableGauge "publishing_queue_processing_size" "The messages publishing queue size in processing state".
Definition publishing_queue_published_count : Instrument :=
  mkInstrument Counter "publishing_queue_published_count" "The number of published messages by workers".

(** The fields of [Metrics], all of them made by [Metrics::new]. *)
Definition Metrics_new : list Instrument :=
  [subscribed_project_topics; subscribed_subscriber_topics; subscribe_latency;
   http_requests; http_request_latency; relay_incoming_messages;
   relay_incoming_message_latency; relay_outgoing_messages;
   relay_outgoing_message_failures; relay_outgoing_message_latency;
   relay_outgoing_message_publish_latency; relay_subscribes; relay_subscribe_failures;
   relay_subscribe_latency; relay_subscribe_request_latency; relay_batch_subscribes;
   relay_batch_subscribe_failures; relay_batch_subscribe_latency;
   relay_batch_subscribe_request_latency; postgres_queries; postgres_query_latency;
   keys_server_requests; keys_server_request_latency; registry_requests;
   registry_request_latency; processed_notifications; dispatched_notifications;
   notify_latency; publishing_workers_count; publishing_workers_errors;
   publishing_queue_queued_size; publishing_queue_processing_size;
   publishing_queue_published_count].

(** The boundaries of the buckets that views set, in milliseconds. *)
Definition relay_boundaries : list Z :=
  [0; 25; 50; 75; 100; 250; 500; 750; 1000; 2500; 5000; 7500; 10000].
Definition keys_server_boundaries : list Z :=
  [0; 2; 5; 8; 10; 15; 20; 25; 30; 35; 40; 45; 50; 55; 60; 65; 70; 75; 100].
Definition registry_boundaries : list Z :=
  [20; 50; 75; 100; 125; 150; 175; 200; 225; 250; 275; 300; 400].
Definition views : list (string * list Z) :=
  [(RELAY_OUTGOING_MESSAGE_LATENCY, relay_boundaries); (RELAY_SUBSCRIBE_LATENCY, relay_boundaries);
   (KEYS_SERVER_REQUEST_LATENCY, keys_server_boundaries);
   (REGISTRY_REQUEST_LATENCY, registry_boundaries)].

(** ** Recording *)

Abbreviation Attributes := (list (string * string)).

Record Measurement := mkMeasurement {
  ms_instrument : Instrument;
  ms_value : Z;
  ms_attributes : Attributes;
}.

Definition bool_to_string (b : bool) : string := if b then "true" else "false".

(** [elapsed.as_millis() as u64]: milliseconds, wrapped. *)
Definition as_u64 (ms : Z) : Z := ms mod 2 ^ 64.

(** A counter and the histogram of the same calls. *)
Definition counted (count latency : Instrument) (elapsed : Z) (attributes : Attributes)
    : list Measurement :=
  [mkMeasurement count 1 attributes; mkMeasurement latency (as_u64 elapsed) attributes].

Inductive RelayIncomingMessageStatus := Success | ClientError | ServerError.

#[global] Instance RelayIncomingMessageStatus_eq_dec : EqDecision RelayIncomingMessageStatus.
Proof. solve_decision. Defined.

Definition message_status_to_string (s : RelayIncomingMessageStatus) : string :=
  match s with
  | Success => "success" | ClientError => "client_error" | ServerError => "server_error"
  end.

(** [KeysServerResponseSource::as_str]. *)
Definition source_as_str (source : KeysServerResponseSource) : string :=
  match source with Source_Cache => "cache" | Source_Server => "server" end.

(** The methods of [Metrics], on the milliseconds [elapsed] since [start]. *)
Definition http_request (endpoint method : string) (status elapsed : Z) : list Measurement :=
  counted http_requests http_request_latency elapsed
    [("endpoint", endpoint); ("method", method); ("status", pretty status)].

Definition relay_incoming_message (tag : Z) (status : RelayIncomingMessageStatus) (elapsed : Z)
    : list Measurement :=
  counted relay_incoming_messages relay_incoming_message_latency elapsed
    [("tag", pretty tag); ("status", message_status_to_string status)].

Definition relay_outgoing_message (tag : Z) (success : bool) (elapsed : Z) : list Measurement :=
  counted relay_outgoing_messages relay_outgoing_message_latency elapsed
    [("tag", pretty tag); ("success", bool_to_string success)].

Definition relay_outgoing_message_failure (tag : Z) (is_permanent : bool) : list Measurement :=
  [mkMeasurement relay_outgoing_message_failures 1
     [("tag", pretty tag); ("is_permanent", bool_to_string is_permanent)]].

Definition relay_outgoing_message_publish (tag elapsed : Z) : list Measurement :=
  [mkMeasurement relay_outgoing_message_publish_latency (as_u64 elapsed) [("tag", pretty tag)]].

Definition relay_subscribe (success : bool) (elapsed : Z) : list Measurement :=
  counted relay_subscribes relay_subscribe_latency elapsed [("success", bool_to_string success)].

Definition relay_subscribe_failure (is_permanent : bool) : list Measurement :=
  [mkMeasurement relay_subscribe_failures 1 [("is_permanent", bool_to_string is_permanent)]].

Definition relay_subscribe_request (elapsed : Z) : list Measurement :=
  [mkMeasurement relay_subscribe_request_latency (as_u64 elapsed) []].

Definition relay_batch_subscribe (success : bool) (elapsed : Z) : list Measurement :=
  counted relay_batch_subscribes relay_batch_subscribe_latency elapsed
    [("success", bool_to_string success)].

Definition relay_batch_subscribe_failure (is_permanent : bool) : list Measurement :=
  [mkMeasurement relay_batch_subscribe_failures 1 [("is_permanent", bool_to_string is_permanent)]].

Definition relay_batch_subscribe_request (elapsed : Z) : list Measurement :=
  [mkMeasurement relay_batch_subscribe_request_latency (as_u64 elapsed) []].

Definition postgres_query (query_name : string) (elapsed : Z) : list Measurement :=
  counted postgres_queries postgres_query_latency elapsed [("name", query_name)].

Definition keys_server_request (elapsed : Z) (source : KeysServerResponseSource)
    : list Measurement :=
  counted keys_server_requests keys_server_request_latency elapsed
    [("source", source_as_str source)].

Definition registry_request (elapsed : Z) : list Measurement :=
  counted registry_requests registry_request_latency elapsed [].

(** ** What the operations record *)

(** The monotonic clock: milliseconds between two moments. *)
Class Instants := { millis : nat → nat → Z }.

(** [http_request_middleware], around the handler of the route [path]. *)
Definition http_request_middleware {W E} `{Instants} (tick : W → nat) (path method : string)
    (next : M W E Response) (w : W) : outcome E Response * W * list Measurement :=
  let '(r, w1) := next w in
  (r, w1, match r with
          | Ok response => http_request path method (res_status response) (millis (tick w) (tick w1))
          | _ => []
          end).

(** The status [handle_msg] records of a message (relay_webhook/mod.rs). *)
Definition message_status (result : outcome RelayMessageError ())
    : option RelayIncomingMessageStatus :=
  match result with
  | Ok _ => Some Success
  | Err (Relay_Client _) => Some ClientError
  | Err (Relay_Server _) => Some ServerError
  | Panic => None
  end.

(** [send_metrics] (notify_v1.rs); the [unwrap] of the elapsed milliseconds
    would take half a billion years to panic. *)
Definition send_metrics (response : ResponseBody) (elapsed : Z) : list Measurement :=
  [mkMeasurement dispatched_notifications (Z.of_nat (size (sent response))) [("type", "sent")];
   mkMeasurement dispatched_notifications (Z.of_nat (size (failed response))) [("type", "failed")];
   mkMeasurement dispatched_notifications (Z.of_nat (size (not_found response)))
     [("type", "not_found")];
   mkMeasurement notify_latency elapsed []].

(** publisher_service/helpers.rs. *)
Definition update_metrics_on_message_status_change (status : SubscriberNotificationStatus)
    : list Measurement :=
  if bool_decide (status = SNS_Published)
  then [mkMeasurement publishing_queue_published_count 1 []] else [].

(** An error of the query is logged only. *)
Definition update_metrics_on_queue_stats (elapsed : Z) (stats : outcome SqlxError (Z * Z))
    : list Measurement :=
  match stats with
  | Ok (queued, processing) =>
      postgres_query "get_publishing_queue_stats" elapsed ++
      [mkMeasurement publishing_queue_queued_size (as_u64 queued) [];
       mkMeasurement publishing_queue_processing_size (as_u64 processing) []]
  | _ => []
  end.

(** publisher_service/mod.rs: [prev] is the counter before the worker was
    spawned, and before it was given back. *)
Definition worker_spawned (prev : Z) : list Measurement :=
  [mkMeasurement publishing_workers_count (as_u64 (prev + 1)) []].
Definition worker_ended (result : outcome NotifyServerError ()) (prev : Z) : list Measurement :=
  match result with
  | Err _ => [mkMeasurement publishing_workers_errors 1 []]
  | _ => []
  end ++ [mkMeasurement publishing_workers_count (as_u64 (prev - 1)) []].

(** The end of the renewal task (refresh_topic_subscriptions.rs). *)
Definition renewal_metrics (project_topics_count subscriber_topics_count : nat) (elapsed : Z)
    : list Measurement :=
  [mkMeasurement subscribed_project_topics (Z.of_nat project_topics_count) [];
   mkMeasurement subscribed_subscriber_topics (Z.of_nat subscriber_topics_count) [];
   mkMeasurement subscribe_latency elapsed []].

(** A try of a relay call: when it was made and answered and, when it failed,
    whether it was the last one. *)
Record Try := mkTry { try_start : nat; try_end : nat; try_failure : option bool }.

Section relay_calls.
Context `{UrlOps, env : !Env, !Instants}.

(** The tries of the loop [while let Err(e) = call().await]. *)
Fixpoint call_tries (tries_left : nat) (call : App RelayClientError ()) (w : World) : list Try :=
  match tries_left with
  | O => []
  | S tries_left =>
      let '(r, w1) := call w in
      match r with
      | Err _ =>
          let tries := (MAX_TRIES - tries_left)%nat in
          let is_permanent := (10 <=? tries)%nat in
          mkTry (w_tick w) (w_tick w1) (Some is_permanent) ::
          (if is_permanent then []
           else call_tries tries_left call
                  (sleep (E:=RelayClientError) (calculate_retry_in (Z.of_nat tries)) w1).2)
      | _ => [mkTry (w_tick w) (w_tick w1) None]
      end
  end.

Definition try_metrics (request : Z → list Measurement) (failure : bool → list Measurement)
    (t : Try) : list Measurement :=
  request (millis (try_start t) (try_end t)) ++
  match try_failure t with Some is_permanent => failure is_permanent | None => [] end.

(** What a call with its retries records from the world [w] on. *)
Definition call_metrics (call : App RelayClientError ()) (request : Z → list Measurement)
    (failure : bool → list Measurement) (whole : bool → Z → list Measurement) (w : World)
    : list Measurement :=
  let '(r, w1) := retry_loop MAX_TRIES call w in
  flat_map (try_metrics request failure) (call_tries MAX_TRIES call w) ++
  whole (bool_decide (r = Ok ())) (millis (w_tick w) (w_tick w1)).

Definition publish_metrics (publish : Publish) : World → list Measurement :=
  call_metrics (publish_call publish) (relay_outgoing_message_publish (pub_tag publish))
    (relay_outgoing_message_failure (pub_tag publish)) (relay_outgoing_message (pub_tag publish)).

Definition subscribe_metrics (topic : Topic) : World → list Measurement :=
  call_metrics (relay_call (RelaySubscribeReq topic)) relay_subscribe_request
    relay_subscribe_failure relay_subscribe.

Definition batch_subscribe_metrics (topics : list Topic) : World → list Measurement :=
  call_metrics (relay_call (RelayBatchSubscribeReq topics)) relay_batch_subscribe_request
    relay_batch_subscribe_failure relay_batch_subscribe.
End relay_calls.

(** ** The instruments are told apart, and views are of histograms *)

Lemma instruments_distinct :
  NoDup (in_name <$> Metrics_new) ∧
  Forall (λ v, v.1 ∈ in_name <$> filter (λ i, in_kind i = Histogram) Metrics_new ∧
               StronglySorted Z.lt v.2) views ∧
  NoDup views.*1.
Proof.
  split_and!; [apply (bool_decide_unpack _); by vm_compute| |apply (bool_decide_unpack _); by vm_compute].
  unfold views. repeat (apply list.Forall_cons; split); [..|apply list.Forall_nil_2];
    (split; [apply (bool_decide_unpack _); by vm_compute|]); repeat constructor.
Qed.

(** ** Counters agree with the histograms of the same calls *)

Definition pairs : list (Instrument * Instrument) :=
  [(http_requests, http_request_latency);
   (relay_incoming_messages, relay_incoming_message_latency);
   (relay_outgoing_messages, relay_outgoing_message_latency);
   (relay_subscribes, relay_subscribe_latency);
   (relay_batch_subscribes, relay_batch_subscribe_latency);
   (postgres_queries, postgres_query_latency);
   (keys_server_requests, keys_server_request_latency);
   (registry_requests, registry_request_latency)].

Definition of_series (i : Instrument) (attributes : Attributes) (m : Measurement) : Prop :=
  ms_instrument m = i ∧ ms_attributes m = attributes.
#[global] Instance of_series_dec i attributes m : Decision (of_series i attributes m).
Proof. unfold of_series. apply _. Defined.

(** The measurements of a series, and the sum a counter shows. *)
Definition recordings (i : Instrument) (attributes : Attributes) (ms : list Measurement) : nat :=
  length (filter (of_series i attributes) ms).
Definition total (i : Instrument) (attributes : Attributes) (ms : list Measurement) : Z :=
  foldr Z.add 0 (ms_value <$> filter (of_series i attributes) ms).

(** Everything the server can record, in any order. *)
Inductive Recorded `{UrlOps, env : !Env, !Instants} : list Measurement → Prop :=
| recorded_nil : Recorded []
| recorded_http endpoint method status t : Recorded (http_request endpoint method status t)
| recorded_incoming tag s t : Recorded (relay_incoming_message tag s t)
| recorded_publish p w : Recorded (publish_metrics p w)
| recorded_subscribe topic w : Recorded (subscribe_metrics topic w)
| recorded_batch topics w : Recorded (batch_subscribe_metrics topics w)
| recorded_query name t : Recorded (postgres_query name t)
| recorded_keys_server t source : Recorded (keys_server_request t source)
| recorded_registry t : Recorded (registry_request t)
| recorded_notify r t : Recorded (send_metrics r t)
| recorded_status s : Recorded (update_metrics_on_message_status_change s)
| recorded_stats t s : Recorded (update_metrics_on_queue_stats t s)
| recorded_spawned n : Recorded (worker_spawned n)
| recorded_ended r n : Recorded (worker_ended r n)
| recorded_renewal n m t : Recorded (renewal_metrics n m t)
| recorded_app ms1 ms2 : Recorded ms1 → Recorded ms2 → Recorded (ms1 ++ ms2)
| recorded_perm ms1 ms2 : ms1 ≡ₚ ms2 → Recorded ms1 → Recorded ms2.

(** A pair agrees on every series; measurements of neither do not matter. *)
Definition balanced (p : Instrument * Instrument) (ms : list Measurement) : Prop :=
  ∀ attributes, total p.1 attributes ms = Z.of_nat (recordings p.2 attributes ms).

Lemma total_app i a ms1 ms2 : total i a (ms1 ++ ms2) = total i a ms1 + total i a ms2.
Proof.
  unfold total. rewrite list.filter_app, fmap_app. induction (filter _ ms1) as [|m l IH]; [done|].
  cbn in *. lia.
Qed.

Lemma recordings_app i a ms1 ms2 :
  (recordings i a (ms1 ++ ms2) = recordings i a ms1 + recordings i a ms2)%nat.
Proof. unfold recordings. by rewrite list.filter_app, length_app. Qed.

Lemma total_perm i a ms1 ms2 : ms1 ≡ₚ ms2 → total i a ms1 = total i a ms2.
Proof.
  intros Hp. unfold total. apply (foldr_permutation_proper eq);
    [apply _|intros; lia|].
  by rewrite Hp.
Qed.

Lemma recordings_perm i a ms1 ms2 : ms1 ≡ₚ ms2 → recordings i a ms1 = recordings i a ms2.
Proof. intros Hp. unfold recordings. by rewrite Hp. Qed.

Lemma balanced_app p ms1 ms2 : balanced p ms1 → balanced p ms2 → balanced p (ms1 ++ ms2).
Proof. intros H1 H2 a. rewrite total_app, recordings_app, H1, H2. lia. Qed.

Lemma balanced_flat_map {A} p (f : A → list Measurement) l :
  (∀ x, balanced p (f x)) → balanced p (flat_map f l).
Proof. intros Hf. induction l as [|x l IH]; [done|]. by apply balanced_app. Qed.

(** Measurements of other instruments, and of a pair together. *)
Lemma balanced_other p ms :
  Forall (λ m, ms_instrument m ≠ p.1 ∧ ms_instrument m ≠ p.2) ms → balanced p ms.
Proof.
  intros Hms a. unfold total, recordings. rewrite !filter_all_false; [done| |];
    (eapply list.Forall_impl; [exact Hms|]); intros m [H1 H2] [? _]; naive_solver.
Qed.

Lemma balanced_counted p c l t attributes :
  p.1 ≠ p.2 → c ≠ l → (p = (c, l) ∨ (c ≠ p.1 ∧ c ≠ p.2 ∧ l ≠ p.1 ∧ l ≠ p.2)) →
  balanced p (counted c l t attributes).
Proof.
  intros Hp Hcl [->|(?&?&?&?)]; [|apply balanced_other; repeat constructor; done].
  intros a. unfold counted, total, recordings. cbn [fst snd]. rewrite !list.filter_cons, !list.filter_nil.
  unfold of_series. cbn [ms_instrument ms_attributes].
  destruct (decide (attributes = a)) as [->|Ha].
  - rewrite (decide_True (P := c = c ∧ _)), (decide_False (P := l = c ∧ _)),
      (decide_False (P := c = l ∧ _)), (decide_True (P := l = l ∧ _)) by naive_solver. done.
  - rewrite !decide_False by naive_solver. done.
Qed.

(** ** The tries of a relay call *)

Section relay_call_theorems.
Context `{UrlOps, env : !Env, !Instants}.

(** One try for each call made; all but the last were refused and were not the
    last allowed, and the last succeeded or was the tenth. *)
Lemma call_tries_run call req good : single_call call req good → ∀ m w r w',
  (0 < m <= MAX_TRIES)%nat → retry_loop m call w = (r, w') →
  ∃ n, w_relay w' = w_relay w ++ replicate (S n) req ∧
    try_failure <$> call_tries m call w =
      replicate n (Some false) ++ [match r with Ok _ => None | _ => Some true end] ∧
    no_panic r.
Proof.
  intros Hc m. induction m as [|m IH]; intros w r w' Hm; [lia|]. cbn [retry_loop call_tries].
  destruct (Hc w) as [e He]. unfold mbind at 1, M_bind at 1, attempt. rewrite He.
  destruct (good _).
  - intros [= <- <-]. exists 0%nat. by split_and!.
  - destruct (Nat.leb_spec 10 (MAX_TRIES - m)) as [Hl|Hl].
    + intros [= <- <-]. exists 0%nat. by split_and!.
    + unfold mbind at 1, M_bind at 1, sleep at 1.
      intros Hr. unfold MAX_TRIES in *.
      destruct (IH _ _ _ ltac:(lia) Hr) as (n & Hw & Ht & Hp). exists (S n). split_and!; [| |done].
      * cbn in Hw. rewrite Hw, <-app_assoc. done.
      * cbn [fmap list_fmap try_failure]. rewrite replicate_S. cbn [app]. f_equal. exact Ht.
Qed.
End relay_call_theorems.

(** ** Counters and histograms of everything recorded *)

Definition apart (p q : Instrument * Instrument) : Prop :=
  q.1 ≠ q.2 ∧ (p = q ∨ (q.1 ≠ p.1 ∧ q.1 ≠ p.2 ∧ q.2 ≠ p.1 ∧ q.2 ≠ p.2)).

Lemma pairs_apart p q : p ∈ pairs → q ∈ pairs → apart p q.
Proof.
  assert (Hall : Forall (λ p, Forall (apart p) pairs) pairs).
  { unfold apart. apply (bool_decide_unpack _). by vm_compute. }
  intros Hp Hq. rewrite list.Forall_forall in Hall. specialize (Hall p Hp).
  rewrite list.Forall_forall in Hall. by apply Hall.
Qed.

Lemma balanced_pair p c l t attributes :
  p ∈ pairs → (c, l) ∈ pairs → balanced p (counted c l t attributes).
Proof.
  intros Hp Hq. destruct (pairs_apart _ _ Hp Hp) as [Hne _].
  destruct (pairs_apart _ _ Hp Hq) as [Hcl Hpq]. by apply balanced_counted.
Qed.

Definition single (i : Instrument) : Prop := Forall (λ p, i ≠ p.1 ∧ i ≠ p.2) pairs.

Lemma balanced_single p ms :
  p ∈ pairs → Forall (λ m, single (ms_instrument m)) ms → balanced p ms.
Proof.
  intros Hp Hms. apply balanced_other. eapply list.Forall_impl; [exact Hms|]. intros m Hm.
  unfold single in Hm. rewrite list.Forall_forall in Hm. by apply Hm.
Qed.

Ltac in_pairs := apply (bool_decide_unpack _); vm_compute; exact I.
Ltac singles :=
  apply balanced_single; [done|];
  repeat (apply list.Forall_cons; split); [..|apply list.Forall_nil_2];
  cbn [ms_instrument]; unfold single; in_pairs.

Lemma balanced_call `{UrlOps, env : !Env, !Instants} p call request failure whole w :
  (∀ t, balanced p (request t)) → (∀ b, balanced p (failure b)) →
  (∀ b t, balanced p (whole b t)) → balanced p (call_metrics call request failure whole w).
Proof.
  intros Hr Hf Hw. unfold call_metrics. destruct (retry_loop _ _ _).
  apply balanced_app; [|done]. apply balanced_flat_map. intros t. unfold try_metrics.
  apply balanced_app; [done|]. by destruct (try_failure t).
Qed.

(** Counters and latencies agree: whatever the server records, in any order
    and however its tasks interleave, each counter of requests, messages,
    subscriptions, queries and registry or keys server calls shows, for every
    combination of attributes, the number of latencies recorded with them. *)
Theorem counters_match_latencies `{UrlOps, env : !Env, !Instants} ms count latency attributes :
  Recorded ms → (count, latency) ∈ pairs →
  total count attributes ms = Z.of_nat (recordings latency attributes ms).
Proof.
  intros Hms Hp. revert attributes. change (balanced (count, latency) ms).
  revert Hp. generalize (count, latency). intros p Hp. induction Hms.
  all: try (apply balanced_pair; [done|in_pairs]).
  all: try (apply balanced_call; intros; [singles|singles|apply balanced_pair; [done|in_pairs]]).
  all: try singles.
  - unfold update_metrics_on_message_status_change. case_bool_decide; [singles|done].
  - unfold update_metrics_on_queue_stats. destruct s as [[]| |]; [|done..].
    apply balanced_app; [apply balanced_pair; [done|in_pairs]|singles].
  - unfold worker_ended. apply balanced_app; [|singles]. destruct r; [done|singles|done].
  - by apply balanced_app.
  - intros a. rewrite <-(total_perm _ _ _ _ H1), <-(recordings_perm _ _ _ _ H1). apply IHHms.
Qed.

(** ** A publication, its tries and its outcome *)

Section publish_recorded.
Context `{UrlOps, env : !Env, !Instants}.

Lemma recordings_flat_map {A} i a (f : A → list Measurement) l :
  recordings i a (flat_map f l) = sum_list_with (λ x, recordings i a (f x)) l.
Proof.
  induction l as [|x l IH]; [done|]. cbn [flat_map sum_list_with]. by rewrite recordings_app, IH.
Qed.

Lemma sum_const {A} (f : A → nat) n l : (∀ x, f x = n) → sum_list_with f l = (n * length l)%nat.
Proof. intros Hf. induction l as [|x l IH]; cbn; [lia|]. rewrite Hf, IH. lia. Qed.

Lemma sum_ext {A} (f g : A → nat) l :
  (∀ x, f x = g x) → sum_list_with f l = sum_list_with g l.
Proof. intros Hf. induction l as [|x l IH]; [done|]. cbn. by rewrite Hf, IH. Qed.

Lemma sum_failures (f : option bool → nat) (tries : list Try) :
  sum_list_with (λ t, f (try_failure t)) tries = sum_list_with f (try_failure <$> tries).
Proof. induction tries as [|t l IH]; [done|]. cbn. by rewrite IH. Qed.

Lemma sum_replicate {A} (f : A → nat) n x : sum_list_with f (replicate n x) = (n * f x)%nat.
Proof. induction n; cbn; lia. Qed.

Definition failed_with (is_permanent : bool) (o : option bool) : nat :=
  if bool_decide (o = Some is_permanent) then 1 else 0.

Lemma failed_with_Some b c : failed_with b (Some c) = if Bool.eqb b c then 1%nat else 0%nat.
Proof. by destruct b, c. Qed.
Lemma failed_with_None b : failed_with b None = 0%nat.
Proof. done. Qed.

Lemma try_metrics_counts tag t :
  let ms := try_metrics (relay_outgoing_message_publish tag) (relay_outgoing_message_failure tag) t in
  recordings relay_outgoing_message_publish_latency [("tag", pretty tag)] ms = 1%nat ∧
  (∀ b, recordings relay_outgoing_message_failures
     [("tag", pretty tag); ("is_permanent", bool_to_string b)] ms = failed_with b (try_failure t)) ∧
  (∀ a, recordings relay_outgoing_messages a ms = 0%nat).
Proof.
  unfold try_metrics, recordings, of_series, failed_with. cbn zeta.
  unfold relay_outgoing_message_publish, relay_outgoing_message_failure. cbn [app].
  destruct (try_failure t) as [p|]; (split_and!; [|intros b|intros a]);
    rewrite ?list.filter_cons, ?list.filter_nil; cbn [ms_instrument ms_attributes];
    repeat case_decide; try case_bool_decide; destruct_and?; try done;
    try (destruct p, b; naive_solver); naive_solver.
Qed.

Lemma whole_counts tag success t :
  let ms := relay_outgoing_message tag success t in
  (∀ a, recordings relay_outgoing_message_publish_latency a ms = 0%nat) ∧
  (∀ a, recordings relay_outgoing_message_failures a ms = 0%nat) ∧
  (∀ b, recordings relay_outgoing_messages [("tag", pretty tag); ("success", bool_to_string b)] ms
        = if bool_decide (b = success) then 1%nat else 0%nat).
Proof.
  unfold relay_outgoing_message, counted, recordings, of_series. cbn zeta.
  split_and!; [intros a|intros a|intros b]; rewrite ?list.filter_cons, ?list.filter_nil;
    cbn [ms_instrument ms_attributes]; repeat case_decide; try case_bool_decide;
    destruct_and?; try done; destruct b, success; naive_solver.
Qed.

(** The metrics of a publication tell what happened: one publish latency
    for every call made to the relay, one temporary failure for each call but
    the last, one permanent failure exactly when the publication failed, and
    one message counted, with its outcome. *)
Theorem publish_recorded publish w :
  let tag := pretty (pub_tag publish) in
  let ms := publish_metrics publish w in
  let '(r, w') := publish_relay_message publish w in
  ∃ calls, w_relay w' = w_relay w ++ replicate (S calls) (RelayPublishReq publish) ∧
    recordings relay_outgoing_message_publish_latency [("tag", tag)] ms = S calls ∧
    recordings relay_outgoing_message_failures [("tag", tag); ("is_permanent", "false")] ms = calls ∧
    recordings relay_outgoing_message_failures [("tag", tag); ("is_permanent", "true")] ms =
      (if bool_decide (r = Ok ()) then 0 else 1)%nat ∧
    ∀ success, recordings relay_outgoing_messages
        [("tag", tag); ("success", bool_to_string success)] ms =
      (if bool_decide (success = bool_decide (r = Ok ())) then 1 else 0)%nat.
Proof.
  cbn zeta. unfold publish_metrics, call_metrics. fold (publish_relay_message publish).
  destruct (publish_relay_message publish w) as [r w'] eqn:Hrun.
  destruct (call_tries_run _ _ _ (publish_single publish) MAX_TRIES w r w'
    ltac:(unfold MAX_TRIES; lia) Hrun) as (n & Hw & Ht & Hr).
  exists n. split; [done|]. set (tries := call_tries _ _ _) in *. clearbody tries.
  pose proof (whole_counts (pub_tag publish) (bool_decide (r = Ok ()))
    (millis (w_tick w) (w_tick w'))) as (Hw1 & Hw2 & Hw3).
  assert (Hlen : length tries = S n).
  { apply (f_equal length) in Ht. rewrite length_fmap, length_app, length_replicate in Ht.
    cbn in Ht. lia. }
  assert (Hf : ∀ b, sum_list_with (λ t, failed_with b (try_failure t)) tries =
    (n * failed_with b (Some false) + failed_with b (if bool_decide (r = Ok ()) then None else Some true))%nat).
  { intros b. rewrite sum_failures, Ht, sum_list_with_app, sum_replicate. cbn.
    destruct r as [[]| |]; [| |done]; rewrite ?bool_decide_true, ?bool_decide_false by done; lia. }
  pose proof (λ t, try_metrics_counts (pub_tag publish) t) as Htry.
  split_and!; intros; rewrite recordings_app, recordings_flat_map.
  - rewrite Hw1, (sum_const _ 1) by apply Htry. lia.
  - rewrite Hw2, (sum_ext _ (λ t, failed_with false (try_failure t)) _ (λ t, proj1 (proj2 (Htry t)) false)), Hf.
    destruct (bool_decide (r = Ok ())); rewrite ?failed_with_Some, ?failed_with_None;
      cbn; lia.
  - rewrite Hw2, (sum_ext _ (λ t, failed_with true (try_failure t)) _ (λ t, proj1 (proj2 (Htry t)) true)), Hf.
    destruct (bool_decide (r = Ok ())); rewrite ?failed_with_Some, ?failed_with_None;
      cbn; lia.
  - rewrite Hw3, (sum_const _ 0) by (intros t; apply (proj2 (proj2 (Htry t)))). lia.
Qed.
End publish_recorded.

(** ** What else is recorded *)

(** An error of the client is recorded as one, but answered like a success. *)
Lemma message_status_answer (result : outcome RelayMessageError ()) s :
  message_status result = Some s →
  (s = ServerError ↔ ∃ e, result = Err (Relay_Server e)) ∧
  (s = ClientError ↔ ∃ e, result = Err (Relay_Client e)) ∧
  (s = Success ↔ result = Ok ()).
Proof.
  destruct result as [[]|[e|e]|]; cbn; intros [= <-]; naive_solver.
Qed.

(** Requests are labelled with the pattern of their route, not with their path:
    the series of the endpoints are as many as the routes. *)
Lemma endpoint_labels `{!PathRouter, !PathRouterLaws} {W E} `{Instants} (tick : W → nat)
    path pattern args method (next : M W E Response) w :
  at_path (rt_path <$> routes) path = Some (pattern, args) →
  Forall (λ m, ∃ rest, ms_attributes m = ("endpoint", pattern) :: rest)
    (http_request_middleware tick pattern method next w).2 ∧ pattern ∈ rt_path <$> routes ∧
  (http_request_middleware tick pattern method next w).1 = next w.
Proof.
  intros Hat. unfold http_request_middleware. destruct (next w) as [[r|e|] w1]; cbn;
    (split; [|split; [apply (at_path_sound _ _ _ _ Hat)|done]]); [|apply list.Forall_nil_2..].
  unfold http_request, counted. repeat (apply list.Forall_cons; split); [..|apply list.Forall_nil_2];
    cbn [ms_attributes]; eauto.
Qed.
