(* ===== verification/Server.v ===== *)
(** * The server (lib.rs, state.rs)

    The services that [bootstrap] starts, side by side: HTTP requests, the
    publisher, the periodic jobs and the mailbox clearing service act in any
    order on the one database, cache, rate limiter and relay. *)

From S2P Require Import Prelude RustStr Externals AccountId Errors Types RateLimit.
From S2P Require Import Database DbInvariant Jwt World RelayPublish NotifyMessage Queue Publisher.
From S2P Require Import Cache Identity RelayError RelayHandlers RelayRequests Webhook RelaySafety.
From S2P Require Import Registry Mailbox Jobs NotifyV1 HttpHandlers Net Config.
Open Scope Z_scope.

(** ** Starting *)

(** [SigningKey::generate] on [StdRng::from_seed]. *)
Class StdRng := { std_rng_signing_key : bytes → bytes }.

(** [BlockchainApiProvider::new] for a project at an endpoint: whether it fails. *)
Class BlockchainApi `{UrlOps} := { blockchain_provider : string → Url → option NotifyServerError }.

Section start.
Context `{!Ext, !UrlOps, !SeededRng, !HttpClientOps}.

Definition configured_seed (c : Configuration) : outcome NotifyServerError bytes :=
  map_err (λ _, InvalidKeypairSeed)
    (decode_key (hex_encode (sha256 (as_bytes (cfg_keypair_seed c))))).

(** The [did:key] of the configured relay; every step of it is unwrapped. *)
Definition relay_identity {E} (c : Configuration) : outcome E string :=
  key ← unwrap (hex_decode (cfg_relay_public_key c));
  key ← unwrap (if bool_decide (length key = 32%nat) then Some key else None);
  key ← unwrap (verifying_key_from_bytes key);
  Ok (to_did_key key).

Definition AppState_new (c : Configuration) (keypair_seed : bytes) (redis : bool)
    : outcome NotifyServerError AppState :=
  identity ← relay_identity c;
  notify_keys ← NotifyKeys_new (cfg_notify_url c) keypair_seed;
  Ok (mkAppState _ redis notify_keys (cfg_notify_url c)
        (url_to_string (cfg_webhook_notify_url c)) identity).
End start.

(** ** The services side by side

    [sr_publisher] holds the world they share. *)

Record Server := mkServer {
  sr_publisher : Publisher.Service;
  sr_renewal : Renewal;
  sr_mailbox : Mailbox.Service Receipt;
}.

Definition sr_world (s : Server) : World := sv_world (sr_publisher s).
Definition sr_db (s : Server) : Db := w_db (sr_world s).
(** What a request finds: the receiver of the receipts is there as long as the
    mailbox clearing service runs. *)
Definition request_world (s : Server) : World :=
  set_w_receiver true (set_w_mailbox (λ _, []) (sr_world s)).
Definition set_sr_world (w : World) (s : Server) : Server :=
  mkServer (with_world w (sr_publisher s)) (sr_renewal s) (sr_mailbox s).

Inductive ServerEvent :=
| SRequest (r : HttpRequest)
| SPublisher (e : Publisher.Event)
| SRenewal (e : RenewalEvent)
| SExpireWatchers
| SMailbox (a : Mailbox.Action Receipt).

(** [select!] ends when a service does. *)
Definition stopped (s : Server) : bool :=
  bool_decide (sv_listener (sr_publisher s) = Stopped) ||
  match sv_batcher (sr_mailbox s) with Returned => true | _ => false end.

(** The events of the publisher itself. *)
Definition own_event (e : Publisher.Event) : bool := match e with EOther _ => false | _ => true end.

Section server.
Context `{!Ext, !UrlOps, !Env, !CacaoOps, !Msgpack Cacao, !Json KeyServerResponse,
  !Json Siwx.RawRecap, !BuildProfile, !JwtConsts, !JsonRpcConsts, !RelayWire, !ErrorTexts,
  !Scheduler, !ValidatorOps, !RelayRpcOps, !WebhookTexts, !HttpClientOps, !HttpOps, !SeededRng}.
Context `{!Json RegistryAuthResponse, !Msgpack bool}.
Context `{!Json NotifyMessage, !Json (JsonRpcRequest NotifyMessageAuth)}.
Context `{!UrlEdit, !RelayClientOps, !RelayClientNew, !RedisPools, !StdRng, !BlockchainApi}.
Context (c : Configuration).

Definition server_start (renewal : Renewal) (w : World) : Server :=
  mkServer (Publisher.start w) renewal (service_start Receipt).

(** The client of the relay, the pools of Redis, the registry and the provider:
    what [bootstrap] makes before the state; whether there is Redis. *)
Definition connect (keypair : bytes) : outcome NotifyServerError (bool * Registry) :=
  create_http_client keypair (cfg_relay_url c) (cfg_notify_url c) (cfg_project_id c) ;;
  redis ← match auth_redis_addr c with
          | Some addr => map_err RegistryStorage (Redis_new addr (cfg_redis_pool_size c)) ;; Ok true
          | None => Ok false
          end;
  registry ← Registry_new (cfg_registry_url c) (cfg_registry_auth_token c) redis;
  match cfg_blockchain_api_endpoint c with
  | Some endpoint =>
      url ← ok_or (url_parse endpoint) UrlError;
      match blockchain_provider (cfg_project_id c) url with Some e => Err e | None => Ok () end
  | None => Ok ()
  end ;;
  Ok (redis, registry).

(** [bootstrap] up to the services, once the database is connected and
    migrated: the renewal job has to succeed once. *)
Definition bootstrap : App NotifyServerError (AppState * Registry * Server) := λ w,
  let '(r, w) :=
    (keypair_seed ← lift (configured_seed c);
     '(redis, registry) ← lift (connect (std_rng_signing_key keypair_seed));
     st ← lift (AppState_new c keypair_seed redis);
     renewal ← relay_renewal_job (key_agreement_topic (st_notify_keys st))
                 (cfg_webhook_notify_url c) renewal_start;
     mret (st, registry, renewal)) w in
  (match r with
   | Ok (st, registry, renewal) => Ok (st, registry, server_start renewal w)
   | Err e => Err e
   | Panic => Panic
   end, w).

Context (st : AppState) (registry : Registry).

(** What a service that runs in [bootstrap] itself does: an error is logged, a
    panic ends the server. *)
Definition background {E A} (m : App E A) (k : A → Server → Server) (s : Server)
    : outcome () Server :=
  let '(r, w) := m (sr_world s) in
  match r with
  | Ok a => Ok (k a (set_sr_world w s))
  | Err _ => Ok (set_sr_world w s)
  | Panic => Panic
  end.

(** [Err ()]: the event is not possible (yet): a webhook call with a receipt
    waits until the channel has room.  A request that panics only ends its
    connection, and a worker that panics only its task; the receipts of a
    request go to the mailbox clearing service. *)
Definition server_step (e : ServerEvent) (s : Server) : outcome () Server :=
  if stopped s then Err () else
  match e with
  | SRequest r =>
      let w := (serve st registry r (request_world s)).2 in
      mailbox ← mailbox_run (Offer <$> w_mailbox w) (sr_mailbox s);
      Ok (mkServer (with_world w (sr_publisher s)) (sr_renewal s) mailbox)
  | SPublisher e =>
      if own_event e then
        p ← ok_or (Publisher.step (cfg_notify_url c) e (sr_publisher s)) ();
        Ok (mkServer p (sr_renewal s) (sr_mailbox s))
      else Err ()
  | SRenewal e =>
      background (renewal_event (key_agreement_topic (st_notify_keys st))
                    (cfg_webhook_notify_url c) e (sr_renewal s))
        (λ r s, mkServer (sr_publisher s) r (sr_mailbox s)) s
  | SExpireWatchers => background watcher_expiration_job (λ _ s, s) s
  | SMailbox a =>
      if internal a then
        mailbox ← mailbox_run [a] (sr_mailbox s);
        Ok (mkServer (sr_publisher s) (sr_renewal s) mailbox)
      else Err ()
  end.

Fixpoint server_run (es : list ServerEvent) (s : Server) : outcome () Server :=
  match es with
  | [] => Ok s
  | e :: es => s' ← server_step e s; server_run es s'
  end.
End server.
