(* ===== verification/Entry.v ===== *)
(** * Starting the program (main.rs, lib.rs) and the private server

    From the environment to the running services: the configuration, the S3
    client, the geographic database, the exports, the database, [bootstrap], and
    the private server that shows the metrics. *)

From S2P Require Import Prelude RustStr Externals AccountId Errors Types RateLimit Database Jwt.
From S2P Require Import World RelayPublish NotifyMessage Queue Publisher Cache Identity RelayError.
From S2P Require Import RelayHandlers RelayRequests Webhook Registry Mailbox Router Jobs NotifyV1.
From S2P Require Import HttpHandlers Net Config Analytics Server.
Open Scope Z_scope.

(** ** What is made before the database *)

(** The client of S3: its region and the endpoint configured instead of AWS's. *)
Record S3Client := mkS3Client { s3_region : string; s3_endpoint_url : option string }.

Definition get_s3_client `{UrlOps} (config : Configuration) : S3Client :=
  mkS3Client "eu-central-1" (cfg_s3_endpoint config).

(** [MaxMindResolver::from_aws_s3]: whether the database could be loaded. *)
Class MaxMind := { from_aws_s3 : S3Client → string → string → bool }.

(** Whether there is a resolver; a failure to load it is logged only. *)
Definition get_geoip_resolver `{UrlOps, MaxMind} (config : Configuration) (s3_client : S3Client)
    : bool :=
  match cfg_geoip_db_bucket config, cfg_geoip_db_key config with
  | Some bucket, Some key => from_aws_s3 s3_client bucket key
  | _, _ => false
  end.

(** The pool of connections ([None] is success), and whether the migrations ran. *)
Class Postgres := {
  pg_connect : Z → string → option SqlxError;
  pg_migrate : bool;
}.

(** ** The addresses of the servers *)

Definition SocketAddr : Type := IpAddr * Z.

(** public_http_server::start and private_http_server::start. *)
Definition public_addr `{UrlOps} (config : Configuration) : SocketAddr :=
  (cfg_bind_ip config, cfg_port config).
Definition private_addr `{UrlOps} (config : Configuration) : SocketAddr :=
  (cfg_bind_ip config, default 3001 (cfg_telemetry_prometheus_port config)).

(** ** The private server *)

(** [ServiceMetrics::export]: [None] is an error. *)
Class MetricsExport := { metrics_export : nat → option string }.

Section private.
Context `{!UrlOps, !Env, !MetricsExport}.

(** handlers/metrics.rs. *)
Definition metrics_handler {E} : App E Response :=
  content ← ask metrics_export;
  mret (match content with
        | Some content => respond 200 (Text content)
        | None => respond 500 (Text "Failed to get metrics")
        end).

Definition private_app {E} (method : HttpMethod) (path : string) : App E Response :=
  if negb (String.eqb path "/metrics") then mret (respond 404 NoBody)
  else match method with
       | GET => metrics_handler
       | HEAD => r ← metrics_handler; mret (mkResponse (res_status r) (res_location r) NoBody)
       | _ => mret (respond 405 NoBody)
       end.

(** The private server answers every request and changes nothing. *)
Lemma private_app_answers method path w :
  ∃ r w', private_app (E:=()) method path w = (Ok r, w') ∧ w_db w' = w_db w ∧
    w_relay w' = w_relay w ∧ w_buckets w' = w_buckets w ∧ w_cache w' = w_cache w ∧
    (path = "/metrics" ∧ method = GET → r = match metrics_export (w_tick w) with
       | Some content => respond 200 (Text content)
       | None => respond 500 (Text "Failed to get metrics") end).
Proof.
  unfold private_app, metrics_handler, ask, mbind, M_bind, mret, M_ret.
  destruct (String.eqb_spec path "/metrics") as [->|Hp]; cbn [negb];
    [destruct method|]; (do 2 eexists); (split; [reflexivity|]); (split_and!; try reflexivity);
    intros [? ?]; done.
Qed.
End private.

(** ** From [main] to the services *)

Record Started `{UrlOps} := mkStarted {
  std_analytics : NotifyAnalytics;
  std_geoip_resolver : bool;
  std_state : AppState;
  std_registry : Registry;
  std_server : Server;
  std_public : SocketAddr;
  std_private : SocketAddr;
}.

Section main.
Context `{!Ext, !UrlOps, env : !Env, !CacaoOps, !Msgpack Cacao, !Json KeyServerResponse,
  !Json Siwx.RawRecap, !BuildProfile, !JwtConsts, !JsonRpcConsts, !RelayWire, !ErrorTexts,
  !Scheduler, !ValidatorOps, !RelayRpcOps, !WebhookTexts, !HttpClientOps, !HttpOps, !SeededRng}.
Context `{!Json RegistryAuthResponse, !Msgpack bool}.
Context `{!Json NotifyMessage, !Json (JsonRpcRequest NotifyMessageAuth)}.
Context `{!UrlEdit, !RelayClientOps, !RelayClientNew, !RedisPools, !StdRng, !BlockchainApi}.
Context `{!IpNetOps, !Process, !MaxMind, !Postgres}.

Definition connect_postgres (config : Configuration) : outcome NotifyServerError () :=
  match pg_connect (cfg_postgres_max_connections config) (cfg_postgres_url config) with
  | Some e => Err (Sqlx e)
  | None => if pg_migrate then Ok () else Err SqlxMigration
  end.

(** lib.rs [bootstrap], from its beginning. *)
Definition bootstrap_from (config : Configuration) : App NotifyServerError Started :=
  let s3_client := get_s3_client config in
  let geoip_resolver := get_geoip_resolver config s3_client in
  let analytics := initialize config geoip_resolver in
  lift (connect_postgres config) ;;
  '(st, registry, server) ← bootstrap config;
  mret (mkStarted _ analytics geoip_resolver st registry server (public_addr config)
          (private_addr config)).

(** [main], up to the services. *)
Definition main : App NotifyServerError Started :=
  config ← lift get_configuration;
  bootstrap_from config.

(** Nothing is asked of the relay, of Redis or of the database before the
    configuration is read and the database is connected and migrated: an error
    before that leaves the world as it was.  A server that has started listens
    at the configured addresses, has exports exactly when a bucket is
    configured, and a resolver only if its database was loaded. *)
Lemma main_outcomes w :
  let '(r, w') := main w in
  (is_ok get_configuration = false → w' = w ∧ is_ok r = false) ∧
  ∀ config, get_configuration = Ok config →
    (is_ok (connect_postgres config) = false → w' = w ∧ is_ok r = false) ∧
    ∀ started, r = Ok started →
      std_public started = (cfg_bind_ip config, cfg_port config) ∧
      std_private started = (cfg_bind_ip config, default 3001 (cfg_telemetry_prometheus_port config)) ∧
      (is_Some (an_exports (std_analytics started)) ↔ is_Some (cfg_analytics_export_bucket config)) ∧
      (std_geoip_resolver started = true → ∃ bucket key,
         cfg_geoip_db_bucket config = Some bucket ∧ cfg_geoip_db_key config = Some key ∧
         from_aws_s3 (mkS3Client "eu-central-1" (cfg_s3_endpoint config)) bucket key = true) ∧
      bootstrap config w = (Ok (std_state started, std_registry started, std_server started), w').
Proof.
  unfold main, bootstrap_from, lift. unfold mbind at 1, M_bind at 1.
  destruct get_configuration as [config|e|] eqn:Hc; [|by split|by split].
  unfold mbind at 1, M_bind at 1. destruct (connect_postgres config) as [[]|e|] eqn:Hp.
  - unfold mbind, M_bind, mret, M_ret.
    destruct (bootstrap config w) as [[[[st registry] server]|e|] w1] eqn:Hb;
      (split; [done|]); intros ? [= <-]; rewrite Hp; (split; [done|]); intros started [= <-].
    cbn [std_public std_private std_analytics std_geoip_resolver std_state std_registry std_server].
    split_and!; [done|done| | |done].
    + unfold initialize. destruct (cfg_analytics_export_bucket config); cbn; [split; eauto|].
      by split; intros [? [=]].
    + unfold get_geoip_resolver.
      destruct (cfg_geoip_db_bucket config), (cfg_geoip_db_key config); try done. eauto.
  - split; [done|]. intros ? [= <-]. rewrite Hp. by split.
  - split; [done|]. intros ? [= <-]. rewrite Hp. by split.
Qed.
End main.
