(* ===== verification/ServerSafety.v ===== *)
(** * What the whole server keeps true

    Every request, event and job changes the database by the statements of
    [db_step] on well-typed arguments, so the invariants of the database hold
    of every state the server can reach, whatever the order of what it does. *)

From S2P Require Import Prelude RustStr Router Externals AccountId Errors Types RateLimit.
From S2P Require Import Database DbInvariant Jwt World RelayPublish NotifyMessage Queue Publisher.
From S2P Require Import Cache Identity RelayError RelayHandlers RelayRequests Webhook RelaySafety.
From S2P Require Import Registry Mailbox Jobs NotifyV1 HttpHandlers Net Config Server.
Open Scope Z_scope.

(** ** Computations that change the database by statements *)

Definition steps `{!Ext} : relation World := λ w w', rtc db_step (w_db w) (w_db w').
#[global] Instance steps_preorder `{!Ext} : PreOrder steps.
Proof. split; unfold steps; red; intros ?*; [apply rtc_refl|apply transitivity]. Qed.

Lemma steps_same_db `{!Ext} {E A} (m : App E A) : keeps same_db m → keeps steps m.
Proof. apply keeps_weaken. unfold same_db, steps. by intros w w' ->. Qed.

Create HintDb steps.

(** A computation whose continuation is only considered on what it returns. *)
Lemma keeps_bind_Ok {W E A B} (R : relation W) `{!PreOrder R} (m : M W E A) (f : A → M W E B) :
  keeps R m → (∀ a w w', m w = (Ok a, w') → keeps R (f a)) → keeps R (m ≫= f).
Proof.
  intros Hm Hf w. specialize (Hm w). unfold mbind, M_bind.
  destruct (m w) as [[a|e|] w1] eqn:Hw; cbn in *; [|done..].
  etrans; [exact Hm|by eapply Hf].
Qed.

Section steps.
Context `{!Ext, !HashLaws, !HexLaws, !CipherLaws, !UrlOps, !Env, !EnvLaws, !CacaoOps, !Msgpack Cacao,
  !Json KeyServerResponse, !Json Siwx.RawRecap, !BuildProfile, !JwtConsts, !JsonRpcConsts,
  !RelayWire, !ErrorTexts, !Scheduler, !ValidatorOps, !RelayRpcOps, !WebhookTexts,
  !HttpClientOps, !HttpOps}.
Context `{!Json RegistryAuthResponse, !Msgpack bool}.
Context `{!Json NotifyMessage, !Json (JsonRpcRequest NotifyMessageAuth)}.

Lemma steps_query {A} (q : Z → Query A) : (∀ t db, db_step db (q t db).2) → keeps steps (query q).
Proof. intros Hq. apply keeps_query; [intros w; apply rtc_refl|]. intros w t. apply rtc_once, Hq. Qed.

Lemma same_db_rate_limit_many keys l : keeps same_db (rate_limit_many keys l).
Proof. intros w. unfold rate_limit_many. by destruct (token_bucket_many _ _ _ _). Qed.

Lemma same_db_limit_http st key l : keeps same_db (limit_http st key l).
Proof. unfold limit_http. same_db. Qed.

Lemma same_db_extractor registry p : keeps same_db (from_request_parts registry p).
Proof.
  apply same_db_only_cache. unfold from_request_parts.
  repeat first [apply keeps_bind; [apply _| |intros ?]
    |apply keeps_map_err, keeps_is_authenticated|progress auto with keeps].
Qed.
Hint Resolve same_db_rate_limit_many same_db_limit_http same_db_extractor : keeps.

(** Splits a computation into its statements; the others leave the database alone. *)
Ltac db_steps := repeat first
  [ solve [auto 2 with steps] | solve [apply steps_same_db; same_db]
  | apply keeps_bind; [apply _| |intros ?] | apply keeps_map_err | apply keeps_attempt
  | solve [apply steps_query; intros ??; constructor] | case_match ].

Lemma project_read_only project_id : read_only (get_project_by_project_id project_id).
Proof. unfold get_project_by_project_id. apply select_project_read_only. Qed.

Lemma accounts_read_only project_id : read_only (get_subscriber_accounts_by_project_id project_id).
Proof.
  unfold get_subscriber_accounts_by_project_id. apply read_only_bind; [solve_read_only|].
  intros rows. apply decode_rows_read_only. intros ?. solve_read_only.
Qed.

Lemma lower_addresses_read_only accounts : read_only (lower_addresses accounts).
Proof. apply decode_rows_read_only. intros ?. solve_read_only. Qed.
Hint Resolve project_read_only accounts_read_only lower_addresses_read_only : read_only.

Lemma subscribers_read_only project_id accounts :
  read_only (get_subscribers_by_project_id_and_accounts project_id accounts).
Proof.
  unfold get_subscribers_by_project_id_and_accounts.
  repeat (apply read_only_bind; [solve_read_only|intros ?]).
  apply decode_rows_read_only. intros ?. unfold decode_account. solve_read_only.
Qed.

Lemma subscribers_in_read_only proj accounts : read_only (get_subscribers_for_project_in proj accounts).
Proof.
  unfold get_subscribers_for_project_in.
  repeat (apply read_only_bind; [solve_read_only|intros ?]).
  apply decode_rows_read_only. intros ?. unfold decode_account. solve_read_only.
Qed.
Hint Resolve subscribers_read_only subscribers_in_read_only : read_only.

(** ** The handlers *)

Ltac unfold_queries := unfold find_project, sqlx_http, new_v4, fresh_uuids, get_welcome_notification,
  get_notification_link.

Lemma steps_notify_one st project_id proj r n : keeps steps (notify_one st project_id proj r n).
Proof.
  unfold notify_one, rate_limit_subscribers. unfold_queries. db_steps.
Qed.

Lemma steps_handler_impl st project_id body : keeps steps (handler_impl st project_id body).
Proof.
  unfold handler_impl. db_steps.
  apply keeps_fold_m; [apply _|]. intros ??. apply steps_notify_one.
Qed.

Lemma steps_create_project project_id domain : keeps steps (create_project project_id domain).
Proof.
  unfold create_project, random_bytes, new_v4.
  apply keeps_bind_Ok; [apply _|by apply steps_same_db; same_db|]. intros sk ?? [= <- _].
  apply keeps_bind_Ok; [apply _|by apply steps_same_db; same_db|]. intros ak ?? [= <- _].
  apply keeps_bind; [apply _|by apply steps_same_db; same_db|]. intros fresh. db_steps.
  apply steps_query. intros ??. apply step_upsert_project; apply env_random_length.
Qed.

Lemma steps_handle_msg st msg : keeps steps (handle_msg st msg).
Proof. intros w. apply handle_msg_steps. Qed.
Hint Resolve steps_notify_one steps_handler_impl steps_create_project steps_handle_msg : steps.

Lemma steps_webhook st event_auth : keeps steps (webhook st event_auth).
Proof.
  unfold webhook, client_error. db_steps. unfold handle_event, clear_mailbox, utc_now. db_steps.
  by apply steps_same_db, keeps_modify.
Qed.

Lemma steps_into {E} f (m : App E Response) : keeps steps m → keeps steps (into f m).
Proof. intros Hm. unfold into. db_steps; exact Hm. Qed.

Lemma steps_authed {A} registry p body (h : string → A → App NotifyServerError Response) :
  (∀ i a, keeps steps (h i a)) → keeps steps (authed registry p body h).
Proof.
  intros Hh. unfold authed. apply steps_into. db_steps.
Qed.

Hint Resolve steps_webhook : steps.

Lemma steps_serve st registry r : keeps steps (serve st registry r).
Proof.
  destruct r; cbn [serve]; try (apply steps_authed; intros ??); try apply steps_into.
  all: unfold post_notify_v0, post_notify_v1, notify_v0, get_subscribers_v0, get_subscribers_v1,
    subscribe_topic, get_welcome, post_welcome, mark_all_as_read, follow_notification_link;
    unfold_queries; db_steps.
Qed.

(** ** The services *)

Lemma steps_update i created f w : steps w (run_update i created f w).2.
Proof.
  unfold run_update, update_message_status_queued_or_failed, utc_now.
  assert (∀ st, keeps steps (query (λ now, update_message_processing_status now i st))) as Hu
    by (intros st; apply steps_query; intros ??; constructor).
  destruct f.
  - specialize (Hu SNS_Published w). by destruct (query _ w).
  - rewrite bind_ask. transitivity (bump w); [apply rtc_refl|].
    destruct (dead_letter_give_up_check _ _ _);
      [specialize (Hu SNS_Failed (bump w))|specialize (Hu SNS_Queued (bump w))];
      by destruct (query _ (bump w)).
Qed.

Lemma steps_pick locked choose w : steps w (run_pick locked choose w).2.
Proof.
  assert (keeps steps (pick locked choose)) as Hp by (apply steps_query; intros ??; constructor).
  specialize (Hp w). unfold run_pick. by destruct (pick locked choose w) as [[[]|e|] w'].
Qed.

Lemma same_steps w w' : w_db w' = w_db w → steps w w'.
Proof. unfold steps. by intros ->. Qed.

Lemma publisher_step_steps url e s s' :
  own_event e = true → Publisher.step url e s = Some s' → steps (sv_world s) (sv_world s').
Proof.
  intros Ho Hs. destruct e as [k locked choose|k|k calls|k|k| | |k| | |q]; try done;
    cbn [Publisher.step] in Hs; cbv zeta in Hs.
  1-5: destruct (sv_workers s !! k) as [[]|]; try done;
    try (destruct (_ <=? _)%nat; [|done]); injection Hs as <-; try reflexivity;
    unfold set_worker; cbn [sv_world].
  - apply steps_pick.
  - apply same_steps. pose proof (process_db url n (sv_world s)) as Hdb. unfold run_process.
    by destruct (process_notification url n (sv_world s)) as [[[]|e|] w'].
  - apply same_steps. pose proof (prepare_db url n (sv_world s)) as Hdb. unfold run_timeout.
    by destruct (prepare_notification url n (sv_world s)) as [[p|e|] w'].
  - apply steps_update.
  - case_decide; [|done]. injection Hs as <-. apply rtc_once, step_listen.
  - destruct (sv_listener s); try done. destruct (deliveries _); [done|]. injection Hs as <-.
    apply rtc_once, step_listen.
  - case_decide; [|done]. by injection Hs as <-.
  - by injection Hs as <-.
  - injection Hs as <-. apply (steps_query (λ now, dead_letters_check now PUBLISHING_TIMEOUT)).
    intros ??. constructor.
Qed.

Lemma same_db_batch_subscribe topics : keeps same_db (batch_subscribe_relay_topics topics).
Proof. intros w. by destruct (batch_subscribe_run topics w) as (o & n & w' & -> & _ & _ & _ & Hdb & _). Qed.
Hint Resolve same_db_batch_subscribe : keeps.

Lemma steps_renewal key url e r : keeps steps (renewal_event key url e r).
Proof.
  destruct e; cbn [renewal_event]; unfold relay_renewal_job, register_webhook,
    refresh_topic_subscriptions, refresh_topics, get_subscriber_topics, get_project_topics,
    renewal_task, renew_batches; db_steps.
Qed.

Lemma steps_expire : keeps steps watcher_expiration_job.
Proof. unfold watcher_expiration_job. db_steps. Qed.

(** ** Nothing that runs in the background panics *)

Lemma errs_query {A} (q : Z → Query A) :
  (∀ t db, no_panic (q t db).1) → errs_in (λ _, True) (query q).
Proof.
  intros Hq w. specialize (query_no_panic q w Hq). by destruct (query q w) as [[a|e|] w'].
Qed.

Lemma errs_expire : errs_in (λ _, True) watcher_expiration_job.
Proof.
  unfold watcher_expiration_job. apply errs_bind; [by apply errs_query|]. intros ?. by apply errs_ret.
Qed.

Lemma errs_renewal_job key url r :
  is_Some (url_join url RELAY_WEBHOOK_ENDPOINT) →
  errs_in (λ _, True) (relay_renewal_job key url r).
Proof.
  intros [u Hu]. unfold relay_renewal_job, register_webhook, watch_register_request.
  rewrite Hu. cbn [unwrap mbind outcome_bind].
  apply errs_bind; [|intros []].
  - apply errs_bind; [done|]. intros req w. unfold m_map_err, relay_call.
    by destruct (env_relay _ _).
  - unfold refresh_topic_subscriptions, refresh_topics.
    repeat first [apply errs_bind; [|intros ?]|apply errs_map_err with (λ _, True); [|done]
      |by apply errs_query|by apply errs_ret].
Qed.

Lemma renewal_event_no_panic key url e r w :
  is_Some (url_join url RELAY_WEBHOOK_ENDPOINT) → no_panic (renewal_event key url e r w).1.
Proof.
  intros Hu. destruct e; cbn [renewal_event].
  - pose proof (errs_renewal_job key url r Hu w) as Hj. unfold mbind, M_bind, attempt.
    by destruct (relay_renewal_job key url r w) as [[a|e|] w'].
  - unfold renewal_task. destruct (renewing r) as [batches|]; [|done].
    destruct (renew_list_run (E:=NotifyServerError) (schedule (sched_rank (w_tick w)) batches)
      (bump w)) as (counts & w' & Hl & _).
    rewrite (bind_Ok _ _ _ () w'); [done|]. unfold renew_batches. rewrite bind_ask. exact Hl.
Qed.

(** ** No worker dies *)

(** The URL of every notification's link can be made. *)
Definition links_from (url : Url) : Prop :=
  ∀ u, is_Some (url_join url ("/v1/notification/" +:+ uuid_to_string u)).

Lemma pick_no_panic now locked choose db :
  no_panic (pick_subscriber_notification_for_processing now locked choose db).1.
Proof.
  destruct (pick_effect now locked choose db) as [[-> _]|(i & r & db' & _ & _ & _ & -> & _)]; [done|].
  cbn [fst]. unfold select_for_processing. rewrite bind_gets.
  match goal with |- context [match ?x with _ => _ end] => destruct x as [[[[sn nt] s] p]|]; [|done] end.
  pose proof (decode_account_no_panic (s_account s) db') as Ha.
  unfold mbind, M_bind. by destruct (decode_account _ db') as [[]].
Qed.

Lemma update_status_no_panic now i st db :
  no_panic (update_message_processing_status now i st db).1.
Proof.
  pose proof (update_effect now i st db) as Hu.
  destruct (cast_status _); [destruct Hu as (? & -> & _)|rewrite Hu]; done.
Qed.

Lemma dead_letters_no_panic now t db : no_panic (dead_letters_check now t db).1.
Proof. by destruct (dead_letters_effect now t db) as (? & -> & _). Qed.

Lemma notification_publish_no_panic url now mid nonce n :
  links_from url → no_panic (notification_publish url now mid nonce n).
Proof.
  intros Hu. unfold notification_publish.
  repeat (apply no_panic_bind; [|intros ? _]); try apply no_panic_map_err;
    try apply decode_key_no_panic; try apply no_panic_ok_or; try done.
  - destruct (n_url (np_content n)); [|done]. unfold format_follow_link.
    by destruct (Hu (np_subscriber_notification n)) as [u ->].
  - unfold sign_message, sign_jwt. cbn [add_ttl]. apply no_panic_bind; [done|intros ? _].
    repeat (apply no_panic_bind; [|intros ? _]); try apply no_panic_ok_or. done.
  - unfold envelope0_new. apply no_panic_bind; [apply no_panic_ok_or|done].
Qed.

Lemma prepare_no_panic url n w :
  links_from url → no_panic (prepare_notification url n w).1.
Proof. intros Hu. by apply notification_publish_no_panic. Qed.

Lemma process_no_panic url n w :
  links_from url → no_panic (process_notification url n w).1.
Proof.
  intros Hu. pose proof (prepare_no_panic url n w Hu) as Hp.
  unfold process_notification, mbind, M_bind, m_map_err.
  destruct (prepare_notification url n w) as [[p|e|] w1]; [|done|done].
  destruct (publish_relay_message_run p w1) as (r & k & t & -> & Hr). by destruct r.
Qed.

(** The workers alive. *)
Definition alive (s : Publisher.Service) : Prop := ∀ k, sv_workers s !! k ≠ Some Dead.

Lemma alive_insert s w ws k x c l :
  alive s → x ≠ Dead → ws = <[k := x]> (sv_workers s) → alive (Publisher.mkService w ws c l).
Proof.
  intros Hs Hx ->. intros j. cbn [sv_workers]. rewrite lookup_insert.
  case_decide; [congruence|apply Hs].
Qed.

Lemma alive_step url e s s' :
  links_from url → alive s → Publisher.step url e s = Some s' → alive s'.
Proof.
  intros Hu Ha Hs. destruct e as [k locked choose|k|k calls|k|k| | |k| | |q];
    cbn [Publisher.step] in Hs; cbv zeta in Hs.
  1-5: destruct (sv_workers s !! k) as [[]|] eqn:Hk; try done;
    try (destruct (_ <=? _)%nat; [|done]); injection Hs as <-;
    try (eapply alive_insert; [done| |done]; cbn [fst]).
  - unfold run_pick, pick. pose proof (query_no_panic
      (λ now, pick_subscriber_notification_for_processing now locked choose) (sv_world s)
      (λ t, pick_no_panic t locked choose)) as Hp.
    by destruct (query _ _) as [[[]|e|] w'].
  - pose proof (process_no_panic url n (sv_world s) Hu) as Hp. unfold run_process.
    by destruct (process_notification _ _ _) as [[[]|e|] w'].
  - pose proof (prepare_no_panic url n (sv_world s) Hu) as Hp. unfold run_timeout.
    by destruct (prepare_notification _ _ _) as [[p|e|] w'].
  - unfold run_update, update_message_status_queued_or_failed, utc_now.
    assert (∀ st w, no_panic (query (λ now, update_message_processing_status now notification_id st) w).1)
      as Hq by (intros st w; apply query_no_panic; intros t db; apply update_status_no_panic).
    destruct f; [specialize (Hq SNS_Published (sv_world s))|rewrite bind_ask;
      destruct (dead_letter_give_up_check _ _ _);
      [specialize (Hq SNS_Failed (bump (sv_world s)))|specialize (Hq SNS_Queued (bump (sv_world s)))]];
      by destruct (query _ _) as [[[]|e|] w'].
  - intros j Hj. cbn [sv_workers] in Hj. apply lookup_delete_Some in Hj as [_ Hj]. by apply (Ha j).
  - case_decide; [|done]. by injection Hs as <-.
  - destruct (sv_listener s); try done. destruct (deliveries _); [done|]. by injection Hs as <-.
  - case_decide; [|done]. injection Hs as <-. by apply (alive_insert s _ _ k Picking).
  - by injection Hs as <-.
  - by injection Hs as <-.
  - by injection Hs as <-.
Qed.

Lemma alive_start w : alive (Publisher.start w).
Proof.
  intros k Hk. cbn [sv_workers Publisher.start] in Hk.
  apply elem_of_list_to_map_2, list_elem_of_fmap in Hk as (m & [=] & _).
Qed.
End steps.

#[export] Hint Resolve project_read_only accounts_read_only lower_addresses_read_only
  subscribers_read_only subscribers_in_read_only : read_only.
#[export] Hint Resolve same_db_rate_limit_many same_db_limit_http same_db_extractor
  same_db_batch_subscribe : keeps.

(** ** The invariant of the server *)

Section server_invariant.
Context `{!Ext, !HashLaws, !HexLaws, !CipherLaws, !UrlOps, !Env, !EnvLaws, !CacaoOps,
  !Msgpack Cacao, !Json KeyServerResponse, !Json Siwx.RawRecap, !BuildProfile, !JwtConsts,
  !JsonRpcConsts, !RelayWire, !ErrorTexts, !Scheduler, !ValidatorOps, !RelayRpcOps,
  !WebhookTexts, !HttpClientOps, !HttpOps, !SeededRng}.
Context `{!Json RegistryAuthResponse, !Msgpack bool}.
Context `{!Json NotifyMessage, !Json (JsonRpcRequest NotifyMessageAuth)}.
Context `{!UrlEdit, !RelayClientOps, !RelayClientNew, !RedisPools, !StdRng, !BlockchainApi}.
Context (c : Configuration).

Record server_inv (s : Server) : Prop := {
  si_db : rtc db_step empty_db (sr_db s);
  si_counter : counter_inv (sr_publisher s);
  si_mailbox : svc_inv BATCH_SIZE (sr_mailbox s);
  si_alive : links_from (cfg_notify_url c) → alive (sr_publisher s);
}.

Lemma steps_reachable w w' :
  steps w w' → rtc db_step empty_db (w_db w) → rtc db_step empty_db (w_db w').
Proof. intros Hs Hw. by transitivity (w_db w). Qed.

Lemma set_world_inv w s : steps (sr_world s) w → server_inv s → server_inv (set_sr_world w s).
Proof. intros Hw []. by split; [eapply steps_reachable| | |]. Qed.

Lemma background_inv {E A} (m : App E A) k s :
  keeps steps m → no_panic (m (sr_world s)).1 → server_inv s →
  (∀ a s, server_inv s → server_inv (k a s)) →
  background m k s ≠ Panic ∧ ∀ s', background m k s = Ok s' → server_inv s'.
Proof.
  intros Hm Hp Hs Hk. specialize (Hm (sr_world s)). unfold background.
  destruct (m (sr_world s)) as [[a|e|] w]; [| |done]; (split; [done|]); intros ? [= <-];
    [apply Hk|]; by apply set_world_inv.
Qed.

Lemma mailbox_inv l m :
  svc_inv BATCH_SIZE m → mailbox_run l m ≠ Panic ∧ ∀ m', mailbox_run l m = Ok m' → svc_inv BATCH_SIZE m'.
Proof.
  intros Hm. destruct (svc_run_inv BATCH_SIZE batch_size_ok l m Hm) as [Hp Hok].
  split; [exact Hp|]. intros m' Hr. by apply Hok.
Qed.

Lemma server_step_inv st registry e s :
  is_Some (url_join (cfg_webhook_notify_url c) RELAY_WEBHOOK_ENDPOINT) → server_inv s →
  server_step c st registry e s ≠ Panic ∧
  ∀ s', server_step c st registry e s = Ok s' → server_inv s'.
Proof.
  intros Hu Hs. unfold server_step. destruct (stopped s); [done|]. destruct e as [r|e|e| |a].
  - pose proof (steps_serve st registry r (request_world s)) as Hr.
    destruct (mailbox_inv (Offer <$> w_mailbox (serve st registry r (request_world s)).2) (sr_mailbox s)) as [Hp Hok]; [apply Hs|].
    destruct (mailbox_run _ _) as [m|e|]; [|done|done]. split; [done|]. intros ? [= <-].
    destruct Hs as [Hdb Hc Hm Ha]. split; [by eapply steps_reachable|exact Hc|by apply Hok|exact Ha].
  - destruct (own_event e) eqn:Ho; [|done].
    destruct (Publisher.step _ _ _) as [p|] eqn:Hp; [|done]. split; [done|]. intros ? [= <-].
    destruct Hs as [Hdb Hc Hm Ha].
    split; [|by eapply counter_inv_step; [|eexists]|exact Hm|intros Hn; by eapply alive_step; [|apply Ha|]].
    eapply steps_reachable; [|exact Hdb]. by eapply publisher_step_steps.
  - apply background_inv; [apply steps_renewal|by apply renewal_event_no_panic|done|].
    intros r ? []. by split.
  - apply background_inv; [apply steps_expire|eapply errs_no_panic, errs_expire|done|done].
  - destruct (internal a); [|done].
    destruct (mailbox_inv [a] (sr_mailbox s)) as [Hp Hok]; [apply Hs|].
    destruct (mailbox_run [a] _) as [m|e|]; [|done|done]. split; [done|]. intros ? [= <-].
    destruct Hs as [Hdb Hc Hm Ha]. split; [done|done|by apply Hok|done].
Qed.

Lemma server_run_inv st registry es : 
  is_Some (url_join (cfg_webhook_notify_url c) RELAY_WEBHOOK_ENDPOINT) →
  ∀ s, server_inv s → server_run c st registry es s ≠ Panic ∧
  ∀ s', server_run c st registry es s = Ok s' → server_inv s'.
Proof.
  intros Hu. induction es as [|e es IH]; intros s Hs; cbn [server_run].
  - split; [done|]. by intros ? [= <-].
  - destruct (server_step_inv st registry e s Hu Hs) as [Hp Hok].
    destruct (server_step c st registry e s) as [s1|u|]; [|done|done]. by apply IH, Hok.
Qed.

Lemma bootstrap_inv w st registry s w' :
  rtc db_step empty_db (w_db w) → bootstrap c w = (Ok (st, registry, s), w') →
  is_Some (url_join (cfg_webhook_notify_url c) RELAY_WEBHOOK_ENDPOINT) ∧ server_inv s.
Proof.
  intros Hw Hb. unfold bootstrap in Hb. cbv zeta in Hb.
  destruct (lift (configured_seed c) ≫= _) as [[[[st1 registry1] renewal]|e|] w1] eqn:Hr;
    cbn in Hb; simplify_eq.
  apply bind_lift_iff in Hr as (seed & _ & Hr). apply bind_lift_iff in Hr as ([redis reg] & _ & Hr).
  apply bind_lift_iff in Hr as (st2 & _ & Hr). apply bind_Ok_inv in Hr as (ren & w2 & Hj & Hr).
  unfold mret, M_ret in Hr. simplify_eq. split.
  - unfold relay_renewal_job, register_webhook, watch_register_request in Hj.
    destruct (url_join _ _); [by eexists|].
    apply bind_Ok_inv in Hj as ([] & w2 & Hj & _). by apply bind_Ok_inv in Hj as (r & w3 & Hl & _).
  - split; [|apply counter_inv_start|apply svc_inv_start, batch_size_ok|intros _; apply alive_start]. eapply steps_reachable; [|exact Hw].
    pose proof (steps_renewal (key_agreement_topic (st_notify_keys st))
      (cfg_webhook_notify_url c) JobTick renewal_start w) as Hs.
    cbn [renewal_event] in Hs. unfold mbind at 1, M_bind, attempt in Hs. by rewrite Hj in Hs.
Qed.

(** C6. The server, started on any database an earlier run can have left, never
    panics outside a request, and whatever requests, publisher events, jobs and
    mailbox events happen, in whatever order and with whatever failures: the
    database satisfies the indexes and foreign keys and its rows stay well
    typed, so that it can be started again on it; the relay is only given
    batches of 1 to [BATCH_SIZE] receipts; the dead letters check, a task of its
    own, does not panic either; and when notification links can be made from the
    server's URL no worker ever panics, so that the counter is the number of the
    workers still at work, at most [MAX_WORKERS]. *)
Theorem server_invariant w st registry s0 w0 es s :
  rtc db_step empty_db (w_db w) → bootstrap c w = (Ok (st, registry, s0), w0) →
  server_run c st registry es s0 ≠ Panic ∧
  (server_run c st registry es s0 = Ok s →
   rtc db_step empty_db (sr_db s) ∧ wf_db (sr_db s) ∧ typed_db (sr_db s) ∧
   sv_counter (sr_publisher s) = Z.of_nat (size (sv_workers (sr_publisher s))) ∧
   0 <= sv_counter (sr_publisher s) <= MAX_WORKERS ∧
   Forall (λ b, 1 ≤ length b ≤ BATCH_SIZE)%nat (sv_relay (sr_mailbox s)) ∧
   no_panic (query (λ now, dead_letters_check now PUBLISHING_TIMEOUT) (sr_world s)).1 ∧
   (links_from (cfg_notify_url c) → alive (sr_publisher s))).
Proof.
  intros Hw Hb. destruct (bootstrap_inv _ _ _ _ _ Hw Hb) as [Hu Hs].
  destruct (server_run_inv st registry es Hu s0 Hs) as [Hp Hok]. split; [exact Hp|].
  intros Hr. destruct (Hok s Hr) as [Hdb (Hc & Hm & _) Hbox Halive].
  destruct (rtc_db_step_inv _ _ Hdb) as [Hwf Hty]; [split; [apply wf_empty|apply typed_empty]|].
  split_and!; try done; [lia|apply Hbox|].
  apply query_no_panic. intros t db. apply dead_letters_no_panic.
Qed.
End server_invariant.

(** ** A concrete run *)

Module ServerInstances.
Import Concrete.Instances JwtInstances EnvInstances MessageInstances Siwx.RecapInstances.
Import IdentityInstances RegistryInstances NetInstances.

(** Nothing can be read from the relay in this run. *)
Definition unreadable {A} : Json A := {| to_json _ := None; from_json _ := None |}.
#[local] Existing Instance unreadable | 100.
#[export] Instance wire_w : RelayWire.
Proof. split; try apply unreadable; apply _. Defined.
#[export] Instance texts_w : ErrorTexts := {| wrapped_text _ := "" |}.
#[export] Instance webhook_texts_w : WebhookTexts := {| webhook_client_text _ := "" |}.
#[export] Instance scheduler_w : Scheduler := {| sched_rank i j := j |}.
#[export] Instance relay_rpc_w : RelayRpcOps :=
  {| watch_event_from_str _ := None; verify_basic _ _ _ := false; get_message_id s := s |}.
#[export] Instance client_w : HttpClientOps := {| header_value_ok _ := true; client_builds := true |}.
#[export] Instance http_w : HttpOps :=
  {| json_rejection := ""; base64url_encode := of_bytes; build_name := "notify-server";
     build_version := "0.1.0" |}.
#[export] Instance rng_w : SeededRng :=
  {| rng_fill seed n := take n seed; signing_key_generate seed := seed |}.

Definition colon : Ascii.ascii := Ascii.ascii_of_N 58.
#[export] Instance url_edit_w : UrlEdit :=
  {| url_scheme u := match splitn2 colon u with (s, Some _) => s | _ => "" end;
     url_set_scheme u s := match splitn2 colon u with (_, Some r) => Some (s +:+ ":" +:+ r) | _ => None end;
     url_set_host u h := match strip_prefix "http://" u with
                         | Some r => Some ("http://" +:+ h +:+ from_option (String.append ":") "" (splitn2 colon r).2)
                         | None => None end;
     url_origin u := u |}.
#[export] Instance relay_client_w : RelayClientOps :=
  {| auth_token_jwt _ aud _ _ := Some aud; CARGO_PKG_VERSION := "0.1.0" |}.
#[export] Instance relay_new_w : RelayClientNew := {| relay_client_new _ := true |}.
#[export] Instance pools_w : RedisPools := {| pool_builds _ _ := true |}.
#[export] Instance std_rng_w : StdRng := {| std_rng_signing_key seed := seed |}.
#[export] Instance blockchain_w : BlockchainApi := {| blockchain_provider _ _ := None |}.

(** A deployed server, on the address of its machine. *)
#[export] Instance process_w : Process :=
  {| env_var v := if String.eqb v "ENVIRONMENT" then Some "DEPLOYED" else None;
     dotenv := DotEnvNotFound;
     envy_deployed := Some (mkDeployedConfiguration (F := option) None None None None
       (Some "postgres://db") (Some 10) (Some "seed") (Some "notify") (Some "wss://relay")
       (Some (hex_encode (replicate 32 Byte.x09))) (Some "https://notify.example.com") None
       (Some "https://registry") (Some "token") (Some "redis://cache") None None None None None
       None None None);
     envy_local := None;
     interfaces := NetInstances.interfaces_w;
     reqwest_get_text _ := None |}.

Definition config_w : Configuration :=
  match get_configuration with
  | Ok c => c
  | _ => local_configuration (mkLocalConfiguration (F := λ A, A) "" "" (V4 0) 0 "" "" 0 "" "" "" "" None)
           "" "" ""
  end.

(** The registry knows one project and its secret. *)
#[local] Instance server_env : Env :=
  make_env (λ _ _, None)
    (λ _ url, Some (mkHttpResponse 200 (as_bytes
       (if String.eqb url "https://registry/internal/project/validate-notify-keys?projectId=project1?secret=2s"
        then "t" else "f")))).
#[local] Instance server_env_laws : EnvLaws.
Proof. apply make_env_laws. Qed.

Definition boot_w := bootstrap config_w (world_w empty_db).

(** A project registers and a welcome notification is set, the workers start. *)
Definition parts_w : Parts := mkParts (Some {["project_id" := "project1"]}) (Some "2s").
Definition events_w : list ServerEvent :=
  [SRenewal TaskEnds; SRequest (PostSubscribeTopic parts_w "app.example.com");
   SPublisher EListen; SPublisher (EPick 0 ∅ 0); SPublisher (EExit 0);
   SRequest (PostWelcomeNotification parts_w (mkWelcomeNotification true 7%N "hi" "there" None));
   SRenewal JobTick; SExpireWatchers; SPublisher EDeadLetters].

Definition run_w : outcome () Server :=
  match boot_w with
  | (Ok (st, registry, s0), _) => server_run config_w st registry events_w s0
  | _ => Err ()
  end.

(** One project, its welcome notification, and one worker less. *)
Definition as_expected (s : Server) : bool :=
  (size (project (sr_db s)) =? 1)%nat && (size (welcome_notification (sr_db s)) =? 1)%nat
  && (sv_counter (sr_publisher s) =? 49).

Lemma server_invariant_witness :
  match run_w with
  | Ok s => as_expected s = true ∧ wf_db (sr_db s) ∧ typed_db (sr_db s)
  | _ => False
  end.
Proof.
  assert (Hrun : match run_w with Ok s => as_expected s | _ => false end = true)
    by (vm_compute; reflexivity).
  unfold run_w in *. destruct boot_w as [[[[st registry] s0]|e|] w0] eqn:Hb;
    [|discriminate Hrun|discriminate Hrun].
  destruct (server_run config_w st registry events_w s0) as [s|u|] eqn:Hr;
    [|discriminate Hrun|discriminate Hrun].
  destruct (server_invariant config_w (world_w empty_db) st registry s0 w0 events_w s (rtc_refl _ _) Hb)
    as [_ Hs].
  destruct (Hs Hr) as (_ & Hwf & Hty & _). split; [exact Hrun|split; assumption].
Defined.
End ServerInstances.
