(* ===== verification/Totality.v ===== *)
(** * No request panics

    The handlers unwrap accounts, table entries, URLs and replies of the rate
    limiter.  On a reachable database, in a release build, none of these fails:
    the computations of the handlers are total, up to a redirect to a text that
    is not a header. *)

From S2P Require Import Prelude RustStr Externals AccountId Errors Types RateLimit.
From S2P Require Import Database DbInvariant Jwt World RelayPublish NotifyMessage Queue Publisher.
From S2P Require Import Cache Identity RelayError RelayHandlers RelayRequests Webhook RelaySafety.
From S2P Require Import Registry Mailbox Jobs NotifyV1 HttpHandlers Server ServerSafety.
Open Scope Z_scope.

(** ** Total computations *)

Abbreviation total := (errs_in (λ _, True)).

Section total.
Context {W E : Type}.

Lemma total_lift {A} (o : outcome E A) : no_panic o → total (lift (W:=W) o).
Proof. intros Ho w. by destruct o. Qed.

Lemma total_map_err {E' A} (f : E' → E) (m : M W E' A) : total m → total (m_map_err f m).
Proof. intros Hm. by apply errs_map_err with (λ _, True). Qed.

Lemma total_attempt_bind {E' A B} (m : M W E' A) (k : outcome E' A → M W E B) :
  total m → (∀ r, no_panic r → total (k r)) → total (attempt m ≫= k).
Proof.
  intros Hm Hk w. specialize (Hm w). unfold attempt, mbind, M_bind.
  destruct (m w) as [[a|e|] w1]; [by apply Hk|by apply Hk|done].
Qed.

(** The continuation is only considered on what the computation returns. *)
Lemma total_bind_Ok {A B} (m : M W E A) (k : A → M W E B) :
  total m → (∀ a w w', m w = (Ok a, w') → total (k a)) → total (m ≫= k).
Proof.
  intros Hm Hk w. specialize (Hm w). unfold mbind, M_bind.
  destruct (m w) as [[a|e|] w1] eqn:Hw; [by eapply Hk|done|done].
Qed.

Lemma total_for_each {A} (f : A → M W E ()) l : (∀ a, total (f a)) → total (for_each f l).
Proof.
  intros Hf. induction l as [|a l IH]; cbn [for_each]; [by apply errs_ret|].
  by apply errs_bind; [|intros _].
Qed.

Lemma total_gets {A} (f : W → A) : total (gets (E:=E) f).
Proof. done. Qed.
Lemma total_modify (f : W → W) : total (modify (E:=E) f).
Proof. done. Qed.
Lemma total_ret {A} (a : A) : total (mret (M:=M W E) a).
Proof. done. Qed.
Lemma total_throw {A} (e : E) : total (throw (W:=W) (A:=A) e).
Proof. done. Qed.
Lemma total_guard b (e : E) : total (guard_err (W:=W) b e).
Proof. by destruct b. Qed.
Lemma total_ok_or {A} (o : option A) (e : E) : total (lift (W:=W) (ok_or o e)).
Proof. by destruct o. Qed.
End total.

Create HintDb total.
#[export] Hint Resolve total_gets total_modify total_ret total_throw total_guard total_ok_or : total.

Ltac pure_total := repeat first
  [ exact I | apply no_panic_ok_or | apply decode_key_no_panic
  | apply no_panic_map_err | apply no_panic_bind; [|intros ? _] | case_match ].

Ltac total_steps := repeat first
  [ solve [auto 5 with total]
  | apply total_attempt_bind; [|intros ??] | apply errs_bind; [|intros ?]
  | apply total_map_err | solve [apply total_lift; pure_total] | case_match ].

(** ** Queries *)

Lemma total_transaction {A} (q : Query A) : total q → total (transaction q).
Proof. intros Hq db. specialize (Hq db). unfold transaction. by destruct (q db) as [[]]. Qed.

Lemma total_check_unique {K V B} `{Countable K, EqDecision B} index (f : V → B) (k : K) v m :
  total (check_unique index f k v m).
Proof. unfold check_unique. by case_match. Qed.

Lemma total_check_fk {K V} `{Countable K} (k : K) (m : gmap K V) : total (check_fk k m).
Proof. unfold check_fk. by case_match. Qed.

Lemma total_fetch_one {A} (l : list A) : total (fetch_one l).
Proof. by destruct l. Qed.

Lemma total_decode_rows {A B} (f : A → Query B) l : (∀ a, total (f a)) → total (decode_rows f l).
Proof. intros Hf. induction l; cbn [decode_rows]; total_steps. Qed.
#[export] Hint Resolve total_check_unique total_check_fk total_fetch_one : total.

Section queries.
Context `{!Ext, !HashLaws, !HexLaws}.

Lemma total_check_lengths l : total (check_lengths l).
Proof. apply total_guard. Qed.

Lemma total_decode_account s : total (decode_account s).
Proof.
  intros db. pose proof (decode_account_no_panic s db) as Hn. by destruct (decode_account s db) as [[]].
Qed.
Hint Resolve total_check_lengths total_decode_account : total.

Lemma total_select_project P : total (select_project P).
Proof. unfold select_project. total_steps. Qed.

Lemma total_subscriber_by_topic t : total (get_subscriber_by_topic t).
Proof. unfold get_subscriber_by_topic. total_steps. Qed.

Lemma total_update_subscriber_scope sub scope : total (update_subscriber_scope sub scope).
Proof. unfold update_subscriber_scope. total_steps. Qed.
Hint Resolve total_select_project total_subscriber_by_topic total_update_subscriber_scope : total.

Lemma total_upsert_subscriber now fresh proj account scope k t :
  total (upsert_subscriber now fresh proj account scope k t).
Proof. unfold upsert_subscriber. apply total_transaction. total_steps. Qed.

Lemma total_update_subscriber now sub scope : total (update_subscriber now sub scope).
Proof.
  unfold update_subscriber. apply total_transaction. apply errs_bind; [done|intros m].
  apply total_bind_Ok; [apply total_fetch_one|]. intros [k s] db db' Hs.
  assert ((k, s) ∈ select (λ k _, bool_decide (k = sub)) m) as [_ Hk]%elem_of_select
    by (destruct (select _ m); [done|]; injection Hs as -> _; by left).
  cbn [fst snd]. rewrite Hk. total_steps.
Qed.

Lemma total_upsert_watcher account proj dk sk e :
  total (upsert_subscription_watcher account proj dk sk e).
Proof. unfold upsert_subscription_watcher. total_steps. Qed.

Lemma total_mark_read sub ids : total (mark_notifications_as_read sub ids).
Proof. unfold mark_notifications_as_read. total_steps. Qed.

Lemma total_notifications now sub p : total (get_notifications_for_subscriber now sub p).
Proof. unfold get_notifications_for_subscriber. total_steps. Qed.

Lemma total_upsert_notification now fresh nid proj n :
  total (upsert_notification now fresh nid proj n).
Proof. unfold upsert_notification. total_steps. Qed.

Lemma total_upsert_rows now notif rows : total (upsert_subscriber_notifications now notif rows).
Proof.
  unfold upsert_subscriber_notifications. apply total_transaction, total_for_each. intros [fresh sub].
  unfold insert_subscriber_notification. total_steps.
Qed.

Lemma total_upsert_project fresh pid d t ak sk : total (upsert_project fresh pid d t ak sk).
Proof. unfold upsert_project, upsert_project_impl, check_project_indexes. total_steps. Qed.

Lemma total_set_welcome proj w : total (set_welcome_notification proj w).
Proof. unfold set_welcome_notification. total_steps. Qed.

Lemma total_notification_link i : total (get_notification_link i).
Proof. unfold get_notification_link. total_steps. Qed.

Lemma total_accounts project_id : total (get_subscriber_accounts_by_project_id project_id).
Proof.
  unfold get_subscriber_accounts_by_project_id. total_steps. apply total_decode_rows. auto with total.
Qed.

Lemma total_lower_addresses accounts :
  Forall valid_account accounts → total (lower_addresses accounts).
Proof.
  intros Hv db. by rewrite lower_addresses_run.
Qed.

Lemma total_subscribers project_id accounts :
  Forall valid_account accounts → total (get_subscribers_by_project_id_and_accounts project_id accounts).
Proof.
  intros Hv. unfold get_subscribers_by_project_id_and_accounts.
  apply errs_bind; [by apply total_lower_addresses|intros ?]. total_steps.
  apply total_decode_rows. intros ?. total_steps.
Qed.
End queries.

#[export] Hint Resolve total_check_lengths total_decode_account total_select_project
  total_subscriber_by_topic total_update_subscriber_scope total_upsert_subscriber
  total_update_subscriber total_upsert_watcher total_mark_read total_notifications
  total_upsert_notification total_upsert_rows total_upsert_project total_set_welcome
  total_notification_link total_accounts : total.
#[export] Hint Extern 1 (errs_in _ (get_project_by_id _)) => apply total_select_project : total.
#[export] Hint Extern 1 (errs_in _ (get_project_by_project_id _)) =>
  apply total_select_project : total.
#[export] Hint Extern 1 (errs_in _ (get_project_by_app_domain _)) =>
  apply total_select_project : total.
#[export] Hint Extern 1 (errs_in _ (get_project_by_topic _)) => apply total_select_project : total.

(** ** The relay and the identity of a request *)

Section relay.
Context `{!Ext, !HashLaws, !HexLaws, !UrlOps, !Env, !CacaoOps, !Msgpack Cacao,
  !Json KeyServerResponse, !Json Siwx.RawRecap, !BuildProfile, !JwtConsts, !JsonRpcConsts,
  !RelayWire, !ErrorTexts, !Scheduler, !ValidatorOps}.

Lemma total_query {A} (q : Z → Query A) : (∀ t, total (q t)) → total (query q).
Proof. intros Hq. apply errs_query. intros t db. eapply errs_no_panic, Hq. Qed.

Lemma total_query_err {E A} (e : E) (q : Z → M Db E A) : (∀ t, total (q t)) → total (query_err e q).
Proof.
  intros Hq w. unfold query_err. destruct (env_db_fault _); [done|].
  specialize (Hq (env_now (w_tick w)) (w_db w)). by destruct (q _ _) as [[]].
Qed.

Lemma total_ask {E A} (f : nat → A) : total (ask (E:=E) f).
Proof. done. Qed.

Lemma total_rate_limit key l : total (rate_limit key l).
Proof.
  intros w. unfold rate_limit. rewrite token_bucket_run. destruct (rc_fault _); [done|].
  destruct (take_token _ _ _ _) as [[rem rst] b]. cbn. by destruct (rem <? 0).
Qed.

Lemma total_publish p : total (publish_relay_message p).
Proof.
  intros w. unfold publish_relay_message.
  by destruct (retry_run _ _ _ w (publish_single p)) as [(k & _ & _ & _ & ->)|(_ & e & ->)].
Qed.

Lemma total_subscribe t : total (subscribe_relay_topic t).
Proof.
  unfold subscribe_relay_topic. apply errs_bind; [|done]. intros w.
  by destruct (retry_run _ _ _ w (relay_call_single (RelaySubscribeReq t)))
    as [(k & _ & _ & _ & ->)|(_ & e & ->)].
Qed.

Lemma total_spawn {E E' A} (m : App E' A) : total (spawn (E:=E) m).
Proof. done. Qed.
Hint Resolve total_ask total_rate_limit total_publish total_subscribe total_spawn : total.
Hint Extern 1 (errs_in _ (query _)) => apply total_query; intros ? : total.

Lemma total_redis_get {A} `{!Msgpack A} key : total (redis_get (A:=A) key).
Proof.
  unfold redis_get. apply errs_bind; [apply errs_redis_cmd|intros ?].
  unfold deserialize. total_steps.
Qed.
Hint Resolve total_redis_get : total.

(** [Cacao::verify] answers true or an error; the build is a release build. *)
Class Sound : Prop := {
  sound_release : overflow_checks = false;
  sound_verify i c : cacao_verify i c ≠ Some false;
}.
Context `{!Sound}.

Lemma no_panic_u64 {E} x : no_panic (u64_op (E:=E) x).
Proof. apply u64_op_no_panic, sound_release. Qed.

Lemma total_keys_server url redis : total (keys_server_request_cached url redis).
Proof. unfold keys_server_request_cached, keys_server_request, http_get. total_steps. Qed.

Lemma from_did_pkh_no_panic s : no_panic (from_did_pkh s).
Proof.
  unfold from_did_pkh, try_from_account. pure_total. apply validate_caip_10_no_panic.
Qed.

Lemma total_verify_identity cid ksu sub redis : total (verify_identity cid ksu sub redis).
Proof.
  unfold verify_identity, keys_server_url, verify_cacao, check_nbf, check_exp, utc_now.
  apply errs_bind; [apply total_lift; pure_total|intros url].
  apply errs_bind; [apply total_keys_server|intros [c src]].
  apply errs_bind; [apply total_lift, no_panic_map_err, from_did_pkh_no_panic|intros account].
  apply total_bind_Ok; [apply total_ask|]. intros v w w' [= <- _].
  destruct (cacao_verify (w_tick w) c) as [[]|] eqn:Hv; [| |done].
  - cbn [ok_or]. apply total_bind_Ok; [done|]. intros b w1 w2 [[= <-] _]%lift_Ok_inv.
    cbn [mret]. apply errs_bind; [done|intros _]. total_steps.
    apply total_lift, no_panic_map_err, cacao_app_no_panic.
  - by apply sound_verify in Hv.
Qed.
Hint Resolve total_verify_identity : total.

Lemma total_parse_request {T} `{!Json T, !GetSharedClaims T} jwt :
  total (parse_request (T := T) jwt).
Proof.
  unfold parse_request, utc_now, client_err. total_steps.
  apply total_lift, no_panic_map_err, no_panic_map_err, from_jwt_no_panic, sound_release.
Qed.

Lemma total_same_address (a b : AccountId) {W E} : valid_account a → valid_account b →
  total (lift (W:=W) (is_same_address (E:=E) a b)).
Proof.
  intros Ha Hb. apply total_lift. unfold is_same_address.
  destruct (valid_account_lower a Ha) as (ta & -> & _).
  by destruct (valid_account_lower b Hb) as (tb & -> & _).
Qed.

Lemma total_authenticate st proj claims act cid ksu sub app owner :
  (∀ o, owner = Some o → valid_account o) →
  total (authenticate st proj claims act cid ksu sub app owner).
Proof.
  intros Ho. unfold authenticate, check_act, verify_request_identity.
  apply errs_bind; [auto with total|intros _]. apply errs_bind; [auto with total|intros _].
  apply total_bind_Ok; [apply total_map_err; auto with total|].
  intros a w w' Ha%m_map_err_Ok_inv. apply errs_bind; [auto with total|intros _].
  apply errs_bind; [|by intros _]. destruct owner as [o|]; [|done].
  apply errs_bind; [|intros same; auto with total]. apply total_same_address; [|by apply Ho].
  eapply (identified_valid st). by eexists _, _.
Qed.

Lemma total_limit_topic st key l : total (limit_topic st key l).
Proof. unfold limit_topic. total_steps. Qed.
Hint Resolve total_parse_request total_limit_topic : total.

Lemma total_find_subscriber st msg prefix l wrong :
  total (find_subscriber st msg prefix l wrong).
Proof. unfold find_subscriber, sqlx. total_steps. Qed.

Lemma found_valid st msg prefix l wrong w subscriber proj w' :
  find_subscriber st msg prefix l wrong w = (Ok (subscriber, proj), w') →
  valid_account (sws_account subscriber).
Proof.
  intros Hf. eapply find_subscriber_Ok in Hf as [Hs _]; [|done].
  unfold get_subscriber_by_topic in Hs. rewrite bind_gets in Hs. unfold mbind, M_bind in Hs.
  destruct (fetch_one _ _) as [[[i s]| |] db1]; try done. unfold decode_account, lift in Hs.
  destruct (map_err ColumnDecode (try_from_account (s_account s))) as [a| |] eqn:Ha; try done.
  apply map_err_Ok, try_from_account_Ok in Ha as [-> Hv]. unfold mret, M_ret in Hs.
  cbn in Hs. by injection Hs as <-.
Qed.

Lemma total_open_request {T} `{!Json (JsonRpcRequest T)} msg subscriber :
  total (open_request (T := T) msg subscriber).
Proof.
  unfold open_request, client_err, server_err, open_envelope, envelope0_from_bytes, decrypt_message.
  total_steps.
Qed.
Hint Resolve total_find_subscriber total_open_request : total.
End relay.

#[export] Hint Resolve total_ask total_rate_limit total_publish total_subscribe total_spawn
  total_redis_get total_limit_topic total_find_subscriber total_open_request : total.
#[export] Hint Extern 1 (errs_in _ (query _)) => apply total_query; intros ? : total.
#[export] Hint Extern 1 (errs_in _ (query_err _ _)) => apply total_query_err; intros ? : total.
#[export] Hint Extern 1 (errs_in _ (parse_request _)) => apply total_parse_request : total.
#[export] Hint Extern 1 (errs_in _ (verify_identity _ _ _ _)) =>
  apply total_verify_identity : total.

(** ** The answers *)

Section answers.
Context `{!Ext, !HashLaws, !HexLaws, !UrlOps, !Env, !CacaoOps, !Msgpack Cacao,
  !Json KeyServerResponse, !Json Siwx.RawRecap, !BuildProfile, !JwtConsts, !JsonRpcConsts,
  !RelayWire, !ErrorTexts, !Scheduler, !ValidatorOps}.

Lemma total_prepare source mjv account app :
  total (prepare_subscription_watchers source mjv account app).
Proof.
  intros w. rewrite prepare_run.
  pose proof (collect_subscriptions_no_panic account None w) as Hc.
  destruct (collect_subscriptions account None w) as [[all| |] w1]; try done.
  pose proof (watchers_query_no_panic account app w1) as Hq.
  by destruct (query _ w1) as [[ws| |] w2].
Qed.

Lemma total_collect account app : total (collect_subscriptions account app).
Proof.
  intros w. pose proof (collect_subscriptions_no_panic account app w) as Hc.
  by destruct (collect_subscriptions account app w) as [[]].
Qed.

Lemma total_claims {E} i a act ttl :
  (ttl * 1000 <=? 2 ^ 63 - 1) = true → total (response_claims (E:=E) i a act ttl).
Proof.
  intros Ht. unfold response_claims, utc_now. apply errs_bind; [done|intros now].
  apply errs_bind; [|done]. unfold add_ttl. by rewrite Ht.
Qed.
Hint Resolve total_prepare total_collect : total.
Hint Extern 1 (errs_in _ (response_claims _ _ _ _)) => apply total_claims; reflexivity : total.

Lemma no_panic_sign_jwt {T} `{!Json T} (m : T) key : no_panic (sign_jwt m key).
Proof. unfold sign_jwt. pure_total. Qed.

Lemma no_panic_seal nonce key text : no_panic (seal_text nonce key text).
Proof. unfold seal_text, envelope0_new. pure_total. Qed.

Lemma no_panic_derive pk sk : no_panic (derive_key pk sk).
Proof. apply no_panic_ok_or. Qed.

Lemma total_sign_response {T} `{!Json T} (m : T) key : total (sign_response m key).
Proof. unfold sign_response, server_err. apply total_lift, no_panic_map_err, no_panic_map_err, no_panic_sign_jwt. Qed.

Lemma total_seal {E} (f : () → E) nonce key text :
  total (lift (W:=World) (map_err f (seal_text nonce key text))).
Proof. apply total_lift, no_panic_map_err, no_panic_seal. Qed.

Lemma total_derive {E} (f : DeriveKeyError → E) pk sk :
  total (lift (W:=World) (map_err f (derive_key pk sk))).
Proof. apply total_lift, no_panic_map_err, no_panic_derive. Qed.
Hint Resolve total_sign_response total_seal total_derive : total.

Lemma total_send st x : total (send st x).
Proof.
  destruct x. unfold send, random_bytes. total_steps.
Qed.

Lemma total_publish_response topic key tag ttl text : total (publish_response topic key tag ttl text).
Proof. unfold publish_response, random_bytes. total_steps. Qed.
Hint Resolve total_send total_publish_response : total.

Definition total_task (t : Task) : Prop :=
  match t with ResponseTask m => total m | WatcherTask m => total m end.

Lemma total_join tasks : Forall total_task tasks → ∀ n e, total (join_tasks tasks n e).
Proof.
  induction 1 as [|[m|m] tasks Hm _ IH]; intros n e; cbn [join_tasks]; [done|..].
  - apply errs_bind; [exact Hm|auto].
  - apply total_attempt_bind; [exact Hm|]. intros r Hr.
    apply errs_bind; [by destruct r|]. intros failed. by destruct (pred n), failed.
Qed.

Lemma total_try_join response st watchers : total response → total (try_join response st watchers).
Proof.
  intros Hr. unfold try_join. apply errs_bind; [done|]. intros rank.
  apply total_join, Forall_schedule. constructor; [done|].
  apply Forall_fmap, Forall_true. intros x. apply total_send.
Qed.

Hint Resolve total_try_join : total.

Lemma total_serialize {A} `{!Json (JsonRpcResponse A)} id (r : outcome RelayMessageError A) :
  no_panic r → total (serialize_response id r).
Proof. intros Hr. destruct r; [| |done]; unfold serialize_response, server_err; total_steps. Qed.

Lemma no_panic_fmap {E A B} (f : A → B) (r : outcome E A) : no_panic r → no_panic (f <$> r).
Proof. by destruct r. Qed.

Lemma total_answer {A} `{!Json (JsonRpcResponse A)} topic key tag ttl id
    (r : outcome RelayMessageError A) : no_panic r → total (answer topic key tag ttl id r).
Proof.
  intros Hr. unfold answer. apply errs_bind; [by apply total_serialize|intros ?].
  total_steps. by apply total_lift, no_panic_fmap.
Qed.

Lemma total_answer_and_notify st topic key tag ttl id r :
  no_panic r → total (answer_and_notify st topic key tag ttl id r).
Proof.
  intros Hr. unfold answer_and_notify.
  apply errs_bind; [by apply total_serialize, no_panic_fmap|intros ?].
  apply errs_bind; [|intros ?; by apply total_lift, no_panic_fmap].
  case_match; total_steps.
Qed.
End answers.

#[export] Hint Resolve total_prepare total_collect total_sign_response total_seal total_derive
  total_send total_publish_response total_answer total_answer_and_notify : total.
#[export] Hint Extern 1 (errs_in _ (response_claims _ _ _ _)) =>
  apply total_claims; reflexivity : total.

(** ** The relay's requests *)

Section requests.
Context `{!Ext, !HashLaws, !HexLaws, !UrlOps, !Env, !CacaoOps, !Msgpack Cacao,
  !Json KeyServerResponse, !Json Siwx.RawRecap, !BuildProfile, !JwtConsts, !JsonRpcConsts,
  !RelayWire, !ErrorTexts, !Scheduler, !ValidatorOps, !Sound}.
Context (st : AppState).

(** The links of notifications are URLs: the server's own URL can be a base. *)
Definition links_join : Prop := ∀ u : Uuid,
  is_Some (url_join (st_notify_url st) ("/v1/notification/" +:+ uuid_to_string u)).

Lemma no_panic_link_urls {E} (l : list NotificationView) :
  links_join → no_panic (link_urls (E:=E) st l).
Proof.
  intros Hl. induction l as [|n l IH]; [done|]. cbn [link_urls].
  apply no_panic_bind; [|intros ? _; by apply no_panic_bind].
  unfold link_url. apply no_panic_bind; [|done]. destruct (n_url (nv_content n)); [|done].
  apply no_panic_bind; [|done]. unfold format_follow_link. by destruct (Hl (nv_id n)) as [u ->].
Qed.

Lemma no_panic_validation checks : no_panic (run_validation checks).
Proof. unfold run_validation. by case_match. Qed.

(** The claims parsed and the sender authenticated, in front of what follows. *)
Ltac open_steps := unfold project_signing_key, project_identity, client_err, server_err, sqlx,
  utc_now, new_v4, random_bytes, notify_webhook, check_act, verify_request_identity,
  get_notifications_request_validate, mark_notifications_as_read_request_validate,
  open_envelope, envelope1_from_bytes, decrypt_message, check_app_authorization,
  get_authentication_client_id, get_welcome_notification, delete_subscriber; total_steps.

#[local] Hint Extern 1 (errs_in _ (authenticate _ _ _ _ _ _ _ _ _)) =>
  apply total_authenticate; by intros ? [= <-] : total.

Lemma total_welcome proj sub scope : total (send_welcome_notification proj sub scope).
Proof. unfold send_welcome_notification. open_steps. Qed.
Hint Resolve total_welcome : total.

Lemma total_watch_subscriptions req key : total (watch_subscriptions st req key).
Proof. unfold watch_subscriptions. open_steps. Qed.

Lemma total_subscribe_request req proj cid pk : total (subscribe st req proj cid pk).
Proof. unfold subscribe, conclude_subscribe. open_steps. Qed.

Lemma total_update_request req subscriber proj cid :
  valid_account (sws_account subscriber) → total (update st req subscriber proj cid).
Proof. intros Hv. unfold update. open_steps. Qed.

Lemma total_delete_request req msg subscriber proj cid :
  valid_account (sws_account subscriber) → total (unsubscribe st req msg subscriber proj cid).
Proof. intros Hv. unfold unsubscribe. open_steps. Qed.

Lemma total_get_request req subscriber proj : links_join →
  valid_account (sws_account subscriber) → total (get_notifications st req subscriber proj).
Proof.
  intros Hl Hv. unfold get_notifications. open_steps.
  - apply total_lift, no_panic_map_err, no_panic_map_err, no_panic_validation.
  - by apply total_lift, no_panic_link_urls.
Qed.

Lemma total_mark_request req subscriber proj :
  valid_account (sws_account subscriber) → total (mark_as_read st req subscriber proj).
Proof.
  intros Hv. unfold mark_as_read. open_steps.
  apply total_lift, no_panic_map_err, no_panic_map_err, no_panic_validation.
Qed.
Hint Resolve total_watch_subscriptions total_subscribe_request total_update_request
  total_delete_request total_get_request total_mark_request : total.

(** The handlers that start by finding the subscriber of the topic. *)
Lemma total_found {A} msg prefix l wrong (k : SubscriberWithScope * Project → App RelayMessageError A) :
  (∀ subscriber proj, valid_account (sws_account subscriber) → total (k (subscriber, proj))) →
  total (find_subscriber st msg prefix l wrong ≫= k).
Proof.
  intros Hk. apply total_bind_Ok; [auto with total|]. intros [subscriber proj] w w' Hf.
  eapply Hk, found_valid, Hf.
Qed.

Lemma total_dispatch msg : links_join → total (dispatch st msg).
Proof.
  intros Hl. unfold dispatch. repeat case_match; [..|done];
    unfold notify_subscribe, notify_delete, notify_update, notify_watch_subscriptions,
      notify_get_notifications, notify_mark_notifications_as_read, answer_subscribe, answer_delete,
      answer_update, answer_watch, answer_get_notifications, answer_mark_as_read;
    try (apply total_found; intros subscriber proj Hv); open_steps.
Qed.

Lemma total_handle_msg msg : links_join → total (handle_msg st msg).
Proof.
  intros Hl. unfold handle_msg. apply total_attempt_bind; [by apply total_dispatch|].
  by intros [[]|[]|].
Qed.

Hint Resolve total_handle_msg : total.

(** The webhook needs the mailbox clearing service to be there. *)
Lemma total_webhook `{!RelayRpcOps} event_auth w :
  links_join → w_receiver w = true → no_panic (webhook st event_auth w).1.
Proof.
  intros Hl Hopen.
  destruct (webhook_run st event_auth w) as [(claims & _ & ->)|(_ & e & n & ->)]; [|done].
  unfold handle_event. case_bool_decide.
  - unfold clear_mailbox, gets, mbind, M_bind. cbn [w_receiver bump]. by rewrite Hopen.
  - eapply errs_no_panic. unfold utc_now. total_steps.
Qed.
End requests.

(** ** HTTP requests *)

Section http.
Context `{!Ext, !HashLaws, !HexLaws, !CipherLaws, !UrlOps, !Env, !EnvLaws, !CacaoOps,
  !Msgpack Cacao, !Json KeyServerResponse, !Json Siwx.RawRecap, !BuildProfile, !JwtConsts,
  !JsonRpcConsts, !RelayWire, !ErrorTexts, !Scheduler, !ValidatorOps, !RelayRpcOps,
  !WebhookTexts, !HttpClientOps, !HttpOps, !Sound}.
Context `{!Json RegistryAuthResponse, !Msgpack bool}.
Context (st : AppState) (registry : Registry).

(** Total from the databases the server can have. *)
Definition total_from {E A} (m : App E A) : Prop :=
  ∀ w, rtc db_step empty_db (w_db w) → no_panic (m w).1.

Lemma total_anywhere {E A} (m : App E A) : total m → total_from m.
Proof. intros Hm w _. eapply errs_no_panic, Hm. Qed.

Lemma total_from_bind {E A B} (m : App E A) (k : A → App E B) :
  total_from m → keeps steps m → (∀ a, total_from (k a)) → total_from (m ≫= k).
Proof.
  intros Hm Hs Hk w Hw. specialize (Hm w Hw). specialize (Hs w). unfold mbind, M_bind.
  destruct (m w) as [[a|e|] w1]; [|done|done]. apply Hk. by eapply steps_reachable.
Qed.

Lemma total_from_map_err {E E' A} (f : E → E') (m : App E A) :
  total_from m → total_from (m_map_err f m).
Proof. intros Hm w Hw. specialize (Hm w Hw). unfold m_map_err. by destruct (m w) as [[]]. Qed.

Lemma reachable_typed w : rtc db_step empty_db (w_db w) → wf_db (w_db w) ∧ typed_db (w_db w).
Proof. intros Hw. eapply rtc_db_step_inv; [done|]. split; [apply wf_empty|apply typed_empty]. Qed.

Lemma total_notify_one project_id proj r n :
  Forall valid_account (nb_accounts n) → total_from (notify_one st project_id proj r n).
Proof.
  intros Hv w [_ Ht]%reachable_typed.
  pose proof (notify_one_runs st project_id proj r n w (λ _, True) Ht Hv ltac:(done)) as Hr.
  unfold runs in Hr. by destruct (notify_one st project_id proj r n w) as [[]].
Qed.

Lemma total_limit_http key l : total (limit_http st key l).
Proof. unfold limit_http. total_steps. Qed.
Hint Resolve total_limit_http : total.

Lemma total_handler_impl project_id body :
  Forall (λ n, Forall valid_account (nb_accounts n)) body →
  total_from (handler_impl st project_id body).
Proof.
  intros Hv. unfold handler_impl.
  apply total_from_bind; [by apply total_anywhere, total_limit_http
    |by apply steps_same_db, same_db_limit_http|intros _].
  apply total_from_bind; [apply total_anywhere, total_for_each; intros n;
    apply total_lift, no_panic_validation|apply steps_same_db; same_db|intros _].
  apply total_from_bind; [by apply total_anywhere, total_guard|apply steps_same_db; same_db|intros _].
  apply total_from_bind; [apply total_anywhere; total_steps|apply steps_same_db; same_db|intros proj].
  generalize (mkResponseBody ∅ ∅ ∅). induction Hv as [|n body Hn _ IH]; intros r; [by intros w _|].
  cbn [fold_m]. apply total_from_bind; [by apply total_notify_one|apply steps_notify_one|exact IH].
Qed.
#[local] Hint Resolve errs_is_authenticated : total.

Lemma total_extractor p : total (from_request_parts registry p).
Proof.
  unfold from_request_parts. total_steps.
Qed.

Lemma total_into {E} f (m : App E Response) : total_from m → total_from (into f m).
Proof.
  intros Hm w Hw. specialize (Hm w Hw). unfold into, attempt, mbind, M_bind.
  by destruct (m w) as [[r|e|] w1].
Qed.

Lemma total_authed {A} p (body : outcome Caip10Error A) (P : A → Prop)
    (h : string → A → App NotifyServerError Response) :
  no_panic body → (∀ a, body = Ok a → P a) → (∀ i a, P a → total_from (h i a)) →
  total_from (authed registry p body h).
Proof.
  intros Hb HP Hh. unfold authed. apply total_into, total_from_bind;
    [apply total_anywhere, total_extractor|apply steps_same_db, same_db_extractor|intros a].
  destruct body as [b|e|]; [|by intros w _|done].
  apply total_from_map_err, total_into, Hh. by apply HP.
Qed.

Lemma read_accounts_Ok l accounts : read_accounts l = Ok accounts → Forall valid_account accounts.
Proof.
  unfold read_accounts. revert accounts. induction l as [|s l IH]; intros accounts; cbn [map_outcome].
  - by intros [= <-].
  - intros (a & [-> Ha]%try_from_account_Ok & Hl)%outcome_bind_Ok.
    apply outcome_bind_Ok in Hl as (l' & Hl & [= <-]). constructor; [done|by apply IH].
Qed.

Lemma no_panic_map_outcome {E A B} (f : A → outcome E B) l :
  (∀ a, no_panic (f a)) → no_panic (map_outcome f l).
Proof.
  intros Hf. induction l as [|a l IH]; [done|]. cbn [map_outcome].
  apply no_panic_bind; [done|]. intros ? _. by apply no_panic_bind.
Qed.

Lemma read_accounts_no_panic l : no_panic (read_accounts l).
Proof.
  apply no_panic_map_outcome. intros s. unfold try_from_account. pure_total.
  apply validate_caip_10_no_panic.
Qed.

Lemma read_notification_Ok n b :
  read_notification n = Ok b → Forall valid_account (nb_accounts b).
Proof.
  unfold read_notification. intros (l & Hl & [= <-])%outcome_bind_Ok. by eapply read_accounts_Ok.
Qed.

Lemma read_notification_no_panic n : no_panic (read_notification n).
Proof. unfold read_notification. apply no_panic_bind; [apply read_accounts_no_panic|done]. Qed.

Lemma read_notifications_Ok l b : map_outcome read_notification l = Ok b →
  Forall (λ n, Forall valid_account (nb_accounts n)) b.
Proof.
  revert b. induction l as [|n l IH]; intros b; cbn [map_outcome]; [by intros [= <-]|].
  intros (x & Hx%read_notification_Ok & Hb)%outcome_bind_Ok.
  apply outcome_bind_Ok in Hb as (bs & Hbs & [= <-]). constructor; [done|by apply IH].
Qed.

(** The stored notifications with a URL that no header can hold. *)
Definition unfollowable (w : World) (url : string) : Prop :=
  header_value_ok url = false ∧
  ∃ i nt, notification (w_db w) !! i = Some nt ∧ n_url (nt_content nt) = Some url.

Lemma link_url_stored i db fl db' url :
  get_notification_link i db = (Ok (Some fl), db') → fl_notification_url fl = Some url →
  ∃ j nt, notification db !! j = Some nt ∧ n_url (nt_content nt) = Some url.
Proof.
  unfold get_notification_link. rewrite bind_gets.
  destruct (subscriber_notification _ !! i) as [sn|]; [|done]. cbn [mbind option_bind].
  destruct (subscriber _ !! _) as [s|]; [|done]. cbn [mbind option_bind].
  destruct (project _ !! _) as [p|]; [|done]. cbn [mbind option_bind].
  destruct (notification _ !! sn_notification sn) as [n|] eqn:Hn; [|done]. cbn [mbind option_bind].
  intros (a & db1 & _ & Hr)%bind_Ok_inv. unfold mret, M_ret in Hr. simplify_eq. cbn.
  intros Hu. by exists (sn_notification sn), n.
Qed.

Lemma link_request_total i w :
  no_panic (follow_notification_link st i w).1 ∨ ∃ url, unfollowable w url.
Proof.
  unfold follow_notification_link, sqlx_http.
  assert (∀ w1, w_db w1 = w_db w →
    no_panic ((notif ← m_map_err Sqlx (query (λ _, get_notification_link i));
      match notif ≫= fl_notification_url with
      | Some url => lift (redirect_temporary (E:=NotifyServerError) url)
      | None => mret (respond 404 (Text "That link was not found."))
      end) w1).1 ∨ ∃ url, unfollowable w url) as Hq.
  { intros w1 Hw1. unfold query, m_map_err, mbind, M_bind.
    destruct (env_db_fault (w_tick w1)); [by left|]. rewrite Hw1.
    pose proof (total_notification_link i (w_db w)) as Ht.
    pose proof (link_url_stored i (w_db w)) as Hs.
    destruct (get_notification_link i (w_db w)) as [[[fl|]|e|] db]; [|by left|by left|done].
    cbn [map_err option_bind]. destruct (fl_notification_url fl) as [url|] eqn:Hu; [|by left].
    unfold redirect_temporary. destruct (header_value_ok url) eqn:Hh; [by left|].
    right. exists url. split; [done|]. by eapply Hs. }
  pose proof (same_db_limit_http st ("follow-notification-link-" +:+ uuid_to_string i)
    follow_link_rate_limit w) as Hdb.
  pose proof (total_limit_http ("follow-notification-link-" +:+ uuid_to_string i)
    follow_link_rate_limit w) as Hl.
  unfold mbind at 1, M_bind at 1.
  destruct (limit_http st _ _ w) as [[[]|e|] w1]; [|by left|done]. by apply Hq.
Qed.
Lemma total_subscribe_topic project_id domain : total (subscribe_topic st project_id domain).
Proof. unfold subscribe_topic, create_project, random_bytes, new_v4. total_steps. Qed.

Lemma total_mark_all proj : total (mark_all_notifications_as_read_for_project proj).
Proof. done. Qed.
#[local] Hint Resolve total_subscribers total_mark_all : total.

Lemma total_get_subscribers project_id accounts :
  Forall valid_account accounts → total (get_subscribers_v1 st project_id accounts).
Proof.
  intros Hv. unfold get_subscribers_v1. total_steps. apply total_lift, no_panic_validation.
Qed.

(** No request panics the server: in a release build, on every database the
    server can have reached, with a server URL that can be the base of a link and
    the mailbox clearing service running, each of the twelve endpoints answers whatever it is sent and whatever the
    relay, the registry, the keys server, Redis and the connections do.  The one
    exception is following the link of a notification whose URL cannot be a
    header, which the redirect panics on. *)
Theorem serve_total r w :
  links_join st → w_receiver w = true → rtc db_step empty_db (w_db w) →
  no_panic (serve st registry r w).1 ∨
  ∃ i url, r = GetNotificationLink i ∧ unfollowable w url.
Proof.
  intros Hl Hopen Hw. destruct r as [| |event|i|p n|p l|p|p l|p d|p|p wn|p]; cbn [serve];
    [by left|by left|..].
  1: { left. pose proof (total_webhook st event w Hl Hopen) as Hp.
       unfold into, attempt, mbind, M_bind. by destruct (webhook st event w) as [[r|e|] w1]. }
  1: { pose proof (link_request_total i w) as Hi.
       unfold into, attempt, mbind, M_bind.
       destruct (follow_notification_link st i w) as [[r|e|] w1]; [by left|by left|right].
       destruct Hi as [[]|[url Hu]]. by exists i, url. }
  all: left; clear Hopen; revert w Hw.
  - eapply total_authed; [apply read_notification_no_panic|apply read_notification_Ok|].
    intros pid b Hb. unfold post_notify_v0, notify_v0.
    apply total_from_bind; [apply total_handler_impl; by repeat constructor|apply steps_handler_impl|by intros ? ? _].
  - eapply total_authed; [apply no_panic_map_outcome, read_notification_no_panic
      |apply read_notifications_Ok|].
    intros pid b Hb. unfold post_notify_v1.
    apply total_from_bind; [by apply total_handler_impl|apply steps_handler_impl|by intros ? ? _].
  - apply (total_authed _ _ (λ _, True)); [done|done|]. intros pid b _. apply total_anywhere.
    unfold get_subscribers_v0. total_steps.
  - eapply total_authed; [apply read_accounts_no_panic|apply read_accounts_Ok|].
    intros pid b Hb. by apply total_anywhere, total_get_subscribers.
  - apply (total_authed _ _ (λ _, True)); [done|done|]. intros pid b _.
    apply total_anywhere, total_subscribe_topic.
  - apply (total_authed _ _ (λ _, True)); [done|done|]. intros pid b _. apply total_anywhere.
    unfold get_welcome, find_project, sqlx_http, get_welcome_notification. total_steps.
  - apply (total_authed _ _ (λ _, True)); [done|done|]. intros pid b _. apply total_anywhere.
    unfold post_welcome, find_project, sqlx_http. total_steps.
  - apply (total_authed _ _ (λ _, True)); [done|done|]. intros pid b _. apply total_anywhere.
    unfold mark_all_as_read, find_project, sqlx_http. total_steps.
Qed.
End http.

(** ** Witness *)

Module TotalInstances.
Import Concrete.Instances JwtInstances EnvInstances MessageInstances Siwx.RecapInstances.
Import IdentityInstances RegistryInstances ServerInstances.

#[local] Existing Instance server_env.
#[local] Existing Instance server_env_laws.
Lemma sound_w : Sound.
Proof. by split. Qed.

Definition link_state_w : AppState :=
  mkAppState _ true (mkNotifyKeys "notify.example.com" [] [] "" [] [] []) "https://notify" "https://hook" "".
Definition link_registry_w : Registry :=
  mkRegistry _ (mkRegistryHttpClient _ "https://registry/internal/project/validate-notify-keys") true.

(** A project that notifies one account. *)
Definition request_w : HttpRequest :=
  PostNotifyV1 parts_w [mkNotifyJson None (mkNotification 7%N "title" "body" None None)
    [account_mainnet]].

Lemma serve_total_witness : no_panic (serve link_state_w link_registry_w request_w (world_w db4_w)).1.
Proof.
  pose proof sound_w.
  destruct (serve_total link_state_w link_registry_w request_w (world_w db4_w)) as [Hp|(i & url & Hr & _)].
  - intros u. eexists. reflexivity.
  - reflexivity.
  - exact db4_w_reachable.
  - exact Hp.
  - discriminate Hr.
Defined.
End TotalInstances.
