(* ===== verification/Isolation.v ===== *)
(** * Tenants do not interfere

    A project is a tenant: its row, its subscribers with their scopes, the
    notifications it sent, the rows of its queue and its welcome notification
    are its own.  A request that does not act for a project leaves all of that
    as it was. *)

From S2P Require Import Prelude RustStr Externals AccountId Errors Types RateLimit.
From S2P Require Import Database DbInvariant Subscriptions Jwt World RelayPublish NotifyMessage.
From S2P Require Import Queue Cache Identity RelayError RelayHandlers RelayRequests Webhook.
From S2P Require Import RelaySafety Registry NotifyV1 HttpHandlers ServerSafety.
From S2P Require Import Concrete Totality.
Open Scope Z_scope.

(** ** What belongs to a tenant *)

(** The rows of the tables that have an owner. *)
Inductive Fact :=
| ProjectFact (p : Uuid) (r : ProjectRow)
| SubscriberFact (i : Uuid) (s : SubscriberRow)
| ScopeFact (i : Uuid) (name : string)
| NotificationFact (i : Uuid) (n : NotificationRow)
| QueueFact (i : Uuid) (r : SubscriberNotificationRow)
| WelcomeFact (p : Uuid) (w : WelcomeNotification).

(** The project with primary key [p] is the tenant's. *)
Definition owned (tenant : string) (db : Db) (p : Uuid) : Prop :=
  ∃ r, project db !! p = Some r ∧ p_project_id r = tenant.

(** The subscriber [i] subscribed to the tenant's project. *)
Definition subscribes (tenant : string) (db : Db) (i : Uuid) : Prop :=
  ∃ s, subscriber db !! i = Some s ∧ owned tenant db (s_project s).

Definition belongs (tenant : string) (db : Db) (f : Fact) : Prop :=
  match f with
  | ProjectFact p r => project db !! p = Some r ∧ p_project_id r = tenant
  | SubscriberFact i s => subscriber db !! i = Some s ∧ owned tenant db (s_project s)
  | ScopeFact i name => (i, name) ∈ subscriber_scope db ∧ subscribes tenant db i
  | NotificationFact i n => notification db !! i = Some n ∧ owned tenant db (nt_project n)
  | QueueFact i r => rows db !! i = Some r ∧ subscribes tenant db (sn_subscriber r)
  | WelcomeFact p w => welcome_notification db !! p = Some w ∧ owned tenant db p
  end.

(** Two databases the tenant cannot tell apart. *)
Definition same_tenant (tenant : string) : relation Db :=
  λ db db', ∀ f, belongs tenant db f ↔ belongs tenant db' f.

#[global] Instance same_tenant_equivalence tenant : Equivalence (same_tenant tenant).
Proof. split; unfold same_tenant; [intros ??|intros ????|intros ?????]; naive_solver. Qed.

Lemma owned_project tenant db p :
  owned tenant db p ↔ ∃ r, belongs tenant db (ProjectFact p r).
Proof. done. Qed.

Lemma subscribes_fact tenant db i :
  subscribes tenant db i ↔ ∃ s, belongs tenant db (SubscriberFact i s).
Proof. done. Qed.

#[global] Instance owned_proper tenant : Proper (same_tenant tenant ==> (=) ==> iff) (owned tenant).
Proof. intros db db' Hs p ? <-. rewrite !owned_project. by setoid_rewrite (Hs (ProjectFact _ _)). Qed.

#[global] Instance subscribes_proper tenant :
  Proper (same_tenant tenant ==> (=) ==> iff) (subscribes tenant).
Proof.
  intros db db' Hs i ? <-. rewrite !subscribes_fact. by setoid_rewrite (Hs (SubscriberFact _ _)).
Qed.

Section statements.
Context (t : string).

(** It is enough to look at the tables. *)
Lemma same_tenant_intro db db' :
  (∀ p r, p_project_id r = t → project db !! p = Some r ↔ project db' !! p = Some r) →
  (∀ i s, owned t db (s_project s) → subscriber db !! i = Some s ↔ subscriber db' !! i = Some s) →
  (∀ i name, subscribes t db i → (i, name) ∈ subscriber_scope db ↔ (i, name) ∈ subscriber_scope db') →
  (∀ i n, owned t db (nt_project n) → notification db !! i = Some n ↔ notification db' !! i = Some n) →
  (∀ i r, subscribes t db (sn_subscriber r) → rows db !! i = Some r ↔ rows db' !! i = Some r) →
  (∀ p w, owned t db p → welcome_notification db !! p = Some w ↔ welcome_notification db' !! p = Some w) →
  same_tenant t db db'.
Proof.
  intros Hp Hs Hsc Hn Hr Hw.
  assert (∀ p, owned t db p ↔ owned t db' p) as Ho.
  { intros p. split; intros (r & Hr1 & Hr2); exists r; (split; [by apply Hp|done]). }
  assert (∀ i, subscribes t db i ↔ subscribes t db' i) as Hsub.
  { intros i. split; intros (s & Hi & Hos); exists s.
    - split; [by apply Hs|by apply Ho].
    - split; [apply Hs; [by apply Ho|done]|by apply Ho]. }
  intros [p r|i s|i name|i n|i r|p w]; cbn [belongs]; rewrite <-?Ho, <-?Hsub; naive_solver.
Qed.

(** A change of the rows of another project. *)
Lemma same_tenant_project db id r :
  (∀ old, project db !! id = Some old → p_project_id old ≠ t) → p_project_id r ≠ t →
  same_tenant t db (set_project <[id := r]> db).
Proof.
  intros Hold Hr. apply same_tenant_intro; cbn; try done.
  intros p q Hq. rewrite lookup_insert. case_decide as Hd; [|done]. subst. naive_solver.
Qed.

Lemma same_tenant_welcome db p w :
  ¬ owned t db p → same_tenant t db (set_welcome <[p := w]> db).
Proof.
  intros Hp. apply same_tenant_intro; cbn; try done.
  intros q v Hq. rewrite lookup_insert_ne; [done|]. by intros <-.
Qed.

Lemma same_tenant_subscriber db i s :
  ¬ subscribes t db i → ¬ owned t db (s_project s) →
  same_tenant t db (set_subscriber <[i := s]> db).
Proof.
  intros Hi Hs. apply same_tenant_intro; cbn; try done.
  intros j r Hr. rewrite lookup_insert. case_decide as Hd; [|done]. subst j.
  split; [|naive_solver]. intros Hj. destruct Hi. by exists r.
Qed.

Lemma same_tenant_scope db sub f :
  ¬ subscribes t db sub → (∀ i name, i ≠ sub → (i, name) ∈ subscriber_scope db ↔
    (i, name) ∈ f (subscriber_scope db)) →
  same_tenant t db (set_subscriber_scope f db).
Proof.
  intros Hs Hf. apply same_tenant_intro; cbn; try done. intros i name Hi. apply Hf. by intros ->.
Qed.

Lemma same_tenant_rows db f :
  (∀ i r, subscribes t db (sn_subscriber r) → rows db !! i = Some r ↔ f (rows db) !! i = Some r) →
  same_tenant t db (set_subscriber_notification f db).
Proof. intros Hf. by apply same_tenant_intro. Qed.

Lemma same_tenant_same db db' :
  project db = project db' → subscriber db = subscriber db' →
  subscriber_scope db = subscriber_scope db' → notification db = notification db' →
  rows db = rows db' → welcome_notification db = welcome_notification db' → same_tenant t db db'.
Proof. intros H1 H2 H3 H4 H5 H6. apply same_tenant_intro; intros; by rewrite ?H1, ?H2, ?H3, ?H4, ?H5, ?H6. Qed.

(** ** The statements on behalf of other projects *)

Ltac skip_reads := repeat (apply after_read_only; [solve_read_only|reflexivity|];
  first [intros ? [= <-]|intros ? ?]).

Lemma transaction_same_tenant {A} (q : Query A) db :
  same_tenant t db (q db).2 → same_tenant t db (transaction q db).2.
Proof. unfold transaction. by destruct (q db) as [[]]. Qed.

Lemma same_tenant_upsert_project `{!Ext} fresh pid dom topic ak sk db :
  pid ≠ t → same_tenant t db (upsert_project fresh pid dom topic ak sk db).2.
Proof.
  intros Hpid. unfold upsert_project, upsert_project_impl. skip_reads.
  destruct (find_by _ _ _) as [[i old]|] eqn:Hf.
  - apply find_by_Some in Hf as [Hi Hf]. cbn [p_project_id] in Hf. skip_reads.
    apply same_tenant_project; cbn [p_project_id]; [|congruence]. intros r Hr. congruence.
  - apply after_read_only; [solve_read_only|reflexivity|]. intros [] Hfresh.
    apply guard_err_Ok_inv in Hfresh as [Hfresh%bool_decide_eq_false _].
    apply after_read_only; [unfold check_project_indexes; solve_read_only|reflexivity|].
    intros [] _. apply same_tenant_project; [|done]. intros r Hr. destruct Hfresh. by eexists.
Qed.

Lemma same_tenant_set_welcome p w db :
  ¬ owned t db p → same_tenant t db (set_welcome_notification p w db).2.
Proof.
  intros Hp. unfold set_welcome_notification. skip_reads. by apply same_tenant_welcome.
Qed.

Lemma same_tenant_upsert_notification now fresh nid p n db :
  ¬ owned t db p → same_tenant t db (upsert_notification now fresh nid p n db).2.
Proof.
  intros Hp. unfold upsert_notification. skip_reads.
  destruct (find_by _ _ _) as [[i r]|]; [reflexivity|].
  apply after_read_only; [solve_read_only|reflexivity|]. intros [] Hfresh.
  apply guard_err_Ok_inv in Hfresh as [Hfresh%bool_decide_eq_false _]. skip_reads.
  rewrite bind_modify.
  apply same_tenant_intro; cbn; try done. intros i r Hr. rewrite lookup_insert.
  case_decide as Hd; [subst i|done]. split; [|naive_solver]. intros Hi. destruct Hfresh. by eexists.
Qed.

Lemma same_tenant_upsert_rows `{!Ext} now notif l db :
  Forall (λ i, ¬ subscribes t db i) l.*2 →
  same_tenant t db (upsert_subscriber_notifications now notif l db).2.
Proof.
  intros Hl. pose proof (upsert_rows_runs now notif l db) as Hr. unfold runs in Hr.
  destruct (upsert_subscriber_notifications now notif l db) as [[[]|e|] db'] eqn:E; cbn [snd].
  - destruct Hr as [((Hp & Hs & _ & Hsc) & Hn & Hw) Hold Hnew _].
    apply same_tenant_intro; try (intros; by rewrite ?Hp, ?Hs, ?Hsc, ?Hn, ?Hw).
    intros i r Hi. split; [by apply Hold|]. intros [?|(s & Hin & ->)]%Hnew; [done|].
    rewrite list.Forall_forall in Hl. by destruct (Hl s Hin).
  - by rewrite Hr.
  - done.
Qed.

Lemma same_tenant_mark_all p db :
  (∀ i, is_Some (rows db !! i) → subscriber db !! i = None) →
  same_tenant t db (mark_all_notifications_as_read_for_project p db).2.
Proof.
  intros Hd. unfold mark_all_notifications_as_read_for_project. rewrite bind_gets, bind_modify.
  apply same_tenant_rows. intros i r Hi. rewrite map_lookup_imap.
  destruct (rows db !! i) as [x|] eqn:E; [|done]. cbn. rewrite decide_False; [done|].
  intros ([j s] & -> & [Hj _]%elem_of_select)%list_elem_of_fmap. rewrite Hd in Hj; [done|by eexists].
Qed.

(** ** The statements of the relay handlers *)

Lemma same_tenant_delete sub db :
  ¬ subscribes t db sub → same_tenant t db (delete_subscriber sub db).2.
Proof.
  intros Hs. unfold delete_subscriber, modify. cbn [snd]. apply same_tenant_intro; cbn; try done.
  - intros i s Hi. rewrite lookup_delete. case_decide as Hd; [subst i|done].
    split; [|done]. intros ?. destruct Hs. by exists s.
  - intros i name Hi. rewrite elem_of_filter. cbn. split; [|tauto]. intros ?. split; [|done].
    by intros ->.
  - intros i r Hi. rewrite map_lookup_filter_Some. cbn. split; [|tauto]. intros ?. split; [done|].
    by intros <-.
Qed.

Lemma same_tenant_mark_read sub ids db :
  ¬ subscribes t db sub → same_tenant t db (mark_notifications_as_read sub ids db).2.
Proof.
  intros Hs. unfold mark_notifications_as_read. rewrite bind_gets, bind_modify.
  apply same_tenant_rows. intros i r Hi. rewrite map_lookup_imap.
  destruct (rows db !! i) as [x|] eqn:E; [|done]. cbn. case_bool_decide as Hx; cbn [andb]; [|done].
  split; [intros [= ->]; by subst sub|].
  destruct (_ && _); [|done]. intros [= <-]. cbn [sn_subscriber mark_read] in Hi. by subst sub.
Qed.

(** The scope of a subscriber that is not the tenant's. *)
Lemma same_tenant_update_scope `{!Ext} sub scope db :
  ¬ subscribes t db sub → same_tenant t db (update_subscriber_scope sub scope db).2.
Proof.
  intros Hs. unfold update_subscriber_scope. rewrite bind_modify. cbv beta.
  set (db1 := set_subscriber_scope _ db).
  assert (same_tenant t db db1) as H1.
  { apply (same_tenant_scope _ sub); [done|]. intros i name Hi. rewrite elem_of_filter. naive_solver. }
  etrans; [exact H1|]. rewrite H1 in Hs. clearbody db1. clear H1 db. skip_reads.
  apply (same_tenant_scope _ sub); [done|]. intros i name Hi.
  rewrite elem_of_union, elem_of_list_to_set, list_elem_of_fmap. naive_solver.
Qed.

Lemma fetch_selected {V} (P : Uuid → V → bool) m i x (db db' : Db) :
  fetch_one (select P m) db = (Ok (i, x), db') → m !! i = Some x ∧ P i x = true.
Proof.
  destruct (select P m) as [|y l] eqn:E; [done|]. intros [= -> <-]. apply elem_of_select.
  rewrite E. left.
Qed.

(** A row of a subscriber that is not the tenant's is written again. *)
Lemma same_tenant_touch db i s s' :
  subscriber db !! i = Some s → ¬ subscribes t db i → s_project s' = s_project s →
  same_tenant t db (set_subscriber <[i := s']> db).
Proof.
  intros Hi Hs Hp. apply same_tenant_subscriber; [done|]. rewrite Hp. intros Ho. apply Hs. by exists s.
Qed.

Lemma same_tenant_update `{!Ext} now sub scope db :
  ¬ subscribes t db sub → same_tenant t db (update_subscriber now sub scope db).2.
Proof.
  intros Hs. apply transaction_same_tenant.
  apply after_read_only; [solve_read_only|reflexivity|]. intros m [= <-].
  apply after_read_only; [solve_read_only|reflexivity|].
  intros [i s] [Hi ->%bool_decide_eq_true]%fetch_selected. cbv zeta. cbn [fst snd].
  apply after_bind; [by eapply same_tenant_touch|]. intros [] db1 _ H1.
  rewrite H1 in Hs. etrans; [exact H1|]. clear H1 Hi. skip_reads.
  apply after_bind; [by apply same_tenant_update_scope|]. by intros ? db2 _ H2.
Qed.

Lemma same_tenant_subscribe `{!Ext} now fresh p account scope k topic db :
  ¬ owned t db p → same_tenant t db (upsert_subscriber now fresh p account scope k topic db).2.
Proof.
  intros Hp. apply transaction_same_tenant. cbv zeta.
  apply after_read_only; [solve_read_only|reflexivity|]. intros [] _.
  apply after_read_only; [solve_read_only|reflexivity|]. intros db' [= <-]. unfold id.
  assert (∀ db1 (x : Uuid * string * Topic * bool), same_tenant t db db1 →
    ¬ subscribes t db x.1.1.1 →
    same_tenant t db ((let '(i, acc, topic, inserted) := x in
      a ← decode_account acc;
      update_subscriber_scope i scope ;;
      mret (mkSubscribeResponse i a topic inserted)) db1).2) as finish.
  { intros db1 [[[i acc] tp] ins] H1 Hs. cbn [fst] in Hs. rewrite H1 in Hs. etrans; [exact H1|].
    skip_reads. apply after_bind; [by apply same_tenant_update_scope|]. by intros ? db2 _ H2. }
  match goal with |- context [find_by ?f ?v ?m] => destruct (find_by f v m) as [[i s]|] eqn:E end.
  - apply find_by_Some in E as [Hi [= Hps _]].
    assert (Hs : ¬ subscribes t db i) by (intros (r & Hr & Ho); congruence).
    apply after_bind; [by eapply same_tenant_touch|]. intros x db1 Hx H1.
    rewrite bind_modify in Hx. apply finish; [exact H1|]. by injection Hx as <- _.
  - destruct (subscriber db !! fresh) as [s|] eqn:Hfresh; [reflexivity|].
    assert (Hs : ¬ subscribes t db fresh) by (intros (r & Hr & _); congruence).
    rewrite bool_decide_false by (by intros [? ?]).
    apply after_bind.
    + skip_reads. rewrite bind_modify. by apply same_tenant_subscriber.
    + intros x db1 Hx H1. apply finish; [exact H1|]. by repeat inv_ok Hx.
Qed.

(** Watchers are the wallets' own. *)
Lemma same_tenant_watcher a p did_key sym_key expiry db :
  same_tenant t db (upsert_subscription_watcher a p did_key sym_key expiry db).2.
Proof.
  unfold upsert_subscription_watcher. skip_reads. destruct (_ <? _); [|reflexivity].
  apply after_map_err. apply after_read_only; [solve_read_only|reflexivity|]. intros ? _.
  apply after_read_only; [destruct p; solve_read_only|reflexivity|]. intros ? _.
  by apply same_tenant_same.
Qed.

(** The subscriber a request gets: one of the project, or a new one. *)
Lemma upsert_subscriber_row `{!Ext} now fresh p account scope k topic db r db1 :
  upsert_subscriber now fresh p account scope k topic db = (Ok r, db1) →
  ∀ s, subscriber db !! sr_id r = Some s → s_project s = p.
Proof.
  unfold upsert_subscriber. intros Hrun%transaction_Ok. cbv zeta in Hrun.
  apply bind_Ok_inv in Hrun as (u & w & Hl & Hrun).
  apply read_only_Ok in Hl as ->; [|solve_read_only]. rewrite bind_gets in Hrun. unfold id in Hrun.
  apply bind_Ok_inv in Hrun as ([[[i acc] tp] ins] & w & Hx & Hrun).
  apply bind_Ok_inv in Hrun as (a & w1 & _ & Hrun). apply bind_Ok_inv in Hrun as (v & w2 & _ & Hrun).
  apply ret_iff in Hrun as [<- _]. cbn [sr_id]. intros s Hi.
  match type of Hx with match ?o with _ => _ end _ = _ => destruct o as [[j x]|] eqn:E end.
  - apply find_by_Some in E as [Hj [= Hp _]]. inv_ok Hx. inv_ok Hx. congruence.
  - destruct (subscriber db !! fresh) as [y|] eqn:Hfresh; [done|].
    by repeat inv_ok Hx.
Qed.
End statements.

(** ** Computations that leave the tenant alone *)

Section sparing.
Context `{!Ext, !UrlOps, !Env} (t : string).

(** Run from [w], whatever it returns. *)
Definition sparing {E A} (m : App E A) (w : World) : Prop :=
  same_tenant t (w_db w) (w_db (m w).2).

Lemma sparing_same_db {E A} (m : App E A) w : keeps same_db m → sparing m w.
Proof. intros Hm. unfold sparing. by rewrite (Hm w). Qed.

Lemma sparing_bind {E A B} (m : App E A) (k : A → App E B) w :
  sparing m w →
  (∀ a w', m w = (Ok a, w') → same_tenant t (w_db w) (w_db w') → sparing (k a) w') →
  sparing (m ≫= k) w.
Proof.
  unfold sparing, mbind, M_bind. intros Hm Hk. destruct (m w) as [[a|e|] w'] eqn:Hrun; cbn in *;
    [|done..]. etrans; [exact Hm|by apply Hk].
Qed.

(** A step that leaves the whole database alone. *)
Lemma sparing_step {E A B} (m : App E A) (k : A → App E B) w :
  keeps same_db m → (∀ a w', m w = (Ok a, w') → w_db w' = w_db w → sparing (k a) w') →
  sparing (m ≫= k) w.
Proof.
  intros Hm Hk. apply sparing_bind; [by apply sparing_same_db|]. intros a w' Hrun _.
  apply Hk; [done|]. specialize (Hm w). by rewrite Hrun in Hm.
Qed.

Lemma sparing_map_err {E E' A} (f : E → E') (m : App E A) w :
  sparing m w → sparing (m_map_err f m) w.
Proof. unfold sparing, m_map_err. by destruct (m w). Qed.

Lemma sparing_attempt {E E' A} (m : App E A) w : sparing m w → sparing (attempt (E':=E') m) w.
Proof. unfold sparing, attempt. by destruct (m w) as [[]]. Qed.

Lemma sparing_query {A} (q : Z → Query A) w :
  (∀ now, same_tenant t (w_db w) (q now (w_db w)).2) → sparing (query q) w.
Proof.
  intros Hq. unfold sparing, query. destruct (env_db_fault _); [reflexivity|].
  specialize (Hq (env_now (w_tick w))). by destruct (q _ _).
Qed.

(** A loop over a condition the tenant's view decides. *)
Lemma sparing_fold {E A S} (P : Db → Prop) (f : S → A → App E S) l :
  Proper (same_tenant t ==> iff) P → (∀ s a w, P (w_db w) → sparing (f s a) w) →
  ∀ s w, P (w_db w) → sparing (fold_m f s l) w.
Proof.
  intros HP Hf. induction l as [|a l IH]; intros s w Hw; cbn [fold_m]; [unfold sparing; reflexivity|].
  apply sparing_bind; [by apply Hf|]. intros s' w' _ Hs. apply IH. by rewrite <-Hs.
Qed.
End sparing.

(** ** The requests of projects *)

Section requests.
Context `{!Ext, !HashLaws, !HexLaws, !UrlOps, !Env, !ValidatorOps, !HttpClientOps, !HttpOps}.
Context (st : AppState) (t : string).
Abbreviation foreign p := (λ db, ¬ owned t db p).

#[local] Instance foreign_proper p : Proper (same_tenant t ==> iff) (foreign p).
Proof. intros db db' Hs. by rewrite Hs. Qed.

Lemma find_project_foreign project_id w pr w' :
  project_id ≠ t → find_project project_id w = (Ok pr, w') → foreign (pr_id pr) (w_db w).
Proof.
  intros Hne Hrun%m_map_err_Ok_inv. apply query_Ok in Hrun as (db & _ & Hrun & _).
  pose proof (project_runs project_id (w_db w)) as Hp. unfold runs in Hp. rewrite Hrun in Hp.
  destruct Hp as (_ & p & Hp & <-). intros (r & Hr & Ho). congruence.
Qed.

Lemma same_db_find_project project_id : keeps same_db (find_project project_id).
Proof. unfold find_project. same_db. Qed.
Hint Resolve same_db_find_project : keeps.

(** What a handler does for a project it found. *)
Lemma sparing_for_project {A} project_id (k : Project → App NotifyServerError A) w :
  project_id ≠ t → (∀ pr w', foreign (pr_id pr) (w_db w') → sparing t (k pr) w') →
  sparing t (pr ← find_project project_id; k pr) w.
Proof.
  intros Hne Hk. apply sparing_step; [auto with keeps|]. intros pr w' Hrun Hw. apply Hk.
  rewrite Hw. by eapply find_project_foreign.
Qed.

(** The subscribers found are the project's. *)
Lemma found_subscribers proj accounts db l db' :
  get_subscribers_for_project_in proj accounts db = (Ok l, db') → foreign proj db →
  Forall (λ i, ¬ subscribes t db i) (nsi_id <$> l).
Proof.
  intros Hrun Hp. unfold get_subscribers_for_project_in in Hrun.
  apply bind_Ok_inv in Hrun as (addresses & w & Ha & Hrun).
  apply read_only_Ok in Ha as ->; [|solve_read_only]. rewrite bind_gets in Hrun. unfold id in Hrun.
  erewrite (decode_rows_fmap _ nsi_id fst); [|..|exact Hrun].
  - apply Forall_fmap, list.Forall_forall. intros [i s] [Hi Hs]%elem_of_select. cbn [compose fst].
    apply andb_prop in Hs as [Hs%bool_decide_eq_true _]. intros (r & Hr & Ho). congruence.
  - intros [i s]. solve_read_only.
  - intros [i s] db1 b db2 Hb. by repeat inv_ok Hb.
Qed.

Lemma renamed_ids table l l' :
  map_outcome (with_requested_account (E:=NotifyServerError) table) l = Ok l' →
  nsi_id <$> l' = nsi_id <$> l.
Proof.
  revert l'. induction l as [|x l IH]; cbn [map_outcome]; intros l'; [by intros [= <-]|].
  intros (y & Hy & Hrest)%outcome_bind_Ok. apply outcome_bind_Ok in Hrest as (l1 & Hl & [= <-]).
  unfold with_requested_account in Hy. apply outcome_bind_Ok in Hy as (address & _ & Hy).
  apply outcome_bind_Ok in Hy as (account & _ & [= <-]). cbn. f_equal. by apply IH.
Qed.

Lemma rate_limited_ids (P : Uuid → Prop) project_id r valid w r' valid' w' :
  rate_limit_subscribers st project_id r valid w = (Ok (r', valid'), w') →
  Forall P valid.*1 → Forall P valid'.*1.
Proof.
  intros Hrun Hv.
  pose proof (runs_rate_limit_subscribers st (λ _, True) project_id r valid w
    (λ x _, Forall P x.2.*1)) as Hr.
  unfold runs in Hr. rewrite Hrun in Hr. apply Hr; [done|]. clear Hr. intros Q HQ w1 _. cbn [snd].
  revert Hv. rewrite !list.Forall_forall. intros Hv i ([j a] & -> & [_ Hin]%list_elem_of_filter)%list_elem_of_fmap.
  apply Hv, list_elem_of_fmap. by exists (j, a).
Qed.

Lemma sparing_notify_one project_id proj r n w :
  foreign proj (w_db w) → sparing t (notify_one st project_id proj r n) w.
Proof.
  intros Hp. unfold notify_one, sqlx_http, new_v4, fresh_uuids.
  apply sparing_step; [destruct (nb_notification_id n); same_db|]. intros nid w1 _ Hw.
  apply sparing_step; [same_db|]. intros fresh w2 _ Hw2. rewrite <-Hw, <-Hw2 in Hp. clear Hw Hw2 w w1.
  apply sparing_bind.
  { apply sparing_map_err, sparing_query. intros now. by apply same_tenant_upsert_notification. }
  intros notif w3 _ Hs. rewrite Hs in Hp. clear Hs w2.
  apply sparing_step; [same_db|]. intros table w4 _ Hw. rewrite <-Hw in Hp. clear Hw w3.
  apply sparing_step; [same_db|].
  intros l w5 (db & _ & Hl & _)%m_map_err_Ok_inv%query_Ok Hw.
  apply found_subscribers in Hl; [|done]. rewrite <-Hw in Hp, Hl. clear Hw db w4.
  apply sparing_step; [same_db|]. intros subs w6 [Hn _]%lift_Ok_inv Hw.
  apply renamed_ids in Hn. rewrite <-Hn in Hl. rewrite <-Hw in Hp, Hl. clear Hw Hn w5 l.
  rewrite check_scope_all. cbv zeta.
  match goal with |- sparing _ (rate_limit_subscribers _ _ _ ?v ≫= _) _ =>
    assert (Forall (λ i, ¬ subscribes t (w_db w6) i) v.*1) as Hv end.
  { rewrite app_nil_l, <-list_fmap_compose. revert Hl. rewrite !list.Forall_forall.
    intros Hl i (x & -> & [_ Hx]%list_elem_of_filter)%list_elem_of_fmap.
    apply Hl, list_elem_of_fmap. by exists x. }
  apply sparing_step; [unfold rate_limit_subscribers; same_db|].
  intros [r' valid] w7 Hrun Hw. eapply rate_limited_ids in Hrun; [|exact Hv]. rewrite <-Hw in Hrun.
  apply sparing_step; [same_db|]. intros ids w8 [= <- <-] Hw8.
  apply sparing_bind; [|intros; unfold sparing; reflexivity].
  apply sparing_map_err, sparing_query. intros now. apply same_tenant_upsert_rows; [apply _|].
  rewrite snd_zip; [by rewrite Hw8|]. rewrite !length_fmap, length_seq. lia.
Qed.

Lemma sparing_handler_impl project_id body w :
  project_id ≠ t → sparing t (handler_impl st project_id body) w.
Proof.
  intros Hne. unfold handler_impl.
  apply sparing_step; [same_db|]. intros ? w1 _ _.
  apply sparing_step; [apply keeps_for_each; [apply _|]; intros; same_db|]. intros ? w2 _ _.
  apply sparing_step; [same_db|]. intros ? w3 _ _.
  apply sparing_for_project; [done|]. intros pr w4 Hp.
  apply (sparing_fold t (foreign (pr_id pr))); [apply _| |done]. intros. by apply sparing_notify_one.
Qed.
End requests.

(** ** The requests of wallets *)

(** The topic of the tenant's project, or of one of its subscribers. *)
Definition tenant_topic (tenant : string) (db : Db) (topic : Topic) : Prop :=
  (∃ p r, project db !! p = Some r ∧ p_project_id r = tenant ∧ p_topic r = topic) ∨
  ∃ i s, subscriber db !! i = Some s ∧ owned tenant db (s_project s) ∧ s_topic s = topic.

Section messages.
Context `{!Ext, !HashLaws, !HexLaws, !CipherLaws, !UrlOps, !Env, !CacaoOps, !Msgpack Cacao,
  !Json KeyServerResponse, !Json Siwx.RawRecap, !BuildProfile, !JwtConsts, !JsonRpcConsts,
  !RelayWire, !ErrorTexts, !Scheduler, !ValidatorOps}.
Context (st : AppState) (msg : RelayIncomingMessage) (t : string) (db : Db).
Context (Htopic : ¬ tenant_topic t db (rim_topic msg)).

Lemma topic_subscriber subscriber :
  (get_subscriber_by_topic (rim_topic msg) db).1 = Ok subscriber → ¬ subscribes t db (sws_id subscriber).
Proof using Htopic.
  destruct (get_subscriber_by_topic (rim_topic msg) db) as [r db'] eqn:Hrun. cbn [fst].
  intros ->. unfold get_subscriber_by_topic in Hrun. rewrite bind_gets in Hrun. unfold id in Hrun.
  apply bind_Ok_inv in Hrun as ([i s] & w & [Hi Ht%bool_decide_eq_true]%fetch_selected & Hrun).
  inv_ok Hrun. inv_ok Hrun. cbn [sws_id]. intros (s' & Hs' & Ho). apply Htopic. right.
  exists i, s'. simplify_eq. done.
Qed.

Lemma topic_project proj :
  (get_project_by_topic (rim_topic msg) db).1 = Ok proj → ¬ owned t db (pr_id proj).
Proof using Htopic.
  destruct (get_project_by_topic (rim_topic msg) db) as [r db'] eqn:Hrun. cbn [fst].
  intros ->. unfold get_project_by_topic, select_project in Hrun. rewrite bind_gets in Hrun.
  apply bind_Ok_inv in Hrun as ([i p] & w & [Hi Ht%bool_decide_eq_true]%fetch_selected & Hrun).
  inv_ok Hrun. cbn [pr_id project_of_row]. intros (p' & Hp' & Ho). apply Htopic. left.
  exists i, p'. simplify_eq. done.
Qed.

Lemma same_tenant_welcome_change p sub scope db1 db2 :
  ¬ owned t db1 p → ¬ subscribes t db1 sub → WelcomeChange p sub scope db1 db2 →
  same_tenant t db1 db2.
Proof.
  intros Hp Hs [->|(w & t1 & fresh & nid & _ & _ & _ & Hr)]; [done|]. cbv zeta in Hr.
  match type of Hr with context [upsert_notification ?a ?b ?c ?d ?e ?g] =>
    pose proof (same_tenant_upsert_notification t a b c d e g Hp) as Hnew end.
  destruct Hr as [->|(n & t2 & row & _ & ->)]; [exact Hnew|].
  etrans; [exact Hnew|]. rewrite Hnew in Hs. apply same_tenant_upsert_rows; [apply _|].
  by repeat constructor.
Qed.

Lemma requested_same_tenant db' : RequestedChange st msg db db' → same_tenant t db db'.
Proof using Htopic.
  destruct 1; try match goal with Ho : OnTopic _ _ _ _ |- _ =>
    destruct Ho as [Hs%topic_subscriber _] end.
  - by apply same_tenant_update.
  - by apply same_tenant_delete.
  - by apply same_tenant_mark_read.
  - apply same_tenant_watcher.
  - match goal with Hp : (get_project_by_topic _ _).1 = Ok _ |- _ => apply topic_project in Hp end.
    match goal with Hu : upsert_subscriber ?a ?b ?c ?d ?e ?f ?g ?h = _ |- _ =>
      pose proof (same_tenant_subscribe t a b c d e f g h) as Hsame;
      pose proof (upsert_subscriber_row _ _ _ _ _ _ _ _ _ _ Hu) as Hrow;
      rewrite Hu in Hsame; cbn [snd] in Hsame end.
    specialize (Hsame ltac:(done)). etrans; [exact Hsame|].
    destruct (sr_inserted r); [|by subst]. eapply same_tenant_welcome_change; [| |done].
    + by rewrite <-Hsame.
    + rewrite <-Hsame. intros (s & Hs & Ho). apply Hrow in Hs. congruence.
Qed.

Lemma sparing_handle_msg w : w_db w = db → sparing t (handle_msg st msg) w.
Proof using Htopic.
  intros Hw. unfold sparing. destruct (handle_msg_changes_from st msg db w Hw) as [->|Hr].
  - by rewrite Hw.
  - rewrite Hw. by apply requested_same_tenant.
Qed.
End messages.

(** ** All requests *)

Definition parts_of (r : HttpRequest) : option Parts :=
  match r with
  | PostNotifyV0 p _ | PostNotifyV1 p _ | GetSubscribersV0 p | PostSubscribersV1 p _
  | PostSubscribeTopic p _ | GetWelcomeNotification p | PostWelcomeNotification p _
  | GetMarkAllAsRead p => Some p
  | GetHealth | GetDidJson | PostRelayWebhook _ | GetNotificationLink _ => None
  end.

Section isolation.
Context `{!Ext, !HashLaws, !HexLaws, !CipherLaws, !UrlOps, !Env, !CacaoOps, !Msgpack Cacao,
  !Json KeyServerResponse, !Json Siwx.RawRecap, !BuildProfile, !JwtConsts, !JsonRpcConsts,
  !RelayWire, !ErrorTexts, !Scheduler, !ValidatorOps, !RelayRpcOps, !WebhookTexts,
  !HttpClientOps, !HttpOps}.
Context `{!Json RegistryAuthResponse, !Msgpack bool}.
Context (st : AppState) (registry : Registry).

(** A request acts for a project when the extractor admits it as that project,
    or when it is a message the relay signed on a topic of the project. *)
Inductive acts_for (w : World) (t : string) (r : HttpRequest) : Prop :=
| acts_admitted p a w' :
    parts_of r = Some p → from_request_parts registry p w = (Ok a, w') →
    authed_project_id a = t → acts_for w t r
| acts_message event_auth claims :
    r = PostRelayWebhook event_auth → Authentic st event_auth (w_tick w) claims →
    tenant_topic t (w_db w) (evt_topic (wec_evt claims)) → acts_for w t r.

Context (t : string) (w : World).

Lemma sparing_into {E} (f : E → Response) (m : App E Response) w0 :
  sparing t m w0 → sparing t (into f m) w0.
Proof.
  intros Hm. unfold into. apply sparing_bind; [by apply sparing_attempt|].
  intros [r|e|] w1 _ _; unfold sparing; reflexivity.
Qed.

Lemma sparing_authed {A} p (body : outcome Caip10Error A) h :
  (∀ a w', from_request_parts registry p w = (Ok a, w') → authed_project_id a ≠ t) →
  (∀ i b w', i ≠ t → w_db w' = w_db w → sparing t (h i b) w') →
  sparing t (authed registry p body h) w.
Proof.
  intros Hp Hh. unfold authed. apply sparing_into.
  apply sparing_step; [auto with keeps|]. intros a w1 Ha Hw.
  destruct body as [b|e|]; [|unfold sparing; reflexivity..].
  apply sparing_map_err, sparing_into, Hh; [by eapply Hp|done].
Qed.

Lemma sparing_webhook event_auth :
  (∀ claims, Authentic st event_auth (w_tick w) claims →
     ¬ tenant_topic t (w_db w) (evt_topic (wec_evt claims))) →
  sparing t (webhook st event_auth) w.
Proof.
  intros Ht. unfold sparing.
  destruct (webhook_run st event_auth w) as [(claims & Ha & ->)|(_ & e & n & ->)].
  - change (sparing t (handle_event st claims ;; mret (respond 204 NoBody)) (bump w)).
    apply sparing_bind; [|intros; unfold sparing; reflexivity].
    unfold handle_event, utc_now, clear_mailbox. case_bool_decide.
    { apply sparing_same_db. intros w1. unfold gets, mbind, M_bind. by destruct (w_receiver w1). }
    apply sparing_step; [same_db|]. intros now w1 _ Hw1. cbv zeta.
    do 3 (apply sparing_step; [same_db|]; intros ? ? _ ?).
    apply sparing_map_err. eapply (sparing_handle_msg _ _ _ (w_db w)); [by apply Ht|].
    cbn in *. congruence.
  - cbn [snd]. induction n; [reflexivity|done].
Qed.

(** Tenants do not interfere.  A request that does not act for a project,
    because it was not admitted as that project by the extractor nor is a
    message the relay signed on a topic of the project or of one of its
    subscribers, leaves everything of the project as it was: its row, its
    subscribers and their scopes, its notifications, its queue and its welcome
    notification.  (Marking everything as read compares ids of different
    tables, so the random ids of the two tables must differ.) *)
Theorem tenants_isolated r :
  (∀ i, is_Some (rows (w_db w) !! i) → subscriber (w_db w) !! i = None) →
  ¬ acts_for w t r →
  same_tenant t (w_db w) (w_db (serve st registry r w).2).
Proof.
  intros Hids Hr. change (sparing t (serve st registry r) w).
  assert (∀ p a w', parts_of r = Some p → from_request_parts registry p w = (Ok a, w') →
    authed_project_id a ≠ t) as Hp by (intros p a w' ? ? ?; apply Hr; by eapply acts_admitted).
  destruct r as [| |event_auth|i|p n|p l|p|p l|p d|p|p wn|p]; cbn [serve];
    try (apply sparing_authed; [intros a w'; by apply Hp|]; intros i b w' Hi Hw).
  - unfold sparing; reflexivity.
  - unfold sparing; reflexivity.
  - apply sparing_into, sparing_webhook. intros claims Ha Ht. apply Hr. by eapply acts_message.
  - apply sparing_into, sparing_same_db. unfold follow_notification_link, sqlx_http,
      get_notification_link. same_db.
  - unfold post_notify_v0, notify_v0. apply sparing_bind; [by apply sparing_handler_impl|].
    intros; unfold sparing; reflexivity.
  - unfold post_notify_v1. apply sparing_bind; [by apply sparing_handler_impl|].
    intros; unfold sparing; reflexivity.
  - apply sparing_same_db. unfold get_subscribers_v0. same_db.
  - apply sparing_same_db. unfold get_subscribers_v1. same_db.
  - unfold subscribe_topic. apply sparing_step; [auto with keeps|]. intros ? ? _ _.
    case_match; [unfold sparing; reflexivity|]. case_match; [unfold sparing; reflexivity|].
    unfold create_project, random_bytes, new_v4.
    do 3 (apply sparing_step; [same_db|]; intros ? ? _ _).
    apply sparing_bind.
    { apply sparing_map_err, sparing_query. intros now. by apply same_tenant_upsert_project. }
    intros ? ? _ _. apply sparing_same_db. same_db.
  - apply sparing_same_db. unfold get_welcome, find_project, sqlx_http, get_welcome_notification. same_db.
  - unfold post_welcome, sqlx_http. apply sparing_step; [auto with keeps|]. intros ? ? _ _.
    apply sparing_for_project; [done|]. intros ? ? ?.
    apply sparing_bind; [|intros; unfold sparing; reflexivity].
    apply sparing_map_err, sparing_query. intros now. by apply same_tenant_set_welcome.
  - unfold mark_all_as_read, sqlx_http. apply sparing_step; [auto with keeps|]. intros ? w1 _ Hw1.
    apply sparing_step; [unfold find_project; same_db|]. intros pr w2 _ Hw2.
    apply sparing_bind; [|intros; unfold sparing; reflexivity].
    apply sparing_map_err, sparing_query. intros now. apply same_tenant_mark_all.
    by rewrite Hw2, Hw1, Hw.
Qed.
End isolation.

(** ** Witness *)

Module IsolationInstances.
Import Concrete.Instances JwtInstances EnvInstances MessageInstances Siwx.RecapInstances.
Import IdentityInstances RegistryInstances ServerInstances Totality.TotalInstances.

#[local] Existing Instance server_env.

(** [project1] registers next to [project]. *)
Definition register_w := serve link_state_w link_registry_w
  (PostSubscribeTopic parts_w "other.example.com") (world_w db4_w).

Lemma tenants_isolated_witness :
  ((size (project (w_db register_w.2)) =? 2)%nat = true) ∧
  same_tenant "project" db4_w (w_db register_w.2).
Proof.
  split; [vm_compute; reflexivity|].
  apply (tenants_isolated link_state_w link_registry_w "project" (world_w db4_w)).
  - intros i [r Hr]. assert (Hi : i ∈ dom (rows db4_w)) by (apply elem_of_dom; by eexists).
    assert (Hdom : dom (rows db4_w) = {[4%N]}) by (vm_compute; reflexivity).
    rewrite Hdom in Hi. apply elem_of_singleton in Hi as ->. vm_compute. reflexivity.
  - assert (Hid : match (from_request_parts link_registry_w parts_w (world_w db4_w)).1 with
      | Ok a => String.eqb (authed_project_id a) "project1" | _ => false end = true)
      by (vm_compute; reflexivity).
    intros [p a w' Hp Ha Hpid|event_auth claims [=]]. injection Hp as <-.
    rewrite Ha in Hid. cbn [fst] in Hid. apply String.eqb_eq in Hid. congruence.
Defined.
End IsolationInstances.
