(* ===== verification/PublicServer.v ===== *)
(** * The public server, from bytes to a response (public_http_server/mod.rs)

    The router, its layers and the extractors of its handlers: what a method, a
    path, headers and a body come to.  The routes are those of Router, the
    handlers those of HttpHandlers; axum's decoding of paths, headers and JSON
    bodies and the layers of other crates are parameters. *)

From Stdlib Require Import Ascii.
From stdpp Require Import gmap.
From S2P Require Import Prelude RustStr Externals AccountId Errors Types RateLimit.
From S2P Require Import Database DbInvariant Jwt World RelayPublish NotifyMessage Queue Publisher.
From S2P Require Import Cache Identity RelayError RelayHandlers RelayRequests Webhook RelaySafety.
From S2P Require Import Registry Mailbox Router Jobs NotifyV1 HttpHandlers Config Server.
From S2P Require Import ServerSafety Totality Isolation.
Open Scope Z_scope.

(** ** Requests *)

Record RawRequest := mkRawRequest {
  rq_method : HttpMethod;
  rq_path : string;
  rq_authorization : option string;
  rq_content_type : option string;
  rq_body : bytes;
}.

(** [Json<T>]: the value of the body, or the status and text of the rejection. *)
Inductive JsonBodyOf (A : Type) :=
| ReadBody (a : A)
| RefusedBody (status : Z) (text : string).
Arguments ReadBody {A} a.
Arguments RefusedBody {A} status text.

(** [axum]'s extractors: percent-decoding of a path argument ([None]: not
    UTF-8), the token of an [Authorization] header, the text of a path rejected,
    and the bodies of the handlers by content type and bytes. *)
Class Extractors := {
  percent_decode : string → option string;
  bearer_token : string → option string;
  path_rejection : string;
  read_watch_payload : option string → bytes → JsonBodyOf (list string);
  read_notify_v0 : option string → bytes → JsonBodyOf NotifyJson;
  read_notify_v1 : option string → bytes → JsonBodyOf (list NotifyJson);
  read_get_subscribers : option string → bytes → JsonBodyOf (list string);
  read_subscribe_topic : option string → bytes → JsonBodyOf string;
  read_welcome : option string → bytes → JsonBodyOf WelcomeNotification;
}.

(** The layers that may answer before the router: [GeoBlockLayer] with the
    countries blocked, and [CorsLayer], which answers preflight requests. *)
Class Layers := {
  geo_block : list string → RawRequest → option Response;
  cors_preflight : RawRequest → option Response;
}.

(** ** The router *)

(** [Path<HashMap<String, String>>]. *)
Definition decoded_args `{Extractors} (args : gmap string string) : option (gmap string string) :=
  if bool_decide (map_Forall (λ _ s, is_Some (percent_decode s)) args)
  then Some (omap percent_decode args) else None.

Definition request_parts `{Extractors} (args : gmap string string) (rq : RawRequest) : Parts :=
  mkParts (decoded_args args) (rq_authorization rq ≫= bearer_token).

Definition without_body (r : Response) : Response := mkResponse (res_status r) (res_location r) NoBody.

Section app.
Context `{!Ext, !UrlOps, !Env, !CacaoOps, !Msgpack Cacao, !Json KeyServerResponse,
  !Json Siwx.RawRecap, !BuildProfile, !JwtConsts, !JsonRpcConsts, !RelayWire, !ErrorTexts,
  !Scheduler, !ValidatorOps, !RelayRpcOps, !WebhookTexts, !HttpClientOps, !HttpOps}.
Context `{!Json RegistryAuthResponse, !Msgpack bool, !PathRouter, !Extractors, !Layers}.
Context (st : AppState) (registry : Registry).

(** [AuthedProjectId] comes before the body in the handlers that have both. *)
Definition authed_body {A} (p : Parts) (body : JsonBodyOf A) (request : A → HttpRequest)
    : App () Response :=
  match body with
  | ReadBody a => serve st registry (request a)
  | RefusedBody status text =>
      authed registry p (Ok ()) (λ _ _, mret (respond status (Text text)))
  end.

(** [Path<Uuid>]. *)
Definition link_argument (p : Parts) : option Uuid :=
  args ← path_args p; s ← args !! "subscriber_notification_id"; uuid_parse_str s.

(** The extractors of a handler, and the handler. *)
Definition handle (e : Endpoint) (args : gmap string string) (rq : RawRequest) : App () Response :=
  let p := request_parts args rq in
  let ct := rq_content_type rq in
  let body := rq_body rq in
  match e with
  | Health => serve st registry GetHealth
  | Router.DidJson => serve st registry GetDidJson
  | RelayWebhook =>
      match read_watch_payload ct body with
      | ReadBody event_auth => serve st registry (PostRelayWebhook event_auth)
      | RefusedBody status text => mret (respond status (Text text))
      end
  | NotificationLink =>
      match link_argument p with
      | Some i => serve st registry (GetNotificationLink i)
      | None => mret (respond 400 (Text path_rejection))
      end
  | NotifyV0 => authed_body p (read_notify_v0 ct body) (PostNotifyV0 p)
  | NotifyV1 => authed_body p (read_notify_v1 ct body) (PostNotifyV1 p)
  | Router.GetSubscribersV0 => serve st registry (HttpHandlers.GetSubscribersV0 p)
  | GetSubscribersV1 => authed_body p (read_get_subscribers ct body) (PostSubscribersV1 p)
  | SubscribeTopic => authed_body p (read_subscribe_topic ct body) (PostSubscribeTopic p)
  | Router.GetWelcomeNotification => serve st registry (HttpHandlers.GetWelcomeNotification p)
  | Router.PostWelcomeNotification =>
      authed_body p (read_welcome ct body) (HttpHandlers.PostWelcomeNotification p)
  | MarkAllAsRead => serve st registry (GetMarkAllAsRead p)
  end.

(** The body of the response to a [HEAD] request is dropped. *)
Definition for_method (method : HttpMethod) (m : App () Response) : App () Response :=
  r ← m; mret (if bool_decide (method = HEAD) then without_body r else r).

(** The [Router] with its routes. *)
Definition router (rq : RawRequest) : App () Response :=
  match route (rq_method rq) (rq_path rq) with
  | PathNotFound => mret (respond 404 NoBody)
  | MethodNotAllowed => mret (respond 405 NoBody)
  | RoutedTo e args => for_method (rq_method rq) (handle e args rq)
  end.

(** What the layers answer themselves, the last one added first;
    [geoip_resolver] is whether there is a resolver. *)
Definition layers (blocked_countries : list string) (geoip_resolver : bool) (rq : RawRequest)
    : option Response :=
  match (if geoip_resolver then geo_block blocked_countries rq else None) with
  | Some r => Some r
  | None => cors_preflight rq
  end.

(** [app]; request ids and tracing change neither the answer nor the world. *)
Definition app (blocked_countries : list string) (geoip_resolver : bool) (rq : RawRequest)
    : App () Response :=
  match layers blocked_countries geoip_resolver rq with
  | Some r => mret r
  | None => router rq
  end.
End app.

(** ** No request panics the server *)

Section theorems.
Context `{!Ext, !HashLaws, !HexLaws, !CipherLaws, !UrlOps, !Env, !EnvLaws, !CacaoOps,
  !Msgpack Cacao, !Json KeyServerResponse, !Json Siwx.RawRecap, !BuildProfile, !JwtConsts,
  !JsonRpcConsts, !RelayWire, !ErrorTexts, !Scheduler, !ValidatorOps, !RelayRpcOps,
  !WebhookTexts, !HttpClientOps, !HttpOps, !Sound}.
Context `{!Json RegistryAuthResponse, !Msgpack bool, !PathRouter, !Extractors, !Layers}.
Context (st : AppState) (registry : Registry).

Lemma refused_total p status text :
  total_from (authed registry p (Ok ()) (λ _ _, mret (respond status (Text text)))).
Proof. by apply (total_authed _ _ _ (λ _, True)); [done|done|]; intros i [] _ w _. Qed.

(** A request for a link, at its URL. *)
Definition asks_link (rq : RawRequest) : Prop :=
  ∃ args, route (rq_method rq) (rq_path rq) = RoutedTo NotificationLink args.

Lemma handle_total e args rq w :
  links_join st → w_receiver w = true → rtc db_step empty_db (w_db w) →
  no_panic (handle st registry e args rq w).1 ∨
  e = NotificationLink ∧ ∃ url, unfollowable w url.
Proof.
  intros Hl Hopen Hw. assert (Hs : ∀ r, no_panic (serve st registry r w).1 ∨
    ∃ i url, r = GetNotificationLink i ∧ unfollowable w url) by (intros r; by apply serve_total).
  destruct e; cbn [handle]; unfold authed_body;
    repeat match goal with |- context [match ?x with _ => _ end] => destruct x end;
    try (left; by apply refused_total); try (by left);
    match goal with |- context [serve st registry ?r w] => destruct (Hs r) as [?|(?&?&?&?)] end;
    try (by left); try done; right; eauto.
Qed.

(** C7. Whatever bytes arrive, the public server answers.  In a release build,
    on every database the server can have reached, with a server URL that can be
    the base of a link and the mailbox clearing service running, no method, path, headers and body make it panic,
    except the request that follows the link of a notification whose URL cannot
    be a header. *)
Theorem app_total blocked geo rq w :
  links_join st → w_receiver w = true → rtc db_step empty_db (w_db w) →
  no_panic (app st registry blocked geo rq w).1 ∨
  asks_link rq ∧ ∃ url, unfollowable w url.
Proof.
  intros Hl Hopen Hw. unfold app. destruct (layers _ _ _); [by left|]. unfold router, asks_link.
  destruct (route _ _) as [e args| |]; [|by left..].
  destruct (handle_total e args rq w Hl Hopen Hw) as [Hp|(-> & url & Hu)].
  - left. unfold for_method, mbind, M_bind. by destruct (handle _ _ _ _ _ _) as [[r|x|] w1].
  - right. eauto.
Qed.

(** ** Which handler a request reaches *)

(** The method and the path of a request are those of an endpoint, for the
    project (perhaps the empty one) or the notification that [i] encodes. *)
Definition addressed_to (rq : RawRequest) (e : Endpoint) (i : string) : Prop :=
  is_argument e i ∧ rq_path rq = endpoint_path e i ∧ shadowed e i = false ∧
  (rq_method rq = endpoint_method e ∨ rq_method rq = HEAD ∧ endpoint_method e = GET).

Lemma routed_iff `{!PathRouterLaws} rq e args :
  route (rq_method rq) (rq_path rq) = RoutedTo e args ↔
  ∃ i, addressed_to rq e i ∧ args = endpoint_args e i.
Proof. rewrite route_exact. unfold addressed_to. naive_solver. Qed.

(** C40. Every handler is reached at its URL and nowhere else.  A request that
    the layers let through and that is addressed to an endpoint gets the answer
    of its handler, with the argument of the path, the bearer token and the body
    of the request ([HEAD] without the body of the answer); any other request is
    answered 404 or 405 and changes nothing.  Hidden are only the version 1
    endpoints of a project written [notification] in the path: those are the
    paths of notification links.  A path with an empty project, such as
    [//notify], is addressed to an endpoint like any other. *)
Theorem app_routes `{!PathRouterLaws} blocked geo rq w :
  layers blocked geo rq = None →
  (∀ e i, addressed_to rq e i →
     app st registry blocked geo rq w =
       for_method (rq_method rq) (handle st registry e (endpoint_args e i) rq) w) ∧
  ((∀ e i, ¬ addressed_to rq e i) →
     ∃ status, (status = 404 ∨ status = 405) ∧
       app st registry blocked geo rq w = (Ok (respond status NoBody), w)).
Proof.
  intros Hnone. unfold app. rewrite Hnone. unfold router. split.
  - intros e i Ha. assert (route (rq_method rq) (rq_path rq) = RoutedTo e (endpoint_args e i)) as ->;
      [|done]. apply routed_iff. by exists i.
  - intros Hn. destruct (route _ _) as [e args| |] eqn:Hr; [|by eexists; split; [right|]|by eexists; split; [left|]].
    apply routed_iff in Hr as (i & Ha & _). by destruct (Hn e i).
Qed.

(** ** Tenants *)

(** A request acts for a project when its path names the project, percent-encoded,
    and it carries a secret that the registry or its cache vouches for, or when
    it is a webhook call with a message the relay signed on a topic of the project. *)
Inductive http_acts_for (w : World) (t : string) (rq : RawRequest) : Prop :=
| http_admitted e i secret :
    addressed_to rq e i → percent_decode i = Some t →
    rq_authorization rq ≫= bearer_token = Some secret → Vouched registry t secret w →
    http_acts_for w t rq
| http_message i event_auth claims :
    addressed_to rq RelayWebhook i →
    read_watch_payload (rq_content_type rq) (rq_body rq) = ReadBody event_auth →
    Authentic st event_auth (w_tick w) claims →
    tenant_topic t (w_db w) (evt_topic (wec_evt claims)) → http_acts_for w t rq.

Lemma decoded_lookup args d k :
  decoded_args args = Some d → d !! k = args !! k ≫= percent_decode.
Proof. unfold decoded_args. case_bool_decide; [|done]. intros [= <-]. by rewrite lookup_omap. Qed.

Lemma endpoint_arg e i s : endpoint_args e i !! "project_id" = Some s → s = i.
Proof. destruct e; cbn; try done; rewrite ?lookup_singleton_eq; try congruence. Qed.

Lemma admitted_acts rq e i a w w' :
  addressed_to rq e i →
  from_request_parts registry (request_parts (endpoint_args e i) rq) w = (Ok a, w') →
  http_acts_for w (authed_project_id a) rq.
Proof.
  intros Ha (Hp & Hb & Hv)%from_request_parts_Ok. cbn [path_args bearer request_parts] in *.
  apply bind_Some in Hp as (d & Hd & Hp). cbv beta in Hp.
  rewrite (decoded_lookup _ _ _ Hd) in Hp. apply bind_Some in Hp as (s & Hs%endpoint_arg & Hp).
  subst s. by eapply http_admitted.
Qed.

Definition untouched (t : string) (w : World) (m : App () Response) : Prop :=
  same_tenant t (w_db w) (w_db (m w).2).

Lemma refused_same_db p status text :
  keeps same_db (authed registry p (Ok ()) (λ _ _, mret (respond status (Text text)))).
Proof. unfold authed, into. same_db. Qed.

Lemma untouched_same_db t w m : keeps same_db m → untouched t w m.
Proof. intros Hm. unfold untouched. by rewrite (Hm w). Qed.

(** A request with the parts of this one, for an endpoint it is addressed to. *)
Lemma untouched_serve t w rq e i r :
  (∀ i, is_Some (rows (w_db w) !! i) → subscriber (w_db w) !! i = None) →
  addressed_to rq e i → ¬ http_acts_for w t rq →
  (∀ p, parts_of r = Some p → p = request_parts (endpoint_args e i) rq) →
  (∀ event_auth, r = PostRelayWebhook event_auth → e = RelayWebhook ∧
     read_watch_payload (rq_content_type rq) (rq_body rq) = ReadBody event_auth) →
  untouched t w (serve st registry r).
Proof.
  intros Hids Ha Hn Hp Hm. apply tenants_isolated; [done|].
  intros [p a w' Hr Hok <-|event_auth claims Hr Hauth Ht].
  - apply Hn. specialize (Hp _ Hr) as ->. by eapply admitted_acts.
  - destruct (Hm _ Hr) as [-> Hb]. apply Hn. by eapply http_message.
Qed.

(** C3. Tenants do not interfere over HTTP.  Whatever bytes arrive, a project
    that the request does not act for keeps everything it has: its row, its
    subscribers and their scopes, its notifications, its queue and its welcome
    notification.  To act for a project a request must name it in its path and
    carry a secret the registry or its cache vouches for, or be a webhook call
    with a message the relay signed on one of the project's topics.  (The random
    ids of two tables must differ, as marking everything as read compares them.) *)
Theorem app_isolated `{!PathRouterLaws} blocked geo rq w t :
  (∀ i, is_Some (rows (w_db w) !! i) → subscriber (w_db w) !! i = None) →
  ¬ http_acts_for w t rq →
  same_tenant t (w_db w) (w_db (app st registry blocked geo rq w).2).
Proof.
  intros Hids Hn. change (untouched t w (app st registry blocked geo rq)). unfold app.
  assert (Hret : ∀ r : Response, untouched t w (mret r)) by (intros r; apply untouched_same_db; same_db).
  destruct (layers _ _ _); [apply Hret|]. unfold router.
  destruct (route _ _) as [e args| |] eqn:Hr; [|apply Hret..].
  apply routed_iff in Hr as (i & Ha & ->).
  enough (untouched t w (handle st registry e (endpoint_args e i) rq)) as Hh.
  { unfold untouched, for_method, mbind, M_bind in *.
    by destruct (handle _ _ _ _ _ _) as [[r|x|] w1]. }
  pose proof (λ r, untouched_serve t w rq e i r Hids Ha Hn) as Hs.
  destruct e; cbn [handle]; unfold authed_body;
    repeat match goal with |- context [match ?x with _ => _ end] => destruct x eqn:? end;
    try apply Hret; try (apply untouched_same_db, refused_same_db);
    (apply Hs; [by intros ? [= <-]|by intros ? [= <-]]).
Qed.
End theorems.

(** ** A request over HTTP, for the witnesses *)

Module PublicInstances.
Import Concrete.Instances JwtInstances EnvInstances MessageInstances Siwx.RecapInstances.
Import IdentityInstances RegistryInstances ServerInstances Totality.TotalInstances.
Import RouterInstances.

#[local] Existing Instance server_env.
#[local] Existing Instance server_env_laws.

Definition json_only {A} (a : A) (ct : option string) : JsonBodyOf A :=
  if bool_decide (ct = Some "application/json") then ReadBody a
  else RefusedBody 415 "Expected request with `Content-Type: application/json`".

(** Paths without percent signs; bodies are the texts they hold. *)
#[export] Instance extractors_w : Extractors :=
  {| percent_decode s := if no_char "%"%char s then Some s else None;
     bearer_token := strip_prefix "Bearer ";
     path_rejection := "Invalid URL";
     read_watch_payload ct b := json_only [of_bytes b] ct;
     read_notify_v0 ct _ := RefusedBody 400 "";
     read_notify_v1 ct _ := RefusedBody 400 "";
     read_get_subscribers ct b := json_only [of_bytes b] ct;
     read_subscribe_topic ct b := json_only (of_bytes b) ct;
     read_welcome ct _ := RefusedBody 400 "" |}.

#[export] Instance layers_w : Layers :=
  {| geo_block _ _ := None; cors_preflight _ := None |}.

Definition post_w (path body : string) : RawRequest :=
  mkRawRequest POST path (Some "Bearer 2s") (Some "application/json") (as_bytes body).

(** [project1] registers its app. *)
Definition register_rq : RawRequest := post_w "/project1/subscribe-topic" "other.example.com".

Definition answer_w (rq : RawRequest) : outcome () Response * World :=
  app link_state_w link_registry_w [] true rq (world_w db4_w).

Lemma app_total_witness : no_panic (answer_w register_rq).1.
Proof.
  pose proof sound_w.
  destruct (app_total link_state_w link_registry_w [] true register_rq (world_w db4_w))
    as [Hp|[[args Hr] _]].
  - intros u. eexists. reflexivity.
  - reflexivity.
  - exact db4_w_reachable.
  - exact Hp.
  - vm_compute in Hr. discriminate Hr.
Defined.

(** The request reaches its handler; a path of no endpoint is not found. *)
Lemma app_routes_witness :
  answer_w register_rq =
    for_method POST (serve link_state_w link_registry_w
      (PostSubscribeTopic ServerSafety.ServerInstances.parts_w "other.example.com")) (world_w db4_w) ∧
  (answer_w register_rq).1 ≠ Err ().
Proof.
  split; [|vm_compute; discriminate].
  destruct (app_routes link_state_w link_registry_w [] true register_rq (world_w db4_w))
    as [Hroutes _]; [reflexivity|].
  apply (Hroutes SubscribeTopic "project1").
  split; [by split|]. split; [reflexivity|]. split; [reflexivity|by left].
Defined.

(** It leaves the project whose id is [project] alone. *)
Lemma app_isolated_witness :
  ((size (project (w_db (answer_w register_rq).2)) =? 2)%nat = true) ∧
  same_tenant "project" db4_w (w_db (answer_w register_rq).2).
Proof.
  split; [vm_compute; reflexivity|].
  apply (app_isolated link_state_w link_registry_w [] true register_rq (world_w db4_w) "project").
  - intros i [r Hr]. assert (Hi : i ∈ dom (rows db4_w)) by (apply elem_of_dom; by eexists).
    assert (Hdom : dom (rows db4_w) = {[4%N]}) by (vm_compute; reflexivity).
    rewrite Hdom in Hi. apply elem_of_singleton in Hi as ->. vm_compute. reflexivity.
  - assert (Hat : ∀ e i, addressed_to register_rq e i → e = SubscribeTopic ∧ i = "project1").
    { intros e i ([_ Hi] & Hp & _). apply (f_equal segments) in Hp.
      rewrite segments_endpoint in Hp by done. destruct e; by inversion Hp. }
    intros [e i secret (-> & ->)%Hat [=] _ _|i ev claims [[=] _]%Hat _ _ _].
Defined.
End PublicInstances.
