(* ===== verification/EndToEnd.v ===== *)
(** * From one end to the other

    What a wallet seals the server opens, and what the server publishes a
    wallet opens: the envelopes, keys, topics and signatures of the two ends
    fit.  A queued notification reaches the wallet of its subscriber, and a
    request the server could open is answered. *)

From S2P Require Import Prelude RustStr Externals AccountId Errors Types RateLimit.
From S2P Require Import Database DbInvariant Subscriptions Jwt World RelayPublish NotifyMessage.
From S2P Require Import Queue Publisher Cache Identity RelayError RelayHandlers RelayRequests Webhook.
From S2P Require Import RelaySafety.
Open Scope Z_scope.

(** ** Opening what was sealed *)

Section opening.
Context `{!Ext, !Base64Laws, !CipherLaws}.

(** The holder of [key] opens the type 0 envelope and reads [text]. *)
Definition opens (key : bytes) (envelope text : string) : Prop :=
  ∃ e, open_envelope envelope0_from_bytes envelope = Ok e ∧
    aead_decrypt key (iv e) (sealbox e) = Some (as_bytes text).

Lemma opened_once key envelope text text' :
  opens key envelope text → opens key envelope text' → text = text'.
Proof.
  intros (e & He & Ht) (e' & He' & Ht'). simplify_eq.
  rewrite <-(of_bytes_as_bytes text), <-(of_bytes_as_bytes text'). congruence.
Qed.

Lemma seal_opens nonce key text envelope :
  length nonce = 12%nat → seal_text nonce key text = Ok envelope → opens key envelope text.
Proof.
  intros Hn Hs. unfold seal_text in Hs. apply outcome_bind_Ok in Hs as (e & He & [= <-]).
  unfold envelope0_new in He. apply outcome_bind_Ok in He as (box & Hbox%ok_or_Ok & [= <-]).
  exists (mkEnvelope Byte.x00 nonce box ()). split.
  - unfold open_envelope. rewrite b64_std_decode_encode. cbn [ok_or mbind outcome_bind].
    assert (envelope0_from_bytes (envelope0_to_bytes (mkEnvelope Byte.x00 nonce box ()))
      = Ok (mkEnvelope Byte.x00 nonce box ())) as -> by (by apply envelope0_from_bytes_Ok).
    done.
  - by eapply aead_decrypt_encrypt.
Qed.
End opening.

(** ** Reading what was signed *)

Section signing.
Context `{!Ext, !Base64Laws, !SigLaws, !JwtConsts, !Json JwtHeader}.

(** The JWT is signed by the owner of [key] and its payload is [claims]. *)
Definition carries {T} `{!Json T} (key : bytes) (jwt : string) (claims : T) : Prop :=
  ∃ header payload signature b,
    jwt = header +:+ "." +:+ payload +:+ "." +:+ signature ∧
    jwt_verify signature (as_bytes (header +:+ "." +:+ payload)) key = Some true ∧
    b64_url_no_pad_decode payload = Some b ∧ from_json T b = Some claims.

Lemma signed_carries {T} `{!Json T, !JsonLaws T} (claims : T) sk jwt :
  sign_jwt claims sk = Ok jwt → carries (verifying_key sk) jwt claims.
Proof.
  intros Hs. unfold sign_jwt in Hs. apply outcome_bind_Ok in Hs as (h & _ & Hs).
  apply outcome_bind_Ok in Hs as (c & Hc%ok_or_Ok & [= <-]).
  set (header := b64_url_no_pad_encode (as_bytes h)).
  set (payload := b64_url_no_pad_encode (as_bytes c)).
  exists header, payload, (b64_url_no_pad_encode (ed_sign sk (as_bytes (header +:+ "." +:+ payload)))),
    (as_bytes c). split_and!.
  - by rewrite !str_app_assoc.
  - apply jwt_verify_sign.
  - apply b64_url_decode_encode.
  - by apply from_to_json.
Qed.
End signing.

(** ** A request a wallet seals *)

(** C35. A request a wallet seals is opened.  A wallet that knows the public key of
    the server (or of a project), agrees on a key with it, seals its request in
    a type 1 envelope with its own public key, and encodes it, is understood:
    the server parses the envelope, derives the same key from the public key in
    it and its own secret, and reads the request. *)
Theorem wallet_request_opens `{!Ext, !Base64Laws, !CipherLaws} {T}
    `{!Json (JsonRpcRequest T), !JsonLaws (JsonRpcRequest T)} (req : JsonRpcRequest T)
    server_secret client_secret nonce :
  length client_secret = 32%nat → length nonce = 12%nat →
  ∃ text key e, to_json req = Some text ∧
    derive_key (x25519_public server_secret) client_secret = Ok key ∧
    envelope1_new nonce key (as_bytes text) (x25519_public client_secret) = Ok e ∧
    open_envelope envelope1_from_bytes (b64_std_encode (envelope1_to_bytes e)) = Ok e ∧
    derive_key (pubkey (opts e)) server_secret = Ok key ∧
    decrypt_message e key = Ok req.
Proof.
  intros Hc Hn. destruct (to_json_total req) as [text Ht].
  destruct (derive_key_total (x25519_public server_secret) client_secret) as (key & Hk & _).
  unfold envelope1_new. destruct (aead_encrypt_total key nonce (as_bytes text)) as [box Hbox].
  exists text, key, (mkEnvelope Byte.x01 nonce box {| pubkey := x25519_public client_secret |}).
  rewrite Hbox. split_and!; [done|done|done| | |].
  - unfold open_envelope. rewrite b64_std_decode_encode. cbn [ok_or mbind outcome_bind].
    assert (∀ e, length (iv e) = 12%nat → length (pubkey (opts e)) = 32%nat →
      envelope1_from_bytes (envelope1_to_bytes e) = Ok e) as Hparse
      by (intros; by apply envelope1_from_bytes_Ok).
    rewrite Hparse; [done|done|]. by apply x25519_public_length.
  - cbn [pubkey opts]. by rewrite derive_key_agrees.
  - unfold decrypt_message. cbn [iv sealbox]. erewrite aead_decrypt_encrypt by exact Hbox.
    cbn [ok_or mbind outcome_bind]. by erewrite from_to_json.
Qed.

(** ** A queued notification *)

Section notifications.
Context `{!Ext, !HashLaws, !HexLaws, !CipherLaws, !Base64Laws, !SigLaws}.
Context `{!BuildProfile, !JwtConsts}.
Context `{!Json JwtHeader, !JsonLaws JwtHeader, !Json NotifyMessage, !JsonLaws NotifyMessage}.
Context `{!JsonRpcConsts, !Json (JsonRpcRequest NotifyMessageAuth),
          !JsonLaws (JsonRpcRequest NotifyMessageAuth)}.
Context `{!UrlOps, !Env, !EnvLaws}.

(** The link the wallet is given instead of the URL of the notification. *)
Definition link_of (notify_url : Url) (i : Uuid) (url : option string) (link : string) : Prop :=
  match url with
  | None => link = ""
  | Some _ => ∃ u, url_join notify_url ("/v1/notification/" +:+ uuid_to_string i) = Some u ∧
      link = url_to_string u
  end.

(** What the wallet reads in a notify message about the row [i]. *)
Record notify_message_for (notify_url : Url) (i : Uuid) (sn : SubscriberNotificationRow)
    (nt : NotificationRow) (s : SubscriberRow) (pr : ProjectRow) (key : bytes)
    (m : NotifyMessage) : Prop := {
  nmf_iss : nm_iss m = to_did_key key;
  nmf_sub : nm_sub m = to_did_pkh (mkAccountId (s_account s));
  nmf_app : domain (nm_app m) = p_app_domain pr;
  nmf_act : nm_act m = NOTIFY_MESSAGE_ACT;
  nmf_exp : nm_exp m = nm_iat m + NOTIFY_MESSAGE_TTL;
  nmf_id : jn_id (nm_msg m) = i;
  nmf_type : jn_type (nm_msg m) = n_type (nt_content nt);
  nmf_title : jn_title (nm_msg m) = n_title (nt_content nt);
  nmf_body : jn_body (nm_msg m) = n_body (nt_content nt);
  nmf_icon : jn_icon (nm_msg m) = default "" (n_icon (nt_content nt));
  nmf_url : link_of notify_url i (n_url (nt_content nt)) (jn_url (nm_msg m));
  nmf_read : jn_is_read (nm_msg m) = sn_is_read sn;
}.

(** The relay message [p] delivers the row [i] of the queue to its subscriber. *)
Definition delivers (notify_url : Url) (db : Db) (i : Uuid) (p : Publish) : Prop :=
  ∃ sn nt s pr, rows db !! i = Some sn ∧ notification db !! sn_notification sn = Some nt ∧
    subscriber db !! sn_subscriber sn = Some s ∧ project db !! nt_project nt = Some pr ∧
    pub_topic p = s_topic s ∧ pub_tag p = NOTIFY_MESSAGE_TAG ∧
    ∃ sym_key key text req m,
      s_sym_key s = hex_encode sym_key ∧ opens sym_key (pub_message p) text ∧
      from_json (JsonRpcRequest NotifyMessageAuth) (as_bytes text) = Some req ∧
      req_method req = NOTIFY_MESSAGE_METHOD ∧
      p_authentication_public_key pr = hex_encode key ∧
      carries key (message_auth (req_params req)) m ∧
      notify_message_for notify_url i sn nt s pr key m.

Lemma timestamp_add now ttl : timestamp (now + ttl * usec) = timestamp now + ttl.
Proof. unfold timestamp, usec. by rewrite Z.div_add by lia. Qed.

(** What was selected for processing, by the rows it was selected from. *)
Lemma selected_rows i db n :
  wf_db db → typed_db db → (select_for_processing i db).1 = Ok (Some n) →
  ∃ sn nt s pr, rows db !! i = Some sn ∧ notification db !! sn_notification sn = Some nt ∧
    subscriber db !! sn_subscriber sn = Some s ∧ project db !! nt_project nt = Some pr ∧
    n = mkNotificationToProcess (sn_notification sn) (nt_created_at nt) (nt_content nt)
          (sn_subscriber sn) (mkAccountId (s_account s)) (s_sym_key s) (s_topic s) i (sn_is_read sn)
          (nt_project nt) (p_project_id pr) (p_app_domain pr) (p_authentication_public_key pr)
          (p_authentication_private_key pr).
Proof.
  intros Hwf Hty. unfold select_for_processing. rewrite bind_gets. unfold id.
  destruct (rows db !! i) as [sn|] eqn:Hsn; [|done]. cbn [mbind option_bind].
  destruct (notification db !! sn_notification sn) as [nt|] eqn:Hnt; [|done]. cbn [mbind option_bind].
  destruct (subscriber db !! sn_subscriber sn) as [s|] eqn:Hs; [|done]. cbn [mbind option_bind].
  destruct (project db !! nt_project nt) as [pr|] eqn:Hpr; [|done]. cbn [mbind option_bind].
  rewrite (bind_Ok _ _ _ _ _ (decode_account_valid _ db (proj1 (ty_subscriber _ Hty _ _ Hs)))).
  intros [= <-]. by exists sn, nt, s, pr.
Qed.

Lemma publish_delivers notify_url now mid nonce db i n p :
  wf_db db → typed_db db → length nonce = 12%nat →
  (select_for_processing i db).1 = Ok (Some n) →
  notification_publish notify_url now mid nonce n = Ok p → delivers notify_url db i p.
Proof.
  intros Hwf Hty Hnonce Hn Hp.
  destruct (selected_rows i db n Hwf Hty Hn) as (sn & nt & s & pr & Hsn & Hnt & Hs & Hpr & ->).
  destruct (ty_subscriber _ Hty _ _ Hs) as (_ & k & Hk & Hsk & Htopic).
  destruct (ty_project _ Hty _ _ Hpr) as (ak & _ & Hak & _ & Hpub & Hpriv & _).
  destruct (verifying_key_valid ak Hak) as [Hvk _].
  unfold notification_publish in Hp. cbn [np_project_authentication_private_key
    np_project_authentication_public_key np_subscriber_sym_key np_content np_subscriber_notification
    np_project_app_domain np_notification_created_at np_subscriber_account np_is_read] in Hp.
  rewrite Hpriv, Hpub, Hsk in Hp. unfold encode_authentication_private_key,
    encode_authentication_public_key in *.
  rewrite !decode_key_encode in Hp by done. cbn [map_err mbind outcome_bind] in Hp.
  apply outcome_bind_Ok in Hp as (url & Hurl & Hp).
  apply outcome_bind_Ok in Hp as (auth & Hauth%map_err_Ok & Hp).
  apply outcome_bind_Ok in Hp as (text & Htext%ok_or_Ok & Hp).
  apply outcome_bind_Ok in Hp as (e & He%map_err_Ok & [= <-]).
  unfold sign_message in Hauth. apply outcome_bind_Ok in Hauth as (expiry & Hexp & Hauth).
  unfold add_ttl in Hexp. case_match; [|done]. injection Hexp as <-.
  exists sn, nt, s, pr. split_and!; [done..|].
  eexists k, (verifying_key ak), text, _, _. split_and!;
    [done| |by apply from_to_json|done|done|by apply signed_carries|].
  - apply (seal_opens nonce); [done|]. unfold seal_text. by rewrite He.
  - split; try done; cbn; [apply timestamp_add|].
    unfold link_of. destruct (n_url (nt_content nt)); [|by injection Hurl].
    apply outcome_bind_Ok in Hurl as (u & Hu%unwrap_Ok & [= <-]). by exists u.
Qed.

(** C5. A queued notification reaches the wallet.  For every row of the queue on
    a database of the server, the worker makes a message and publishes it with
    retries; the message goes to the topic of the row's subscriber; the holder
    of the subscriber's key opens it; inside is a JWT signed by the key whose
    public half the project shows, issued by that key for the subscriber's
    account and the project's app, valid for thirty days, with the content of
    the notification, the id of the row, and its link in place of the URL. *)
Theorem notification_reaches_wallet notify_url i r db w :
  rtc db_step empty_db db → rows db !! i = Some r →
  (∀ u, is_Some (url_join notify_url ("/v1/notification/" +:+ uuid_to_string u))) →
  ∃ n p w1, (select_for_processing i db).1 = Ok (Some n) ∧ same_db w w1 ∧ same_relay w w1 ∧
    process_notification notify_url n w = m_map_err PN_RelayPublish (publish_relay_message p) w1 ∧
    delivers notify_url db i p.
Proof.
  intros Hdb Hr Hu.
  destruct (rtc_db_step_inv _ _ Hdb) as [Hwf Hty]; [split; [apply wf_empty|apply typed_empty]|].
  destruct (select_for_processing_total i r db Hwf Hty Hr) as (n & Hn & _ & Hk1 & Hk2 & Hk3).
  set (w1 := bump w). set (w2 := bump w1).
  destruct (notification_publish_total notify_url (env_now (w_tick w)) (env_message_id (w_tick w1))
    (env_random (w_tick w2) 12) n Hk1 Hk2 Hk3 Hu) as [p Hp].
  exists n, p, (bump w2). split_and!; [done..| |].
  - unfold process_notification, prepare_notification, utc_now, random_bytes.
    rewrite (bind_Ok _ _ _ p (bump w2)); [done|]. rewrite !bind_ask.
    unfold lift. subst w1 w2. by rewrite Hp.
  - eapply publish_delivers; [done|done|apply env_random_length|done|exact Hp].
Qed.
End notifications.

(** ** Witnesses *)

Module EndToEndInstances.
Import Concrete.Instances JwtInstances EnvInstances MessageInstances.

#[local] Instance quiet_env : Env := make_env (λ _ _, None) (λ _ _, None).
#[local] Instance quiet_env_laws : EnvLaws.
Proof. apply make_env_laws. Qed.

Definition url_w : Url := "https://notify.example.com".

(** The queued row of the sample database goes out. *)
Lemma notification_reaches_wallet_witness :
  ∃ r p, rows db4_w !! 4%N = Some r ∧ delivers url_w db4_w 4%N p.
Proof.
  destruct (rows db4_w !! 4%N) as [r|] eqn:Hr; [|by vm_compute in Hr].
  destruct (notification_reaches_wallet url_w 4%N r db4_w (world_w db4_w) db4_w_reachable Hr)
    as (n & p & w1 & _ & _ & _ & _ & Hp).
  - intros u. by eexists.
  - exists r, p. exact (conj eq_refl Hp).
Defined.

(** A wallet asks a server. *)
Definition wallet_request_w : JsonRpcRequest NotifyMessageAuth :=
  mkJsonRpcRequest 7 "2.0" "wc_notifyMessage" {| message_auth := "jwt" |}.

Lemma wallet_request_opens_witness :
  ∃ key e, derive_key (x25519_public key_w) (replicate 32 Byte.x0b) = Ok key ∧
    envelope1_from_bytes (envelope1_to_bytes e) = Ok e ∧
    decrypt_message e key = Ok wallet_request_w.
Proof.
  destruct (wallet_request_opens wallet_request_w key_w (replicate 32 Byte.x0b) nonce_w)
    as (text & key & e & _ & Hkey & _ & Hopen & _ & Hreq); [done|done|].
  exists key, e. split; [exact Hkey|]. split; [|exact Hreq].
  unfold open_envelope in Hopen. rewrite b64_std_decode_encode in Hopen.
  cbn [ok_or mbind outcome_bind] in Hopen. by apply map_err_Ok in Hopen.
Defined.
End EndToEndInstances.
