(* ===== verification/Answers.v ===== *)
(** * Requests are answered

    Whatever a wallet asks in a message the server could open, it is answered
    on the topic and under the key of its request, with the result or the error
    of the request, unless the relay refuses the answer or a watcher cannot be
    told first.  A message that cannot be opened is dropped silently. *)

From S2P Require Import Prelude RustStr Externals AccountId Errors Types RateLimit.
From S2P Require Import Database DbInvariant Subscriptions Jwt World RelayPublish NotifyMessage.
From S2P Require Import Publisher Cache Identity RelayError RelayHandlers RelayRequests Webhook.
From S2P Require Import RelaySafety Registry ServerSafety Totality Concrete EndToEnd.
Open Scope Z_scope.

(** ** What calls the relay, and what does not *)

#[global] Instance relay_grows_same : subrelation same_relay relay_grows.
Proof. intros w w' Hs. exists []. by rewrite app_nil_r. Qed.

Section calls.
Context `{!Ext, !HashLaws, !HexLaws, !UrlOps, !Env, !CacaoOps, !Msgpack Cacao,
  !Json KeyServerResponse, !Json Siwx.RawRecap, !BuildProfile, !JwtConsts, !JsonRpcConsts,
  !RelayWire, !ErrorTexts, !Scheduler, !ValidatorOps}.

Lemma same_relay_ask {E A} (f : nat → A) : keeps same_relay (ask (E:=E) f).
Proof. by apply keeps_ask. Qed.

Lemma same_relay_rate_limit key l : keeps same_relay (rate_limit key l).
Proof. by apply keeps_rate_limit. Qed.

Lemma same_relay_query_err {E A} (fault : E) (q : Z → M Db E A) :
  keeps same_relay (query_err fault q).
Proof.
  intros w. unfold query_err. destruct (env_db_fault _); [done|]. by destruct (q _ _).
Qed.

Lemma same_relay_only_cache {E A} (m : App E A) : keeps only_cache m → keeps same_relay m.
Proof. apply keeps_weaken. by intros w w' (? & ? & ? & ? & ?). Qed.

Lemma same_relay_identity st cid ksu sub : keeps same_relay (verify_request_identity st cid ksu sub).
Proof.
  unfold verify_request_identity. apply keeps_map_err, same_relay_only_cache, keeps_verify_identity.
Qed.
End calls.

(** Steps that leave the relay alone. *)
Create HintDb relay.
#[export] Hint Resolve same_relay_ask same_relay_rate_limit keeps_same_relay_query
  same_relay_query_err same_relay_identity keeps_ret keeps_throw keeps_panic keeps_gets keeps_lift
  keeps_guard same_relay_preorder : relay.
Ltac same_relay := repeat first
  [ solve [auto 2 with relay] | apply keeps_bind; [apply _| |intros ?]
  | apply keeps_attempt | apply keeps_map_err | case_match ].

Section calls.
Context `{!Ext, !HashLaws, !HexLaws, !UrlOps, !Env, !CacaoOps, !Msgpack Cacao,
  !Json KeyServerResponse, !Json Siwx.RawRecap, !BuildProfile, !JwtConsts, !JsonRpcConsts,
  !RelayWire, !ErrorTexts, !Scheduler, !ValidatorOps}.
Context (st : AppState).

Lemma same_relay_limit key l : keeps same_relay (limit_topic st key l).
Proof. unfold limit_topic. same_relay. Qed.

Lemma same_relay_parse {T} `{!Json T, !GetSharedClaims T} jwt :
  keeps same_relay (parse_request (T := T) jwt).
Proof. unfold parse_request, client_err, utc_now. same_relay. Qed.

Lemma same_relay_authenticate proj claims act cid ksu sub app owner :
  keeps same_relay (authenticate st proj claims act cid ksu sub app owner).
Proof. unfold authenticate, check_act. same_relay. Qed.

Lemma same_relay_collect account app : keeps same_relay (collect_subscriptions account app).
Proof. unfold collect_subscriptions. same_relay. Qed.

Lemma same_relay_prepare source mjv account app :
  keeps same_relay (prepare_subscription_watchers source mjv account app).
Proof. unfold prepare_subscription_watchers. same_relay; apply same_relay_collect. Qed.

Lemma same_relay_claims {E} i a act ttl : keeps same_relay (response_claims (E:=E) i a act ttl).
Proof. unfold response_claims, utc_now. same_relay. Qed.

Lemma same_relay_find msg prefix l wrong : keeps same_relay (find_subscriber st msg prefix l wrong).
Proof. unfold find_subscriber, sqlx. same_relay; apply same_relay_limit. Qed.

Lemma same_relay_open {T} `{!Json (JsonRpcRequest T)} msg subscriber :
  keeps same_relay (open_request (T := T) msg subscriber).
Proof. unfold open_request, client_err, server_err. same_relay. Qed.
End calls.

#[export] Hint Resolve same_relay_limit same_relay_parse same_relay_authenticate
  same_relay_collect same_relay_prepare same_relay_claims same_relay_find same_relay_open : relay.

(** ** What a request does before it is answered *)

Section requests.
Context `{!Ext, !HashLaws, !HexLaws, !UrlOps, !Env, !CacaoOps, !Msgpack Cacao,
  !Json KeyServerResponse, !Json Siwx.RawRecap, !BuildProfile, !JwtConsts, !JsonRpcConsts,
  !RelayWire, !ErrorTexts, !Scheduler, !ValidatorOps}.
Context (st : AppState).

Lemma grows_same {E A} (m : App E A) : keeps same_relay m → keeps relay_grows m.
Proof. apply keeps_weaken. intros w w'. apply relay_grows_same. Qed.

Lemma grows_call r : keeps relay_grows (relay_call r).
Proof. apply keeps_relay_call. intros w. by exists [r]. Qed.

Lemma grows_subscribe topic : keeps relay_grows (subscribe_relay_topic topic).
Proof.
  assert (Hs : ∀ f w, relay_grows w (bump (set_w_slept f w))) by (intros f w; by apply relay_grows_same).
  unfold subscribe_relay_topic. apply keeps_bind; [apply _| |intros _; by apply keeps_sleep].
  by apply keeps_retry; [apply _| |apply grows_call].
Qed.

Lemma grows_publish p : keeps relay_grows (publish_relay_message p).
Proof. apply keeps_publish. intros n t w. by exists (replicate n (RelayPublishReq p)). Qed.

Ltac grows := unfold send_welcome_notification; unfold project_signing_key, project_identity, sign_response, client_err, server_err,
  sqlx, utc_now, new_v4, random_bytes, notify_webhook, check_act;
  repeat first
  [ solve [apply grows_same; auto 2 with relay]
  | apply grows_subscribe | apply grows_publish | apply keeps_spawn, grows_call
  | apply keeps_bind; [apply _| |intros ?] | apply keeps_attempt | apply keeps_map_err | case_match ].

Lemma grows_watch req key : keeps relay_grows (watch_subscriptions st req key).
Proof. unfold watch_subscriptions. grows. Qed.

Lemma grows_subscribe_request req proj cid pk : keeps relay_grows (subscribe st req proj cid pk).
Proof. unfold subscribe, conclude_subscribe. grows. Qed.

Lemma grows_update req subscriber proj cid : keeps relay_grows (update st req subscriber proj cid).
Proof. unfold update. grows. Qed.

Lemma grows_unsubscribe req msg subscriber proj cid :
  keeps relay_grows (unsubscribe st req msg subscriber proj cid).
Proof. unfold unsubscribe. grows. Qed.

Lemma grows_get req subscriber proj : keeps relay_grows (get_notifications st req subscriber proj).
Proof. unfold get_notifications. grows. Qed.

Lemma grows_mark req subscriber proj : keeps relay_grows (mark_as_read st req subscriber proj).
Proof. unfold mark_as_read. grows. Qed.

Lemma grows_send x : keeps relay_grows (send st x).
Proof. destruct x. unfold send. grows. Qed.

Lemma grows_respond topic key tag ttl text :
  keeps relay_grows (publish_response topic key tag ttl text).
Proof. unfold publish_response. grows. Qed.
End requests.

(** ** The requests and their answers *)

Inductive RequestKind :=
| AskSubscribe | AskDelete | AskUpdate | AskWatch | AskGetNotifications | AskMarkAsRead.

Definition request_tag (k : RequestKind) : Z :=
  match k with
  | AskSubscribe => NOTIFY_SUBSCRIBE_TAG
  | AskDelete => NOTIFY_DELETE_TAG
  | AskUpdate => NOTIFY_UPDATE_TAG
  | AskWatch => NOTIFY_WATCH_SUBSCRIPTIONS_TAG
  | AskGetNotifications => NOTIFY_GET_NOTIFICATIONS_TAG
  | AskMarkAsRead => NOTIFY_MARK_NOTIFICATIONS_AS_READ_TAG
  end.

#[global] Instance request_tag_inj : Inj (=) (=) request_tag.
Proof. by intros [] []. Qed.

Definition response_tag (k : RequestKind) : Z :=
  match k with
  | AskSubscribe => NOTIFY_SUBSCRIBE_RESPONSE_TAG
  | AskDelete => NOTIFY_DELETE_RESPONSE_TAG
  | AskUpdate => NOTIFY_UPDATE_RESPONSE_TAG
  | AskWatch => NOTIFY_WATCH_SUBSCRIPTIONS_RESPONSE_TAG
  | AskGetNotifications => NOTIFY_GET_NOTIFICATIONS_RESPONSE_TAG
  | AskMarkAsRead => NOTIFY_MARK_NOTIFICATIONS_AS_READ_RESPONSE_TAG
  end.

Definition request_of (k : RequestKind) : Type :=
  match k with
  | AskSubscribe => NotifySubscribe
  | AskDelete => NotifyDelete
  | AskUpdate => NotifyUpdate
  | AskWatch => NotifyWatchSubscriptions
  | AskGetNotifications | AskMarkAsRead => AuthMessage
  end.

Definition answer_of (k : RequestKind) : Type :=
  match k with
  | AskSubscribe | AskDelete | AskUpdate | AskWatch => ResponseAuth
  | AskGetNotifications | AskMarkAsRead => AuthMessage
  end.

#[global] Instance request_json `{!RelayWire} (k : RequestKind) : Json (JsonRpcRequest (request_of k)) :=
  match k with
  | AskSubscribe => wire_subscribe_request
  | AskDelete => wire_delete_request
  | AskUpdate => wire_update_request
  | AskWatch => wire_watch_request
  | AskGetNotifications | AskMarkAsRead => wire_auth_request
  end.

#[global] Instance answer_json `{!RelayWire} (k : RequestKind) : Json (JsonRpcResponse (answer_of k)) :=
  match k with
  | AskSubscribe | AskDelete | AskUpdate | AskWatch => wire_response
  | AskGetNotifications | AskMarkAsRead => wire_auth_response
  end.

Lemma answer_json_laws `{!RelayWire, !RelayWireLaws} k :
  JsonLaws (JsonRpcResponse (answer_of k)).
Proof. destruct k; exact _. Qed.

Section answers.
Context `{!Ext, !HashLaws, !HexLaws, !CipherLaws, !Base64Laws, !UrlOps, !Env, !EnvLaws,
  !CacaoOps, !Msgpack Cacao, !Json KeyServerResponse, !Json Siwx.RawRecap, !BuildProfile,
  !JwtConsts, !JsonRpcConsts, !RelayWire, !RelayWireLaws, !ErrorTexts, !Scheduler, !ValidatorOps}.

(** Between [w] and [w'] the text was published on the topic, sealed with the key. *)
Definition answered (topic : Topic) (key : bytes) (tag : Z) (text : string) (w w' : World) : Prop :=
  ∃ l p, w_relay w' = w_relay w ++ l ∧ RelayPublishReq p ∈ l ∧
    pub_topic p = topic ∧ pub_tag p = tag ∧ opens key (pub_message p) text.

Lemma answered_grows topic key tag text w0 w w' w1 :
  relay_grows w0 w → relay_grows w' w1 →
  answered topic key tag text w w' → answered topic key tag text w0 w1.
Proof.
  intros [l0 Hl0] [l1 Hl1] (l & p & Hl & Hp & Hrest). exists (l0 ++ l ++ l1), p.
  split; [by rewrite Hl1, Hl, Hl0, !app_assoc|]. split; [|exact Hrest].
  rewrite !elem_of_app. by right; left.
Qed.

(** The answer of a result: the result itself, or the error as the sender sees it. *)
Definition answer_text {A} `{!Json (JsonRpcResponse A)} (id : Z)
    (result : outcome RelayMessageError A) (text : string) : Prop :=
  match result with
  | Ok a => from_json (JsonRpcResponse A) (as_bytes text) = Some (JsonRpcResponse_new id a)
  | Err e => from_json JsonRpcResponseError (as_bytes text) =
               Some (JsonRpcResponseError_new id (JsonRpcError_from e))
  | Panic => False
  end.

Definition relay_refused : RelayMessageServerError := Relay_NotifyServer RelayPublish.

Lemma respond_answers topic key tag ttl text w r w' :
  publish_response topic key tag ttl text w = (r, w') →
  answered topic key tag text w w' ∧ (r = Ok () ∨ r = Err relay_refused).
Proof.
  unfold publish_response, random_bytes. rewrite bind_ask.
  set (nonce := env_random (w_tick w) 12). set (w1 := bump w).
  unfold seal_text, envelope0_new. destruct (aead_encrypt_total key nonce (as_bytes text)) as [box Hbox].
  rewrite Hbox. cbn [ok_or mbind outcome_bind map_err]. rewrite (bind_Ok _ _ _ _ w1) by done.
  set (p := mkPublish _ _ _ _ _). intros Hrun.
  assert (Hopen : opens key (pub_message p) text).
  { apply (seal_opens nonce); [apply env_random_length|]. unfold seal_text, envelope0_new. by rewrite Hbox. }
  destruct (publish_relay_message_run p w1) as (o & n & t & Hp & Hno). unfold m_map_err in Hrun.
  rewrite Hp in Hrun. injection Hrun as <- <-. split.
  - exists (replicate (S n) (RelayPublishReq p)), p. split_and!; [done| |done|done|exact Hopen].
    left.
  - destruct o as [[]|e|]; [by left|by right|done].
Qed.

Lemma serialize_answers {A} `{!Json (JsonRpcResponse A), !JsonLaws (JsonRpcResponse A)} id
    (result : outcome RelayMessageError A) w :
  result ≠ Panic →
  ∃ text, serialize_response id result w = (Ok text, w) ∧ answer_text id result text.
Proof.
  intros Hr. destruct result as [a|e|]; [..|done]; cbn [serialize_response answer_text].
  - destruct (to_json_total (JsonRpcResponse_new id a)) as [text Ht]. exists text.
    unfold server_err. rewrite Ht. split; [done|by apply from_to_json].
  - destruct (to_json_total (JsonRpcResponseError_new id (JsonRpcError_from e))) as [text Ht].
    exists text. unfold server_err. rewrite Ht. split; [done|by apply from_to_json].
Qed.

(** The answer was not taken by the relay, or the join ended with a watcher
    that could not be told. *)
Definition undelivered (e : RelayMessageServerError) : Prop :=
  e = relay_refused ∨ ∃ e', e = SubscriptionWatcherSend e'.

(** The answer [text] says how the handling [r] of the request [id] ended. *)
Definition tells (k : RequestKind) (id : Z) (r : outcome RelayMessageError ()) (text : string) : Prop :=
  match r with
  | Ok _ => ∃ a, answer_text (A := answer_of k) id (Ok a) text
  | Err e => answer_text (A := answer_of k) id (Err e) text
  | Panic => False
  end.

(** How a request ends that was opened with a key. *)
Definition concluded (k : RequestKind) (topic : Topic) (key : bytes) (id : Z) (r : outcome RelayMessageError ())
    (w w' : World) : Prop :=
  r = Panic ∨ (∃ e, r = Err (Relay_Server e) ∧ undelivered e) ∨
  ∃ text, answered topic key (response_tag k) text w w' ∧ tells k id r text.

Lemma concluded_grows k topic key id r w0 w w' :
  relay_grows w0 w → concluded k topic key id r w w' → concluded k topic key id r w0 w'.
Proof.
  intros Hw [?|[?|(text & Ha & Ht)]]; [by left|by right; left|right; right]. exists text.
  split; [|done]. by eapply answered_grows.
Qed.

Lemma answer_concludes k topic key ttl id (result : outcome RelayMessageError (answer_of k)) w r w' :
  answer topic key (response_tag k) ttl id result w = (r, w') →
  concluded k topic key id r w w'.
Proof.
  pose proof (answer_json_laws k) as Hlaws. intros Hrun. unfold answer in Hrun.
  assert (result = Panic ∨ result ≠ Panic) as [->|Hp] by (destruct result; auto);
    [by injection Hrun as <- _; left|].
  destruct (serialize_answers id result w Hp) as (text & Hs & Ht).
  rewrite (bind_Ok _ _ _ _ _ Hs) in Hrun.
  destruct (publish_response topic key (response_tag k) ttl text w) as [o w1] eqn:Ho.
  destruct (respond_answers _ _ _ _ _ _ _ _ Ho) as [Ha [->| ->]].
  - rewrite (bind_Ok _ _ _ () w1) in Hrun by (unfold m_map_err; by rewrite Ho).
    injection Hrun as <- <-. right; right. exists text. split; [exact Ha|].
    destruct result as [a|e|]; [by exists a|done|done].
  - unfold m_map_err in Hrun. unfold mbind, M_bind in Hrun. rewrite Ho in Hrun.
    injection Hrun as <- <-. right; left. exists relay_refused. split; [done|by left].
Qed.

(** *** Next to the watchers *)

Definition task_grows (t : Task) : Prop :=
  match t with ResponseTask m => keeps relay_grows m | WatcherTask m => keeps relay_grows m end.

(** When the join succeeds every answer in it was taken. *)
Lemma join_concludes tasks : Forall task_grows tasks →
  (∀ m, ResponseTask m ∈ tasks → ∀ w e w', m w = (Err e, w') → undelivered e) →
  ∀ n failed w r w', join_tasks tasks n failed w = (r, w') →
  match r with
  | Ok _ => ∀ m, ResponseTask m ∈ tasks →
      ∃ w1 w2, m w1 = (Ok (), w2) ∧ relay_grows w w1 ∧ relay_grows w2 w'
  | Err e => undelivered e
  | Panic => True
  end ∧ relay_grows w w'.
Proof.
  induction 1 as [|task tasks Hm Htasks IH]; intros Hresp n failed w r w' Hrun.
  - injection Hrun as <- <-. split; [|reflexivity]. by intros m Hm%elem_of_nil.
  - assert (Hresp' : ∀ m, ResponseTask m ∈ tasks → ∀ w e w', m w = (Err e, w') → undelivered e)
      by (intros m Hin; apply Hresp; by right).
    specialize (IH Hresp').
    destruct task as [m|m]; cbn [join_tasks task_grows] in Hrun, Hm; specialize (Hm w).
    + unfold mbind, M_bind in Hrun. destruct (m w) as [[[]|e|] w1] eqn:Hmw; cbn [snd] in Hm.
      * specialize (IH _ _ _ _ _ Hrun) as [IH Hg]. split; [|by etrans].
        destruct r as [u|e|]; [|done|done]. intros m' [[= ->]|Hin]%elem_of_cons; [by exists w, w1|].
        destruct (IH m' Hin) as (w2 & w3 & ? & ? & ?). exists w2, w3. split_and!; [done|by etrans|done].
      * injection Hrun as <- <-. split; [|done]. eapply Hresp; [by left|done].
      * by injection Hrun as <- <-.
    + unfold attempt, mbind, M_bind in Hrun.
      assert (Hrest : ∀ n failed w1, relay_grows w w1 → join_tasks tasks n failed w1 = (r, w') →
        match r with
        | Ok _ => ∀ m0, ResponseTask m0 ∈ WatcherTask m :: tasks →
            ∃ w1 w2, m0 w1 = (Ok (), w2) ∧ relay_grows w w1 ∧ relay_grows w2 w'
        | Err e => undelivered e
        | Panic => True
        end ∧ relay_grows w w').
      { intros n1 failed1 w1 Hw1 Hrun1. specialize (IH _ _ _ _ _ Hrun1) as [IH Hg].
        split; [|by etrans]. destruct r as [u|e|]; [|done|done].
        intros m' [[=]|Hin]%elem_of_cons. destruct (IH m' Hin) as (w2 & w3 & ? & ? & ?).
        exists w2, w3. split_and!; [done|by etrans|done]. }
      destruct (m w) as [[[]|e|] w1]; cbn [snd] in Hm; unfold mret, M_ret in Hrun;
        [| |by injection Hrun as <- <-].
      all: destruct (pred n); [|by eapply Hrest].
      * destruct failed; [injection Hrun as <- <-; split; [by right; eexists|done]|by eapply Hrest].
      * injection Hrun as <- <-. split; [by right; eexists|done].
Qed.

Lemma elem_of_schedule {A} rank (l : list A) x : x ∈ schedule rank l ↔ x ∈ l.
Proof.
  unfold schedule.
  assert (Hp : snd <$> merge_sort earlier (zip (rank <$> seq 0 (length l)) l) ≡ₚ l); [|by rewrite Hp].
  rewrite (fmap_Permutation snd _ _ (merge_sort_Permutation earlier _)), snd_zip; [done|].
  by rewrite length_fmap, length_seq.
Qed.

Lemma join_answers st topic key tag ttl text watchers w r w' :
  try_join (publish_response topic key tag ttl text) st watchers w = (r, w') →
  match r with
  | Ok _ => answered topic key tag text w w'
  | Err e => undelivered e
  | Panic => True
  end.
Proof.
  unfold try_join. rewrite bind_ask. intros Hrun. apply join_concludes in Hrun as [Hc _].
  - destruct r as [u|e|]; [|done|done].
    destruct (Hc (publish_response topic key tag ttl text)) as (w1 & w2 & Hr & Hw1 & Hw2).
    { apply elem_of_schedule. by left. }
    apply respond_answers in Hr as [Ha _]. eapply answered_grows; [|exact Hw2|exact Ha].
    etrans; [|exact Hw1]. by apply relay_grows_same.
  - apply Forall_schedule. constructor; [apply grows_respond|].
    apply Forall_fmap, Forall_true. intros x. apply grows_send.
  - intros m Hin w1 e w2 Hm. apply elem_of_schedule, elem_of_cons in Hin as [[= ->]|Hin].
    + apply respond_answers in Hm as [_ [[=]|[= ->]]]. by left.
    + by apply list_elem_of_fmap in Hin as (x & [=] & _).
Qed.

Lemma answer_and_notify_concludes k st topic key ttl id
    (result : outcome RelayMessageError (ResponseAuth * list Watched)) w r w' :
  k ∈ [AskSubscribe; AskDelete; AskUpdate] →
  answer_and_notify st topic key (response_tag k) ttl id result w = (r, w') →
  concluded k topic key id r w w'.
Proof.
  intros Hk Hrun. unfold answer_and_notify in Hrun.
  assert (result = Panic ∨ result ≠ Panic) as [->|Hp] by (destruct result; auto);
    [by injection Hrun as <- _; left|].
  destruct (serialize_answers id (fst <$> result) w) as (text & Hs & Ht); [by destruct result|].
  rewrite (bind_Ok _ _ _ _ _ Hs) in Hrun. destruct result as [[a watchers]|e|]; [..|done].
  - destruct (try_join (publish_response topic key (response_tag k) ttl text) st watchers w) as [o w1] eqn:Ho.
    pose proof (join_answers _ _ _ _ _ _ _ _ _ _ Ho) as Ha.
    unfold m_map_err, mbind, M_bind in Hrun. rewrite Ho in Hrun.
    destruct o as [[]|e|]; injection Hrun as <- <-.
    + right; right. exists text. split; [exact Ha|]. cbn.
      by repeat (apply elem_of_cons in Hk as [->|Hk]; [by exists a|]); apply elem_of_nil in Hk.
    + right; left. by exists e.
    + by left.
  - destruct (publish_response topic key (response_tag k) ttl text w) as [o w1] eqn:Ho.
    destruct (respond_answers _ _ _ _ _ _ _ _ Ho) as [Ha [->| ->]];
      unfold m_map_err, mbind, M_bind in Hrun; rewrite Ho in Hrun; injection Hrun as <- <-.
    + right; right. by exists text.
    + right; left. exists relay_refused. split; [done|by left].
Qed.
End answers.

(** ** Messages that open *)

(** Two results of the same computation. *)
Ltac same_results := repeat match goal with
  | H1 : ?o = Ok ?x, H2 : ?o = Ok ?y |- _ =>
      tryif constr_eq x y then fail else
        (assert (y = x) by congruence; subst y)
  end.

Section opened.
Context `{!Ext, !HashLaws, !HexLaws, !CipherLaws, !Base64Laws, !UrlOps, !Env, !EnvLaws,
  !CacaoOps, !Msgpack Cacao, !Json KeyServerResponse, !Json Siwx.RawRecap, !BuildProfile,
  !JwtConsts, !JsonRpcConsts, !RelayWire, !RelayWireLaws, !ErrorTexts, !Scheduler, !ValidatorOps}.
Context (st : AppState) (msg : RelayIncomingMessage) (db : Db).

(** The message opens as the request [id] of the kind [k], to be answered on a
    topic and under a key: with the key of the subscription the topic belongs
    to, or with the one the server's or the project's key and the sender's
    agree on. *)
Definition opened_as (k : RequestKind) (topic : Topic) (key : bytes) (id : Z) : Prop :=
  rim_tag msg = request_tag k ∧ ∃ req : JsonRpcRequest (request_of k), req_id req = id ∧
  match k with
  | AskWatch => ∃ envelope,
      rim_topic msg = key_agreement_topic (st_notify_keys st) ∧
      open_envelope envelope1_from_bytes (rim_message msg) = Ok envelope ∧
      derive_key (pubkey (opts envelope)) (key_agreement_secret (st_notify_keys st)) = Ok key ∧
      topic = topic_from_key key ∧
      decrypt_message envelope key = Ok req
  | AskSubscribe => ∃ proj server_key envelope,
      (get_project_by_topic (rim_topic msg) db).1 = Ok proj ∧
      decode_key (pr_subscribe_private_key proj) = Ok server_key ∧
      rim_topic msg = topic_from_key (x25519_public server_key) ∧
      open_envelope envelope1_from_bytes (rim_message msg) = Ok envelope ∧
      derive_key (pubkey (opts envelope)) server_key = Ok key ∧
      topic = topic_from_key key ∧
      decrypt_message envelope key = Ok req
  | _ => ∃ subscriber envelope,
      (get_subscriber_by_topic (rim_topic msg) db).1 = Ok subscriber ∧
      decode_key (sws_sym_key subscriber) = Ok key ∧
      rim_topic msg = topic_from_key key ∧ topic = rim_topic msg ∧
      open_envelope envelope0_from_bytes (rim_message msg) = Ok envelope ∧
      decrypt_message envelope key = Ok req
  end.

(** A message that could open is refused before it is opened only for the rate
    of its requests, or a failure of Redis or the database, or a key of the
    project that is not one. *)
Definition unavailable (e : RelayMessageError) : Prop :=
  match e with
  | Relay_Client (RelayRateLimitExceeded _)
  | Relay_Server (Relay_NotifyServer (RateLimit _ | Sqlx _))
  | Relay_Server (GetAuthenticationClientId _) => True
  | _ => False
  end.

Definition unopened (e : RelayMessageError) : Prop :=
  unavailable e ∨ ∀ k topic key id, ¬ opened_as k topic key id.

(** How the handling of a message ends. *)
Definition handled (r : outcome RelayMessageError ()) (w w' : World) : Prop :=
  (w_relay w' = w_relay w ∧ (r = Panic ∨ ∃ e, r = Err e ∧ unopened e)) ∨
  ∃ k topic key id, opened_as k topic key id ∧ concluded k topic key id r w w'.

(** A step before the message is opened. *)
Lemma handled_step {A} (m : App RelayMessageError A) k w0 w r w' :
  keeps same_relay m → w_relay w = w_relay w0 → (m ≫= k) w = (r, w') →
  (∀ e w1, m w = (Err e, w1) → unopened e) →
  (∀ a w1, m w = (Ok a, w1) → w_relay w1 = w_relay w0 → k a w1 = (r, w') → handled r w0 w') →
  handled r w0 w'.
Proof.
  intros Hm Hw Hrun He Hk. specialize (Hm w). unfold mbind, M_bind in Hrun.
  destruct (m w) as [[a|e|] w1]; unfold same_relay in Hm; cbn [snd] in Hm.
  - apply (Hk a w1); [done|congruence|done].
  - injection Hrun as <- <-. left. split; [congruence|right]. exists e. split; [done|by eapply He].
  - injection Hrun as <- <-. left. split; [congruence|by left].
Qed.

(** The body of an opened request, and its answer. *)
Lemma handled_opened {A} (body : App RelayMessageError A) k kind topic key id w0 w r w' :
  opened_as kind topic key id → w_relay w = w_relay w0 → keeps relay_grows body →
  (∀ result w1, k result w1 = (r, w') → concluded kind topic key id r w1 w') →
  (attempt body ≫= k) w = (r, w') → handled r w0 w'.
Proof.
  intros Ho Hw Hb Hk Hrun. right. exists kind, topic, key, id. split; [exact Ho|].
  specialize (Hb w). unfold attempt, mbind, M_bind in Hrun.
  assert (Hg : ∀ w1, relay_grows w w1 → relay_grows w0 w1)
    by (intros w1 Hw1; etrans; [by apply relay_grows_same|exact Hw1]).
  destruct (body w) as [[a|e|] w1]; cbn in Hrun, Hb; [..|by injection Hrun as <- _; left];
    (eapply concluded_grows; [apply Hg, Hb|by eapply Hk]).
Qed.

(** *** The steps before *)

Lemma unavailable_unopened e : unavailable e → unopened e.
Proof. by left. Qed.

(** A step that cannot fail on a message that opens. *)
Lemma refuses_unopened (kind : RequestKind) e :
  rim_tag msg = request_tag kind → (∀ topic key id, ¬ opened_as kind topic key id) → unopened e.
Proof.
  intros Htag Hno. right. intros k topic key id Ho. pose proof Ho as [Hk _].
  rewrite Htag in Hk. apply (inj request_tag) in Hk as <-. by eapply Hno.
Qed.

Lemma lift_unopened {E A} (kind : RequestKind) (f : E → RelayMessageError) (o : outcome E A)
    (w : World) e w1 :
  rim_tag msg = request_tag kind → (∀ topic key id, opened_as kind topic key id → ∃ a, o = Ok a) →
  lift (map_err f o) w = (Err e, w1) → unopened e.
Proof.
  intros Htag Ho Hrun. apply (refuses_unopened kind); [done|]. intros topic key id [a Ha]%Ho.
  by rewrite Ha in Hrun.
Qed.

Lemma topic_unopened (kind : RequestKind) t c (w : World) e w1 :
  rim_tag msg = request_tag kind → (∀ topic key id, opened_as kind topic key id → rim_topic msg = t) →
  guard_err (negb (String.eqb (rim_topic msg) t)) c w = (Err e, w1) → unopened e.
Proof.
  intros Htag Ho Hrun. apply (refuses_unopened kind); [done|]. intros topic key id Ht%Ho.
  by rewrite Ht, String.eqb_refl in Hrun.
Qed.

Lemma limit_unopened key l w e w1 : limit_topic st key l w = (Err e, w1) → unopened e.
Proof.
  unfold limit_topic. destruct (st_redis st); [|done]. unfold m_map_err, rate_limit.
  intros Hrun. apply unavailable_unopened.
  destruct (token_bucket _ _ _ _) as [[u|[?|?]|] b]; cbn in Hrun; by inversion Hrun; subst.
Qed.

Lemma sqlx_unopened e : unopened (sqlx_server_error e).
Proof. by apply unavailable_unopened. Qed.

Lemma row_not_found_unopened {A} c (q : Z → Query A) w e w1 :
  ((q (env_now (w_tick w)) (w_db w)).1 = Err RowNotFound → unopened (Relay_Client c)) →
  m_map_err (row_not_found_or c) (query q) w = (Err e, w1) → unopened e.
Proof.
  intros Hq. unfold m_map_err, query. destruct (env_db_fault _).
  - intros [= <- _]. apply sqlx_unopened.
  - cbv zeta. destruct (q _ _) as [[a|e'|] db'] eqn:Hrun; cbn in *; [done| |done].
    intros [= <- _]. destruct e'; cbn [row_not_found_or]; auto using sqlx_unopened.
Qed.

Lemma client_id_unopened proj w e w1 :
  server_err (map_err GetAuthenticationClientId (get_authentication_client_id proj)) w = (Err e, w1) →
  unopened e.
Proof.
  unfold server_err, lift. destruct (get_authentication_client_id proj); [done| |done].
  intros [= <- _]. by apply unavailable_unopened.
Qed.

(** The subscription requests. *)
Definition on_subscription : list RequestKind :=
  [AskUpdate; AskDelete; AskGetNotifications; AskMarkAsRead].

Lemma on_subscription_opened kind topic key id : kind ∈ on_subscription →
  opened_as kind topic key id ↔
  rim_tag msg = request_tag kind ∧ ∃ req : JsonRpcRequest (request_of kind), req_id req = id ∧
  ∃ subscriber envelope,
    (get_subscriber_by_topic (rim_topic msg) db).1 = Ok subscriber ∧
    decode_key (sws_sym_key subscriber) = Ok key ∧
    rim_topic msg = topic_from_key key ∧ topic = rim_topic msg ∧
    open_envelope envelope0_from_bytes (rim_message msg) = Ok envelope ∧
    decrypt_message envelope key = Ok req.
Proof.
  intros Hk. unfold opened_as.
  by repeat (apply elem_of_cons in Hk as [->|Hk]; [done|]); apply elem_of_nil in Hk.
Qed.

Lemma find_unopened kind prefix l wrong w e w1 :
  kind ∈ on_subscription → rim_tag msg = request_tag kind → w_db w = db →
  find_subscriber st msg prefix l wrong w = (Err e, w1) → unopened e.
Proof.
  intros Hk Htag Hdb. unfold find_subscriber.
  pose proof (same_db_limit st (prefix +:+ rim_topic msg) l w) as Hsame.
  unfold mbind at 1, M_bind at 1.
  destruct (limit_topic st _ l w) as [[u|e'|] w2] eqn:Hl; [| |done].
  2: { intros [= <- _]. by eapply limit_unopened. }
  cbn [snd] in Hsame. unfold mbind at 1, M_bind at 1.
  destruct (m_map_err _ _ w2) as [[sb|e'|] w3] eqn:Hs; [| |done].
  2: { intros [= <- _]. eapply row_not_found_unopened; [|exact Hs]. rewrite Hsame, Hdb.
       intros Hnone. apply (refuses_unopened kind); [done|].
       intros topic key id (_ & req & _ & sb & envelope & Hsb & _)%on_subscription_opened; [|done].
       congruence. }
  unfold sqlx, m_map_err, mbind, M_bind. destruct (query _ w3) as [[pr|e'|] w4]; [done| |done].
  intros [= <- _]. apply sqlx_unopened.
Qed.

Lemma open_unopened kind subscriber w e w1 :
  kind ∈ on_subscription → rim_tag msg = request_tag kind →
  (get_subscriber_by_topic (rim_topic msg) db).1 = Ok subscriber →
  open_request (T := request_of kind) msg subscriber w = (Err e, w1) → unopened e.
Proof.
  intros Hk Htag Hs Hrun. apply (refuses_unopened kind); [done|].
  intros topic key id (_ & req & _ & sb & envelope & Hsb & Hkey & Ht & _ & He & Hd)%on_subscription_opened;
    [|done].
  same_results. unfold open_request, client_err, server_err, mbind, M_bind, lift in Hrun.
  rewrite He, Hkey in Hrun. cbn [map_err] in Hrun. rewrite <-Ht, String.eqb_refl in Hrun.
  cbn [negb guard_err] in Hrun. unfold mret, M_ret in Hrun. by rewrite Hd in Hrun.
Qed.

Lemma open_request_opened kind subscriber w req key w' :
  kind ∈ on_subscription → rim_tag msg = request_tag kind →
  (get_subscriber_by_topic (rim_topic msg) db).1 = Ok subscriber →
  open_request (T := request_of kind) msg subscriber w = (Ok (req, key), w') →
  opened_as kind (rim_topic msg) key (req_id req).
Proof.
  intros Hkind Htag Hs Hrun. unfold open_request, client_err, server_err in Hrun.
  apply bind_lift_iff in Hrun as (e & He%map_err_Ok & Hrun).
  apply bind_lift_iff in Hrun as (k & Hk%map_err_Ok%map_err_Ok & Hrun).
  apply bind_guard_iff in Hrun as [Ht%negb_false_iff%String.eqb_eq Hrun].
  apply bind_lift_iff in Hrun as (q & Hq%map_err_Ok & Hrun). apply ret_iff in Hrun as [[= -> ->] _].
  apply on_subscription_opened; [done|]. split; [done|]. exists req. split; [done|].
  by exists subscriber, e.
Qed.

(** A request on a subscription: found, opened, handled, answered. *)
Lemma subscription_handled {A} kind prefix l wrong (pre : Project → App RelayMessageError A)
    {B} (body : JsonRpcRequest (request_of kind) → SubscriberWithScope → Project → A →
                App RelayMessageError B) respond w r w' :
  kind ∈ on_subscription → rim_tag msg = request_tag kind → w_db w = db →
  (∀ proj, keeps same_relay (pre proj)) →
  (∀ proj w e w1, pre proj w = (Err e, w1) → unopened e) →
  (∀ req subscriber proj a, keeps relay_grows (body req subscriber proj a)) →
  (∀ req key result w1, respond req key result w1 = (r, w') →
    concluded kind (rim_topic msg) key (req_id req) r w1 w') →
  ('(subscriber, proj) ← find_subscriber st msg prefix l wrong;
   a ← pre proj;
   '(req, sym_key) ← open_request (T := request_of kind) msg subscriber;
   result ← attempt (body req subscriber proj a);
   respond req sym_key result) w = (r, w') → handled r w w'.
Proof.
  intros Hkind Htag Hdb Hpre Hfail Hbody Hrespond Hrun.
  eapply handled_step; [|reflexivity|exact Hrun| |]; clear Hrun; [apply same_relay_find| |].
  { intros e w1. by eapply find_unopened. }
  intros [subscriber proj] w1 Hf Hw1 Hrun. eapply find_subscriber_Ok in Hf as [Hf _]; [|exact Hdb].
  eapply handled_step; [|exact Hw1|exact Hrun|apply Hfail|]; clear Hrun; [apply Hpre|].
  intros a w2 _ Hw2 Hrun.
  eapply handled_step; [|exact Hw2|exact Hrun| |]; clear Hrun; [apply same_relay_open| |].
  { intros e w3. by eapply open_unopened. }
  intros [req key] w3 Ho Hw3 Hrun.
  eapply handled_opened; [by eapply open_request_opened|exact Hw3|apply Hbody| |exact Hrun].
  intros result w4. apply Hrespond.
Qed.

(** *** The handlers *)

Lemma update_handled w r w' : rim_tag msg = request_tag AskUpdate → w_db w = db →
  notify_update st msg w = (r, w') → handled r w w'.
Proof.
  intros Htag Hdb. apply (subscription_handled AskUpdate _ _ _
    (λ proj, server_err (map_err GetAuthenticationClientId (get_authentication_client_id proj)))
    (λ req subscriber proj cid, update st req subscriber proj cid)); [set_solver|done|done|..].
  - intros. unfold server_err. same_relay.
  - intros. by eapply client_id_unopened.
  - intros. apply grows_update.
  - intros req key result w1. apply (answer_and_notify_concludes AskUpdate). set_solver.
Qed.

Lemma delete_handled w r w' : rim_tag msg = request_tag AskDelete → w_db w = db →
  notify_delete st msg w = (r, w') → handled r w w'.
Proof.
  intros Htag Hdb. apply (subscription_handled AskDelete _ _ _
    (λ proj, server_err (map_err GetAuthenticationClientId (get_authentication_client_id proj)))
    (λ req subscriber proj cid, unsubscribe st req msg subscriber proj cid)); [set_solver|done|done|..].
  - intros. unfold server_err. same_relay.
  - intros. by eapply client_id_unopened.
  - intros. apply grows_unsubscribe.
  - intros req key result w1. apply (answer_and_notify_concludes AskDelete). set_solver.
Qed.

Lemma get_handled w r w' : rim_tag msg = request_tag AskGetNotifications → w_db w = db →
  notify_get_notifications st msg w = (r, w') → handled r w w'.
Proof.
  intros Htag Hdb Hrun. apply (subscription_handled AskGetNotifications "notify-get-notifications-"
    notify_get_notifications_rate_limit WrongNotifyGetNotificationsTopic (λ _, mret ())
    (λ req subscriber proj _, get_notifications st req subscriber proj)
    (λ req key, answer (rim_topic msg) key NOTIFY_GET_NOTIFICATIONS_RESPONSE_TAG
      NOTIFY_GET_NOTIFICATIONS_RESPONSE_TTL (req_id req)) w r w'); [set_solver|done|done|..|exact Hrun].
  - intros. same_relay.
  - done.
  - intros. apply grows_get.
  - intros req key result w1. apply (answer_concludes AskGetNotifications).
Qed.

Lemma mark_handled w r w' : rim_tag msg = request_tag AskMarkAsRead → w_db w = db →
  notify_mark_notifications_as_read st msg w = (r, w') → handled r w w'.
Proof.
  intros Htag Hdb Hrun. apply (subscription_handled AskMarkAsRead "notify-mark-notifications-as-read-"
    notify_mark_notifications_as_read_rate_limit WrongNotifyMarkNotificationsAsReadTopic (λ _, mret ())
    (λ req subscriber proj _, mark_as_read st req subscriber proj)
    (λ req key, answer (rim_topic msg) key NOTIFY_MARK_NOTIFICATIONS_AS_READ_RESPONSE_TAG
      NOTIFY_MARK_NOTIFICATIONS_AS_READ_RESPONSE_TTL (req_id req)) w r w'); [set_solver|done|done|..|exact Hrun].
  - intros. same_relay.
  - done.
  - intros. apply grows_mark.
  - intros req key result w1. apply (answer_concludes AskMarkAsRead).
Qed.

Ltac step H := eapply handled_step; [| |exact H| |]; clear H;
  [solve [unfold client_err, server_err; same_relay]|first [reflexivity|eassumption]| |].

Lemma watch_handled w r w' : rim_tag msg = request_tag AskWatch →
  notify_watch_subscriptions st msg w = (r, w') → handled r w w'.
Proof.
  intros Htag Hrun. unfold notify_watch_subscriptions, answer_watch in Hrun.
  step Hrun.
  { intros ? ?. apply (topic_unopened AskWatch); [done|].
    intros ? ? ? (_ & ? & _ & ? & Ht & _). exact Ht. }
  intros [] w1 [Ht%negb_false_iff%String.eqb_eq _]%guard_err_Ok_inv Hw1 Hrun.
  step Hrun.
  { intros ? ?. apply (lift_unopened AskWatch); [done|].
    intros ? ? ? (_ & ? & _ & ? & _ & Hop & _). eauto. }
  intros envelope w2 [He%map_err_Ok _]%lift_Ok_inv Hw2 Hrun.
  step Hrun; [intros ? ?; apply limit_unopened|]. intros ? w3 _ Hw3 Hrun.
  step Hrun.
  { intros ? ?. apply (lift_unopened AskWatch); [done|].
    intros ? ? ? (_ & ? & _ & ? & _ & Hop & Hk & _). same_results. rewrite Hk. eauto. }
  intros key w4 [Hk%map_err_Ok%map_err_Ok _]%lift_Ok_inv Hw4 Hrun.
  step Hrun.
  { intros ? ?. apply (lift_unopened AskWatch); [done|].
    intros ? ? ? (_ & ? & _ & ? & _ & Hop & Hk' & _ & Hd). same_results. eauto. }
  intros req w5 [Hq%map_err_Ok _]%lift_Ok_inv Hw5 Hrun.
  eapply (handled_opened _ _ AskWatch); [|exact Hw5|apply grows_watch| |exact Hrun].
  - split; [exact Htag|]. exists req. split; [done|]. by exists envelope.
  - intros result w6. apply (answer_concludes AskWatch).
Qed.

Lemma subscribe_handled w r w' : rim_tag msg = request_tag AskSubscribe → w_db w = db →
  notify_subscribe st msg w = (r, w') → handled r w w'.
Proof.
  intros Htag Hdb Hrun. unfold notify_subscribe, answer_subscribe in Hrun.
  pose proof (same_db_limit st ("notify-subscribe-project-" +:+ rim_topic msg)
    notify_subscribe_project_rate_limit w) as Hsame.
  step Hrun; [intros ? ?; apply limit_unopened|].
  intros ? w1 Hl Hw1 Hrun. rewrite Hl in Hsame. cbn [snd] in Hsame.
  step Hrun.
  { intros e w2. apply row_not_found_unopened. rewrite Hsame, Hdb. intros Hnone.
    apply (refuses_unopened AskSubscribe); [done|].
    intros topic key id (_ & req & _ & proj & sk & envelope & Hp & _). congruence. }
  intros proj w2 Hp%m_map_err_Ok_inv Hw2 Hrun.
  apply (read_query_Ok db) in Hp; [|by rewrite Hsame|apply select_project_read_only].
  step Hrun; [intros ? ?; apply client_id_unopened|]. intros cid w3 _ Hw3 Hrun.
  step Hrun.
  { intros ? ?. apply (lift_unopened AskSubscribe); [done|].
    intros ? ? ? (_ & ? & _ & ? & ? & ? & _ & _ & _ & Hop & _). eauto. }
  intros envelope w4 [He%map_err_Ok _]%lift_Ok_inv Hw4 Hrun.
  step Hrun; [intros ? ?; apply limit_unopened|]. intros ? w5 _ Hw5 Hrun.
  step Hrun.
  { intros ? ?. apply (lift_unopened AskSubscribe); [done|].
    intros ? ? ? (_ & ? & _ & ? & ? & ? & Hp' & Hsk & _). same_results. rewrite Hsk. eauto. }
  intros server_key w6 [Hsk%map_err_Ok%map_err_Ok _]%lift_Ok_inv Hw6 Hrun.
  step Hrun.
  { intros ? ?. apply (lift_unopened AskSubscribe); [done|].
    intros ? ? ? (_ & ? & _ & ? & ? & ? & Hp' & Hsk' & _ & Hop & Hk & _). same_results.
    rewrite Hk. eauto. }
  intros key w7 [Hk%map_err_Ok%map_err_Ok _]%lift_Ok_inv Hw7 Hrun.
  step Hrun.
  { intros ? ?. apply (topic_unopened AskSubscribe); [done|].
    intros ? ? ? (_ & ? & _ & ? & ? & ? & Hp' & Hsk' & Ht & _). by same_results. }
  intros [] w8 [Ht%negb_false_iff%String.eqb_eq _]%guard_err_Ok_inv Hw8 Hrun.
  step Hrun.
  { intros ? ?. apply (lift_unopened AskSubscribe); [done|].
    intros ? ? ? (_ & ? & _ & ? & ? & ? & Hp' & Hsk' & _ & Hop & Hk' & _ & Hd). same_results. eauto. }
  intros req w9 [Hq%map_err_Ok _]%lift_Ok_inv Hw9 Hrun.
  eapply (handled_opened _ _ AskSubscribe); [|exact Hw9|apply grows_subscribe_request| |exact Hrun].
  - split; [exact Htag|]. exists req. split; [done|]. by exists proj, server_key, envelope.
  - intros result w10. apply (answer_and_notify_concludes AskSubscribe). set_solver.
Qed.
End opened.

Section theorem.
Context `{!Ext, !HashLaws, !HexLaws, !CipherLaws, !Base64Laws, !UrlOps, !Env, !EnvLaws,
  !CacaoOps, !Msgpack Cacao, !Json KeyServerResponse, !Json Siwx.RawRecap, !BuildProfile,
  !JwtConsts, !JsonRpcConsts, !RelayWire, !RelayWireLaws, !ErrorTexts, !Scheduler, !ValidatorOps}.

(** C4. Requests are answered.  A message with another tag is ignored.  A message
    that could not be opened is dropped: the server does not call the relay;
    and a message that does open is dropped so only when it came too fast, or
    Redis or the database failed, or the project's key is not one.  Any other
    request that opens (with the key of the subscription of its topic, or with
    the key the server's or the project's key agrees on with the sender's) is
    answered: unless the handler panics, or the relay refuses the answer, or a
    watcher could not be told, a message is published on the topic of that key
    with the tag of the answer, the holder of the key opens it, and it carries
    the id of the request and its result, or its error. *)
Theorem requests_answered st msg w :
  let '(r, w') := dispatch st msg w in
  ((∀ k, rim_tag msg ≠ request_tag k) ∧ r = Ok () ∧ w' = w) ∨
  (w_relay w' = w_relay w ∧ (r = Panic ∨ ∃ e, r = Err e ∧
    (unavailable e ∨ ∀ k topic key id, ¬ opened_as st msg (w_db w) k topic key id))) ∨
  ∃ k topic key id, opened_as st msg (w_db w) k topic key id ∧
    (r = Panic ∨ (∃ e, r = Err (Relay_Server e) ∧ undelivered e) ∨
     ∃ text, answered topic key (response_tag k) text w w' ∧ tells k id r text).
Proof.
  destruct (dispatch st msg w) as [r w'] eqn:Hrun. unfold dispatch in Hrun.
  repeat match type of Hrun with context [rim_tag msg =? ?t] =>
    destruct (Z.eqb_spec (rim_tag msg) t) as [Htag|] end.
  1-6: right; change (handled st msg (w_db w) r w w').
  - by eapply subscribe_handled.
  - by eapply delete_handled.
  - by eapply update_handled.
  - by eapply watch_handled.
  - by eapply get_handled.
  - by eapply mark_handled.
  - left. split; [|by injection Hrun as <- <-]. by intros [].
Qed.
End theorem.

(** ** Witness *)

Definition auth_request_fields : Fields (JsonRpcRequest AuthMessage).
Proof.
  refine {| to_fields r := [enc (req_id r); req_jsonrpc r; req_method r; auth (req_params r)];
    of_fields l := match l with
      | [a; b; c; d] => a ← dec a; Some (mkJsonRpcRequest a b c {| auth := d |})
      | _ => None end |}; intros [???[]]; cbn -[enc dec]; [by rewrite !dec_enc|done].
Defined.

Definition response_fields {T} (put : T → string) (get : string → T)
    (Hget : ∀ a, get (put a) = a) : Fields (JsonRpcResponse T).
Proof.
  refine {| to_fields r := [enc (resp_id r); resp_jsonrpc r; put (resp_result r)];
    of_fields l := match l with
      | [a; b; c] => a ← dec a; Some (mkJsonRpcResponse a b (get c))
      | _ => None end |}; intros []; cbn -[enc dec]; [by rewrite !dec_enc, Hget|done].
Defined.

Definition response_error_fields : Fields JsonRpcResponseError.
Proof.
  refine {| to_fields r := [enc (err_id r); err_jsonrpc r; enc (code (err_error r)); message (err_error r)];
    of_fields l := match l with
      | [a; b; c; d] => a ← dec a; c ← dec c; Some (mkJsonRpcResponseError a b (mkJsonRpcError c d))
      | _ => None end |}; intros [??[]]; cbn -[enc dec]; [by rewrite !dec_enc|done].
Defined.

Module AnswersInstances.
Import Concrete.Instances JwtInstances EnvInstances MessageInstances Siwx.RecapInstances.
Import IdentityInstances RegistryInstances ServerInstances Totality.TotalInstances.

#[local] Instance auth_request_json : Json (JsonRpcRequest AuthMessage) :=
  fields_json (H := auth_request_fields).
#[local] Instance auth_response_json : Json (JsonRpcResponse AuthMessage) :=
  fields_json (H := response_fields auth (λ s, {| auth := s |}) ltac:(by intros [])).
#[local] Instance response_json : Json (JsonRpcResponse ResponseAuth) :=
  fields_json (H := response_fields response_auth (λ s, {| response_auth := s |}) ltac:(by intros [])).
#[local] Instance response_error_json : Json JsonRpcResponseError :=
  fields_json (H := response_error_fields).

Definition answers_wire : RelayWire.
Proof.
  split; try first [exact auth_request_json|exact auth_response_json|exact response_json
    |exact response_error_json|exact unreadable]; apply _.
Defined.
#[local] Existing Instance answers_wire | 0.
#[local] Instance answers_wire_laws : RelayWireLaws.
Proof. split; apply fields_json_laws. Qed.

#[local] Instance quiet_env : Env := make_env (λ _ _, None) (λ _ _, None).
#[local] Instance quiet_env_laws : EnvLaws.
Proof. apply make_env_laws. Qed.

(** A wallet asks for its notifications with something that is no JWT. *)
Definition asked_text : string :=
  default "" (to_json (mkJsonRpcRequest 7 "2.0" "wc_notifyGetNotifications" {| auth := "no.jwt" |})).
Definition asked_w : RelayIncomingMessage :=
  mkRelayIncomingMessage (topic_from_key notify_key_w)
    (match seal_text nonce_w notify_key_w asked_text with Ok s => s | _ => "" end)
    NOTIFY_GET_NOTIFICATIONS_TAG "id" 0.

Definition asked_run := dispatch link_state_w asked_w (world_w db4_w).

Definition jwt_refused {A} (r : outcome RelayMessageError A) : bool :=
  match r with Err (Relay_Client (RelayJwt _)) => true | _ => false end.

Lemma asked_refused :
  jwt_refused asked_run.1 && (length (w_relay asked_run.2) =? 1)%nat = true.
Proof. vm_compute. reflexivity. Qed.

(** It is told so. *)
Lemma requests_answered_witness :
  ∃ topic key id text e,
    answered topic key NOTIFY_GET_NOTIFICATIONS_RESPONSE_TAG text (world_w db4_w) asked_run.2 ∧
    from_json JsonRpcResponseError (as_bytes text) =
      Some (JsonRpcResponseError_new id (JsonRpcError_from (Relay_Client (RelayJwt e)))).
Proof.
  pose proof (requests_answered link_state_w asked_w (world_w db4_w)) as Ha.
  pose proof asked_refused as Hj.
  change (dispatch link_state_w asked_w (world_w db4_w)) with asked_run in Ha.
  destruct asked_run as [r w']. cbn [fst snd] in *. apply andb_true_iff in Hj as [Hj Hrelay].
  destruct r as [u|[[]|]|]; try discriminate Hj.
  destruct Ha as [(_ & [=] & _)|[[Hsame _]|(k & topic & key & id & Ho & Ha)]].
  - rewrite Hsame in Hrelay. discriminate Hrelay.
  - assert (k = AskGetNotifications) as -> by (destruct Ho as [Ho _]; destruct k; done).
    destruct Ha as [[=]|[(e' & [=] & _)|(text & Ha & Ht)]].
    exists topic, key, id, text, e. exact (conj Ha Ht).
Defined.
End AnswersInstances.
